(* ===== verification/_CoqProject ===== *)
-Q . S2P
Prelude.v
Interleave.v
SharedMap.v
Locks.v
Crates.v
Fixtures.v
Errors.v
Keys.v
Did.v
Suites.v
Aqua.v
Methods.v
DidFormat.v
Principal.v
Message.v
Types.v
Challenge.v
ChallengeCalls.v
SessionBackend.v
Session.v
SessionCalls.v
Wire.v
Signer.v
Client.v
LoginChallenge.v
HttpSigBase.v
HttpSigReplay.v
HttpSig.v
GuardCalls.v
WebauthnPolicy.v
Webauthn.v
WebauthnRecover.v
WebauthnSelect.v
WebauthnHint.v
WebauthnOptions.v
WebauthnStore.v
WebauthnCeremony.v
Directory.v
LocalKey.v
TestSigners.v
WebauthnTestkit.v
Peer.v
PeerCalls.v
PeerLogin.v
Conformance.v
ConformanceNonce.v
ConformanceSignature.v
ConformanceWire.v
ConformanceGate.v
ConformanceLogic.v
ConformancePeer.v
ConformanceForgery.v
ConformanceReference.v
Digests.v
StructuredFields.v
JsonText.v
Testing.v
TestStores.v
TestIdentity.v
TestAqua.v
TestHttpSig.v
TestService.v
TestPasskeys.v
