(* ===== verification/Prelude.v ===== *)
(** * aqua-auth: a verification library for the authentication crate

    aqua-auth logs agents in by decentralised identifiers (DIDs): a service
    hands out a challenge, the agent signs its message, the service turns the
    signature into a principal and a bearer session. The same identities sign
    single HTTP requests (RFC 9421) and log in with passkeys (WebAuthn). This
    library translates the three Rust crates of the repository (src/src,
    src/aqua-auth-directory, src/aqua-auth-testkit) into definitions that
    evaluate, and proves what they promise. Paths below are those of the
    repository: src/X is X of the main crate.

    ** The parts, file by file

    Foundations. [Prelude]: results, panics ([run]), Rust strings as UTF-8
    bytes, orders and selections over lists, the shared tactics. [Interleave]:
    calls on a shared state as trees of atomic accesses and of the guards held
    around them ([Prog]), systems of such calls interleaved access by access,
    and three logics for them. [SharedMap]: the accesses of a DashMap in that
    style, and the bounded map of the stores. [Locks]: the same systems with
    calls that wait for each other's guards, and a discipline under which none
    waits for ever. [Crates]: one class per third-party crate with a class of
    laws stating its documented behaviour. [Fixtures]: concrete instances for
    witnesses and examples. [Errors]: src/auth_error.rs, src/crypto_error.rs.

    Identities. [Keys]: multibase keys and strict Ed25519 (src/key). [Did]:
    the did:pkh parsers and EIP-55 (src/did.rs). [Suites]: CAIP cipher suites
    (src/cipher_suite.rs, src/pkh/eip155.rs, src/key). [Aqua]: did:aqua and
    the ML-DSA-87 gate (src/aqua). [Methods]: the four DID methods and their
    registry (src/did_method.rs and the method files). [DidFormat]:
    src/did_format.rs. [Principal]: src/principal.rs and the verification
    entry points of src/lib.rs. A verifier looks a method up in [Methods],
    which asks [Suites], [Keys] or [Aqua].

    Login. [Message]: src/message.rs. [Types]: src/types.rs. [Challenge]: the
    challenge store (src/challenge.rs). [SessionBackend], [Session]: sessions
    over any lawful backend (src/session_backend.rs, src/session.rs).
    [ChallengeCalls], [SessionCalls]: the methods of the same two stores for
    concurrent callers, every access to a map a step of its own. [Wire]:
    the bodies and their JSON (src/wire.rs). [Signer], [LocalKey]: signers
    (src/signer.rs, src/local_key.rs). [Client]: the login client and its
    retrying session (src/client.rs). [LoginChallenge]:
    src/login_challenge.rs.

    Signed requests. [HttpSigBase], [HttpSigReplay], [HttpSig]: src/http_sig,
    the signature base, the replay guard, signing and verification.
    [GuardCalls]: the guard and the verification for concurrent callers.

    Passkeys. [WebauthnPolicy], [Webauthn], [WebauthnRecover],
    [WebauthnSelect], [WebauthnHint], [WebauthnOptions], [WebauthnStore],
    [WebauthnCeremony]: the files src/webauthn_*.rs of the same names.
    [WebauthnTestkit]: the software passkey (src/webauthn_testkit.rs), against
    the verifier of [WebauthnRecover] and the selection of [WebauthnSelect].

    Services. [Directory]: aqua-auth-directory. [TestSigners]: the six signers
    of aqua-auth-testkit/src/signers.rs. [Peer]: the service AquaPeer of
    aqua-auth-testkit/src/lib.rs, whose handlers compose [Challenge],
    [Principal], [Session], [HttpSig] and [Directory]. [PeerCalls]: all
    six requests served concurrently, from [ChallengeCalls], [SessionCalls]
    and [GuardCalls]. [PeerLogin]: [Client] against [Peer], end to end.

    Conformance (aqua-auth-testkit/src/conformance). [Conformance]: mod.rs and
    http.rs, the gate, the report, the login, runs as computations over the
    world that log the signers they draw, their requests, the redirects these
    are sent on by, and the answers. [ConformanceNonce],
    [ConformanceSignature], [ConformanceWire]: the eighteen cases, verdict
    texts included, and the run. [ConformanceGate]: what a run sends and
    where. [ConformanceLogic]: a program logic for runs over the interface
    [PeerTarget]. [ConformancePeer], [ConformanceForgery]: the cases against
    that interface, the signature cases up to a forgery in the log of the run.
    [ConformanceReference]: the whole suite, and [Peer] as a target.

    The unit tests. [Testing]: a test as a computation over a clock, a source
    of random bytes and the object under test. [TestStores], [TestIdentity],
    [TestAqua], [TestHttpSig], [TestService], [TestPasskeys]: the tests modules
    of the sources, assertion by assertion, each module ending in the example
    that all of its tests pass. They run on [Digests] (SHA-256, Keccak-256),
    [StructuredFields] (RFC 8941) and [JsonText], which read and write the text
    itself, and on stand-in curves. Each file names the tests it leaves out.

    ** How the code is modelled

    A stateful method takes the store and returns it with the result; a
    fallible one returns [result]; one that may panic returns [run]. Clock
    readings and random bytes are arguments, one for each reading the source
    makes, so a theorem holds for every clock and every entropy. Async calls
    to the outside (a signer, a server) thread a [world]. Integers are Z with
    the wrap or the overflow check of the build profile written out; lengths
    are nat. Maps whose iteration order is unspecified are folded over any
    order, and the result is proved not to depend on it.

    A shared map is modelled twice. The sequential definitions change it by
    whole calls; [X]Calls gives the same methods as [Prog]s, where an access to
    a DashMap is one step, a walk of the map (retain, iter) one step for each
    entry in some order, and its length a sum of one reading per shard, for any
    number of shards and any way of spreading the keys ([Shards]). The [Prog]s
    refine the sequential definitions ([challenge_calls_refine],
    [session_calls_refine], [check_alone], [peer_requests_refine]); the theorems
    about runs hold for every interleaving of any number of calls. Those
    interleavings let every call go on at any time. The locks of a DashMap only
    forbid some of them: a [Prog] says which guards it holds over which
    accesses (the reference of [get] and of [iter], for as long as the code
    keeps it), and [locked_step] makes a call wait for a guard that conflicts
    with one held or, for a shared one, with one already waited for. There is
    one lock per map there; the locks of the shards, and the order in which a
    walk takes them, are DashMap's own. The replay guard has a step relation as
    well, [call_step], which records what it forgets.

    Traits are classes or records with laws: session backends, credential
    stores, signers, DID methods, cipher suites. Theorems about a client are
    proved against the class; the in-memory implementations discharge it.

    ** What the theorems show

    - A session names a DID only after that DID signed a challenge made for it:
      [whoami_authentic] for a whole run of the service, from
      [challenge_single_use], [accepted_challenge_issued] and
      [build_message_binds]; [concurrent_no_impostor] and
      [concurrent_one_session] for requests in any interleaving;
      [requests_never_deadlock] that waiting for each other's locks they are
      all answered; [honest_login_succeeds] is the converse, and
      [client_signs_only_bound] the client's side.
    - The stores keep their promises: [session_store_refines_spec] (an abstract
      map), [session_caps_hold], [create_isolates_other_dids],
      [store_full_only_when_live], [revoked_token_is_dead],
      [challenge_store_bounded]; under interleaving [concurrent_single_use],
      [uncreated_session_never_valid] and [session_cap_concurrent], and what
      gives way there: [racing_creates_outgrow_cap],
      [racing_logins_outgrow_quota], [purge_race_panics].
    - Signed requests: [verify_request_sound], [sign_verify_round_trip],
      [signature_base_binds], [verify_replay_refused], and the guard, alone
      ([guard_bounded]) and under interleaving
      ([guard_concurrent_single_use], [concurrent_signature_single_use]).
    - Passkeys: [recovered_assertion_sound], [recovered_login_bound],
      [hints_only_select], [two_prompt_login], [webauthn_assertion_verified],
      [registration_binds], [policy_well_formed], [credential_protected],
      [soft_passkey_login].
    - Codecs and formats: [did_key_round_trip], [hint_gate_reference] (against
      HintBitUnpack of FIPS 204), [client_data_members_once],
      [pending_round_trip], [hint_cookie_round_trip], [validate_refusal_gap],
      [principal_well_formed], [local_signer_authenticates],
      [every_spelling_authenticates], [directory_views_agree].
    - The test harness: [suite_stays_on_target] (but
      [redirect_leaves_target]), and [reference_service_passes], which runs the
      eighteen cases of the conformance suite against the service for every
      world the interface allows; a signature case can only fail in a run whose
      log shows a [forgery], or two signers with one DID ([shared_did]).

    Properties hold up to the laws of the crates; where a hash is involved the
    theorem names the two inputs that would have to collide ([collides]) rather
    than assuming that none do. Unforgeability is nowhere assumed: safety
    theorems say which signature verified under which key. The verifiers read a
    P-256 signature as DER before they read it as [r || s]; where a theorem is
    about a signature written as [r || s], it says that the text is not DER as
    well ([read_back]), or what becomes of it if it is.

    ** Bounds and fuel

    [strip_many] takes the length of its string as fuel and removes at least a
    character at each step. The IPv6 reader of [Conformance] takes the eight
    groups of an address. Every other recursion of the model is structural.
    The fuel in [Fixtures], [PeerLogin] and [StructuredFields] is the length of
    the text read, in [JsonText] twice that, since every two calls read a
    character at least. The two loops of the passkey tests over 256 and 32 keys
    are run on four.

    ** Not modelled

    Sockets, TLS and tasks: bind_loopback and the routing of axum (a request
    reaches a handler taken apart), timeouts, proxies and connection reuse of
    reqwest; its redirects are modelled in the conformance harness only.
    The background sweep of src/session.rs is a list of ticks. Serde, beyond
    the members the derived readers and writers handle. The arithmetic of the
    curves, of ML-DSA and of the hashes, url parsing, structured-field parsing
    and webauthn-rs are parameters of the theorems. A poisoned lock has no
    counterpart. Getters that return a field are projections. The integration
    tests (tests/, aqua-auth-testkit/tests) are not translated.

    ** Next

    The negative controls of the conformance tests (aqua-auth-testkit/tests):
    for each case, a broken service it fails against. *)

From stdpp Require Export base list gmap strings pretty numbers.
From Stdlib Require Strings.Byte.
From Stdlib Require Export (notations) Ascii.
From Stdlib Require Import Ascii Lia.

Abbreviation ascii := Ascii.ascii.
Abbreviation byte := Byte.byte.
Abbreviation bytes := (list Byte.byte).

(** ** Fallible computations: Rust's [Result] and the panics of the language *)

Inductive result (T E : Type) : Type :=
| Ok (t : T)
| Err (e : E).
Arguments Ok {T E} t.
Arguments Err {T E} e.

(** A computation that may panic: slicing off a character boundary, an
    arithmetic overflow in a build with overflow checks, an [expect]. *)
Inductive run (A : Type) : Type :=
| Returned (a : A)
| Panicked.
Arguments Returned {A} a.
Arguments Panicked {A}.

Declare Scope rust_scope.
Delimit Scope rust_scope with rust.
Notation "'let?' x ':=' r 'in' k" :=
  (match r with Ok x => k | Err err_ => Err err_ end)
  (at level 200, x name, r at level 100, k at level 200) : rust_scope.
Notation "'let?' ' p ':=' r 'in' k" :=
  (match r with Ok p => k | Err err_ => Err err_ end)
  (at level 200, p pattern, r at level 100, k at level 200) : rust_scope.
Open Scope rust_scope.

Definition map_err {T E F} (f : E → F) (r : result T E) : result T F :=
  match r with Ok t => Ok t | Err e => Err (f e) end.
Definition map_ok {T U E} (f : T → U) (r : result T E) : result U E :=
  match r with Ok t => Ok (f t) | Err e => Err e end.
Definition ok_or {T E} (o : option T) (e : E) : result T E :=
  match o with Some t => Ok t | None => Err e end.
Definition is_ok {T E} (r : result T E) : bool :=
  match r with Ok _ => true | Err _ => false end.

(** [iter().map(f).collect::<Result<Vec<_>, _>>()]: the first error wins. *)
Fixpoint collect {A B E} (f : A → result B E) (l : list A) : result (list B) E :=
  match l with
  | [] => Ok []
  | a :: l' => let? b := f a in let? bs := collect f l' in Ok (b :: bs)
  end.

(** ** Strings: a Rust [str] is its UTF-8 bytes *)

Fixpoint strip_prefix (p s : string) : option string :=
  match p with
  | EmptyString => Some s
  | String c p' =>
      match s with
      | String d s' => if Ascii.eqb c d then strip_prefix p' s' else None
      | EmptyString => None
      end
  end.
Definition starts_with (p s : string) : bool :=
  match strip_prefix p s with Some _ => true | None => false end.
Definition strip_suffix (p s : string) : option string :=
  String.rev <$> strip_prefix (String.rev p) (String.rev s).
Definition ends_with (p s : string) : bool :=
  match strip_suffix p s with Some _ => true | None => false end.

(** [s.split_once(c)]; [s.find(c)] is its first component's length. *)
Fixpoint split_once (c : ascii) (s : string) : option (string * string) :=
  match s with
  | EmptyString => None
  | String d s' =>
      if Ascii.eqb c d then Some (EmptyString, s')
      else '(a, b) ← split_once c s'; Some (String d a, b)
  end.
(** [s.split_once(sep)] for a non-empty [sep]. *)
Fixpoint split_once_str (sep s : string) : option (string * string) :=
  match strip_prefix sep s with
  | Some r => Some (EmptyString, r)
  | None =>
      match s with
      | EmptyString => None
      | String c s' => '(a, b) ← split_once_str sep s'; Some (String c a, b)
      end
  end.
(** [s.rsplit_once(c)]. *)
Definition rsplit_once (c : ascii) (s : string) : option (string * string) :=
  '(b, a) ← split_once c (String.rev s); Some (String.rev a, String.rev b).

(** [s.split(c)]: never empty. *)
Fixpoint split_on (p : ascii → bool) (s : string) : list string :=
  match s with
  | EmptyString => [EmptyString]
  | String d s' =>
      if p d then EmptyString :: split_on p s'
      else match split_on p s' with
           | [] => [String d EmptyString]
           | w :: ws => String d w :: ws
           end
  end.
Definition split (c : ascii) : string → list string := split_on (Ascii.eqb c).
(** [s.rsplit(c).next()]: the segment after the last [c], or all of [s]. *)
Definition rsplit_next (c : ascii) (s : string) : string :=
  match rsplit_once c s with Some (_, b) => b | None => s end.

Fixpoint str_forallb (p : ascii → bool) (s : string) : bool :=
  match s with
  | EmptyString => true
  | String c s' => p c && str_forallb p s'
  end.
Definition contains_any (cs : list ascii) (s : string) : bool :=
  negb (str_forallb (λ c, negb (existsb (Ascii.eqb c) cs)) s).
Definition str_is_empty (s : string) : bool :=
  match s with EmptyString => true | _ => false end.

(** [str::trim]: the characters with the Unicode property White_Space, as
    their UTF-8 encodings. Both ends are scanned one character at a time; no
    encoding is a suffix of another one, so the byte patterns are exact on
    UTF-8. *)
Definition ws1 (a : ascii) : string := String a EmptyString.
Definition ws2 (a b : ascii) : string := String a (ws1 b).
Definition ws3 (a b c : ascii) : string := String a (ws2 b c).
Definition white_space : list string :=
  [ws1 "009"; ws1 "010"; ws1 "011"; ws1 "012"; ws1 "013"; ws1 " ";
   ws2 "194" "133"; ws2 "194" "160"; ws3 "225" "154" "128";
   ws3 "226" "128" "128"; ws3 "226" "128" "129"; ws3 "226" "128" "130";
   ws3 "226" "128" "131"; ws3 "226" "128" "132"; ws3 "226" "128" "133";
   ws3 "226" "128" "134"; ws3 "226" "128" "135"; ws3 "226" "128" "136";
   ws3 "226" "128" "137"; ws3 "226" "128" "138"; ws3 "226" "128" "168";
   ws3 "226" "128" "169"; ws3 "226" "128" "175"; ws3 "226" "129" "159";
   ws3 "227" "128" "128"]%char.

(** Strip one occurrence of the first pattern that matches, at the front. *)
Fixpoint strip_any (ps : list string) (s : string) : option string :=
  match ps with
  | [] => None
  | p :: ps' =>
      match strip_prefix p s with
      | Some r => Some r
      | None => strip_any ps' s
      end
  end.
(** Strip as long as a pattern matches; [fuel] is the length of the string,
    and every pattern used is non-empty. *)
Fixpoint strip_many (fuel : nat) (ps : list string) (s : string) : string :=
  match fuel with
  | O => s
  | S n => match strip_any ps s with Some r => strip_many n ps r | None => s end
  end.
Definition trim_start_of (ps : list string) (s : string) : string :=
  strip_many (String.length s) ps s.
Definition trim_end_of (ps : list string) (s : string) : string :=
  String.rev (trim_start_of (String.rev <$> ps) (String.rev s)).
Definition trim (s : string) : string :=
  trim_end_of white_space (trim_start_of white_space s).
(** [trim_start_matches(p)] and [trim_end_matches(c)]. *)
Definition trim_start_matches (p s : string) : string := trim_start_of [p] s.
Definition trim_end_matches (c : ascii) (s : string) : string :=
  trim_end_of [ws1 c] s.

(** ** ASCII classes and case *)

Definition code (c : ascii) : N := Ascii.N_of_ascii c.
Definition in_range (lo hi : N) (c : ascii) : bool :=
  (lo <=? code c)%N && (code c <=? hi)%N.
Definition is_digit : ascii → bool := in_range 48 57.
Definition is_upper : ascii → bool := in_range 65 90.
Definition is_lower : ascii → bool := in_range 97 122.
Definition is_alnum (c : ascii) : bool := is_digit c || is_upper c || is_lower c.
Definition is_ascii_char (c : ascii) : bool := (code c <? 128)%N.
Definition is_ascii : string → bool := str_forallb is_ascii_char.
Definition lower_char (c : ascii) : ascii :=
  if is_upper c then Ascii.ascii_of_N (code c + 32) else c.
Definition upper_char (c : ascii) : ascii :=
  if is_lower c then Ascii.ascii_of_N (code c - 32) else c.
Fixpoint str_map (f : ascii → ascii) (s : string) : string :=
  match s with
  | EmptyString => EmptyString
  | String c s' => String (f c) (str_map f s')
  end.
Definition to_lower : string → string := str_map lower_char.

(** ** Slices of a [str]: byte indices, panicking off a character boundary *)

Fixpoint str_take (n : nat) (s : string) : string :=
  match n, s with
  | S n', String c s' => String c (str_take n' s')
  | _, _ => EmptyString
  end.
Fixpoint str_drop (n : nat) (s : string) : string :=
  match n, s with
  | S n', String _ s' => str_drop n' s'
  | _, _ => s
  end.
(** [is_char_boundary]: not in front of a UTF-8 continuation byte. *)
Definition char_boundary (n : nat) (s : string) : bool :=
  (n <=? String.length s) &&
  match str_drop n s with
  | EmptyString => true
  | String c _ => negb (in_range 128 191 c)
  end.
Definition slice_to (n : nat) (s : string) : run string :=
  if char_boundary n s then Returned (str_take n s) else Panicked.
Definition slice_from (n : nat) (s : string) : run string :=
  if char_boundary n s then Returned (str_drop n s) else Panicked.

(** ** Formatting and parsing of numbers *)

Definition show_nat (n : nat) : string := pretty n.
Definition show_Z (z : Z) : string := pretty z.
Definition nl : string := String "010" EmptyString.
Definition quote : string := String "034" EmptyString.
Definition quoted (s : string) : string := quote +:+ s +:+ quote.

(** [{:?}] of a [str]: the escapes of ASCII text; other characters stand for
    themselves. *)
Definition hex_char (n : N) : ascii :=
  if (n <? 10)%N then Ascii.ascii_of_N (n + 48) else Ascii.ascii_of_N (n + 87).
Definition debug_char (c : ascii) : string :=
  let n := Ascii.N_of_ascii c in
  if Ascii.eqb c "009" then "\t" else if Ascii.eqb c "010" then "\n"
  else if Ascii.eqb c "013" then "\r" else if Ascii.eqb c "034" then "\" +:+ quote
  else if Ascii.eqb c "092" then "\\" else if Ascii.eqb c "000" then "\0"
  else if (n <? 16)%N then "\u{" +:+ String (hex_char n) "}"
  else if (n <? 32)%N || (n =? 127)%N then
    "\u{" +:+ String (hex_char (n / 16)) (String (hex_char (n mod 16)) "}")
  else String c EmptyString.
Fixpoint debug_chars (s : string) : string :=
  match s with
  | EmptyString => EmptyString
  | String c s' => debug_char c +:+ debug_chars s'
  end.
Definition debug_str (s : string) : string := quoted (debug_chars s).

(** [chars()] of UTF-8: every byte but a continuation starts a character. *)
Definition continuation (c : ascii) : bool :=
  let n := Ascii.N_of_ascii c in (128 <=? n)%N && (n <? 192)%N.
Fixpoint char_count (s : string) : nat :=
  match s with
  | EmptyString => 0
  | String c s' => if continuation c then char_count s' else S (char_count s')
  end.
(** [chars().take(n).collect()]. *)
Fixpoint char_take (n : nat) (s : string) : string :=
  match s with
  | EmptyString => EmptyString
  | String c s' =>
      if continuation c then String c (char_take n s')
      else match n with O => EmptyString | S n' => String c (char_take n' s') end
  end.
(** [{s:<w$}]. *)
Fixpoint spaces (n : nat) : string :=
  match n with O => EmptyString | S n' => String " " (spaces n') end.
Definition pad_right (w : nat) (s : string) : string := s +:+ spaces (w - char_count s).
(** The longest prefix of [p]s, and the rest. *)
Fixpoint str_span (p : ascii → bool) (s : string) : string * string :=
  match s with
  | EmptyString => (EmptyString, EmptyString)
  | String c s' => if p c then let '(a, b) := str_span p s' in (String c a, b) else (EmptyString, s)
  end.

Fixpoint digits_value (acc : Z) (s : string) : option Z :=
  match s with
  | EmptyString => Some acc
  | String c s' =>
      if is_digit c then digits_value (10 * acc + Z.of_N (code c - 48))%Z s'
      else None
  end.
(** [str::parse::<u16>]: an optional [+], then at least one digit. *)
Definition parse_u16 (s : string) : option Z :=
  let ds := match strip_prefix "+" s with Some r => r | None => s end in
  if str_is_empty ds then None
  else v ← digits_value 0 ds; if (v <=? 65535)%Z then Some v else None.

(** ** Machine integers *)

Definition u64_bound : Z := 2 ^ 64.
Definition i64_max : Z := 2 ^ 63 - 1.
Definition i64_min : Z := - 2 ^ 63.
(** [x as u64] and [x as i64]. *)
Definition as_u64 (z : Z) : Z := (z mod u64_bound)%Z.
Definition as_i64 (z : Z) : Z := ((z + 2 ^ 63) mod u64_bound - 2 ^ 63)%Z.
Definition as_u32 (z : Z) : Z := (z mod 2 ^ 32)%Z.
(** [a + b] on [u64]: a panic with overflow checks, a wrap without. *)
Definition add_u64 (checks : bool) (a b : Z) : run Z :=
  if (a + b <? u64_bound)%Z then Returned (a + b)%Z
  else if checks then Panicked else Returned (as_u64 (a + b)).
(** [a - b] on [u64], in the same way. *)
Definition sub_u64 (checks : bool) (a b : Z) : run Z :=
  if (b <=? a)%Z then Returned (a - b)%Z
  else if checks then Panicked else Returned (as_u64 (a - b)).
Definition saturating_add_i64 (a b : Z) : Z := Z.max i64_min (Z.min i64_max (a + b)).
Definition saturating_sub_u64 (a b : Z) : Z := Z.max 0 (a - b).

(** ** Bytes *)

Definition as_bytes : string → bytes := String.list_byte_of_string.
Definition byte_N (b : byte) : N := Byte.to_N b.
(** [n as u8], for an [n] in range. *)
Definition byte_of (n : N) : byte := default Byte.x00 (Byte.of_N n).
(** [b & mask != 0]. *)
Definition has_flag (b : byte) (mask : N) : bool := negb (N.land (byte_N b) mask =? 0)%N.
Fixpoint bytes_eqb (a b : bytes) : bool :=
  match a, b with
  | [], [] => true
  | x :: a', y :: b' => Byte.eqb x y && bytes_eqb a' b'
  | _, _ => false
  end.
Definition hex_digit (n : N) : ascii :=
  Ascii.ascii_of_N (if n <? 10 then 48 + n else 87 + n)%N.
Definition hex2 (b : byte) : string :=
  String (hex_digit (byte_N b / 16)) (String (hex_digit (byte_N b mod 16)) EmptyString).
(** [{:02x?}] of a byte slice. *)
Definition debug_hex (bs : bytes) : string :=
  "[" +:+ String.concat ", " (hex2 <$> bs) +:+ "]".

(** A [std::time::Duration]. *)
Record Duration := { dur_secs : Z; dur_nanos : Z }.
Definition from_secs (s : Z) : Duration := {| dur_secs := s; dur_nanos := 0 |}.
Definition dur_gtb (a b : Duration) : bool :=
  ((dur_secs b <? dur_secs a) ||
   ((dur_secs a =? dur_secs b) && (dur_nanos b <? dur_nanos a)))%Z.

(** [iter().min_by(cmp)]: the first of the minimal elements. *)
Fixpoint min_by {A} (ltb : A → A → bool) (l : list A) : option A :=
  match l with
  | [] => None
  | a :: l' =>
      match min_by ltb l' with
      | None => Some a
      | Some m => Some (if ltb m a then m else a)
      end
  end.

(** [sort_by(cmp)], stable. *)
Fixpoint sort_insert {A} (ltb : A → A → bool) (a : A) (l : list A) : list A :=
  match l with
  | [] => [a]
  | b :: l' => if ltb b a then b :: sort_insert ltb a l' else a :: b :: l'
  end.
Definition sort_by {A} (ltb : A → A → bool) (l : list A) : list A :=
  foldr (sort_insert ltb) [] l.

(** [a.0.cmp(&b.0).then_with(|| a.1.cmp(&b.1)) == Less]. *)
Definition stamp_ltb (a b : Z * string) : bool :=
  (a.1 <? b.1)%Z || ((a.1 =? b.1)%Z && String.ltb a.2 b.2).

(** ** Automation *)

#[global] Arguments Nat.ltb : simpl never.
#[global] Arguments Nat.leb : simpl never.

Create HintDb rust.
Create Rewrite HintDb str.

(** Equality of closed values, by the virtual machine's conversion (it does not
    normalise the instances the types mention). *)
Ltac vm_refl := match goal with |- _ = ?b => vm_cast_no_check (@eq_refl _ b) end.
(** Split the innermost [let?], [match] or [if] of [H], keeping the
    equations, until [H] is solved or an equation between values. *)
Ltac inv_res H :=
  repeat match type of H with
  | context [match ?x with _ => _ end] =>
      lazymatch x with context [match _ with _ => _ end] => fail | _ => idtac end;
      let E := fresh "E" in destruct x eqn:E; cbn beta iota in H;
      try discriminate H
  end; try discriminate H; simplify_eq.
(** Boolean connectives of the hypotheses, as propositions. *)
Ltac bool_simpl :=
  repeat match goal with
  | H : _ && _ = true |- _ => apply andb_true_iff in H as [? ?]
  | H : _ || _ = false |- _ => apply orb_false_iff in H as [? ?]
  | H : negb _ = true |- _ => apply negb_true_iff in H
  | H : negb _ = false |- _ => apply negb_false_iff in H
  | H : (_ <? _)%Z = true |- _ => apply Z.ltb_lt in H
  | H : (_ <? _)%Z = false |- _ => apply Z.ltb_ge in H
  | H : (_ <=? _)%Z = true |- _ => apply Z.leb_le in H
  | H : (_ <=? _)%Z = false |- _ => apply Z.leb_gt in H
  | H : (_ =? _)%Z = true |- _ => apply Z.eqb_eq in H
  | H : (_ =? _)%Z = false |- _ => apply Z.eqb_neq in H
  | H : (_ <? _)%nat = true |- _ => apply Nat.ltb_lt in H
  | H : (_ <? _)%nat = false |- _ => apply Nat.ltb_ge in H
  | H : (_ <=? _)%nat = true |- _ => apply Nat.leb_le in H
  | H : (_ <=? _)%nat = false |- _ => apply Nat.leb_gt in H
  | H : (_ =? _)%nat = true |- _ => apply Nat.eqb_eq in H
  | H : (_ =? _)%nat = false |- _ => apply Nat.eqb_neq in H
  | H : (_ =? _)%string = true |- _ => apply String.eqb_eq in H
  | H : (_ =? _)%string = false |- _ => apply String.eqb_neq in H
  end.

(** ** Strings *)

Lemma str_app_nil_r s : s +:+ EmptyString = s.
Proof. unfold String.append. induction s; simpl; congruence. Qed.
Lemma str_app_assoc a b c : (a +:+ b) +:+ c = a +:+ b +:+ c.
Proof. unfold String.append. induction a; simpl; congruence. Qed.
Lemma str_app_cons c a b : String c a +:+ b = String c (a +:+ b).
Proof. done. Qed.
Lemma str_app_nil_l b : EmptyString +:+ b = b.
Proof. done. Qed.
#[export] Hint Rewrite str_app_nil_r str_app_nil_l str_app_assoc str_app_cons : str.
Lemma str_length_app a b : String.length (a +:+ b) = String.length a + String.length b.
Proof. induction a; [done|]. rewrite str_app_cons. simpl. by rewrite IHa. Qed.
Lemma str_app_inj_l p a b : p +:+ a = p +:+ b → a = b.
Proof. apply (inj (String.append p)). Qed.
Lemma str_app_inj_len a b c d :
  String.length a = String.length b → a +:+ c = b +:+ d → a = b ∧ c = d.
Proof.
  revert b. induction a as [|x a IH]; intros [|y b] Hl; try done.
  rewrite !str_app_cons. intros [= -> H]. simpl in Hl.
  destruct (IH b) as [-> ->]; [lia|done|done].
Qed.

Lemma rev_app_spec a b : String.rev_app a b = String.rev a +:+ b.
Proof.
  unfold String.rev. revert b. induction a as [|c a IH]; intros b; [done|].
  simpl. rewrite IH, (IH (String c EmptyString)), str_app_assoc. done.
Qed.
Lemma str_rev_cons c s : String.rev (String c s) = String.rev s +:+ String c EmptyString.
Proof. unfold String.rev at 1. simpl. apply rev_app_spec. Qed.
Lemma str_rev_app a b : String.rev (a +:+ b) = String.rev b +:+ String.rev a.
Proof.
  induction a as [|c a IH]; [by rewrite str_app_nil_r|].
  by rewrite str_app_cons, !str_rev_cons, IH, str_app_assoc.
Qed.
Lemma str_rev_involutive s : String.rev (String.rev s) = s.
Proof.
  induction s as [|c s IH]; [done|].
  by rewrite str_rev_cons, str_rev_app, IH.
Qed.
#[export] Hint Rewrite str_rev_cons str_rev_app str_rev_involutive : str.

Lemma strip_prefix_app p s : strip_prefix p (p +:+ s) = Some s.
Proof. induction p; [done|]. rewrite str_app_cons. simpl. by rewrite Ascii.eqb_refl. Qed.
Lemma strip_prefix_Some p s r : strip_prefix p s = Some r → s = p +:+ r.
Proof.
  revert s. induction p as [|c p IH]; intros s; simpl; [by intros [= ->]|].
  destruct s as [|d s]; [done|]. destruct (Ascii.eqb_spec c d); [|done].
  intros H. rewrite str_app_cons. f_equal; auto.
Qed.
Lemma strip_prefix_app_r p q s r :
  strip_prefix p q = Some r → strip_prefix p (q +:+ s) = Some (r +:+ s).
Proof. intros ->%strip_prefix_Some. rewrite str_app_assoc. apply strip_prefix_app. Qed.
Lemma starts_with_spec p s : starts_with p s = true ↔ ∃ r, s = p +:+ r.
Proof.
  unfold starts_with. split.
  - destruct (strip_prefix p s) eqn:E; [|done]. intros _.
    apply strip_prefix_Some in E. eauto.
  - intros [r ->]. by rewrite strip_prefix_app.
Qed.
Lemma strip_suffix_app p s : strip_suffix p (s +:+ p) = Some s.
Proof.
  unfold strip_suffix. rewrite str_rev_app, strip_prefix_app. simpl.
  by rewrite str_rev_involutive.
Qed.
Lemma strip_suffix_Some p s r : strip_suffix p s = Some r → s = r +:+ p.
Proof.
  unfold strip_suffix. destruct (strip_prefix _ _) eqn:E; simpl; [|done].
  intros [= <-]. apply strip_prefix_Some in E.
  apply (f_equal String.rev) in E. rewrite str_rev_app, !str_rev_involutive in E. done.
Qed.
Lemma ends_with_spec p s : ends_with p s = true ↔ ∃ r, s = r +:+ p.
Proof.
  unfold ends_with. split.
  - destruct (strip_suffix p s) eqn:E; [|done]. apply strip_suffix_Some in E. eauto.
  - intros [r ->]. by rewrite strip_suffix_app.
Qed.

Lemma str_forallb_app p a b : str_forallb p (a +:+ b) = str_forallb p a && str_forallb p b.
Proof.
  induction a as [|c a IH]; [done|]. rewrite str_app_cons. simpl. rewrite IH.
  by rewrite andb_assoc.
Qed.
Lemma str_forallb_impl (p q : ascii → bool) s :
  (∀ c, p c = true → q c = true) → str_forallb p s = true → str_forallb q s = true.
Proof.
  intros H. induction s as [|c s IH]; [done|]. simpl. intros Hs. bool_simpl.
  rewrite H, IH by done. done.
Qed.
Lemma str_forallb_rev p s : str_forallb p (String.rev s) = str_forallb p s.
Proof.
  induction s as [|c s IH]; [done|]. rewrite str_rev_cons, str_forallb_app, IH.
  simpl. rewrite andb_true_r. apply andb_comm.
Qed.

(** [c] does not occur in [s]. *)
Definition free_of (c : ascii) (s : string) : bool :=
  str_forallb (λ d, negb (Ascii.eqb c d)) s.

Lemma free_of_app c a b : free_of c (a +:+ b) = free_of c a && free_of c b.
Proof. apply str_forallb_app. Qed.
Lemma strip_prefix_app_None p c d r :
  free_of c p = true → strip_prefix p d = None → strip_prefix p (d +:+ String c r) = None.
Proof.
  unfold free_of. revert d. induction p as [|a p IH]; intros d Hf; [by destruct d|].
  simpl in Hf. bool_simpl. destruct d as [|b d].
  - rewrite str_app_nil_l. simpl. intros _. destruct (Ascii.eqb_spec a c) as [->|]; [|done].
    by rewrite Ascii.eqb_refl in *.
  - rewrite str_app_cons. simpl. destruct (Ascii.eqb a b); [|done]. by apply IH.
Qed.
Lemma split_once_app c a b :
  free_of c a = true → split_once c (a +:+ String c b) = Some (a, b).
Proof.
  unfold free_of. induction a as [|d a IH]; intros H.
  - rewrite str_app_nil_l. simpl. by rewrite Ascii.eqb_refl.
  - rewrite str_app_cons. simpl in *. bool_simpl. by rewrite H, IH.
Qed.
Lemma split_once_Some c s a b :
  split_once c s = Some (a, b) → s = a +:+ String c b ∧ free_of c a = true.
Proof.
  revert a. induction s as [|d s IH]; intros a; simpl; [done|].
  destruct (Ascii.eqb_spec c d) as [->|Hne]; [by intros [= <- <-]|].
  destruct (split_once c s) as [[a' b']|]; simpl; [|done].
  intros [= <- <-]. destruct (IH a') as [-> Hf]; [done|]. split; [done|].
  unfold free_of in *. simpl. rewrite Hf. by destruct (Ascii.eqb_spec c d).
Qed.
Lemma split_once_None c s : split_once c s = None ↔ free_of c s = true.
Proof.
  unfold free_of. induction s as [|d s IH]; simpl; [done|].
  destruct (Ascii.eqb c d); simpl; [done|]. rewrite <- IH.
  by destruct (split_once c s) as [[??]|].
Qed.
Lemma rsplit_once_app c a b :
  free_of c b = true → rsplit_once c (a +:+ String c b) = Some (a, b).
Proof.
  intros H. unfold rsplit_once. rewrite str_rev_app, str_rev_cons, str_app_assoc, str_app_cons, str_app_nil_l.
  rewrite split_once_app by (unfold free_of; by rewrite str_forallb_rev).
  simpl. by rewrite !str_rev_involutive.
Qed.
Lemma rsplit_once_Some c s a b :
  rsplit_once c s = Some (a, b) → s = a +:+ String c b ∧ free_of c b = true.
Proof.
  unfold rsplit_once. destruct (split_once c (String.rev s)) as [[x y]|] eqn:E; [|done].
  simpl. intros [= <- <-]. apply split_once_Some in E as [E Hf].
  apply (f_equal String.rev) in E. autorewrite with str in E. split; [done|].
  unfold free_of in *. by rewrite str_forallb_rev.
Qed.
Lemma rsplit_once_None c s : free_of c s = true → rsplit_once c s = None.
Proof.
  intros H. unfold rsplit_once.
  assert (split_once c (String.rev s) = None) as ->; [|done].
  apply split_once_None. unfold free_of. by rewrite str_forallb_rev.
Qed.
Lemma rsplit_next_app c a b : free_of c b = true → rsplit_next c (a +:+ String c b) = b.
Proof. intros H. unfold rsplit_next. by rewrite rsplit_once_app. Qed.
Lemma rsplit_next_free c s : free_of c s = true → rsplit_next c s = s.
Proof. intros H. unfold rsplit_next. by rewrite rsplit_once_None. Qed.
Lemma rsplit_next_free_of c s : free_of c (rsplit_next c s) = true.
Proof.
  unfold rsplit_next. destruct (rsplit_once c s) as [[a b]|] eqn:E.
  - by apply rsplit_once_Some in E as [_ ?].
  - unfold rsplit_once in E. destruct (split_once _ _) as [[??]|] eqn:E'; [done|].
    apply split_once_None in E'. unfold free_of in *. by rewrite str_forallb_rev in E'.
Qed.

Lemma split_nonempty p s : split_on p s ≠ [].
Proof. destruct s as [|c s]; simpl; [done|]. destruct (p c); [done|]. by case_match. Qed.
Lemma split_app c a b :
  free_of c a = true → split c (a +:+ String c b) = a :: split c b.
Proof.
  unfold free_of, split. induction a as [|d a IH]; intros H.
  - rewrite str_app_nil_l. simpl. by rewrite Ascii.eqb_refl.
  - rewrite str_app_cons. simpl in *. bool_simpl. rewrite H, IH by done. done.
Qed.
Lemma split_on_free p s :
  str_forallb (λ d, negb (p d)) s = true → split_on p s = [s].
Proof.
  induction s as [|d s IH]; intros H; [done|]. simpl in *. bool_simpl.
  rewrite H, IH by done. done.
Qed.
Lemma split_on_app p c a b :
  p c = true → str_forallb (λ d, negb (p d)) a = true →
  split_on p (a +:+ String c b) = a :: split_on p b.
Proof.
  intros Hc. induction a as [|d a IH]; intros H.
  - rewrite str_app_nil_l. simpl. by rewrite Hc.
  - rewrite str_app_cons. simpl in *. bool_simpl. rewrite H, IH by done. done.
Qed.
Lemma split_free c s : free_of c s = true → split c s = [s].
Proof. apply split_on_free. Qed.

(** Visible ASCII: no white space of any kind, no control character. *)
Definition graphic : ascii → bool := in_range 33 126.

Lemma strip_any_graphic c s :
  graphic c = true → strip_any white_space (String c s) = None.
Proof. destruct c as [[] [] [] [] [] [] [] []]; try discriminate; done. Qed.
Lemma strip_any_rev_graphic c s :
  graphic c = true → strip_any (String.rev <$> white_space) (String c s) = None.
Proof. destruct c as [[] [] [] [] [] [] [] []]; try discriminate; done. Qed.
Lemma strip_many_none n ps s : strip_any ps s = None → strip_many n ps s = s.
Proof. destruct n; simpl; [done|]. by intros ->. Qed.
(** A string whose two ends are visible is its own trim. *)
Lemma trim_graphic_ends c d s t :
  graphic c = true → graphic d = true → String c s = t +:+ String d EmptyString →
  trim (String c s) = String c s.
Proof.
  intros Hc Hd Heq. unfold trim, trim_start_of.
  rewrite strip_many_none by by apply strip_any_graphic.
  unfold trim_end_of, trim_start_of. rewrite Heq, str_rev_app, str_rev_cons.
  rewrite str_app_nil_l, str_app_cons, str_app_nil_l.
  rewrite strip_many_none by by apply strip_any_rev_graphic.
  by rewrite str_rev_cons, str_rev_involutive.
Qed.
Lemma str_last c s : ∃ t d, String c s = t +:+ String d EmptyString ∧
  ∀ p, str_forallb p (String c s) = true → p d = true.
Proof.
  revert c. induction s as [|e s IH]; intros c.
  - exists EmptyString, c. split; [done|]. intros p. simpl. by rewrite andb_true_r.
  - destruct (IH e) as (t & d & Heq & Hp). exists (String c t), d.
    rewrite str_app_cons, Heq. split; [done|]. intros p. rewrite <- Heq.
    intros [_ H]%andb_true_iff. by apply Hp.
Qed.
Lemma trim_graphic s : str_forallb graphic s = true → trim s = s.
Proof.
  destruct s as [|c s]; [done|]. intros H.
  destruct (str_last c s) as (t & d & Heq & Hd).
  eapply trim_graphic_ends; [|by apply Hd|done]. simpl in H. by bool_simpl.
Qed.
Lemma trim_space_graphic s : str_forallb graphic s = true →
  trim (" " +:+ s) = s.
Proof.
  intros Hg. rewrite <- (trim_graphic s Hg) at 2. unfold trim. f_equal.
Qed.
(** Trimming a trailing character that is not there. *)
Lemma trim_end_matches_free c s :
  match String.rev s with String d _ => negb (Ascii.eqb c d) | _ => true end = true →
  trim_end_matches c s = s.
Proof.
  intros H. unfold trim_end_matches, trim_end_of, trim_start_of.
  rewrite strip_many_none; [apply str_rev_involutive|].
  destruct (String.rev s) as [|d t]; [done|].
  cbn. destruct (Ascii.eqb c d); done.
Qed.
Lemma free_of_rev_head c s :
  free_of c s = true →
  match String.rev s with String d _ => negb (Ascii.eqb c d) | _ => true end = true.
Proof.
  unfold free_of. rewrite <- str_forallb_rev. destruct (String.rev s); [done|].
  simpl. intros H. by bool_simpl; rewrite H.
Qed.
Lemma trim_end_matches_none c s : free_of c s = true → trim_end_matches c s = s.
Proof. intros Hs. by apply trim_end_matches_free, free_of_rev_head. Qed.
Lemma trim_end_matches_app c a b : free_of c b = true → str_is_empty b = false →
  trim_end_matches c (a +:+ b) = a +:+ b.
Proof.
  intros Hf He. apply trim_end_matches_free. rewrite str_rev_app.
  pose proof (free_of_rev_head c b Hf) as Hh. destruct (String.rev b) eqn:E; [|done].
  apply (f_equal String.rev) in E. rewrite str_rev_involutive in E. by subst b.
Qed.
Lemma free_of_graphic c s :
  graphic c = false → str_forallb graphic s = true → free_of c s = true.
Proof.
  intros Hc. apply str_forallb_impl. intros d Hd.
  destruct (Ascii.eqb_spec c d); [congruence|done].
Qed.

(** ** Lowercasing *)

Lemma lower_char_idem c : lower_char (lower_char c) = lower_char c.
Proof. by destruct c as [[] [] [] [] [] [] [] []]. Qed.
Lemma to_lower_idem s : to_lower (to_lower s) = to_lower s.
Proof. unfold to_lower. induction s as [|c s IH]; cbn; [done|]. by rewrite lower_char_idem, IH. Qed.
Lemma to_lower_app a b : to_lower (a +:+ b) = to_lower a +:+ to_lower b.
Proof.
  unfold to_lower. induction a as [|c a IH]; [done|]. rewrite !str_app_cons. cbn.
  rewrite str_app_cons. by rewrite IH.
Qed.
(** A character that is no lower-case letter is not made by lowercasing. *)
Lemma lower_char_other c d : is_lower c = false → lower_char d = c → d = c.
Proof.
  intros Hc. unfold lower_char. destruct (is_upper d) eqn:Hu; [|done]. intros <-.
  exfalso. revert Hc. by destruct d as [[] [] [] [] [] [] [] []].
Qed.
Lemma free_of_lower c s : is_lower c = false → free_of c s = true → free_of c (to_lower s) = true.
Proof.
  intros Hc. unfold free_of, to_lower. induction s as [|d s IH]; cbn; [done|].
  intros Hs. bool_simpl. rewrite IH by done. rewrite andb_true_r.
  apply negb_true_iff. destruct (Ascii.eqb_spec c (lower_char d)) as [->|]; [|done].
  pose proof (lower_char_other _ d Hc eq_refl) as Hd. rewrite <- Hd in *.
  by rewrite Ascii.eqb_refl in *.
Qed.
Lemma free_of_digits c s : is_digit c = false → str_forallb is_digit s = true → free_of c s = true.
Proof.
  intros Hc. apply str_forallb_impl. intros d Hd.
  destruct (Ascii.eqb_spec c d); [congruence|done].
Qed.

Lemma str_forallb_cons p c s : str_forallb p (String c s) = p c && str_forallb p s.
Proof. done. Qed.
(** A text whose pieces between [c]s are not empty does not end in [c]. *)
Lemma split_on_snoc p c a : p c = true →
  split_on p (a +:+ String c EmptyString) = split_on p a ++ [EmptyString].
Proof.
  intros Hc. induction a as [|d a IH]; [rewrite str_app_nil_l; cbn; by rewrite Hc|]. rewrite str_app_cons.
  cbn [split_on]. rewrite IH. destruct (p d); [done|].
  pose proof (split_nonempty p a). by destruct (split_on p a).
Qed.
Lemma split_rev_head c s : existsb str_is_empty (split c s) = false →
  match String.rev s with String d _ => negb (Ascii.eqb c d) | _ => true end = true.
Proof.
  intros Hs. destruct (String.rev s) as [|d t] eqn:E; [done|].
  destruct (Ascii.eqb_spec c d) as [<-|]; [|done]. exfalso.
  assert (s = String.rev t +:+ String c EmptyString) as ->
    by by rewrite <- str_rev_cons, <- E, str_rev_involutive.
  unfold split in Hs. rewrite split_on_snoc, existsb_app in Hs by apply Ascii.eqb_refl.
  by rewrite orb_true_r in Hs.
Qed.

(** ** Lists, bytes and integers *)

Lemma bytes_eqb_eq a b : bytes_eqb a b = true ↔ a = b.
Proof.
  revert b. induction a as [|x a IH]; intros [|y b]; simpl; try done.
  rewrite andb_true_iff, IH. split.
  - intros [H ->]. apply Byte.byte_dec_bl in H. congruence.
  - intros [= -> ->]. split; [by apply Byte.byte_dec_lb|done].
Qed.
#[export] Instance byte_eq_dec : EqDecision byte := Byte.byte_eq_dec.
#[export] Instance byte_countable : Countable byte.
Proof. apply (inj_countable byte_N Byte.of_N). intros b. apply Byte.of_to_N. Defined.
Lemma bytes_eqb_refl a : bytes_eqb a a = true.
Proof. by apply bytes_eqb_eq. Qed.
Lemma as_bytes_inj a b : as_bytes a = as_bytes b → a = b.
Proof.
  unfold as_bytes. intros H%(f_equal String.string_of_list_byte).
  by rewrite !String.string_of_list_byte_of_string in H.
Qed.
Lemma as_bytes_app a b : as_bytes (a +:+ b) = as_bytes a ++ as_bytes b.
Proof.
  unfold as_bytes, String.list_byte_of_string. induction a as [|c a IH]; [done|].
  rewrite str_app_cons. simpl. by rewrite IH.
Qed.
Lemma as_bytes_length s : length (as_bytes s) = String.length s.
Proof.
  unfold as_bytes, String.list_byte_of_string. induction s; simpl; congruence.
Qed.
Lemma byte_of_N b : byte_of (byte_N b) = b.
Proof. unfold byte_of, byte_N. by rewrite Byte.of_to_N. Qed.
Lemma byte_N_of n : (n < 256)%N → byte_N (byte_of n) = n.
Proof.
  intros Hn. unfold byte_of, byte_N. destruct (Byte.of_N n) eqn:E.
  - by apply Byte.to_of_N in E.
  - apply Byte.of_N_None_iff in E. lia.
Qed.
Lemma byte_N_bound b : (byte_N b < 256)%N.
Proof. unfold byte_N. pose proof (Byte.to_N_bounded b). lia. Qed.

Section min_by.
Context {A : Type} (ltb : A → A → bool).

Lemma min_by_elem (l : list A) m : min_by ltb l = Some m → m ∈ l.
Proof.
  revert m. induction l as [|a l IH]; intros m; simpl; [done|].
  destruct (min_by ltb l) as [m'|]; [|intros [= <-]; left].
  intros [= <-]. destruct (ltb m' a); [right; auto|left].
Qed.
Lemma min_by_is_Some (l : list A) : l ≠ [] → is_Some (min_by ltb l).
Proof. destruct l; [done|]. simpl. destruct (min_by ltb l); eauto. Qed.
Lemma head_sort_by (l : list A) : head (sort_by ltb l) = min_by ltb l.
Proof.
  induction l as [|a l IH]; [done|]. cbn. rewrite <- IH.
  destruct (foldr (sort_insert ltb) [] l) as [|b l'] eqn:E; unfold sort_by; rewrite E; [done|].
  cbn. by destruct (ltb b a).
Qed.
Lemma min_by_least (l : list A) m :
  (∀ a b c, ltb a b = false → ltb b c = false → ltb a c = false) →
  (∀ a b, ltb a b = true → ltb b a = false) →
  min_by ltb l = Some m → ∀ a, a ∈ l → ltb a m = false.
Proof.
  intros Ht Has. revert m. induction l as [|b l IH]; intros m; simpl; [done|].
  destruct (min_by ltb l) as [m'|] eqn:Em.
  - intros [= <-] a [->|Ha]%elem_of_cons; destruct (ltb m' b) eqn:E; auto.
    + by destruct (ltb b b) eqn:Eb; [pose proof (Has _ _ Eb); congruence|].
    + eapply Ht; [|done]. by apply IH.
  - intros [= <-] a [->|Ha]%elem_of_cons.
    + by destruct (ltb b b) eqn:Eb; [pose proof (Has _ _ Eb); congruence|].
    + destruct l; [by apply not_elem_of_nil in Ha|].
      by destruct (min_by_is_Some (a0 :: l)) as [? ?]; [|congruence].
Qed.
End min_by.

(** The minimum does not depend on the order of the list, when the order only
    ties equal elements. *)
Lemma min_by_perm {A} (ltb : A → A → bool) (l l' : list A) :
  (∀ a b c, ltb a b = false → ltb b c = false → ltb a c = false) →
  (∀ a b, ltb a b = true → ltb b a = false) →
  (∀ a b, a ∈ l → b ∈ l → ltb a b = false → ltb b a = false → a = b) →
  l ≡ₚ l' → min_by ltb l = min_by ltb l'.
Proof.
  intros Ht Has Htie Hp.
  destruct (decide (l = [])) as [->|Hne]; [by apply Permutation_nil in Hp as ->|].
  assert (l' ≠ []) as Hne' by (intros ->; by apply Permutation_sym, Permutation_nil in Hp).
  destruct (min_by_is_Some ltb l Hne) as [m Hm], (min_by_is_Some ltb l' Hne') as [m' Hm'].
  rewrite Hm, Hm'. f_equal.
  pose proof (min_by_elem _ _ _ Hm). pose proof (min_by_elem _ _ _ Hm') as Hin'.
  apply Htie; [done|by rewrite Hp| |].
  - eapply min_by_least; [done..|]. by rewrite <- Hp.
  - eapply min_by_least; [done..|]. by rewrite Hp.
Qed.

(** [str]'s order: byte-wise lexicographic. *)
Lemma str_ltb_asym a b : String.ltb a b = true → String.ltb b a = false.
Proof. unfold String.ltb. rewrite String.compare_antisym. by destruct (String.compare b a). Qed.
Lemma str_ltb_tie a b : String.ltb a b = false → String.ltb b a = false → a = b.
Proof.
  unfold String.ltb. rewrite (String.compare_antisym b a).
  destruct (String.compare a b) eqn:E; try done. intros _ _. by apply String.compare_eq_iff.
Qed.
Lemma ascii_compare_refl c : Ascii.compare c c = Eq.
Proof. apply N.compare_refl. Qed.
Lemma str_ge_trans a b c :
  String.ltb a b = false → String.ltb b c = false → String.ltb a c = false.
Proof.
  unfold String.ltb. revert b c. induction a as [|x a IH]; intros [|y b] [|z c]; cbn; try done.
  destruct (Ascii.compare x y) eqn:Exy; try done.
  - apply Ascii.compare_eq_iff in Exy as ->. destruct (Ascii.compare y z); try done. apply IH.
  - destruct (Ascii.compare y z) eqn:Eyz; try done.
    + apply Ascii.compare_eq_iff in Eyz as ->. by rewrite Exy.
    + unfold Ascii.compare in *. rewrite N.compare_gt_iff in Exy, Eyz.
      assert (N.compare (N_of_ascii x) (N_of_ascii z) = Gt) as ->
        by (apply N.compare_gt_iff; lia). done.
Qed.

Lemma stamp_ltb_false a b :
  stamp_ltb a b = false ↔ (b.1 < a.1)%Z ∨ (b.1 = a.1 ∧ String.ltb a.2 b.2 = false).
Proof.
  unfold stamp_ltb. rewrite orb_false_iff, andb_false_iff, Z.ltb_ge, Z.eqb_neq.
  split; [|intuition lia]. intros [Hle [Hne|Hs]]; [left; lia|].
  destruct (Z.eq_dec b.1 a.1); [auto|left; lia].
Qed.
Lemma stamp_ltb_asym a b : stamp_ltb a b = true → stamp_ltb b a = false.
Proof.
  unfold stamp_ltb. intros Hab. apply stamp_ltb_false.
  apply orb_true_iff in Hab as [Hlt|Heq]; [left; lia|].
  apply andb_true_iff in Heq as [He Hs]. right. split; [lia|]. by apply str_ltb_asym.
Qed.
Lemma stamp_ltb_trans a b c :
  stamp_ltb a b = false → stamp_ltb b c = false → stamp_ltb a c = false.
Proof.
  rewrite !stamp_ltb_false. intros [?|[? ?]] [?|[? ?]]; try (left; lia).
  right. split; [lia|]. eauto using str_ge_trans.
Qed.
Lemma stamp_ltb_tie a b : stamp_ltb a b = false → stamp_ltb b a = false → a = b.
Proof.
  destruct a as [x s], b as [y t]. rewrite !stamp_ltb_false. cbn [fst snd].
  intros [?|[? ?]] [?|[? ?]]; try lia. f_equal; [lia|by apply str_ltb_tie].
Qed.

(** ** Maps keyed by strings, as lists and after deletions *)

Lemma map_to_list_filter_perm {A} (m : gmap string A) (P : string * A → Prop)
    `{!∀ x, Decision (P x)} :
  map_to_list (filter P m) ≡ₚ filter P (map_to_list m).
Proof.
  apply NoDup_Permutation.
  - apply NoDup_map_to_list.
  - apply list.NoDup_filter, NoDup_map_to_list.
  - intros [k a]. rewrite list_elem_of_filter, !elem_of_map_to_list, map_lookup_filter_Some.
    tauto.
Qed.
Lemma filter_snd {K A} (P : A → Prop) `{!∀ x, Decision (P x)} (l : list (K * A)) :
  (filter (λ ka, P ka.2) l).*2 = filter P l.*2.
Proof.
  induction l as [|[k a] l IH]; [done|]. cbn [fmap list_fmap]. rewrite !filter_cons. cbn [snd].
  case_decide; [|done]. cbn. by f_equal.
Qed.
Lemma sum_insert {A} (f : A → nat) l i x y : l !! i = Some x →
  list_sum (map f (<[i:=y]> l)) + f x = list_sum (map f l) + f y.
Proof.
  revert i. induction l as [|a l IH]; intros [|i]; [done|done| |].
  - intros [= ->]. cbn. lia.
  - intros Hi. specialize (IH i Hi). change (<[S i:=y]> (a :: l)) with (a :: <[i:=y]> l).
    cbn [map list_sum foldr] in *. unfold list_sum in *. cbn [foldr]. lia.
Qed.
Lemma size_insert_le {A} (m : gmap string A) k a : size (<[k:=a]> m) ≤ S (size m).
Proof. rewrite map_size_insert. destruct (m !! k); cbn; lia. Qed.
Lemma foldl_delete_lookup {A} (m : gmap string A) ts k :
  foldl (λ m t, delete t m) m ts !! k = if decide (k ∈ ts) then None else m !! k.
Proof.
  revert m. induction ts as [|t ts IH]; intros m; cbn [foldl].
  - by rewrite decide_False by apply not_elem_of_nil.
  - rewrite IH. destruct (decide (k ∈ ts)) as [Hin|Hn].
    + rewrite decide_True; [done|by right].
    + destruct (decide (k = t)) as [->|Hne].
      * rewrite decide_True by left. apply lookup_delete_eq.
      * rewrite decide_False by (by apply not_elem_of_cons). by apply lookup_delete_ne.
Qed.

Lemma collect_Ok {A B E} (f : A → result B E) l bs :
  collect f l = Ok bs ↔ Forall2 (λ a b, f a = Ok b) l bs.
Proof.
  revert bs. induction l as [|a l IH]; intros bs; simpl.
  - split; [intros [= <-]; constructor|by inversion 1].
  - split.
    + intros H. inv_res H. subst. constructor; [done|]. by apply IH.
    + inversion 1 as [|? b ? bs' Hab Hl]; subst. rewrite Hab.
      apply IH in Hl. by rewrite Hl.
Qed.
Lemma collect_Err {A B E} (f : A → result B E) l e :
  collect f l = Err e → ∃ a, a ∈ l ∧ f a = Err e.
Proof.
  induction l as [|a l IH]; simpl; [done|]. destruct (f a) eqn:Ef.
  - destruct (collect f l); [done|]. intros H. destruct IH as (x & ? & ?); [done|].
    exists x. by split; [right|].
  - intros [= <-]. exists a. by split; [left|].
Qed.

(** ** Decimal numbers *)

Lemma pretty_char_digit x : (x < 10)%N →
  is_digit (pretty_N_char x) = true ∧ Z.of_N (code (pretty_N_char x) - 48) = Z.of_N x.
Proof.
  intros Hx. assert (x = 0 ∨ x = 1 ∨ x = 2 ∨ x = 3 ∨ x = 4 ∨ x = 5 ∨ x = 6 ∨ x = 7 ∨ x = 8
    ∨ x = 9)%N as Hc by lia.
  by repeat destruct Hc as [->|Hc]; [..|subst x].
Qed.
Lemma pretty_go_value x s : digits_value 0 (pretty_N_go x s) = digits_value (Z.of_N x) s.
Proof.
  revert s. induction (N.lt_wf_0 x) as [x _ IH]; intros s.
  destruct (N.eq_0_gt_0_cases x) as [->|Hx]; [done|].
  rewrite pretty_N_go_step, IH by (done || by apply N.div_lt).
  destruct (pretty_char_digit (x mod 10)) as [Hd Hv]; [by apply N.mod_lt|].
  cbn [digits_value]. rewrite Hd, Hv. f_equal.
  pose proof (N.div_mod x 10 ltac:(done)). lia.
Qed.
Lemma pretty_go_digits x s :
  str_forallb is_digit (pretty_N_go x s) = str_forallb is_digit s.
Proof.
  revert s. induction (N.lt_wf_0 x) as [x _ IH]; intros s.
  destruct (N.eq_0_gt_0_cases x) as [->|Hx]; [done|].
  rewrite pretty_N_go_step, IH by (done || by apply N.div_lt).
  cbn [str_forallb]. destruct (pretty_char_digit (x mod 10)) as [-> _]; [by apply N.mod_lt|done].
Qed.
Lemma show_Z_digits z : (0 ≤ z)%Z → str_forallb is_digit (show_Z z) = true.
Proof.
  intros Hz. destruct z as [|p|p]; [done| |lia].
  change (show_Z (Z.pos p)) with (pretty (N.pos p)). unfold pretty, pretty_N.
  case_decide; [done|]. by rewrite pretty_go_digits.
Qed.
Lemma show_Z_value z : (0 ≤ z)%Z → digits_value 0 (show_Z z) = Some z.
Proof.
  intros Hz. destruct z as [|p|p]; [done| |lia].
  change (show_Z (Z.pos p)) with (pretty (N.pos p)). unfold pretty, pretty_N.
  case_decide; [done|]. by rewrite pretty_go_value.
Qed.
Lemma show_Z_nonempty z : (0 ≤ z)%Z → str_is_empty (show_Z z) = false.
Proof.
  intros Hz. pose proof (show_Z_value z Hz) as Hv. destruct (show_Z z) eqn:E; [|done].
  injection Hv as <-. discriminate E.
Qed.
Lemma show_Z_no_minus z : (0 ≤ z)%Z → strip_prefix "-" (show_Z z) = None.
Proof.
  intros Hz. pose proof (show_Z_digits z Hz) as Hd. destruct (show_Z z) as [|c s]; [done|].
  cbn in Hd. apply andb_true_iff in Hd as [Hc _].
  unfold strip_prefix. destruct (Ascii.eqb "-" c) eqn:E; [|done].
  apply Ascii.eqb_eq in E as <-. discriminate Hc.
Qed.
Lemma show_Z_minus z : (z < 0)%Z → show_Z z = "-" +:+ show_Z (- z).
Proof. intros Hz. by destruct z. Qed.
Lemma parse_u16_show z : (0 ≤ z ≤ 65535)%Z → parse_u16 (show_Z z) = Some z.
Proof.
  intros Hz. pose proof (show_Z_value z ltac:(lia)) as Hv.
  pose proof (show_Z_digits z ltac:(lia)) as Hd. unfold parse_u16.
  assert (strip_prefix "+" (show_Z z) = None) as ->.
  { destruct (strip_prefix "+" (show_Z z)) as [r|] eqn:E; [|done].
    apply strip_prefix_Some in E. by rewrite E in Hd. }
  assert (str_is_empty (show_Z z) = false) as ->.
  { apply show_Z_nonempty. lia. }
  rewrite Hv. cbn. by rewrite (proj2 (Z.leb_le _ _)) by lia.
Qed.
Lemma parse_u16_bound s z : parse_u16 s = Some z → (z ≤ 65535)%Z.
Proof.
  unfold parse_u16. destruct (str_is_empty _); [done|].
  destruct (digits_value 0 _) as [v|]; [|done]. cbn.
  destruct (_ <=? _)%Z eqn:E; [|done]. intros [= <-]. by bool_simpl.
Qed.
Lemma digits_value_nonneg s a z : (0 ≤ a)%Z → digits_value a s = Some z → (0 ≤ z)%Z.
Proof.
  revert a. induction s as [|c s IH]; intros a Ha; cbn; [by intros [= <-]|].
  destruct (is_digit c); [|done]. apply IH. lia.
Qed.
Lemma parse_u16_range s z : parse_u16 s = Some z → (0 ≤ z ≤ 65535)%Z.
Proof.
  intros Hp. split; [|by eapply parse_u16_bound]. unfold parse_u16 in Hp.
  destruct (str_is_empty _); [done|].
  destruct (digits_value 0 _) as [v|] eqn:E; [|done]. cbn in Hp.
  destruct (_ <=? _)%Z; [|done]. injection Hp as <-. by eapply digits_value_nonneg.
Qed.

Lemma as_u64_small z : (0 ≤ z < u64_bound)%Z → as_u64 z = z.
Proof. intros H. by apply Z.mod_small. Qed.
Lemma as_i64_small z : (i64_min ≤ z ≤ i64_max)%Z → as_i64 z = z.
Proof.
  unfold as_i64, i64_min, i64_max, u64_bound. intros H.
  rewrite Z.mod_small; lia.
Qed.
Lemma as_i64_bounds z : (i64_min ≤ as_i64 z ≤ i64_max)%Z.
Proof.
  unfold as_i64, i64_min, i64_max.
  pose proof (Z.mod_pos_bound (z + 2 ^ 63) u64_bound).
  unfold u64_bound in *. lia.
Qed.
Lemma sub_u64_small checks a b : (b ≤ a)%Z → sub_u64 checks a b = Returned (a - b)%Z.
Proof. intros H. unfold sub_u64. apply Z.leb_le in H. by rewrite H. Qed.
Lemma add_u64_small checks a b :
  (a + b < u64_bound)%Z → add_u64 checks a b = Returned (a + b)%Z.
Proof. intros H. unfold add_u64. apply Z.ltb_lt in H. by rewrite H. Qed.

(** Prefixes of open strings stay folded; [vm_compute] still evaluates them. *)
#[global] Arguments strip_prefix : simpl never.
