(* ===== verification/Interleave.v ===== *)
(** * Calls that share a map: the concurrent reading of the stores

    src/challenge.rs and src/session_backend.rs keep their state in a
    [DashMap] that any number of threads access. [Prog] is the code of one call
    as a tree of atomic accesses to the shared state, and of the guards it takes
    and drops around them, in monadic style; [sys_step] interleaves calls one
    access at a time, whatever guards they hold (file Locks makes them wait).
    [alone] is the
    same call when nothing interferes, [paying] a logic for its accesses under
    interference, and [sys_invariant] and [accounting] carry what the calls pay
    for to every reachable state of a system of calls. [keeps] is the simpler
    logic of an invariant of the state. *)

From S2P Require Import Prelude.
From stdpp Require Export relations.

(** ** The code of one call *)

(** A guard on the lock of a map, the one of that number in the state: shared as
    a [Ref] holds it, exclusive as a [RefMut] does. It is taken and dropped, or
    needed for the next access only. *)
Inductive Mode : Type := Shared | Exclusive.
#[export] Instance Mode_eq_dec : EqDecision Mode.
Proof. solve_decision. Defined.
Abbreviation guard := (Mode * nat)%type.
Inductive GuardEvent : Type := Take (g : guard) | Drop (g : guard) | Brief (g : guard).
Inductive Prog (St R : Type) : Type :=
| Ret (r : R)
| Atomic {A : Type} (f : St → St * A) (k : A → Prog St R)
| Choose {A : Type} (may : St → A → Prop) (k : A → Prog St R)
| Guard (e : GuardEvent) (k : Prog St R).
Arguments Ret {St R} r.
Arguments Atomic {St R A} f k.
Arguments Choose {St R A} may k.
Arguments Guard {St R} e k.

Fixpoint prog_bind {St A B} (f : A → Prog St B) (p : Prog St A) : Prog St B :=
  match p with
  | Ret a => f a
  | Atomic g k => Atomic g (λ x, prog_bind f (k x))
  | Choose may k => Choose may (λ x, prog_bind f (k x))
  | Guard e k => Guard e (prog_bind f k)
  end.
#[export] Instance prog_mret {St} : MRet (Prog St) := λ A, Ret.
#[export] Instance prog_mbind {St} : MBind (Prog St) := λ A B, prog_bind.
Definition atomic {St A} (f : St → St * A) : Prog St A := Atomic f Ret.
Definition choose {St A} (may : St → A → Prop) : Prog St A := Choose may Ret.
(** One access, and what is done while a guard on the map is held. *)
Definition brief {St A} (m : Mode) (f : St → St * A) : Prog St A :=
  Guard (Brief (m, 0)) (atomic f).
Definition under {St A} (m : Mode) (p : Prog St A) : Prog St A :=
  Guard (Take (m, 0)) (a ← p; Guard (Drop (m, 0)) (Ret a)).
(** A loop over a list that is known when it starts. *)
Fixpoint for_each {St K} (body : K → Prog St unit) (ks : list K) : Prog St unit :=
  match ks with
  | [] => Ret tt
  | k :: ks' => body k ;; for_each body ks'
  end.
Fixpoint filter_each {St K A} (body : K → Prog St (option A)) (ks : list K)
  : Prog St (list A) :=
  match ks with
  | [] => Ret []
  | k :: ks' =>
      o ← body k;
      l ← filter_each body ks';
      Ret (match o with Some a => a :: l | None => l end)
  end.

(** ** One access, and a system of calls *)

Definition prog_step {St R} (s : St) (p : Prog St R) (s' : St) (p' : Prog St R) : Prop :=
  match p with
  | Ret _ => False
  | Atomic f k => s' = (f s).1 ∧ p' = k (f s).2
  | Choose may k => ∃ a, may s a ∧ s' = s ∧ p' = k a
  | Guard _ k => s' = s ∧ p' = k
  end.
Inductive prog_steps {St R} : St → Prog St R → St → Prog St R → Prop :=
| StepsDone s p : prog_steps s p s p
| StepsThen s p s1 p1 s2 p2 :
    prog_step s p s1 p1 → prog_steps s1 p1 s2 p2 → prog_steps s p s2 p2.

Abbreviation config St R := (St * list (Prog St R))%type.
(** A call of [calls] starts, or one of those under way makes an access. *)
Inductive sys_step {St R} (calls : Prog St R → Prop) : config St R → config St R → Prop :=
| CallStarts s ps p : calls p → sys_step calls (s, ps) (s, ps ++ [p])
| CallSteps s ps i p s' p' : ps !! i = Some p → prog_step s p s' p' →
    sys_step calls (s, ps) (s', <[i := p']> ps).
Definition finished {St R} (p : Prog St R) : option R :=
  match p with Ret r => Some r | _ => None end.
(** What the calls that are over returned, and how many are not over. *)
Definition results {St R} (ps : list (Prog St R)) : list R := omap finished ps.
Definition in_flight {St R} (ps : list (Prog St R)) : nat :=
  length (filter (λ p, finished p = None) ps).
(** Runs, and runs with at most [k] calls under way at any time. *)
Definition sys_run {St R} (calls : Prog St R → Prop) : relation (config St R) :=
  rtc (sys_step calls).
Definition sys_run_within {St R} (calls : Prog St R → Prop) (k : nat) : relation (config St R) :=
  rtc (λ c c', sys_step calls c c' ∧ in_flight c'.2 ≤ k).

(** A call that nothing interferes with: it returns whatever the choices, and
    what it returns and leaves satisfies [Q]. *)
Fixpoint alone {St R} (p : Prog St R) (s : St) (Q : St → R → Prop) : Prop :=
  match p with
  | Ret r => Q s r
  | Atomic f k => alone (k (f s).2) (f s).1 Q
  | Choose may k => (∃ a, may s a) ∧ ∀ a, may s a → alone (k a) s Q
  | Guard _ k => alone k s Q
  end.

(** A call under interference: the state may be any at each access. [pay s g
    s' g'] allows an access that takes the state from [s] to [s'] when the
    call's own ghost value goes from [g] to [g']; a call under way [hold]s its
    ghost value. *)
Section paying.
Context {St G : Type} (hold : G → Prop) (pay : St → G → St → G → Prop).
Fixpoint paying {R} (p : Prog St R) (Q : R → G → Prop) (g : G) : Prop :=
  match p with
  | Ret r => Q r g
  | Atomic f k => hold g ∧ ∀ s, ∃ g', pay s g (f s).1 g' ∧ paying (k (f s).2) Q g'
  | Choose may k => hold g ∧ ∀ s a, may s a → ∃ g', pay s g s g' ∧ paying (k a) Q g'
  | Guard _ k => hold g ∧ ∀ s, ∃ g', pay s g s g' ∧ paying k Q g'
  end.
End paying.

(** A call under interference that keeps [I], when everyone else does: what it
    returns satisfies [Q]. *)
Fixpoint keeps {St R} (I : St → Prop) (p : Prog St R) (Q : R → Prop) : Prop :=
  match p with
  | Ret r => Q r
  | Atomic f k => ∀ s, I s → I (f s).1 ∧ keeps I (k (f s).2) Q
  | Choose may k => ∀ s a, I s → may s a → keeps I (k a) Q
  | Guard _ k => keeps I k Q
  end.

(** A call on a part of a larger state, the map of number [n] there. *)
Definition renumbered (n : nat) (e : GuardEvent) : GuardEvent :=
  match e with
  | Take g => Take (g.1, n)
  | Drop g => Drop (g.1, n)
  | Brief g => Brief (g.1, n)
  end.
Fixpoint zoom {St S R} (n : nat) (get : S → St) (put : St → S → S) (p : Prog St R) : Prog S R :=
  match p with
  | Ret r => Ret r
  | Atomic f k => Atomic (λ s, (put (f (get s)).1 s, (f (get s)).2)) (λ a, zoom n get put (k a))
  | Choose may k => Choose (λ s a, may (get s) a) (λ a, zoom n get put (k a))
  | Guard e k => Guard (renumbered n e) (zoom n get put k)
  end.

(** ** Composition *)

Section sequencing.
Context {St : Type}.

Lemma alone_mono {R} (p : Prog St R) s (Q Q' : St → R → Prop) :
  alone p s Q → (∀ s' r, Q s' r → Q' s' r) → alone p s Q'.
Proof.
  intros Hp HQ. revert s Hp. induction p as [r|A f k IH|A may k IH|e k IH]; intros s; cbn; [by apply HQ|apply IH| |apply IH].
  intros [He Hk]. split; [done|]. intros a Ha. apply IH, Hk, Ha.
Qed.
Lemma alone_bind {A B} (p : Prog St A) (f : A → Prog St B) s Q :
  alone p s (λ s' a, alone (f a) s' Q) → alone (p ≫= f) s Q.
Proof.
  revert s. induction p as [r|X g k IH|X may k IH|e k IH]; intros s; cbn; [done|apply IH| |apply IH].
  intros [He Hk]. split; [done|]. intros a Ha. by apply IH, Hk.
Qed.
Lemma alone_under {A} m (p : Prog St A) s Q : alone p s Q → alone (under m p) s Q.
Proof. intros Hp. cbn. apply alone_bind. eapply alone_mono; [exact Hp|]. done. Qed.
Lemma prog_steps_trans {R} s (p : Prog St R) s1 p1 s2 p2 :
  prog_steps s p s1 p1 → prog_steps s1 p1 s2 p2 → prog_steps s p s2 p2.
Proof. induction 1; [done|]. intros ?. econstructor; eauto. Qed.
Lemma prog_step_bind {A B} s (p : Prog St A) s' p' (f : A → Prog St B) :
  prog_step s p s' p' → prog_step s (p ≫= f) s' (p' ≫= f).
Proof.
  destruct p as [r|X g k|X may k|e k]; cbn; [done|by intros [-> ->]| |by intros [-> ->]].
  intros (a & Ha & -> & ->). by exists a.
Qed.
Lemma prog_steps_bind {A B} s (p : Prog St A) s' p' (f : A → Prog St B) :
  prog_steps s p s' p' → prog_steps s (p ≫= f) s' (p' ≫= f).
Proof. induction 1; [constructor|]. econstructor; [by apply prog_step_bind|done]. Qed.
(** The first part of a call, left alone, leads to the rest. *)
Lemma steps_bind_alone {A B} (p : Prog St A) (f : A → Prog St B) s s2 p2 Q :
  alone p s Q → (∀ s' a, Q s' a → prog_steps s' (f a) s2 p2) →
  prog_steps s (p ≫= f) s2 p2.
Proof.
  intros Hp Hf. revert s Hp. induction p as [r|X g k IH|X may k IH|e k IH]; intros s; cbn; [apply Hf|..].
  - intros Hp. eapply StepsThen; [by split|]. by apply IH.
  - intros [[a Ha] Hk]. eapply StepsThen; [by exists a|]. by apply IH, Hk.
  - intros Hp. eapply StepsThen; [by split|]. by apply IH.
Qed.
(** A call left alone does return. *)
Lemma alone_steps {R} (p : Prog St R) s Q : alone p s Q →
  ∃ s' r, prog_steps s p s' (Ret r) ∧ Q s' r.
Proof.
  revert s. induction p as [r|X g k IH|X may k IH|e k IH]; intros s; cbn.
  - intros HQ. exists s, r. split; [constructor|done].
  - intros (s' & r & Hs & HQ)%IH. exists s', r. split; [|done]. by econstructor.
  - intros [[a Ha] Hk]. destruct (IH a s (Hk a Ha)) as (s' & r & Hs & HQ).
    exists s', r. split; [|done]. econstructor; [|done]. cbn. by exists a.
  - intros (s' & r & Hs & HQ)%IH. exists s', r. split; [|done]. by econstructor.
Qed.
(** The call at position [i] moves, the others wait. *)
Lemma sys_run_one {R} (calls : Prog St R → Prop) s ps i p s' p' :
  prog_steps s p s' p' → ps !! i = Some p →
  sys_run calls (s, ps) (s', <[i := p']> ps).
Proof.
  intros Hp. revert ps. induction Hp as [s p|s p s1 p1 s2 p2 Hst Hsts IH]; intros ps Hi.
  - by rewrite list_insert_id.
  - eapply rtc_l; [by eapply CallSteps|].
    specialize (IH (<[i:=p1]> ps)). rewrite list_insert_insert_eq in IH.
    apply IH, list_lookup_insert_eq. by eapply lookup_lt_Some.
Qed.
Lemma sys_run_alone {R} (calls : Prog St R → Prop) p s ps Q : calls p → alone p s Q →
  ∃ s' r, sys_run calls (s, ps) (s', ps ++ [Ret r]) ∧ Q s' r.
Proof.
  intros Hc (s' & r & Hs & HQ)%alone_steps. exists s', r. split; [|done].
  eapply rtc_l; [by apply CallStarts|].
  pose proof (sys_run_one calls s (ps ++ [p]) (length ps) p s' (Ret r) Hs) as Hr.
  rewrite (list_lookup_middle ps [] p) in Hr by done. specialize (Hr eq_refl).
  by rewrite insert_app_r_alt, Nat.sub_diag in Hr by done.
Qed.
(** Two calls that both read [s] before either goes on. *)
Lemma sys_run_race {R} (calls : Prog St R → Prop) s p1 p2 w1 w2 s1 s2 r1 r2 :
  calls p1 → calls p2 → prog_steps s p1 s w1 → prog_steps s p2 s w2 →
  prog_steps s w1 s1 (Ret r1) → prog_steps s1 w2 s2 (Ret r2) →
  sys_run calls (s, []) (s2, [Ret r1; Ret r2]).
Proof.
  intros Hc1 Hc2 H1 H2 H3 H4.
  eapply rtc_l; [by apply (CallStarts _ s [] p1)|].
  eapply rtc_l; [by apply (CallStarts _ s [p1] p2)|].
  etrans; [by apply (sys_run_one _ _ [p1; p2] 0 p1 s w1)|].
  etrans; [by apply (sys_run_one _ _ [w1; p2] 1 p2 s w2)|].
  etrans; [by apply (sys_run_one _ _ [w1; w2] 0 w1 s1 (Ret r1))|].
  by apply (sys_run_one _ _ [Ret r1; w2] 1 w2 s2 (Ret r2)).
Qed.
End sequencing.

Section paying_rules.
Context {St G : Type} (hold : G → Prop) (pay : St → G → St → G → Prop).

Lemma paying_mono {R} (p : Prog St R) (Q Q' : R → G → Prop) g :
  paying hold pay p Q g → (∀ r g, Q r g → Q' r g) → paying hold pay p Q' g.
Proof.
  intros Hp HQ. revert g Hp. induction p as [r|A f k IH|A may k IH|e k IH]; intros g; cbn; [by apply HQ|..].
  - intros [Hh Hk]. split; [done|]. intros s. destruct (Hk s) as (g' & ? & ?). eauto.
  - intros [Hh Hk]. split; [done|]. intros s a Ha. destruct (Hk s a Ha) as (g' & ? & ?). eauto.
  - intros [Hh Hk]. split; [done|]. intros s. destruct (Hk s) as (g' & ? & ?). eauto.
Qed.
Lemma paying_bind {A B} (p : Prog St A) (f : A → Prog St B) Q g :
  paying hold pay p (λ a, paying hold pay (f a) Q) g → paying hold pay (p ≫= f) Q g.
Proof.
  revert g. induction p as [r|X h k IH|X may k IH|e k IH]; intros g; cbn; [done|..].
  - intros [Hh Hk]. split; [done|]. intros s. destruct (Hk s) as (g' & ? & ?). exists g'. eauto.
  - intros [Hh Hk]. split; [done|]. intros s a Ha. destruct (Hk s a Ha) as (g' & ? & ?).
    exists g'. eauto.
  - intros [Hh Hk]. split; [done|]. intros s. destruct (Hk s) as (g' & ? & ?). exists g'. eauto.
Qed.
(** A call that spends nothing. *)
Lemma paying_free {R} (p : Prog St R) g :
  hold g → (∀ s s', pay s g s' g) → paying hold pay p (λ _ g', g' = g) g.
Proof. intros Hg Hp. induction p as [r|A f k IH|A may k IH|e k IH]; cbn; eauto. Qed.
Lemma paying_step {R} s (p : Prog St R) s' p' Q g : prog_step s p s' p' →
  paying hold pay p Q g → ∃ g', pay s g s' g' ∧ paying hold pay p' Q g'.
Proof.
  destruct p as [r|A f k|A may k|e k]; cbn; [done|..].
  - intros [-> ->] [_ Hk]. apply Hk.
  - intros (a & Ha & -> & ->) [_ Hk]. by apply Hk.
  - intros [-> ->] [_ Hk]. apply Hk.
Qed.
(** Waiting for an access costs nothing. *)
Lemma paying_brief {A B} m (h : St → St * A) (f : A → Prog St B) Q g : hold g →
  (∀ s, pay s g s g) → (∀ s, ∃ g', pay s g (h s).1 g' ∧ paying hold pay (f (h s).2) Q g') →
  paying hold pay (brief m h ≫= f) Q g.
Proof. intros Hg Hp Hk. cbn. split; [done|]. intros s. exists g. by split. Qed.
End paying_rules.

(** ** Systems of calls *)

Section systems.
Context {St G R : Type} (hold : G → Prop) (pay : St → G → St → G → Prop).
Context (calls : Prog St R → Prop) (Q : R → G → Prop) (g0 : G).
Abbreviation tracked := (Forall2 (λ p g, paying hold pay p Q g)).

(** What every access keeps, at every reachable configuration, whatever [ok]
    the configurations are known to satisfy. *)
Theorem sys_invariant (ok : config St R → Prop) (J : St → list G → Prop) s ps gs s' ps' :
  (∀ p, calls p → paying hold pay p Q g0) →
  (∀ s gs, J s gs → J s (gs ++ [g0])) →
  (∀ s gs i g s' g' ps', J s gs → gs !! i = Some g → pay s g s' g' →
     tracked ps' (<[i := g']> gs) → ok (s', ps') → J s' (<[i := g']> gs)) →
  rtc (λ c c', sys_step calls c c' ∧ ok c') (s, ps) (s', ps') →
  J s gs → tracked ps gs → ∃ gs', J s' gs' ∧ tracked ps' gs'.
Proof.
  intros Hcalls Hstart Hstep Hrun. remember (s, ps) as c eqn:Ec. remember (s', ps') as c' eqn:Ec'.
  revert s ps gs Ec s' ps' Ec'.
  induction Hrun as [c|c c1 c2 [Hst Hok] Hrun IH]; intros s ps gs -> s' ps' Hc' HJ Ht; simplify_eq.
  - by exists gs.
  - inversion Hst as [s1 ps1 p Hp|s1 ps1 i p s2 p' Hi Hp]; simplify_eq.
    + eapply (IH _ _ (gs ++ [g0])); [done..|by apply Hstart|].
      apply Forall2_app; [done|]. apply List.Forall2_cons; [by apply Hcalls|constructor].
    + destruct (Forall2_lookup_l _ _ _ _ _ Ht Hi) as (g & Hg & Hwp).
      destruct (paying_step _ _ _ _ _ _ _ _ Hp Hwp) as (g' & Hpay & Hwp').
      assert (tracked (<[i:=p']> ps) (<[i:=g']> gs)) by by apply Forall2_insert.
      eapply (IH _ _ (<[i:=g']> gs)); [done..|by eapply Hstep|done].
Qed.

(** What the finished calls returned, when the ghost values say so. *)
Lemma results_tracked (P : R → Prop) (φ : G → Prop) ps gs :
  tracked ps gs → Forall φ gs → (∀ r g, φ g → Q r g → P r) → Forall P (results ps).
Proof.
  intros Ht Hφ HP. induction Ht as [|p g ps gs Hp Ht IH]; [constructor|].
  apply Forall_cons in Hφ as [Hg Hφ]. unfold results in *. cbn [omap list_omap].
  destruct p as [r|A f k|A may k|e k]; cbn [finished]; [|by apply IH..].
  apply List.Forall_cons; [by eapply HP|by apply IH].
Qed.
End systems.

Lemma sys_step_length {St R} (calls : Prog St R → Prop) c c' :
  sys_step calls c c' → length c.2 ≤ length c'.2.
Proof. inversion 1; cbn [snd]; [rewrite length_app|rewrite length_insert]; lia. Qed.
Lemma in_flight_le {St R} (ps : list (Prog St R)) : in_flight ps ≤ length ps.
Proof. apply length_filter. Qed.
(** A condition that a step cannot establish held all along. *)
Lemma sys_run_ok {St R} (calls : Prog St R → Prop) (ok : config St R → Prop) c c' :
  (∀ c c', sys_step calls c c' → ok c' → ok c) → sys_run calls c c' → ok c' →
  ok c ∧ rtc (λ c c', sys_step calls c c' ∧ ok c') c c'.
Proof.
  intros Hback Hrun Hok. induction Hrun as [c|c c1 c2 Hst Hrun IH]; [by split; [|constructor]|].
  destruct (IH Hok) as [Hok1 Hr]. split; [by eapply Hback|]. by econstructor.
Qed.
(** A run of [k] calls never has more than [k] under way. *)
Lemma sys_run_few {St R} (calls : Prog St R → Prop) k c c' :
  sys_run calls c c' → length c'.2 ≤ k → sys_run_within calls k c c'.
Proof.
  intros Hrun Hk. apply (sys_run_ok calls (λ c, length c.2 ≤ k)) in Hrun as [_ Hr]; [|..|done].
  - eapply rtc_subrel; [|exact Hr]. intros c1 c2 [? ?]. split; [done|].
    pose proof (in_flight_le c2.2). lia.
  - intros c1 c2 Hst ?. pose proof (sys_step_length _ _ _ Hst). lia.
Qed.

Lemma results_cons {St R} (p : Prog St R) ps :
  results (p :: ps) = match finished p with Some r => r :: results ps | None => results ps end.
Proof. done. Qed.

(** What was returned stays returned. *)
Lemma results_insert {St R} (ps : list (Prog St R)) i p p' : ps !! i = Some p →
  finished p = None → results ps `sublist_of` results (<[i := p']> ps).
Proof.
  revert i. induction ps as [|q ps IH]; intros [|i]; [done|done| |].
  - intros [= ->] Hp. change (<[0 := p']> (p :: ps)) with (p' :: ps). rewrite !results_cons, Hp.
    destruct (finished p'); [by apply sublist_cons|done].
  - intros Hi Hp. change (<[S i := p']> (q :: ps)) with (q :: <[i := p']> ps). rewrite !results_cons.
    destruct (finished q); [apply sublist_skip|]; by apply IH.
Qed.
Lemma results_step {St R} (calls : Prog St R → Prop) c c' : sys_step calls c c' →
  results c.2 `sublist_of` results c'.2.
Proof.
  destruct 1 as [s ps p Hp|s ps i p s' p' Hi Hp]; cbn [snd].
  - unfold results. rewrite omap_app. by apply sublist_inserts_r.
  - eapply results_insert; [exact Hi|]. by destruct p.
Qed.
Lemma sublist_omap_length {A B} (f : A → option B) l l' : l `sublist_of` l' →
  length (omap f l) ≤ length (omap f l').
Proof. induction 1 as [|x l l' _ IH|x l l' _ IH]; cbn; [done|..]; destruct (f x); cbn; lia. Qed.

Lemma results_Ret {St R} (rs : list R) : results (map (@Ret St R) rs) = rs.
Proof. induction rs as [|r rs IH]; [done|]. cbn [map]. rewrite results_cons. by f_equal. Qed.

(** ** Invariants *)

Section invariants.
Context {St R : Type} (I : St → Prop).

Lemma keeps_mono {A} (p : Prog St A) (Q Q' : A → Prop) :
  keeps I p Q → (∀ a, Q a → Q' a) → keeps I p Q'.
Proof.
  intros Hp HQ. induction p as [r|B f k IH|B may k IH|e k IH]; cbn in *; [by apply HQ|..].
  - intros s Hs. destruct (Hp s Hs) as [? ?]. split; [done|]. by apply IH.
  - intros s a Hs Ha. by eapply IH, Hp.
  - by apply IH.
Qed.
Lemma keeps_True {A} (p : Prog St A) : keeps (λ _, True) p (λ _, True).
Proof. induction p; cbn; auto. Qed.
Lemma keeps_bind {A B} (p : Prog St A) (f : A → Prog St B) Q :
  keeps I p (λ a, keeps I (f a) Q) → keeps I (p ≫= f) Q.
Proof.
  induction p as [r|X g k IH|X may k IH|e k IH]; cbn; [done|..].
  - intros Hp s Hs. destruct (Hp s Hs) as [? ?]. split; [done|]. by apply IH.
  - intros Hp s a Hs Ha. by eapply IH, Hp.
  - apply IH.
Qed.
Lemma keeps_under {A} m (p : Prog St A) Q : keeps I p Q → keeps I (under m p) Q.
Proof. intros Hp. cbn. apply keeps_bind. eapply keeps_mono; [exact Hp|]. done. Qed.
(** Every result of every reachable state satisfies what the calls return. *)
Lemma keeps_results (calls : Prog St R → Prop) (Q : R → Prop) s s' ps :
  (∀ p, calls p → keeps I p Q) → I s → sys_run calls (s, []) (s', ps) →
  I s' ∧ Forall Q (results ps).
Proof.
  intros Hcalls Hs Hrun.
  assert (∀ c c', sys_run calls c c' → I c.1 ∧ Forall (λ p, keeps I p Q) c.2 →
    I c'.1 ∧ Forall (λ p, keeps I p Q) c'.2) as Hinv.
  { induction 1 as [c|c c1 c2 Hst Hr IH]; [done|]. intros [HI Hps]. apply IH.
    destruct Hst as [s1 ps1 p Hp|s1 ps1 i p s2 p' Hi Hp]; cbn [fst snd] in *.
    - split; [done|]. apply Forall_app. split; [done|]. by apply List.Forall_cons; [apply Hcalls|].
    - pose proof (Forall_lookup_1 _ _ _ _ Hps Hi) as Hk.
      destruct p as [r|A f k|A may k|e k]; cbn in Hp, Hk; [done|..].
      + destruct Hp as [-> ->], (Hk s1 HI) as [? ?]. split; [done|]. by apply Forall_insert.
      + destruct Hp as (a & Ha & -> & ->). split; [done|]. apply Forall_insert; [done|]. eauto.
      + destruct Hp as [-> ->]. split; [done|]. by apply Forall_insert. }
  destruct (Hinv _ _ Hrun) as [HI Hps]; [by split|]. split; [done|]. cbn [snd] in Hps.
  clear -Hps. induction Hps as [|p ps Hp Hps IH]; [constructor|]. rewrite results_cons.
  destruct p; cbn [finished]; [by apply List.Forall_cons|done..].
Qed.
End invariants.

Section zooming.
Context {St S : Type} (n : nat) (get : S → St) (put : St → S → S).

Lemma keeps_zoom {R} (I : St → Prop) (J : S → Prop) (p : Prog St R) Q :
  (∀ s, J s → I (get s)) → (∀ s x, J s → I x → J (put x s)) →
  keeps I p Q → keeps J (zoom n get put p) Q.
Proof.
  intros HI HJ. induction p as [r|A f k IH|A may k IH|e k IH]; cbn; [done|..].
  - intros Hp s Hs. destruct (Hp (get s) (HI s Hs)) as [? ?]. split; [by apply HJ|]. by apply IH.
  - intros Hp s a Hs Ha. eapply IH, Hp; [by apply HI|done].
  - exact IH.
Qed.
Lemma paying_zoom {G R} (hold : G → Prop) pay pay' (p : Prog St R) Q g :
  (∀ s, put (get s) s = s) →
  (∀ s x g g', pay (get s) g x g' → pay' s g (put x s) g') →
  paying hold pay p Q g → paying hold pay' (zoom n get put p) Q g.
Proof.
  intros Hget Hpay. revert g. induction p as [r|A f k IH|A may k IH|e k IH]; intros g; cbn; [done|..].
  - intros [Hh Hk]. split; [done|]. intros s. destruct (Hk (get s)) as (g' & ? & ?).
    exists g'. split; [by apply Hpay|]. by apply IH.
  - intros [Hh Hk]. split; [done|]. intros s a Ha. destruct (Hk (get s) a Ha) as (g' & ? & ?).
    exists g'. split; [|by apply IH]. rewrite <- (Hget s) at 2. by apply Hpay.
  - intros [Hh Hk]. split; [done|]. intros s. destruct (Hk (get s)) as (g' & ? & ?).
    exists g'. split; [|by apply IH]. rewrite <- (Hget s) at 2. by apply Hpay.
Qed.
Lemma alone_zoom {R} (p : Prog St R) s Q :
  (∀ s, put (get s) s = s) → (∀ s x, get (put x s) = x) →
  (∀ s x y, put y (put x s) = put y s) →
  alone p (get s) (λ x r, Q (put x s) r) → alone (zoom n get put p) s Q.
Proof.
  intros Hpg Hgp Hpp. revert s. induction p as [r|A f k IH|A may k IH|e k IH]; intros s; cbn.
  - by rewrite Hpg.
  - intros Hp. apply IH. rewrite Hgp. eapply alone_mono; [exact Hp|]. intros x r. by rewrite Hpp.
  - intros [He Hk]. split; [done|]. intros a Ha. by apply IH, Hk.
  - apply IH.
Qed.
End zooming.

(** ** Accounting

    [φ] is what the state holds; a call pays for what it adds with its own
    balance, and what it has earned when it returns is [earns]. *)

Section accounting.
Context {St R : Type} (φ : St → Z) (earns : R → Z).
Definition pays (s : St) (g : Z) (s' : St) (g' : Z) : Prop := (g' + φ s' ≤ g + φ s)%Z.
Definition solvent (g : Z) : Prop := (0 ≤ g)%Z.
Definition accounted : Prog St R → Z → Prop := λ p, paying solvent pays p (λ r g, (earns r ≤ g)%Z).
Definition total (rs : list R) : Z := foldr (λ r z, earns r + z)%Z 0%Z rs.

Definition balance (gs : list Z) : Z := foldr Z.add 0%Z gs.

Lemma balance_cons g gs : balance (g :: gs) = (g + balance gs)%Z.
Proof. done. Qed.
Lemma balance_app gs gs' : balance (gs ++ gs') = (balance gs + balance gs')%Z.
Proof. induction gs as [|g gs IH]; [done|]. cbn [app]. rewrite !balance_cons. lia. Qed.
Lemma balance_insert gs i g g' : gs !! i = Some g →
  (balance (<[i := g']> gs) + g)%Z = (balance gs + g')%Z.
Proof.
  revert i. induction gs as [|h gs IH]; intros [|i]; [done|done| |].
  - intros [= ->]. change (<[0 := g']> (g :: gs)) with (g' :: gs). rewrite !balance_cons. lia.
  - intros Hi. specialize (IH i Hi). change (<[S i := g']> (h :: gs)) with (h :: <[i := g']> gs).
    rewrite !balance_cons. lia.
Qed.
Lemma total_cons r rs : total (r :: rs) = (earns r + total rs)%Z.
Proof. done. Qed.
Lemma balance_total ps gs : Forall2 accounted ps gs → (total (results ps) ≤ balance gs)%Z.
Proof.
  induction 1 as [|p g ps gs Hp Hps IH]; [done|]. rewrite results_cons, balance_cons.
  unfold accounted, solvent in Hp.
  destruct p as [r|A f k|A may k|e k]; cbn [finished paying] in *; [|destruct Hp; lia..].
  rewrite total_cons. lia.
Qed.
(** Earnings that count one thing against another. *)
Lemma total_counts (a b : R → nat) rs :
  (∀ r, earns r = Z.of_nat (a r) - Z.of_nat (b r))%Z →
  total rs = (Z.of_nat (list_sum (map a rs)) - Z.of_nat (list_sum (map b rs)))%Z.
Proof.
  intros He. induction rs as [|r rs IH]; [done|]. rewrite total_cons, He, IH.
  change (list_sum (map a (r :: rs))) with (a r + list_sum (map a rs)).
  change (list_sum (map b (r :: rs))) with (b r + list_sum (map b rs)). lia.
Qed.
(** However the calls interleave, what they earned is what the state lost. *)
Lemma accounting (calls : Prog St R → Prop) s s' ps' :
  (∀ p, calls p → accounted p 0%Z) → sys_run calls (s, []) (s', ps') →
  (total (results ps') + φ s' ≤ φ s)%Z.
Proof.
  intros Hcalls Hrun.
  destruct (sys_invariant solvent pays calls (λ r g, (earns r ≤ g)%Z) 0%Z (λ _, True)
    (λ s1 gs, balance gs + φ s1 ≤ φ s)%Z s [] [] s' ps') as (gs & HJ & Ht).
  - done.
  - intros s1 gs HJ. rewrite balance_app, balance_cons. change (balance []) with 0%Z. lia.
  - intros s1 gs i g s2 g' ps2 HJ Hi Hp _ _. unfold pays in Hp.
    pose proof (balance_insert gs i g g' Hi). lia.
  - eapply rtc_subrel; [|exact Hrun]. by intros c c' ?.
  - change (balance []) with 0%Z. lia.
  - constructor.
  - apply balance_total in Ht. lia.
Qed.
End accounting.
