(* ===== verification/SharedMap.v ===== *)
(** * A map shared by concurrent calls

    The accesses of a [DashMap] as [Prog]s, what they do when nothing
    interferes, what they cost when something does, and the bounded map of
    src/challenge.rs: purge, then evict the least entry, at its capacity. *)

From S2P Require Import Prelude Interleave.

(** ** Accesses

    The keys are spread over shards with a lock each. [retain] and [iter] visit
    the shards one after the other: the entries are met in some order, every
    entry that stays is met, and one that comes in meanwhile may be. [len] adds
    up the lengths of the shards, read one after the other, so that under
    interference it need not be the length the map has at any one moment.

    A lookup holds a guard while its entry is read, and a walk for as long as it
    has entries to show; the length of a shard needs shared access for a moment,
    and whatever changes the map exclusive access. One lock per map stands for
    those of its shards; file Locks says when a call waits for it. *)

Class Shards := {
  shard_count : nat;
  shard : string → nat;
  shard_lt k : shard k < shard_count;
}.
(** Two shards, for the witnesses. *)
Lemma by_length_lt k : String.length k mod 2 < 2.
Proof. by apply Nat.mod_upper_bound. Qed.
Definition by_length : Shards :=
  {| shard_count := 2; shard := λ k, String.length k mod 2; shard_lt := by_length_lt |}.

Abbreviation shared V := (gmap string V).

Section dashmap.
Context {V : Type} `{Shards}.
Definition dm_get (k : string) : Prog (shared V) (option V) :=
  under Shared (atomic (λ m, (m, m !! k))).
Definition dm_contains_key (k : string) : Prog (shared V) bool :=
  brief Shared (λ m, (m, match m !! k with Some _ => true | None => false end)).
Definition dm_insert (k : string) (v : V) : Prog (shared V) unit :=
  brief Exclusive (λ m, (<[k := v]> m, tt)).
Definition dm_remove (k : string) : Prog (shared V) (option V) :=
  brief Exclusive (λ m, (delete k m, m !! k)).
Definition shard_len (i : nat) (m : shared V) : nat := size (filter (λ kv, shard kv.1 = i) m).
Fixpoint len_from (fuel i acc : nat) : Prog (shared V) nat :=
  match fuel with
  | O => Ret acc
  | S fuel => n ← brief Shared (λ m, (m, shard_len i m)); len_from fuel (S i) (acc + n)
  end.
Definition dm_len : Prog (shared V) nat := len_from shard_count 0 0.
Definition walk (m : shared V) (ks : list string) : Prop :=
  NoDup ks ∧ ∀ k, is_Some (m !! k) → k ∈ ks.
Definition retain_one (keep : V → bool) (k : string) : Prog (shared V) unit :=
  brief Exclusive (λ m, (match m !! k with
                         | Some v => if keep v then m else delete k m
                         | None => m
                         end, tt)).
Definition dm_retain (keep : V → bool) : Prog (shared V) unit :=
  ks ← choose walk; for_each (retain_one keep) ks.
Definition entry_at (k : string) : Prog (shared V) (option (string * V)) :=
  atomic (λ m, (m, option_map (pair k) (m !! k))).
Definition dm_iter : Prog (shared V) (list (string * V)) :=
  under Shared (ks ← choose walk; filter_each entry_at ks).
End dashmap.

(** ** The shards *)

Section shards.
Context {V : Type} `{Shards}.
Implicit Types m : shared V.

(** The entries of the shards before [i], and from [i] on. *)
Definition below (i : nat) m : nat := size (filter (λ kv, shard kv.1 < i) m).
Definition from (i : nat) m : nat := size (filter (λ kv, i ≤ shard kv.1) m).

Lemma size_split (P1 P2 P3 : string * V → Prop) `{!∀ x, Decision (P1 x), !∀ x, Decision (P2 x),
    !∀ x, Decision (P3 x)} m :
  (∀ x, P1 x ↔ P2 x ∨ P3 x) → (∀ x, P2 x → ¬ P3 x) →
  size (filter P1 m) = size (filter P2 m) + size (filter P3 m).
Proof.
  intros Hor Hnot.
  assert (filter P2 m ##ₘ filter P3 m) as Hd.
  { apply map_disjoint_spec. intros k v v' [Hv HP2]%map_lookup_filter_Some
      [Hv' HP3]%map_lookup_filter_Some. simplify_eq. by apply (Hnot _ HP2). }
  rewrite <- map_size_disj_union by done. f_equal. apply map_eq. intros k. apply option_eq. intros v.
  rewrite (lookup_union_Some _ _ _ _ Hd), !map_lookup_filter_Some, Hor. tauto.
Qed.
Lemma from_split i m : from i m = shard_len i m + from (S i) m.
Proof. apply size_split; intros x; lia. Qed.
Lemma below_split i m : below (S i) m = below i m + shard_len i m.
Proof. apply size_split; intros x; lia. Qed.
Lemma from_all m : from 0 m = size m.
Proof. unfold from. f_equal. apply map_filter_id. intros. cbn. lia. Qed.
Lemma from_none m : from shard_count m = 0.
Proof.
  unfold from. apply map_size_empty_iff, map_empty_filter_2. intros k v _. cbn.
  pose proof (shard_lt k). lia.
Qed.
Lemma below_none m : below 0 m = 0.
Proof.
  unfold below. apply map_size_empty_iff, map_empty_filter_2. intros k v _. cbn. lia.
Qed.
Lemma below_le i m : below i m ≤ size m.
Proof. apply map_subseteq_size, map_filter_subseteq. Qed.
Lemma shard_count_pos : 0 < shard_count.
Proof. pose proof (shard_lt ""). lia. Qed.
(** What a filter loses is lost by the whole map. *)
Lemma filter_loss (P : string * V → Prop) `{!∀ x, Decision (P x)} m m' : m' ⊆ m →
  size (filter P m) + size m' ≤ size (filter P m') + size m.
Proof.
  intros Hs. pose proof (size_split (λ _, True) P (λ x, ¬ P x) m) as H1.
  pose proof (size_split (λ _, True) P (λ x, ¬ P x) m') as H2.
  rewrite map_filter_id in H1, H2 by done.
  assert (size (filter (λ x, ¬ P x) m') ≤ size (filter (λ x, ¬ P x) m))
    by by apply map_subseteq_size, map_filter_subseteq_mono.
  rewrite H1, H2; [lia|..]; intros x; destruct (decide (P x)); tauto.
Qed.
(** An insertion takes no key away. *)
Lemma filter_insert (P : string → Prop) `{!∀ k, Decision (P k)} m k v :
  size (filter (λ kv, P kv.1) m) ≤ size (filter (λ kv, P kv.1) (<[k := v]> m)).
Proof.
  rewrite <- !(size_dom (D := gset string)). apply subseteq_size. intros j.
  rewrite !elem_of_dom. intros [u [Hu HP]%map_lookup_filter_Some].
  destruct (decide (k = j)) as [->|Hne].
  - exists v. apply map_lookup_filter_Some. by rewrite lookup_insert_eq.
  - exists u. apply map_lookup_filter_Some. by rewrite lookup_insert_ne.
Qed.
End shards.

(** ** Left alone *)

Section alone.
Context {V : Type}.
Implicit Types m : shared V.

Lemma alone_get m k Q : Q m (m !! k) → alone (dm_get k) m Q.
Proof. done. Qed.
Lemma alone_len `{Shards} m Q : Q m (size m) → alone dm_len m Q.
Proof.
  assert (∀ fuel i acc, i + fuel = shard_count → Q m (acc + from i m) →
    alone (len_from fuel i acc) m Q) as Hfrom.
  { induction fuel as [|fuel IH]; intros i acc Hi; cbn [len_from].
    - rewrite Nat.add_0_r in Hi. subst i. rewrite from_none, Nat.add_0_r. done.
    - rewrite from_split, Nat.add_assoc. intros HQ. apply alone_bind. cbn [brief atomic mbind prog_mbind prog_bind alone fst snd].
      apply IH; [lia|done]. }
  intros HQ. apply Hfrom; [done|]. by rewrite from_all.
Qed.
Lemma walk_exists m : ∃ ks, walk m ks.
Proof.
  exists (map_to_list m).*1. split; [apply NoDup_fst_map_to_list|].
  intros k [v Hv]. apply list_elem_of_fmap. exists (k, v). split; [done|].
  by apply elem_of_map_to_list.
Qed.
Lemma for_each_retain keep ks m Q :
  Q (filter (λ kv, kv.1 ∉ ks ∨ keep kv.2 = true) m) tt →
  alone (for_each (retain_one keep) ks) m Q.
Proof.
  revert m. induction ks as [|k ks IH]; intros m HQ.
  - cbn. rewrite map_filter_id in HQ; [done|]. intros k v _. left. apply not_elem_of_nil.
  - apply alone_bind. cbn [retain_one brief atomic mbind prog_mbind prog_bind alone fst snd]. apply IH.
    match goal with HQ : Q ?m1 tt |- Q ?m2 tt => replace m2 with m1; [done|] end.
    apply map_eq. intros j. apply option_eq. intros v.
    rewrite !map_lookup_filter_Some. cbn [fst snd]. rewrite not_elem_of_cons.
    clear IH HQ. destruct (decide (j = k)) as [->|Hne].
    + destruct (m !! k) as [u|] eqn:Hk; [destruct (keep u) eqn:Hu|];
        rewrite ?lookup_delete_eq, ?Hk; naive_solver congruence.
    + destruct (m !! k) as [u|]; [destruct (keep u)|];
        rewrite ?lookup_delete_ne by done; naive_solver.
Qed.
Lemma alone_retain keep m Q :
  Q (filter (λ kv, keep kv.2 = true) m) tt → alone (dm_retain keep) m Q.
Proof.
  intros HQ. apply alone_bind. split; [apply walk_exists|]. intros ks [_ Hks].
  apply for_each_retain. replace (filter _ m) with (filter (λ kv, keep kv.2 = true) m); [done|].
  apply map_filter_ext. intros k v Hk. cbn. split; [by right|].
  intros [Hn|?]; [|done]. destruct Hn. apply Hks. by eexists.
Qed.
Lemma alone_filter_each ks m Q :
  Q m (omap (λ k, option_map (pair k) (m !! k)) ks) → alone (filter_each entry_at ks) m Q.
Proof.
  revert Q. induction ks as [|k ks IH]; intros Q HQ; [done|].
  apply alone_bind. cbn [entry_at atomic alone fst snd]. apply alone_bind, IH.
  cbn in HQ |- *. by destruct (m !! k).
Qed.
Lemma entries_NoDup m ks : NoDup ks → NoDup (omap (λ k, option_map (pair k) (m !! k)) ks).
Proof.
  induction 1 as [|k ks Hk Hnd IH]; [constructor|]. cbn.
  destruct (m !! k) as [v|] eqn:Em; cbn; [|done]. apply list.NoDup_cons. split; [|done].
  intros (j & Hj & Hv)%list_elem_of_omap. destruct (m !! j); [|done]. cbn in Hv. congruence.
Qed.
Lemma alone_iter m Q : (∀ es, es ≡ₚ map_to_list m → Q m es) → alone dm_iter m Q.
Proof.
  intros HQ. apply alone_under, alone_bind. split; [apply walk_exists|]. intros ks [Hnd Hks].
  apply alone_filter_each, HQ, NoDup_Permutation; [by apply entries_NoDup|apply NoDup_map_to_list|].
  - intros [k v]. rewrite list_elem_of_omap, elem_of_map_to_list. split.
    + intros (j & _ & Hj). destruct (m !! j) as [u|] eqn:E; [|done]. cbn in Hj. congruence.
    + intros Hk. exists k. rewrite Hk. split; [|done]. apply Hks. by eexists.
Qed.
End alone.

(** ** Calls that put nothing in

    Whatever the accesses of such a call pay for, the call pays for nothing. *)

Section shrinking.
Context {V : Type} `{Shards}.

Fixpoint shrinks {R} (p : Prog (shared V) R) : Prop :=
  match p with
  | Ret _ => True
  | Atomic f k => (∀ m, (f m).1 ⊆ m) ∧ ∀ a, shrinks (k a)
  | Choose may k => ∀ a, shrinks (k a)
  | Guard _ k => shrinks k
  end.
Lemma shrinks_bind {A B} (p : Prog (shared V) A) (f : A → Prog (shared V) B) :
  shrinks p → (∀ a, shrinks (f a)) → shrinks (p ≫= f).
Proof. intros Hp Hf. induction p; cbn in *; [apply Hf|intuition|eauto|eauto]. Qed.
Lemma shrinks_under {A} mode (p : Prog (shared V) A) : shrinks p → shrinks (under mode p).
Proof. intros Hp. by apply (shrinks_bind p). Qed.
Lemma shrinks_ret {A} (a : A) : shrinks (Ret a).
Proof. done. Qed.
Lemma shrinks_len : shrinks dm_len.
Proof.
  assert (∀ n i acc, shrinks (len_from n i acc)) as Hn; [|apply Hn].
  induction n as [|n IH]; intros i acc; [done|]. by apply shrinks_bind.
Qed.
Lemma shrinks_get k : shrinks (dm_get k).
Proof. done. Qed.
Lemma shrinks_contains_key k : shrinks (dm_contains_key k).
Proof. done. Qed.
Lemma shrinks_remove k : shrinks (dm_remove k).
Proof. split; [intros m; apply delete_subseteq|done]. Qed.
Lemma shrinks_for_each {K} (body : K → Prog (shared V) unit) ks :
  (∀ k, shrinks (body k)) → shrinks (for_each body ks).
Proof. intros Hb. induction ks as [|k ks IH]; [done|]. by apply shrinks_bind. Qed.
Lemma shrinks_filter_each {K A} (body : K → Prog (shared V) (option A)) ks :
  (∀ k, shrinks (body k)) → shrinks (filter_each body ks).
Proof.
  intros Hb. induction ks as [|k ks IH]; [done|]. apply shrinks_bind; [done|]. intros o.
  by apply shrinks_bind.
Qed.
Lemma shrinks_retain keep : shrinks (dm_retain keep).
Proof.
  intros ks. apply shrinks_for_each. intros k. split; [|done]. intros m. cbn.
  destruct (m !! k); [case_match|]; [done|apply delete_subseteq|done].
Qed.
Lemma shrinks_iter : shrinks dm_iter.
Proof. apply shrinks_under. intros ks. by apply shrinks_filter_each. Qed.

Lemma paying_shrinks {G R} (hold : G → Prop) pay (p : Prog (shared V) R) g :
  shrinks p → hold g → (∀ m m', m' ⊆ m → pay m g m' g) → paying hold pay p (λ _ g', g' = g) g.
Proof.
  intros Hp Hh Hpay. induction p as [r|A f k IH|A may k IH|e k IH]; cbn in *; [done|..].
  - destruct Hp as [Hf Hk]. split; [done|]. eauto.
  - split; [done|]. eauto.
  - split; [done|]. eauto.
Qed.
Lemma paying_shrinks_bind {G A B} (hold : G → Prop) pay (p : Prog (shared V) A)
    (f : A → Prog (shared V) B) Q g :
  shrinks p → hold g → (∀ m m', m' ⊆ m → pay m g m' g) → (∀ a, paying hold pay (f a) Q g) →
  paying hold pay (p ≫= f) Q g.
Proof.
  intros Hp Hh Hpay Hf. apply paying_bind. eapply paying_mono; [by apply paying_shrinks|]. by intros a ? ->.
Qed.
(** A length read shard by shard: [at_ i n] is the ghost value of a call that
    has counted [n] entries in the shards before [i]. *)
Lemma paying_len {G A} (hold : G → Prop) pay (at_ : nat → nat → G)
    (f : nat → Prog (shared V) A) Q :
  (∀ m g, hold g → pay m g m g) → (∀ i n, hold (at_ i n)) →
  (∀ i n m, S i < shard_count → pay m (at_ i n) m (at_ (S i) (n + shard_len i m))) →
  (∀ i n m, S i = shard_count → ∃ g', pay m (at_ i n) m g' ∧
    paying hold pay (f (n + shard_len i m)) Q g') →
  paying hold pay (dm_len ≫= f) Q (at_ 0 0).
Proof.
  intros Hrefl Hhold Hmid Hlast.
  assert (∀ fuel i n, i + S fuel = shard_count →
    paying hold pay (len_from (S fuel) i n) (λ l, paying hold pay (f l) Q) (at_ i n)) as Hfrom.
  { induction fuel as [|fuel IH]; intros i n Hi; (apply paying_brief; [done|by auto|]);
      intros m; cbn [fst snd].
    - destruct (Hlast i n m) as (g' & Hp & Hf); [lia|]. by exists g'.
    - eexists. split; [apply Hmid; lia|]. apply IH. lia. }
  pose proof shard_count_pos. unfold dm_len. apply paying_bind.
  replace shard_count with (S (shard_count - 1)) by lia. apply Hfrom. lia.
Qed.
Lemma keeps_shrinks {A B} (I : shared V → Prop) (p : Prog (shared V) A)
    (f : A → Prog (shared V) B) Q :
  shrinks p → (∀ m m', m' ⊆ m → I m → I m') → (∀ a, keeps I (f a) Q) → keeps I (p ≫= f) Q.
Proof.
  intros Hp HI Hf. apply keeps_bind. induction p as [r|X h k IH|X may k IH|e k IH]; cbn in *; [apply Hf|..].
  - destruct Hp as [Hh Hk]. intros m Hm. split; [by eapply HI, Hm|]. by apply IH.
  - intros m a _ _. by apply IH.
  - by apply IH.
Qed.
Lemma keeps_get (I : shared V → Prop) k Q :
  (∀ m, I m → Q (m !! k)) → keeps I (dm_get k) Q.
Proof. intros HQ m Hm. split; [done|]. by apply HQ. Qed.
End shrinking.
Create HintDb shrinks.
#[export] Hint Resolve shrinks_bind shrinks_ret shrinks_len shrinks_get shrinks_contains_key shrinks_remove
  shrinks_for_each shrinks_filter_each shrinks_retain shrinks_iter : shrinks.
(** Follow the code down to the accesses the database knows. *)
Ltac shrink :=
  repeat first [solve [auto with shrinks]|apply shrinks_bind|case_match|intros ?].

(** ** What the accesses cost under interference

    The state holds the entries that satisfy [P]: a removal earns what it
    takes out, an insertion owes what it puts in. *)

Section costs.
Context {V : Type} (P : string → V → bool).
Implicit Types m : shared V.

Definition holding m : Z := Z.of_nat (size (filter (λ kv, P kv.1 kv.2 = true) m)).
Definition worth (k : string) (v : V) : Z := if P k v then 1 else 0.
Abbreviation paid := (paying solvent (pays holding)).

Lemma size_delete_in m k v : m !! k = Some v → S (size (delete k m)) = size m.
Proof.
  intros Hk. rewrite map_size_delete, Hk. destruct (size m) eqn:E; [|done].
  apply map_size_empty_inv in E. by rewrite E, lookup_empty in Hk.
Qed.
Lemma holding_mono m m' : m ⊆ m' → (holding m ≤ holding m')%Z.
Proof.
  intros Hs. apply Nat2Z.inj_le. by apply map_subseteq_size, map_filter_subseteq_mono.
Qed.
Lemma holding_delete k m :
  (holding (delete k m) + match m !! k with Some v => worth k v | None => 0 end = holding m)%Z.
Proof.
  unfold holding, worth. rewrite map_filter_delete, map_size_delete.
  destruct (m !! k) as [v|] eqn:Ek; [destruct (P k v) eqn:EP|].
  - assert (filter (λ kv, P kv.1 kv.2 = true) m !! k = Some v) as Hf
      by by apply map_lookup_filter_Some_2.
    rewrite <- (size_delete_in _ _ _ Hf), Hf, map_size_delete, Hf. lia.
  - rewrite map_lookup_filter_None_2; [cbn; lia|]. right. intros u Hu Hp. simplify_eq/=. congruence.
  - rewrite map_lookup_filter_None_2; [cbn; lia|by left].
Qed.
Lemma holding_insert k v m : (holding (<[k := v]> m) ≤ holding m + worth k v)%Z.
Proof.
  pose proof (holding_delete k (<[k := v]> m)) as Hd.
  rewrite lookup_insert_eq, delete_insert_eq in Hd.
  pose proof (holding_mono _ _ (delete_subseteq m k)). lia.
Qed.

Lemma paid_shrinks {A B} (p : Prog (shared V) A) (f : A → Prog (shared V) B) Q g :
  shrinks p → (0 ≤ g)%Z → (∀ a, paid (f a) Q g) → paid (p ≫= f) Q g.
Proof.
  intros Hp Hg. apply paying_shrinks_bind; [done..|]. intros m m' Hs.
  pose proof (holding_mono _ _ Hs). unfold pays. lia.
Qed.
Lemma paid_ret {A} (a : A) (Q : A → Z → Prop) g : Q a g → paid (Ret a) Q g.
Proof. done. Qed.
Lemma paid_take k g : (0 ≤ g)%Z → paid (dm_remove k)
  (λ o g', g' = g + match o with Some v => worth k v | None => 0 end)%Z g.
Proof.
  intros Hg. split; [done|]. intros m0. exists g. split; [unfold pays; lia|].
  split; [done|]. intros m. eexists. split; [|done].
  pose proof (holding_delete k m). unfold pays. cbn. lia.
Qed.
Lemma paid_insert k v g : (0 ≤ g)%Z →
  paid (dm_insert k v) (λ _ g', g' = g - worth k v)%Z g.
Proof.
  intros Hg. split; [done|]. intros m0. exists g. split; [unfold pays; lia|].
  split; [done|]. intros m. eexists. split; [|done].
  pose proof (holding_insert k v m). unfold pays. cbn. lia.
Qed.
End costs.

(** ** The bounded map: purge, then evict, at the capacity *)

Section bounded.
Context {V : Type} `{Shards} (before : string * V → string * V → bool) (cap : nat).
Implicit Types m : shared V.

(** [iter().min_by(..)], then [remove] of its key. *)
Definition evict_min : Prog (shared V) unit :=
  es ← dm_iter;
  match min_by before es with
  | Some (k, _) => _ ← dm_remove k; Ret tt
  | None => Ret tt
  end.
Definition room_for_one (keep : V → bool) : Prog (shared V) unit :=
  l ← dm_len;
  if cap <=? l then
    _ ← dm_retain keep;
    l ← dm_len;
    if cap <=? l then evict_min else Ret tt
  else Ret tt.

Lemma shrinks_room keep : shrinks (room_for_one keep).
Proof. unfold room_for_one, evict_min. shrink. Qed.
End bounded.
#[export] Hint Resolve shrinks_room : shrinks.

(** A strict total order on the entries of a map. *)
Record picks_one {V} (before : string * V → string * V → bool) : Prop := {
  before_trans a b c : before a b = false → before b c = false → before a c = false;
  before_asym a b : before a b = true → before b a = false;
  before_tie a b : before a b = false → before b a = false → a.1 = b.1;
}.

Section bounded_alone.
Context {V : Type} `{Shards} (before : string * V → string * V → bool) (cap : nat).
Context (Hb : picks_one before).
Implicit Types m : shared V.

Definition least m : option (string * V) := min_by before (map_to_list m).
Lemma least_any_order m es : es ≡ₚ map_to_list m → min_by before es = least m.
Proof.
  intros Hp. apply min_by_perm; [apply Hb|apply Hb| |done].
  intros [k v] [k' v']. rewrite Hp, !elem_of_map_to_list. intros Hk Hk' H1 H2.
  pose proof (before_tie _ Hb _ _ H1 H2) as Heq. cbn in Heq. congruence.
Qed.
Definition without_least m : shared V :=
  match least m with Some (k, _) => delete k m | None => m end.
Definition room keep m : shared V :=
  if cap <=? size m then
    let m := filter (λ kv, keep kv.2 = true) m in
    if cap <=? size m then without_least m else m
  else m.
Lemma alone_room keep m Q : Q (room keep m) tt →
  alone (room_for_one before cap keep) m Q.
Proof.
  unfold room. intros HQ. apply alone_bind, alone_len. destruct (cap <=? size m); [|done].
  apply alone_bind, alone_retain, alone_bind, alone_len.
  destruct (cap <=? size (filter _ m)); [|done].
  apply alone_bind, alone_iter. intros es Hes. rewrite (least_any_order _ _ Hes).
  unfold without_least in HQ. by destruct (least _) as [[k v]|].
Qed.
(** On a full map of live entries a call makes its way to its victim without
    changing the map. *)
Lemma steps_to_victim keep m k v : cap ≤ size m → map_Forall (λ _ v, keep v = true) m →
  least m = Some (k, v) →
  prog_steps m (room_for_one before cap keep) m (_ ← dm_remove k; Ret tt).
Proof.
  intros Hfull Hlive Hk. apply Nat.leb_le in Hfull.
  assert (filter (λ kv, keep kv.2 = true) m = m) as Hf
    by (apply map_filter_id; intros j u Hj; by apply (Hlive j)).
  eapply (steps_bind_alone _ _ _ _ _ (λ m' l, m' = m ∧ (cap <=? l) = true)); [by apply alone_len|].
  intros ? l [-> ->].
  eapply (steps_bind_alone _ _ _ _ _ (λ m' _, m' = m)); [by apply alone_retain|]. intros ? _ ->.
  eapply (steps_bind_alone _ _ _ _ _ (λ m' l, m' = m ∧ (cap <=? l) = true)); [by apply alone_len|].
  intros ? l' [-> ->].
  eapply (steps_bind_alone _ _ _ _ _ (λ m' es, m' = m ∧ min_by before es = Some (k, v))).
  - apply alone_iter. intros es Hes. by rewrite (least_any_order _ _ Hes).
  - intros ? es [-> ->]. constructor.
Qed.
End bounded_alone.
