(* ===== verification/Locks.v ===== *)
(** * Waiting for a map

    What the locks of the maps add to the interleavings of [sys_step]: a call
    that needs a guard waits for the calls that hold one it conflicts with, and
    goes on waiting for ever where none of them goes on. [locked_step] is a
    system of calls with the guards they hold; its runs are runs of [sys_step],
    so that whatever is proved of those holds of it. [guarded] is the discipline
    under which nothing waits for ever: a call touches a map only under a guard,
    changes it only under an exclusive one, and takes no guard and makes no other
    access while it holds one. *)

From S2P Require Import Prelude Interleave SharedMap.

(** ** Calls and the guards they hold *)

Section semantics.
Context {St R : Type}.

Abbreviation thread := (Prog St R * list guard)%type.
Implicit Types (t : thread) (ts : list thread) (g : guard).
Definition holds g ts : Prop := ∃ t, t ∈ ts ∧ g ∈ t.2.
Definition waits_for t : option guard :=
  match t.1 with Guard (Take g | Brief g) _ => Some g | _ => None end.
(** A lock that is free: exclusive access waits for every guard on the map,
    one's own included; shared access waits for an exclusive guard, and for who
    is already waiting for one. *)
Definition free g ts : Prop :=
  match g.1 with
  | Exclusive => ∀ m, ¬ holds (m, g.2) ts
  | Shared => ¬ holds (Exclusive, g.2) ts ∧
      ∀ t, t ∈ ts → waits_for t ≠ Some (Exclusive, g.2)
  end.
(** A call goes on: an access under the guard it holds, a guard taken, a guard
    dropped, or an access that needs one for its own duration. *)
Inductive locked_move : St * list thread → St * list thread → Prop :=
| MoveAccess s ts i p h s' p' : ts !! i = Some (p, h) →
    match p with Guard _ _ => False | _ => True end → prog_step s p s' p' →
    locked_move (s, ts) (s', <[i := (p', h)]> ts)
| MoveTake s ts i g k h : ts !! i = Some (Guard (Take g) k, h) → free g ts →
    locked_move (s, ts) (s, <[i := (k, g :: h)]> ts)
| MoveDrop s ts i g k h h' : ts !! i = Some (Guard (Drop g) k, h) → h ≡ₚ g :: h' →
    locked_move (s, ts) (s, <[i := (k, h')]> ts)
| MoveBrief s ts i g k h s' p' : ts !! i = Some (Guard (Brief g) k, h) → free g ts →
    prog_step s k s' p' → locked_move (s, ts) (s', <[i := (p', h)]> ts).
Inductive locked_step (calls : Prog St R → Prop) : St * list thread → St * list thread → Prop :=
| LockedStarts s ts p : calls p → locked_step calls (s, ts) (s, ts ++ [(p, [])])
| LockedMoves c c' : locked_move c c' → locked_step calls c c'.
(** The calls without their guards. *)
Definition unlocked (c : St * list thread) : config St R := (c.1, c.2.*1).

Lemma locked_move_erases calls c c' :
  locked_move c c' → sys_run calls (unlocked c) (unlocked c').
Proof.
  assert (∀ s ts i p h s' p' h', ts !! i = Some (p, h) → prog_steps s p s' p' →
    sys_run calls (s, ts.*1) (s', (<[i := (p', h')]> ts).*1)) as Hone.
  { intros s ts i p h s' p' h' Hi Hp. rewrite list_fmap_insert.
    eapply sys_run_one; [exact Hp|]. by rewrite list_lookup_fmap, Hi. }
  destruct 1 as [s ts i p h s' p' Hi _ Hp|s ts i g k h Hi|s ts i g k h h' Hi|
    s ts i g k h s' p' Hi _ Hp]; (eapply Hone; [exact Hi|]).
  - eapply StepsThen; [exact Hp|constructor].
  - eapply StepsThen; [by split|constructor].
  - eapply StepsThen; [by split|constructor].
  - eapply StepsThen; [by split|]. eapply StepsThen; [exact Hp|constructor].
Qed.
Lemma locked_run_erases calls c c' :
  rtc (locked_step calls) c c' → sys_run calls (unlocked c) (unlocked c').
Proof.
  induction 1 as [c|c c1 c2 Hst _ IH]; [constructor|]. etrans; [|exact IH].
  destruct Hst as [s ts p Hp|c c' Hm]; [|by apply locked_move_erases].
  apply rtc_once. unfold unlocked. cbn [fst snd]. rewrite fmap_app. by constructor.
Qed.
End semantics.

(** ** The discipline *)

Inductive Held : Type := Nothing | Holding (g : guard) | Needing (g : guard).
Definition allows {St A} (g : guard) (f : St → St * A) : Prop :=
  g.1 = Shared → ∀ s, (f s).1 = s.
Fixpoint guarded {St R} (h : Held) (p : Prog St R) (out : Held) : Prop :=
  match p with
  | Ret _ => h = out
  | Atomic f k =>
      match h with
      | Nothing => False
      | Holding g => allows g f ∧ ∀ a, guarded h (k a) out
      | Needing g => allows g f ∧ ∀ a, guarded Nothing (k a) out
      end
  | Choose may k =>
      match h with
      | Needing _ => False
      | _ => (∀ s, ∃ a, may s a) ∧ ∀ a, guarded h (k a) out
      end
  | Guard e k =>
      match e, h with
      | Take g, Nothing => guarded (Holding g) k out
      | Drop g, Holding g' => g = g' ∧ guarded Nothing k out
      | Brief g, Nothing => guarded (Needing g) k out
      | _, _ => False
      end
  end.
Abbreviation orderly p := (guarded Nothing p Nothing).

Section discipline.
Context {St : Type}.

Lemma guarded_bind {A B} h (p : Prog St A) h' (f : A → Prog St B) out :
  guarded h p h' → (∀ a, guarded h' (f a) out) → guarded h (p ≫= f) out.
Proof.
  intros Hp Hf. revert h Hp. induction p as [r|X g k IH|X may k IH|e k IH]; intros h; cbn.
  - by intros ->.
  - destruct h; [done|..]; (intros [? Hk]; split; [done|]); eauto.
  - destruct h; [..|done]; (intros [? Hk]; split; [done|]); eauto.
  - destruct e, h; try done; [apply IH| |apply IH]. intros [-> Hk]. split; [done|]. by apply IH.
Qed.
Lemma orderly_bind {A B} (p : Prog St A) (f : A → Prog St B) :
  orderly p → (∀ a, orderly (f a)) → orderly (p ≫= f).
Proof. apply guarded_bind. Qed.
Lemma orderly_ret {A} (a : A) : orderly (Ret a : Prog St A).
Proof. done. Qed.
Lemma orderly_brief {A} m (f : St → St * A) : allows (m, 0) f → orderly (brief m f).
Proof. by split. Qed.
Lemma orderly_under {A} m (p : Prog St A) :
  guarded (Holding (m, 0)) p (Holding (m, 0)) → orderly (under m p).
Proof. intros Hp. cbn. eapply guarded_bind; [exact Hp|]. by intros a. Qed.
Lemma guarded_for_each {K} h (body : K → Prog St unit) ks :
  (∀ k, guarded h (body k) h) → guarded h (for_each body ks) h.
Proof. intros Hb. induction ks as [|k ks IH]; [done|]. by eapply guarded_bind. Qed.
Lemma guarded_filter_each {K A} h (body : K → Prog St (option A)) ks :
  (∀ k, guarded h (body k) h) → guarded h (filter_each body ks) h.
Proof.
  intros Hb. induction ks as [|k ks IH]; [done|]. eapply guarded_bind; [done|]. intros o.
  by eapply guarded_bind.
Qed.
(** The same guards on the map of another number. *)
Definition renumbered_held (n : nat) (h : Held) : Held :=
  match h with
  | Nothing => Nothing
  | Holding g => Holding (g.1, n)
  | Needing g => Needing (g.1, n)
  end.
Lemma guarded_zoom {S R} n (get : S → St) put h (p : Prog St R) out :
  (∀ s, put (get s) s = s) → guarded h p out →
  guarded (renumbered_held n h) (zoom n get put p) (renumbered_held n out).
Proof.
  intros Hpg. assert (∀ g A (f : St → St * A), allows g f →
    allows (g.1, n) (λ s, (put (f (get s)).1 s, (f (get s)).2))) as Hal.
  { intros g A f Hf Hs s. cbn [fst] in *. by rewrite Hf. }
  revert h. induction p as [r|A f k IH|A may k IH|e k IH]; intros h; cbn.
  - by intros ->.
  - destruct h; [done|..]; (intros [? Hk]; split; [by apply Hal|]); intros a;
      [by apply (IH a (Holding g))|by apply (IH a Nothing)].
  - destruct h; [..|done]; (intros [He Hk]; split; [intros s; apply He|]); intros a;
      [by apply (IH a Nothing)|by apply (IH a (Holding g))].
  - destruct e, h; try done; cbn; [apply (IH (Holding _))| |apply (IH (Needing _))].
    intros [-> Hk]. split; [done|]. by apply (IH Nothing).
Qed.
Lemma orderly_zoom {S R} n (get : S → St) put (p : Prog St R) :
  (∀ s, put (get s) s = s) → orderly p → orderly (zoom n get put p).
Proof. intros Hpg. by apply (guarded_zoom n get put Nothing p Nothing). Qed.
End discipline.

(** ** The accesses to a map are orderly *)

Section dashmap.
Context {V : Type} `{Shards}.
Lemma orderly_get k : orderly (dm_get k : Prog (shared V) _).
Proof. by apply orderly_under. Qed.
Lemma orderly_contains_key k : orderly (dm_contains_key k : Prog (shared V) _).
Proof. by apply orderly_brief. Qed.
Lemma orderly_insert k (v : V) : orderly (dm_insert k v).
Proof. by apply orderly_brief. Qed.
Lemma orderly_remove k : orderly (dm_remove k : Prog (shared V) _).
Proof. by apply orderly_brief. Qed.
Lemma orderly_len : orderly (dm_len : Prog (shared V) _).
Proof.
  assert (∀ fuel i acc, orderly (len_from fuel i acc : Prog (shared V) _)) as Hl; [|apply Hl].
  induction fuel as [|fuel IH]; intros i acc; [done|]. eapply guarded_bind; [by apply orderly_brief|].
  intros n. apply IH.
Qed.
Lemma orderly_retain (keep : V → bool) : orderly (dm_retain keep).
Proof.
  split; [apply walk_exists|]. intros ks. apply guarded_for_each. intros k. by apply orderly_brief.
Qed.
Lemma orderly_iter : orderly (dm_iter : Prog (shared V) _).
Proof.
  apply orderly_under. split; [apply walk_exists|]. intros ks. by apply guarded_filter_each.
Qed.
Lemma orderly_room before cap (keep : V → bool) : orderly (room_for_one before cap keep).
Proof.
  apply orderly_bind; [apply orderly_len|]. intros l. destruct (_ <=? _); [|done].
  apply orderly_bind; [apply orderly_retain|]. intros _.
  apply orderly_bind; [apply orderly_len|]. intros l'. destruct (_ <=? _); [|done].
  apply orderly_bind; [apply orderly_iter|]. intros es. destruct (min_by _ _) as [[k v]|]; [|done].
  by apply orderly_bind; [apply orderly_remove|].
Qed.
End dashmap.
Create HintDb orderly.
#[export] Hint Resolve orderly_ret orderly_get orderly_contains_key orderly_insert orderly_remove
  orderly_len orderly_retain orderly_iter orderly_room : orderly.
(** A guard kept over a removal: the call waits for itself. *)
Example guard_kept_over_removal {V} `{Shards} (m : shared V) k :
  let p := Guard (Take (Shared, 0)) (_ ← dm_remove k; Guard (Drop (Shared, 0)) (Ret tt)) in
  ∃ c, locked_move (m, [(p, [])]) c ∧ nf locked_move c.
Proof.
  eexists. split.
  - eapply (MoveTake m _ 0); [done|]. split; [|by intros t ->%list_elem_of_singleton].
    intros (t & ->%list_elem_of_singleton & Hg). by apply not_elem_of_nil in Hg.
  - intros [c Hm]. inversion Hm as [? ? i p h ? p' Hi Hn|? ? i g k' h Hi|? ? i g k' h h' Hi|
      ? ? i g k' h ? p' Hi Hf]; destruct i; try done; injection Hi; intros; simplify_eq; [done|].
    destruct (Hf Shared). eexists. split; [by left|]. by left.
Qed.
(** Follow the code down to the accesses the database knows. *)
Ltac keep_order :=
  repeat first [solve [auto with orderly]|apply orderly_bind|case_match|intros ?].

(** ** Nothing waits for ever

    Where every call is orderly, some call can go on as long as one is not over:
    if none is inside an access or under a guard, nobody holds anything, and then
    whoever waits for exclusive access may go, or else whoever waits at all. And
    a call takes finitely many steps, so that all of them end. *)

Section progress.
Context {St R : Type}.
Abbreviation thread := (Prog St R * list guard)%type.
Implicit Types (t : thread) (ts : list thread) (p : Prog St R).

Definition in_order t : Prop :=
  (guarded Nothing t.1 Nothing ∧ t.2 = []) ∨ ∃ g, guarded (Holding g) t.1 Nothing ∧ t.2 = [g].
(** Over, waiting, or able to move whatever the others do. *)
Definition waiting t : bool :=
  match t.1 with Ret _ | Guard (Take _ | Brief _) _ => true | _ => false end.
Definition wants_exclusive t : bool :=
  match waits_for t with Some (Exclusive, _) => true | _ => false end.

Lemma in_order_waiting t : in_order t → waiting t = true → t.2 = [].
Proof. destruct t as [[r|A f k|A may k|[g'|g'|g'] k] h]; intros [[_ ?]|(g & Hg & _)]; try done. Qed.
Lemma in_order_acts s ts i t : ts !! i = Some t → in_order t → waiting t = false →
  ∃ c, locked_move (s, ts) c.
Proof.
  intros Hi Ho Hw. destruct t as [[r|A f k|A may k|[g|g|g] k] h]; try done.
  - eexists. by eapply MoveAccess.
  - assert (∃ a, may s a) as [a Ha] by (destruct Ho as [[[He _] _]|(g & [He _] & _)]; apply He).
    eexists. eapply MoveAccess; [exact Hi|done|by exists a].
  - destruct Ho as [[[] _]|(g' & [<- _] & Hh)]. cbn in Hh. eexists. eapply MoveDrop; [exact Hi|].
    by rewrite Hh.
Qed.
(** A call that needs a free lock goes on. *)
Lemma in_order_goes s ts i t g : ts !! i = Some t → in_order t → waits_for t = Some g →
  free g ts → ∃ c, locked_move (s, ts) c.
Proof.
  intros Hi Ho Hw Hf. destruct t as [[r|A f k|A may k|[g'|g'|g'] k] h]; try done; injection Hw as ->.
  - eexists. by eapply MoveTake.
  - destruct Ho as [[Hg _]|(g' & Hg & _)]; [|done]. cbn in Hg.
    destruct k as [r|A f k|A may k|e k]; try done; [|by destruct e].
    eexists. eapply MoveBrief; [exact Hi|done|by split].
Qed.
Lemma orderly_progress s ts : Forall in_order ts → Exists (λ t, finished t.1 = None) ts →
  ∃ c, locked_move (s, ts) c.
Proof.
  intros Hall Hsome.
  destruct (decide (Exists (λ t, waiting t = false) ts)) as [Hact|Hact].
  { apply Exists_exists in Hact as (t & [i Hi]%list_elem_of_lookup & Hw).
    eapply in_order_acts; [exact Hi|by eapply Forall_lookup_1|done]. }
  assert (∀ t, t ∈ ts → waiting t = true) as Hw.
  { intros t Ht. destruct (waiting t) eqn:E; [done|]. destruct Hact. apply Exists_exists. eauto. }
  assert (∀ g, ¬ holds g ts) as Hnone.
  { intros g (t & Ht & Hg). rewrite (in_order_waiting t) in Hg; [by apply not_elem_of_nil in Hg| |by apply Hw].
    by eapply Forall_forall. }
  destruct (decide (Exists (λ t, wants_exclusive t = true) ts)) as [Hex|Hex].
  - apply Exists_exists in Hex as (t & [i Hi]%list_elem_of_lookup & He).
    unfold wants_exclusive in He. destruct (waits_for t) as [[[] l]|] eqn:Et; try done.
    eapply in_order_goes; [exact Hi|by eapply Forall_lookup_1|exact Et|]. intros m. apply Hnone.
  - apply Exists_exists in Hsome as (t & Hin & Hf).
    pose proof Hin as [i Hi]%list_elem_of_lookup.
    assert (∃ g, waits_for t = Some g) as [g Hg].
    { specialize (Hw t Hin). destruct t as [[r|A f k|A may k|[g|g|g] k] h]; try done; by exists g. }
    eapply in_order_goes; [exact Hi|by eapply Forall_lookup_1|exact Hg|].
    destruct g as [[] l]; [|by intros m].
    split; [apply Hnone|]. intros t' Ht' He. destruct Hex. apply Exists_exists. exists t'.
    split; [done|]. unfold wants_exclusive. by rewrite He.
Qed.

Lemma in_order_moves c c' : locked_move c c' → Forall in_order c.2 → Forall in_order c'.2.
Proof.
  destruct 1 as [s ts i p h s' p' Hi Hng Hp|s ts i g k h Hi Hf|s ts i g k h h' Hi Hh|
    s ts i g k h s' p' Hi Hf Hp]; cbn [snd]; intros Hall; (apply Forall_insert; [done|]);
    pose proof (Forall_lookup_1 _ _ _ _ Hall Hi) as Ho; clear Hall.
  - destruct p as [r|A f k|A may k|e k]; [done|..|done].
    + destruct Hp as [_ ->]. destruct Ho as [[[] _]|(g & [_ Hk] & Hh)]. right. exists g.
      split; [apply Hk|exact Hh].
    + destruct Hp as (a & _ & _ & ->). destruct Ho as [[[_ Hk] Hh]|(g & [_ Hk] & Hh)];
        [left|right; exists g]; (split; [apply Hk|exact Hh]).
  - destruct Ho as [[Hg Hh]|(g' & Hg & _)]; [|done]. cbn in Hh. subst h. right. by exists g.
  - destruct Ho as [[[] _]|(g' & [<- Hg] & Hg')]. cbn in Hg'. rewrite Hg' in Hh.
    apply Permutation_singleton_l in Hh. injection Hh as Hh. left. by split.
  - destruct Ho as [[Hg Hh]|(g' & Hg & _)]; [|done]. cbn in Hg, Hh.
    destruct k as [r|A f k|A may k|e k]; try done; [|by destruct e].
    destruct Hp as [_ ->], Hg as [_ Hk]. left. split; [apply Hk|done].
Qed.

Definition moves p p' : Prop := ∃ s s', prog_step s p s' p'.
Lemma moves_end p : sn moves p.
Proof.
  induction p as [r|A f k IH|A may k IH|e k IH]; constructor; intros p' (s & s' & Hst); cbn in Hst;
    [done|..].
  - destruct Hst as [_ ->]. apply IH.
  - destruct Hst as (a & _ & _ & ->). apply IH.
  - destruct Hst as [_ ->]. apply IH.
Qed.
Lemma sn_tc {X} (rel : relation X) x : sn rel x → sn (tc rel) x.
Proof.
  induction 1 as [x _ IH]. constructor. intros y Hxy.
  destruct Hxy as [x y Hxy|x z y Hxz Hzy]; [by apply IH|]. by apply (IH z Hxz).
Qed.
Definition thread_moves t t' : Prop := tc moves t.1 t'.1.
Lemma thread_moves_end t : sn thread_moves t.
Proof.
  destruct t as [p h]. revert h. induction (sn_tc _ _ (moves_end p)) as [p _ IH]. intros h.
  constructor. intros [p' h'] Hm. by apply IH.
Qed.
Definition list_moves ts ts' : Prop :=
  ∃ i t t', ts !! i = Some t ∧ thread_moves t t' ∧ ts' = <[i := t']> ts.
Lemma list_moves_end ts : sn list_moves ts.
Proof.
  induction ts as [|t ts IHts]; [by constructor; intros ts' (i & t & t' & Hi & _)|].
  revert ts IHts. induction (thread_moves_end t) as [t _ IHt]. intros ts IHts.
  induction IHts as [ts Hts IHts]. constructor. intros ts' ([|i] & u & u' & Hi & Hu & ->).
  - injection Hi as ->. apply IHt; [done|]. by constructor.
  - apply IHts. by exists i, u, u'.
Qed.
Lemma locked_move_ends s ts : sn locked_move (s, ts).
Proof.
  revert s. induction (list_moves_end ts) as [ts _ IH]. intros s. constructor. intros [s2 ts2] Hm.
  assert (list_moves ts ts2) as Hl; [|by apply IH].
  inversion Hm as [? ? i p h ? p' Hi _ Hp|? ? i g k h Hi|? ? i g k h h' Hi|
    ? ? i g k h ? p' Hi _ Hp]; simplify_eq; eexists i, _, _; (split; [exact Hi|]); (split; [|done]).
  - apply tc_once. by exists s, s2.
  - apply tc_once. by exists s2, s2.
  - apply tc_once. by exists s2, s2.
  - eapply tc_l; [by exists s, s|]. apply tc_once. by exists s, s2.
Qed.

(** However orderly calls have started and interleaved: they cannot go on for
    ever, and where they can go no further each of them has returned. *)
Lemma orderly_returns (calls : Prog St R → Prop) s c : (∀ p, calls p → orderly p) →
  rtc (locked_step calls) (s, []) c →
  sn locked_move c ∧
  ∀ c', rtc locked_move c c' → nf locked_move c' →
    ∃ rs, c'.2 = map (λ r, (Ret r, [])) rs ∧ length rs = length c.2.
Proof.
  intros Hcalls Hrun. destruct c as [s1 ts]. split; [apply locked_move_ends|].
  assert (Forall in_order (s1, ts).2) as Hts.
  { remember (s, []) as c0 eqn:E0. assert (Forall in_order c0.2) as H0 by by subst.
    clear E0. induction Hrun as [|c c1 c2 Hst _ IH]; [done|]. apply IH.
    destruct Hst as [s2 ts2 p Hp|c c' Hm]; [|by eapply in_order_moves].
    apply Forall_app. split; [done|]. apply List.Forall_cons; [|constructor].
    left. split; [by apply Hcalls|done]. }
  intros [s' ts'] Hr Hnf.
  assert (Forall in_order ts') as Hts'.
  { change ts' with ((s', ts').2). clear Hnf Hrun. revert Hts.
    induction Hr as [c|c c1 c2 Hm _ IH]; [done|]. intros Hc. apply IH. by eapply in_order_moves. }
  assert (¬ Exists (λ t, finished t.1 = None) ts') as Hfin
    by (intros Hex; destruct Hnf; by apply orderly_progress).
  assert (length ts' = length ts) as Hlen.
  { clear -Hr. change (length (s', ts').2 = length (s1, ts).2).
    induction Hr as [c|c c1 c2 Hm _ IH]; [done|]. rewrite IH.
    destruct Hm; cbn [snd]; by rewrite length_insert. }
  cbn [snd]. rewrite <- Hlen. clear -Hts' Hfin. induction ts' as [|t ts IH]; [by exists []|].
  apply Forall_cons in Hts' as [Ht Hts].
  destruct IH as (rs & -> & _); [done|by intros ?; destruct Hfin; right|].
  destruct t as [[r|A f k|A may k|e k] h]; [|by destruct Hfin; left..].
  exists (r :: rs). rewrite <- (in_order_waiting _ Ht eq_refl : h = []). split; [done|].
  cbn [length]. by rewrite length_map.
Qed.
End progress.
