(* ===== verification/Crates.v ===== *)
(** * The crates the program calls

    One class per third-party crate: the functions the sources call, over the
    types they pass. Nothing here is a definition of those functions; a class
    of laws next to the operations states the documented behaviour the
    theorems rely on, and [Fixtures] instantiates the classes with concrete
    functions. Errors of the crates appear in the program only through their
    [Display] text, so an error is that text. *)

From S2P Require Import Prelude.

(** The Cargo feature [did-aqua] of the crate itself. *)
Class Features := { did_aqua : bool }.

(** The build profile: whether integer overflow is checked ([debug]) or wraps
    ([release]). *)
Class Profile := { overflow_checks : bool }.

(** ** Text codecs *)

(** [hex]: [hex::encode], [hex::decode]. *)
Class Hex := {
  hex_encode : bytes → string;
  hex_decode : string → result bytes string;
}.
Definition is_lower_hex (c : ascii) : bool :=
  is_digit c || in_range 97 102 c.
Class HexLaws `{Hex} : Prop := {
  hex_decode_encode b : hex_decode (hex_encode b) = Ok b;
  hex_encode_digits b : str_forallb is_lower_hex (hex_encode b) = true;
  hex_encode_length b : String.length (hex_encode b) = 2 * length b;
  hex_decode_length s b : hex_decode s = Ok b → String.length s = 2 * length b;
  hex_decode_case s t b :
    to_lower s = to_lower t → hex_decode s = Ok b → hex_decode t = Ok b;
  hex_decode_digits s b :
    hex_decode s = Ok b → str_forallb is_lower_hex (to_lower s) = true;
}.

(** [bs58]: base58btc, [bs58::encode(..).into_string()] and
    [bs58::decode(..).into_vec()]. *)
Class Base58 := {
  bs58_encode : bytes → string;
  bs58_decode : string → result bytes string;
}.
(** The alphabet leaves out [0], [O], [I] and [l]. *)
Definition is_base58 (c : ascii) : bool :=
  is_alnum c && negb (existsb (Ascii.eqb c) ["0"; "O"; "I"; "l"]%char).
Class Base58Laws `{Base58} : Prop := {
  bs58_decode_encode b : bs58_decode (bs58_encode b) = Ok b;
  (** base58btc has one spelling per byte string. *)
  bs58_encode_decode s b : bs58_decode s = Ok b → bs58_encode b = s;
  bs58_encode_alphabet b : str_forallb is_base58 (bs58_encode b) = true;
  bs58_encode_34_len b : length b = 34 → b !! 0%nat = Some Byte.x12 →
    String.length (bs58_encode b) = 46;
}.

Lemma bs58_encode_alnum `{Base58Laws} b : str_forallb is_alnum (bs58_encode b) = true.
Proof.
  eapply str_forallb_impl; [|apply bs58_encode_alphabet]. intros c Hc.
  by apply andb_true_iff in Hc as [? _].
Qed.

(** [base64]: the engine [URL_SAFE_NO_PAD] and the padding-indifferent
    engine [B64URL]; both encode without padding. *)
Class Base64 := {
  b64url_encode : bytes → string;
  b64url_decode_no_pad : string → result bytes string;
  b64url_decode_any_pad : string → result bytes string;
}.
Definition is_b64url (c : ascii) : bool :=
  is_alnum c || (code c =? 45)%N || (code c =? 95)%N.
Class Base64Laws `{Base64} : Prop := {
  b64url_no_pad_encode b : b64url_decode_no_pad (b64url_encode b) = Ok b;
  b64url_any_pad_encode b : b64url_decode_any_pad (b64url_encode b) = Ok b;
  b64url_encode_chars b : str_forallb is_b64url (b64url_encode b) = true;
}.

(** ** Hashes: [sha2::Sha256], [sha3::Keccak256], [sha3::Sha3_256] *)
Class Hashes := {
  sha256 : bytes → bytes;
  keccak256 : bytes → bytes;
  sha3_256 : bytes → bytes;
}.
Class HashesLaws `{Hashes} : Prop := {
  sha256_length b : length (sha256 b) = 32;
  keccak256_length b : length (keccak256 b) = 32;
  sha3_256_length b : length (sha3_256 b) = 32;
}.
(** These two inputs differ and have one digest. *)
Definition collides (h : bytes → bytes) (x y : bytes) : Prop := x ≠ y ∧ h x = h y.

(** ** Curves and signatures *)

(** [curve25519_dalek] and [ed25519_dalek]. *)
Class Ed25519 := {
  ed_point : Type;
  ed_key : Type;
  ed_sig : Type;
  ed_decompress : bytes → option ed_point;
  ed_compress : ed_point → bytes;
  ed_torsion_free : ed_point → bool;
  ed_key_from_bytes : bytes → result ed_key string;
  ed_is_weak : ed_key → bool;
  ed_sig_from_slice : bytes → result ed_sig string;
  ed_verify_strict : ed_key → bytes → ed_sig → bool;
}.

(** [p256] and [ecdsa]. *)
Class P256 := {
  p256_point : Type;
  p256_key : Type;
  p256_sig : Type;
  (** [EncodedPoint::from_bytes]: any SEC1 encoding. *)
  p256_point_from_bytes : bytes → result p256_point string;
  p256_key_from_point : p256_point → result p256_key string;
  (** [PublicKey::from_sec1_bytes(..).is_ok()]. *)
  p256_sec1_valid : bytes → bool;
  (** [to_encoded_point(true).as_bytes()]. *)
  p256_compressed : p256_key → bytes;
  p256_sig_from_der : bytes → result p256_sig string;
  p256_sig_from_slice : bytes → result p256_sig string;
  p256_verify : p256_key → bytes → p256_sig → bool;
  (** [normalize_s]: [None] when [s] is already low. *)
  p256_normalize_s : p256_sig → option p256_sig;
  (** [recover_from_prehash] with [RecoveryId::new(y_odd, false)]. *)
  p256_recover : bytes → p256_sig → bool → result p256_key string;
  (** [PublicKey::from_public_key_der]. *)
  p256_key_from_spki : bytes → result p256_key string;
}.
Class P256Laws `{P256} : Prop := {
  p256_compressed_length k : length (p256_compressed k) = 33;
  p256_compressed_valid k : p256_sec1_valid (p256_compressed k) = true;
  p256_compressed_inj k k' : p256_compressed k = p256_compressed k' → k = k';
}.

(** Recovery checks the key it returns; the two parities give distinct keys; a
    signature and its low-[s] form verify alike. *)
Class P256RecoverLaws `{P256, Hashes} : Prop := {
  p256_recover_verifies m s odd k :
    p256_recover (sha256 m) s odd = Ok k → p256_verify k m s = true;
  p256_recover_distinct h s k k' :
    p256_recover h s false = Ok k → p256_recover h s true = Ok k' → k ≠ k';
  p256_normalize_verify k m s s' :
    p256_normalize_s s = Some s' → p256_verify k m s' = p256_verify k m s;
}.

(** [k256]. *)
Class K256 := {
  k256_sig : Type;
  k256_key : Type;
  k256_recid : Type;
  k256_recid_from_byte : Z → option k256_recid;
  k256_sig_from_slice : bytes → result k256_sig string;
  k256_recover : bytes → k256_sig → k256_recid → result k256_key string;
  (** [to_encoded_point(false).as_bytes()]. *)
  k256_uncompressed : k256_key → bytes;
}.

(** [ml_dsa], at ML-DSA-87. *)
Class MlDsa := {
  mldsa_vk : Type;
  mldsa_sig : Type;
  mldsa_vk_decode : bytes → mldsa_vk;
  mldsa_sig_decode : bytes → option mldsa_sig;
  mldsa_verify_with_context : mldsa_vk → bytes → bytes → mldsa_sig → bool;
}.

(** ** URLs: [url::Url] *)
Class Urls := {
  url : Type;
  url_parse : string → result url string;
  url_scheme : url → string;
  url_username : url → string;
  url_password : url → option string;
  url_host_str : url → option string;
  url_port_or_known_default : url → option Z;
  url_path : url → string;
  url_query : url → option string;
  url_fragment : url → option string;
  (** [origin().ascii_serialization()]. *)
  url_origin : url → string;
}.

(** A scheme starts with a letter, and the parser has lowercased it; a parsed
    port is a [u16]. *)
Class UrlsLaws `{Urls} : Prop := {
  url_scheme_letter u :
    match url_scheme u with String c _ => is_lower c | EmptyString => false end = true;
  url_scheme_lower u : to_lower (url_scheme u) = url_scheme u;
  url_port_range u p : url_port_or_known_default u = Some p → (0 ≤ p < 65536)%Z;
}.

(** ** Everything outside the program: remote servers, key custody *)
Class World := { world : Type }.

(** ** HTTP: [reqwest]. Sending a request changes the world. A response's body
    is read through [serde_json]. *)
Class Reqwest `{World} := {
  request : Type;
  response : Type;
  http_error : Type;
  rq_send : world → request → world * result response http_error;
  rs_status : response → Z;
  rs_error_for_status : response → result response http_error;
}.

(** ** RFC 8941 structured fields: [sfv] *)
Inductive bare_item : Type :=
| SfInteger (z : Z)
| SfString (s : string)
| SfBytes (b : bytes)
| SfOther (s : string).
Definition sf_params : Type := list (string * bare_item).
Record sf_item := { item_bare : bare_item; item_params : sf_params }.
Inductive list_entry : Type :=
| EntryItem (i : sf_item)
| EntryInnerList (items : list sf_item) (params : sf_params).
Definition sf_dict : Type := list (string * list_entry).
Class Sfv := {
  (** [Parser::new(header).parse::<Dictionary>()]. *)
  sfv_parse_dict : string → result sf_dict string;
  (** [ListSerializer] and [DictSerializer], fed the members in order;
      [None] when nothing was written. *)
  sfv_write_list : list list_entry → option string;
  sfv_write_dict : sf_dict → option string;
  (** [KeyRef::from_str], [StringRef::from_str], [Integer::try_from]. *)
  sfv_key : string → result string string;
  sfv_string : string → result string string;
  sfv_integer : Z → result Z string;
}.
(** The range RFC 8941 gives integers. *)
Definition sf_integer_max : Z := 999999999999999.
(** Values the crate's own types admit: keys, strings and integers that its
    constructors accept, and parameters with distinct keys. *)
Definition bare_ok `{Sfv} (b : bare_item) : Prop :=
  match b with
  | SfInteger z => sfv_integer z = Ok z
  | SfString s => sfv_string s = Ok s
  | SfBytes _ => True
  | SfOther _ => False
  end.
Definition params_ok `{Sfv} (ps : sf_params) : Prop :=
  NoDup ps.*1 ∧ Forall (λ kv, sfv_key kv.1 = Ok kv.1 ∧ bare_ok kv.2) ps.
Definition item_ok `{Sfv} (i : sf_item) : Prop :=
  bare_ok (item_bare i) ∧ params_ok (item_params i).
Definition entry_ok `{Sfv} (e : list_entry) : Prop :=
  match e with
  | EntryItem i => item_ok i
  | EntryInnerList items ps => Forall item_ok items ∧ params_ok ps
  end.
(** Printable text, as a header value is. *)
Definition printable : string → bool := str_forallb (in_range 32 126).
Class SfvLaws `{Sfv} : Prop := {
  sfv_key_same k k' : sfv_key k = Ok k' → k' = k;
  sfv_key_Ok c k : is_lower c = true →
    str_forallb (λ d, is_lower d || is_digit d) k = true →
    sfv_key (String c k) = Ok (String c k);
  sfv_string_same s s' : sfv_string s = Ok s' → s' = s;
  sfv_integer_same z z' : sfv_integer z = Ok z' → z' = z;
  (** The strings and integers that can be written: RFC 8941, 3.3.1 and 3.3.3. *)
  sfv_string_Ok s : sfv_string s = Ok s ↔ printable s = true;
  sfv_integer_Ok z : sfv_integer z = Ok z ↔ (- sf_integer_max ≤ z ≤ sf_integer_max)%Z;
  (** What one member serializes to is printable, has no space at its ends,
      and parses back to the member. *)
  sfv_write_dict_Some k e : sfv_key k = Ok k → entry_ok e →
    ∃ t, sfv_write_dict [(k, e)] = Some t;
  sfv_dict_round_trip k e t : sfv_key k = Ok k → entry_ok e →
    sfv_write_dict [(k, e)] = Some t →
    sfv_parse_dict t = Ok [(k, e)] ∧ trim t = t ∧ printable t = true;
  (** The same for lists, whose serialization is injective. *)
  sfv_write_list_Some e : entry_ok e → ∃ t, sfv_write_list [e] = Some t;
  sfv_write_list_printable e t :
    entry_ok e → sfv_write_list [e] = Some t → printable t = true;
  sfv_write_list_inj e e' t : entry_ok e → entry_ok e' →
    sfv_write_list [e] = Some t → sfv_write_list [e'] = Some t → e = e';
  (** A parser only yields integers of the RFC's range. *)
  sfv_parse_integers t d k items ps n z : sfv_parse_dict t = Ok d →
    (k, EntryInnerList items ps) ∈ d → (n, SfInteger z) ∈ ps →
    (- sf_integer_max ≤ z ≤ sf_integer_max)%Z;
}.

(** ** JSON: [serde_json] *)
Inductive json : Type :=
| JNull
| JBool (b : bool)
| JNumber (s : string)
| JString (s : string)
| JArray (l : list json)
| JObject (members : list (string * json)).
(** [Value::as_u64], and a [u64] member: the digits of a number. *)
Definition as_u64_value (v : json) : option Z :=
  match v with
  | JNumber s =>
      if str_is_empty s then None
      else n ← digits_value 0 s; if (n <? u64_bound)%Z then Some n else None
  | _ => None
  end.
Lemma as_u64_number z : (0 ≤ z < u64_bound)%Z → as_u64_value (JNumber (show_Z z)) = Some z.
Proof.
  intros [Hz Hlt]. cbn [as_u64_value]. rewrite show_Z_nonempty, show_Z_value by done.
  cbn [mbind option_bind]. by rewrite (proj2 (Z.ltb_lt _ _) Hlt).
Qed.
(** [as_i64]: a minus sign and the digits of no zero, or an [as_u64] in range. *)
Definition as_i64_value (v : json) : option Z :=
  match v with
  | JNumber s =>
      match strip_prefix "-" s with
      | Some digits =>
          if str_is_empty digits then None
          else n ← digits_value 0 digits;
            if ((0 <? n) && (n <=? - i64_min))%Z then Some (- n)%Z else None
      | None => n ← as_u64_value v; if (n <=? i64_max)%Z then Some n else None
      end
  | _ => None
  end.
Lemma as_i64_number z : (i64_min ≤ z ≤ i64_max)%Z → as_i64_value (JNumber (show_Z z)) = Some z.
Proof.
  unfold i64_min, i64_max. intros Hz. unfold as_i64_value. destruct (decide (0 ≤ z)%Z).
  - rewrite show_Z_no_minus by done. rewrite as_u64_number by (unfold u64_bound; lia).
    cbn [mbind option_bind]. rewrite (proj2 (Z.leb_le _ _)); [done|unfold i64_max; lia].
  - rewrite show_Z_minus, strip_prefix_app by lia.
    rewrite show_Z_nonempty, show_Z_value by lia. cbn [mbind option_bind].
    rewrite (proj2 (Z.ltb_lt _ _)), (proj2 (Z.leb_le _ _)) by (unfold i64_min; lia).
    cbn [andb]. f_equal. lia.
Qed.
(** The members of one name, and what a derived reader makes of them: a known
    member given twice is refused, an unknown one is skipped. *)
Definition members_named (name : string) (ms : list (string * json)) : list json :=
  map snd (List.filter (λ kv, String.eqb kv.1 name) ms).
Definition one_string (name : string) (ms : list (string * json)) : option string :=
  match members_named name ms with [JString s] => Some s | _ => None end.
(** An [Option<String>] that may be absent. *)
Definition optional_text (vs : list json) : option (option string) :=
  match vs with
  | [] | [JNull] => Some None
  | [JString s] => Some (Some s)
  | _ => None
  end.
Definition optional_string (name : string) (ms : list (string * json)) : option (option string) :=
  optional_text (members_named name ms).
Definition one_u64 (name : string) (ms : list (string * json)) : option Z :=
  match members_named name ms with [v] => as_u64_value v | _ => None end.
Definition one_value (name : string) (ms : list (string * json)) : option json :=
  match members_named name ms with [v] => Some v | _ => None end.
(** The members of a struct whose fields are all required, in the order of the
    struct: of an object by their names, or of an array by their places. *)
Definition fields_of (names : list string) (v : json) : option (list json) :=
  match v with
  | JObject ms => mapM (λ name, one_value name ms) names
  | JArray l => if length l =? length names then Some l else None
  | _ => None
  end.
(** [serde_json]'s readers. [json_document] is the document as the streaming
    deserializer of a typed value walks it: members in order, duplicates kept;
    [json_value] is [from_slice::<Value>]. [json_error] is the text of the error
    a typed reader gives. *)
Class Json := {
  json_document : bytes → result json string;
  json_value : bytes → result json string;
  json_error : bytes → string;
}.

(** [serde_json::to_string]. *)
Class JsonWrite := { json_to_string : json → result string string }.
(** Values without members of their own, numbers being unsigned integers. *)
Definition flat (v : json) : bool :=
  match v with
  | JNull | JBool _ | JString _ => true
  | JNumber s => negb (str_is_empty s) && str_forallb is_digit s
  | JArray _ | JObject _ => false
  end.
(** [map.insert(name, v)] and [value[name] = v] of an object, whose members
    are kept sorted by name. *)
Fixpoint insert_member (name : string) (v : json) (ms : list (string * json))
  : list (string * json) :=
  match ms with
  | [] => [(name, v)]
  | (k, x) :: ms' =>
      if String.eqb k name then (name, v) :: ms'
      else if String.ltb name k then (name, v) :: ms
      else (k, x) :: insert_member name v ms'
  end.
Definition json_insert (name : string) (v w : json) : json :=
  match w with JObject ms => JObject (insert_member name v ms) | _ => w end.
(** [json!({..})]. *)
Definition json_object (ms : list (string * json)) : json :=
  JObject (foldl (λ acc kv, insert_member kv.1 kv.2 acc) [] ms).
(** A member read as a [Value]: its objects keep one value for a name, the last
    given, in the order of the names. *)
Fixpoint as_value (v : json) : json :=
  match v with
  | JArray l => JArray (map as_value l)
  | JObject ms => json_object (map (λ kv, (kv.1, as_value kv.2)) ms)
  | _ => v
  end.
(** Text that JSON writes as it is, between quotes. *)
Definition plain_char (c : ascii) : bool :=
  in_range 32 126 c && negb (Ascii.eqb c "034") && negb (Ascii.eqb c "092").
Definition plain : string → bool := str_forallb plain_char.
(** The compact text of a value, and reading it back: an object whose names
    are distinct is read member by member in the order written, and is the
    value with those members. *)
Class JsonTextLaws `{Json, JsonWrite} : Prop := {
  json_text_string s : ∃ t, json_to_string (JString s) = Ok t;
  json_text_plain s : plain s = true → json_to_string (JString s) = Ok (quoted s);
  json_text_bool b : json_to_string (JBool b) = Ok (if b then "true" else "false");
  json_text_number s : json_to_string (JNumber s) = Ok s;
  json_text_object ms ts :
    Forall2 (λ kv t, ∃ k v, json_to_string (JString kv.1) = Ok k ∧
      json_to_string kv.2 = Ok v ∧ t = k +:+ ":" +:+ v) ms ts →
    json_to_string (JObject ms) = Ok ("{" +:+ String.concat "," ts +:+ "}");
  json_text_read ms t : NoDup ms.*1 → forallb flat ms.*2 = true →
    json_to_string (JObject ms) = Ok t →
    json_document (as_bytes t) = Ok (JObject ms) ∧
    ∃ ms', json_value (as_bytes t) = Ok (JObject ms') ∧ ms' ≡ₚ ms;
}.

(** ** Time: [chrono::DateTime<Utc>] *)
Class Chrono := {
  date_time : Type;
  (** [timestamp()], whole seconds. *)
  dt_timestamp : date_time → Z;
  (** [dt + Duration::seconds(s)]: both panic out of their ranges. *)
  dt_add_seconds : date_time → Z → run date_time;
  (** [format("%Y-%m-%dT%H:%M:%S%.3fZ")]. *)
  dt_format : date_time → string;
}.
Class ChronoLaws `{Chrono} : Prop := {
  dt_add_timestamp d s d' :
    dt_add_seconds d s = Returned d' → dt_timestamp d' = (dt_timestamp d + s)%Z;
  dt_format_graphic d : str_forallb graphic (dt_format d) = true;
  dt_timestamp_range d : (i64_min ≤ dt_timestamp d ≤ i64_max)%Z;
}.
