(* ===== verification/Fixtures.v ===== *)
(** * Concrete crates, for the witnesses and the examples

    Executable instances of the classes of [Crates] that satisfy their laws.
    Hex, base58btc, base64url and the time format are the real codecs; the
    hashes, the curves and the signatures are stand-ins that only share the
    shapes (lengths, partiality) of the real ones. Nothing outside the
    witnesses uses this file: the theorems hold for every instance. *)

From S2P Require Import Prelude Crates.

#[local] Abbreviation last := list.last.

(** ** Positional notation *)

(** Little-endian digits of [n], none for zero. *)
Fixpoint le_digits (fuel : nat) (base n : N) : list N :=
  match fuel with
  | O => []
  | S f => if (n =? 0)%N then [] else (n mod base)%N :: le_digits f base (n / base)%N
  end.
Definition le_value (base : N) (ds : list N) : N :=
  foldr (λ d acc, d + base * acc)%N 0%N ds.
Definition digits (base n : N) : list N := le_digits (N.to_nat (N.size n)) base n.

#[global] Arguments le_value : simpl never.
Lemma le_value_nil base : le_value base [] = 0%N.
Proof. done. Qed.
Lemma le_value_cons base d ds : le_value base (d :: ds) = (d + base * le_value base ds)%N.
Proof. done. Qed.

Lemma div_lt_pow base n p : (2 ≤ base)%N → (n < 2 * p)%N → (n / base < p)%N.
Proof.
  intros Hb Hn. apply N.Div0.div_lt_upper_bound.
  pose proof (N.mul_le_mono_r 2 base p Hb). lia.
Qed.

Lemma le_value_digits fuel base n :
  (2 ≤ base)%N → (n < 2 ^ N.of_nat fuel)%N → le_value base (le_digits fuel base n) = n.
Proof.
  intros Hb. revert n. induction fuel as [|f IH]; intros n Hn.
  - change (2 ^ N.of_nat 0)%N with 1%N in Hn. cbn [le_digits]. rewrite le_value_nil. lia.
  - cbn [le_digits]. destruct (N.eqb_spec n 0) as [->|Hne]; [done|].
    rewrite le_value_cons, IH; [symmetry; rewrite N.add_comm; apply N.div_mod; lia|].
    rewrite Nat2N.inj_succ, N.pow_succ_r' in Hn.
    by apply div_lt_pow.
Qed.
Lemma value_of_digits base n : (2 ≤ base)%N → le_value base (digits base n) = n.
Proof.
  intros Hb. apply le_value_digits; [done|]. rewrite N2Nat.id. apply N.size_gt.
Qed.
Definition digits_ok (base : N) (ds : list N) : Prop :=
  Forall (λ d, d < base)%N ds ∧ last ds ≠ Some 0%N.
Lemma le_digits_ok fuel base n :
  (2 ≤ base)%N → (n < 2 ^ N.of_nat fuel)%N → digits_ok base (le_digits fuel base n).
Proof.
  intros Hb. revert n. induction fuel as [|f IH]; intros n Hn; [by split|].
  cbn [le_digits]. destruct (N.eqb_spec n 0) as [->|Hne]; [by split|].
  rewrite Nat2N.inj_succ, N.pow_succ_r' in Hn.
  assert (n / base < 2 ^ N.of_nat f)%N as Hlt by by apply div_lt_pow.
  destruct (IH _ Hlt) as [Hall Hlast]. split.
  - constructor; [|done]. apply N.mod_lt. lia.
  - rewrite last_cons. destruct (last (le_digits f base (n / base))) eqn:E; [done|].
    apply last_None in E. intros [= Hz].
    pose proof (le_value_digits f base (n / base)%N Hb Hlt) as Hv. rewrite E, le_value_nil in Hv.
    pose proof (N.div_mod n base). lia.
Qed.
Lemma digits_digits_ok base n : (2 ≤ base)%N → digits_ok base (digits base n).
Proof. intros Hb. apply le_digits_ok; [done|]. rewrite N2Nat.id. apply N.size_gt. Qed.
(** Canonical digits are determined by their value. *)
Lemma le_value_inj base ds ds' :
  (2 ≤ base)%N → digits_ok base ds → digits_ok base ds' →
  le_value base ds = le_value base ds' → ds = ds'.
Proof.
  intros Hb. revert ds'. induction ds as [|d ds IH]; intros ds' [Ha Hl] [Ha' Hl'] Hv.
  - assert (∀ l, digits_ok base l → le_value base l = 0%N → l = []) as Hz.
    { clear -Hb. induction l as [|d l IH]; [done|]. intros [Ha Hl] Hv.
      inversion Ha; subst. rewrite le_value_cons in Hv. assert (le_value base l = 0%N) as Hl0 by nia.
      assert (l = []) as ->.
      { apply IH; [|done]. split; [done|]. rewrite last_cons in Hl. by destruct (last l). }
      exfalso. apply Hl. cbn. f_equal. rewrite le_value_nil in Hv. lia. }
    symmetry. apply Hz; [by split|]. by rewrite <- Hv.
  - destruct ds' as [|d' ds'].
    + exfalso. clear IH Hl' Ha'. rewrite le_value_cons, le_value_nil in Hv. revert d Ha Hl Hv.
      induction ds as [|e ds IH]; intros d Ha Hl Hv.
      * rewrite le_value_nil in Hv. apply Hl. cbn. f_equal. lia.
      * inversion Ha; subst. apply (IH e); [done| |rewrite le_value_cons in Hv; nia].
        intros Hl0. apply Hl. by rewrite last_cons, Hl0.
    + inversion Ha; inversion Ha'; subst. rewrite !le_value_cons in Hv.
      assert (d = d' ∧ le_value base ds = le_value base ds') as [-> Hv'].
      { pose proof (N.div_mod_unique base (le_value base ds) (le_value base ds') d d').
        lia. }
      f_equal. apply IH; [split; [done|]|split; [done|]|done]; intros Hx;
        [apply Hl|apply Hl']; by rewrite last_cons, Hx.
Qed.
Lemma le_value_app base a b :
  le_value base (a ++ b) = (le_value base a + base ^ N.of_nat (length a) * le_value base b)%N.
Proof.
  induction a as [|d a IH].
  - cbn [app length]. rewrite le_value_nil. change (base ^ N.of_nat 0)%N with 1%N. lia.
  - cbn [app length]. rewrite !le_value_cons, IH, Nat2N.inj_succ, N.pow_succ_r'. lia.
Qed.
Lemma le_value_upper base ds :
  Forall (λ d, d < base)%N ds → (le_value base ds < base ^ N.of_nat (length ds))%N.
Proof.
  induction 1 as [|d ds Hd Hall IH]; [by cbn|].
  rewrite le_value_cons. cbn [length]. rewrite Nat2N.inj_succ, N.pow_succ_r'.
  pose proof (N.mul_le_mono_l (N.succ (le_value base ds)) _ base (proj2 (N.le_succ_l _ _) IH)).
  lia.
Qed.
Lemma le_value_lower base ds d :
  (0 < d)%N → (base ^ N.of_nat (length ds) ≤ le_value base (ds ++ [d]))%N.
Proof.
  intros Hd. rewrite le_value_app, le_value_cons, le_value_nil.
  pose proof (N.mul_le_mono_l 1 d (base ^ N.of_nat (length ds))). lia.
Qed.

(** Leading zeros, and the rest. *)
Fixpoint split_zeros (ds : list N) : nat * list N :=
  match ds with
  | 0%N :: ds' => let '(z, r) := split_zeros ds' in (S z, r)
  | _ => (0, ds)
  end.
(** Big-endian digits in base [b] to base [b'], leading zeros kept. *)
Definition rebase (b b' : N) (ds : list N) : list N :=
  let '(z, r) := split_zeros ds in
  replicate z 0%N ++ reverse (digits b' (le_value b (reverse r))).
Lemma split_zeros_app z r :
  head r ≠ Some 0%N → split_zeros (replicate z 0%N ++ r) = (z, r).
Proof.
  intros Hr. induction z as [|z IH]; cbn; [|by rewrite IH].
  destruct r as [|[|p] r]; done.
Qed.
Lemma split_zeros_spec ds z r :
  split_zeros ds = (z, r) → ds = replicate z 0%N ++ r ∧ head r ≠ Some 0%N.
Proof.
  revert z. induction ds as [|d ds IH]; intros z; cbn; [by intros [= <- <-]|].
  destruct d as [|p]; [|by intros [= <- <-]].
  destruct (split_zeros ds) as [z' r'] eqn:E. intros [= <- <-].
  by destruct (IH z' eq_refl) as [-> ?].
Qed.
Lemma last_reverse {A} (l : list A) : last (reverse l) = head l.
Proof. destruct l as [|x l]; [done|]. rewrite reverse_cons. apply last_snoc. Qed.
Lemma head_reverse_digits base n : (2 ≤ base)%N → head (reverse (digits base n)) ≠ Some 0%N.
Proof.
  intros Hb. destruct (digits_digits_ok base n Hb) as [_ Hl].
  rewrite <- last_reverse, reverse_involutive. done.
Qed.
Lemma rebase_rebase b b' ds :
  (2 ≤ b)%N → (2 ≤ b')%N → Forall (λ d, d < b)%N ds → rebase b' b (rebase b b' ds) = ds.
Proof.
  intros Hb Hb' Hall. unfold rebase.
  destruct (split_zeros ds) as [z r] eqn:E. apply split_zeros_spec in E as [-> Hr].
  apply Forall_app in Hall as [_ Hall].
  rewrite split_zeros_app by by apply head_reverse_digits.
  rewrite reverse_involutive, value_of_digits by done. f_equal.
  rewrite <- (reverse_involutive r) at 2. f_equal.
  apply (le_value_inj b); [done|by apply digits_digits_ok| |by apply value_of_digits].
  split; [by apply Forall_reverse|]. by rewrite last_reverse.
Qed.
Lemma rebase_ok b b' ds : (2 ≤ b')%N → Forall (λ d, d < b')%N (rebase b b' ds).
Proof.
  intros Hb'. unfold rebase. destruct (split_zeros ds) as [z r].
  apply Forall_app. split.
  - apply Forall_replicate. lia.
  - apply Forall_reverse, digits_digits_ok. done.
Qed.

(** ** Bytes as digits *)

Lemma bytes_N_bound (bs : bytes) : Forall (λ d, d < 256)%N (byte_N <$> bs).
Proof. apply Forall_fmap, Forall_true. intros. apply byte_N_bound. Qed.
Lemma bytes_of_N (bs : bytes) : byte_of <$> (byte_N <$> bs) = bs.
Proof.
  rewrite <- list_fmap_compose. etrans; [|apply list_fmap_id].
  apply list_fmap_ext. intros. apply byte_of_N.
Qed.
Lemma bytes_N_of ds : Forall (λ d, d < 256)%N ds → byte_N <$> (byte_of <$> ds) = ds.
Proof.
  intros Hall. induction Hall as [|d ds Hd _ IH]; [done|]. cbn. by rewrite byte_N_of, IH.
Qed.

(** ** Alphabets *)

Fixpoint index_of (c : ascii) (alphabet : string) : option N :=
  match alphabet with
  | EmptyString => None
  | String d rest => if Ascii.eqb c d then Some 0%N else N.succ <$> index_of c rest
  end.
Definition letter (alphabet : string) (d : N) : ascii :=
  default "000"%char (String.get (N.to_nat d) alphabet).
Fixpoint letters (alphabet : string) (ds : list N) : string :=
  match ds with
  | [] => EmptyString
  | d :: ds' => String (letter alphabet d) (letters alphabet ds')
  end.
Fixpoint unletters (alphabet : string) (s : string) : option (list N) :=
  match s with
  | EmptyString => Some []
  | String c s' => d ← index_of c alphabet; ds ← unletters alphabet s'; Some (d :: ds)
  end.
(** Every letter is found at its own place. *)
Definition alphabet_ok (alphabet : string) (n : nat) : bool :=
  forallb (λ k, bool_decide (index_of (letter alphabet (N.of_nat k)) alphabet
                             = Some (N.of_nat k))) (seq 0 n).

Lemma index_of_letter alphabet n d :
  alphabet_ok alphabet n = true → (d < N.of_nat n)%N →
  index_of (letter alphabet d) alphabet = Some d.
Proof.
  intros Hok Hd. unfold alphabet_ok in Hok. rewrite forallb_forall in Hok.
  specialize (Hok (N.to_nat d)). rewrite N2Nat.id in Hok.
  apply (bool_decide_eq_true _), Hok, in_seq. lia.
Qed.
Lemma letter_index_of alphabet c d : index_of c alphabet = Some d →
  letter alphabet d = c ∧ (d < N.of_nat (String.length alphabet))%N.
Proof.
  revert d. induction alphabet as [|e a IH]; intros d; cbn; [done|].
  destruct (Ascii.eqb_spec c e) as [->|_]; [by intros [= <-]|].
  destruct (index_of c a) as [k|]; cbn; [|done]. intros [= <-].
  destruct (IH k eq_refl) as [Hl Hk]. unfold letter in *. rewrite N2Nat.inj_succ. cbn.
  split; [done|]. lia.
Qed.
Lemma unletters_letters alphabet n ds :
  alphabet_ok alphabet n = true → Forall (λ d, d < N.of_nat n)%N ds →
  unletters alphabet (letters alphabet ds) = Some ds.
Proof.
  intros Hok. induction 1 as [|d ds Hd _ IH]; cbn; [done|].
  by rewrite (index_of_letter _ n), IH.
Qed.
Lemma letters_unletters alphabet s ds : unletters alphabet s = Some ds →
  letters alphabet ds = s ∧ Forall (λ d, d < N.of_nat (String.length alphabet))%N ds.
Proof.
  revert ds. induction s as [|c s IH]; intros ds; cbn; [by intros [= <-]|].
  destruct (index_of c alphabet) as [d|] eqn:E; [|done].
  destruct (unletters alphabet s) as [ds'|]; [|done]. cbn. intros [= <-].
  destruct (IH ds' eq_refl) as [<- ?]. apply letter_index_of in E as [<- ?].
  split; [done|]. by constructor.
Qed.
Lemma letters_length alphabet ds : String.length (letters alphabet ds) = length ds.
Proof. induction ds; cbn; congruence. Qed.
Lemma letters_forallb (p : ascii → bool) alphabet ds :
  str_forallb p alphabet = true →
  Forall (λ d, d < N.of_nat (String.length alphabet))%N ds →
  str_forallb p (letters alphabet ds) = true.
Proof.
  intros Hp. induction 1 as [|d ds Hd _ IH]; cbn; [done|]. rewrite IH, andb_true_r.
  clear IH. unfold letter.
  assert (N.to_nat d < String.length alphabet) as Hlt by lia. clear Hd.
  revert Hp Hlt. generalize (N.to_nat d). induction alphabet as [|e a IH]; intros k; cbn; [lia|].
  intros Hp Hk. bool_simpl. destruct k as [|k]; [done|]. apply IH; [done|lia].
Qed.

(** ** base58btc *)

Definition b58_alphabet : string :=
  "123456789ABCDEFGHJKLMNPQRSTUVWXYZabcdefghijkmnopqrstuvwxyz".
Definition real_bs58_encode (b : bytes) : string :=
  letters b58_alphabet (rebase 256 58 (byte_N <$> b)).
Definition real_bs58_decode (s : string) : result bytes string :=
  match unletters b58_alphabet s with
  | Some ds => Ok (byte_of <$> rebase 58 256 ds)
  | None => Err "provided string contained invalid character"
  end.
Definition fx_base58 : Base58 :=
  {| bs58_encode := real_bs58_encode; bs58_decode := real_bs58_decode |}.

Lemma b58_alphabet_ok : alphabet_ok b58_alphabet 58 = true.
Proof. by vm_compute. Qed.
(** [58^45 ≤ 18 * 256^33] and [19 * 256^33 ≤ 58^46]. *)
Definition mh_low : N := 18 * 256 ^ 33.
Definition mh_high : N := 19 * 256 ^ 33.
Lemma mh_low_le : (58 ^ 45 ≤ mh_low)%N.
Proof. by apply N.leb_le; vm_compute. Qed.
Lemma mh_high_le : (mh_high ≤ 58 ^ 46)%N.
Proof. by apply N.leb_le; vm_compute. Qed.
Lemma digits58_length n : (mh_low ≤ n < mh_high)%N → length (digits 58 n) = 46.
Proof.
  pose proof mh_low_le as Hml. pose proof mh_high_le as Hmh. intros [Hn1 Hn2].
  destruct (digits_digits_ok 58 n ltac:(done)) as [Hall Hlast].
  pose proof (value_of_digits 58 n ltac:(done)) as Hv.
  pose proof (le_value_upper 58 _ Hall) as Hu. rewrite Hv in Hu.
  destruct (Nat.lt_trichotomy (length (digits 58 n)) 46) as [Hc|[Hc|Hc]]; [|done|].
  - exfalso. apply (N.lt_irrefl n). eapply N.lt_le_trans; [exact Hu|].
    etrans; [|exact Hn1]. etrans; [|exact Hml]. apply N.pow_le_mono_r; [done|lia].
  - exfalso. apply (N.lt_irrefl n). eapply N.lt_le_trans; [exact Hn2|].
    etrans; [exact Hmh|].
    destruct (list.last (digits 58 n)) as [d|] eqn:El.
    2:{ apply last_None in El. rewrite El in Hc. cbn in Hc. lia. }
    apply last_Some in El as [ds Hds].
    assert (0 < d)%N as Hd.
    { destruct d; [|lia]. exfalso. by apply Hlast. }
    pose proof (le_value_lower 58 ds d Hd) as Hlo. rewrite <- Hds, Hv in Hlo.
    etrans; [|exact Hlo]. apply N.pow_le_mono_r; [done|].
    rewrite Hds, length_app in Hc. cbn in Hc. lia.
Qed.
Lemma rebase_34_length (b : bytes) :
  length b = 34 → b !! 0%nat = Some Byte.x12 → length (rebase 256 58 (byte_N <$> b)) = 46.
Proof.
  intros Hl H0. destruct b as [|x b]; [done|]. cbn in H0, Hl. simplify_eq.
  unfold rebase. cbn [fmap list_fmap]. change (byte_N Byte.x12) with 18%N.
  cbn [split_zeros replicate app]. rewrite length_reverse.
  apply digits58_length. unfold mh_low, mh_high.
  rewrite reverse_cons, le_value_app, le_value_cons, le_value_nil.
  rewrite length_reverse, length_fmap, Hl.
  pose proof (le_value_upper 256 (reverse (byte_N <$> b))
    (proj2 (Forall_reverse _ _) (bytes_N_bound b))) as Hu.
  rewrite length_reverse, length_fmap, Hl in Hu. change (N.of_nat 33) with 33%N in *.
  revert Hu. generalize (256 ^ 33)%N. intros. lia.
Qed.
Lemma fx_base58_laws : @Base58Laws fx_base58.
Proof.
  split.
  - intros b. cbn. unfold real_bs58_decode, real_bs58_encode.
    rewrite (unletters_letters _ 58) by (apply b58_alphabet_ok || by apply rebase_ok).
    rewrite rebase_rebase by (done || apply bytes_N_bound). by rewrite bytes_of_N.
  - intros s b. cbn. unfold real_bs58_decode, real_bs58_encode.
    destruct (unletters _ s) as [ds|] eqn:E; [|done]. intros [= <-].
    apply letters_unletters in E as [<- Hall].
    rewrite bytes_N_of by by apply rebase_ok. by rewrite rebase_rebase.
  - intros b. cbn. unfold real_bs58_encode. apply letters_forallb; [done|].
    by apply rebase_ok.
  - intros b Hl H0. cbn. unfold real_bs58_encode. rewrite letters_length.
    by apply rebase_34_length.
Qed.

(** ** Hex *)

Definition hex_alphabet : string := "0123456789abcdef".
Fixpoint real_hex_encode (b : bytes) : string :=
  match b with
  | [] => EmptyString
  | x :: b' =>
      String (letter hex_alphabet (byte_N x / 16))
        (String (letter hex_alphabet (byte_N x mod 16)) (real_hex_encode b'))
  end.
Fixpoint hex_pairs (s : string) : option bytes :=
  match s with
  | EmptyString => Some []
  | String h (String l s') =>
      a ← index_of (lower_char h) hex_alphabet; c ← index_of (lower_char l) hex_alphabet;
      r ← hex_pairs s'; Some (byte_of (16 * a + c) :: r)
  | _ => None
  end.
Definition real_hex_decode (s : string) : result bytes string :=
  if Nat.odd (String.length s) then Err "Odd number of digits"
  else match hex_pairs s with Some b => Ok b | None => Err "Invalid character" end.
Definition fx_hex : Hex := {| hex_encode := real_hex_encode; hex_decode := real_hex_decode |}.

Lemma hex_letter d : (d < 16)%N →
  is_lower_hex (letter hex_alphabet d) = true ∧
  index_of (lower_char (letter hex_alphabet d)) hex_alphabet = Some d.
Proof.
  intros Hd. assert (∃ k, k < 16 ∧ d = N.of_nat k) as (k & Hk & ->)
    by (exists (N.to_nat d); lia).
  do 16 (destruct k as [|k]; [done|]). lia.
Qed.
Lemma hex_index c d : index_of (lower_char c) hex_alphabet = Some d →
  is_lower_hex (lower_char c) = true.
Proof. destruct c as [[] [] [] [] [] [] [] []]; try discriminate; done. Qed.
Lemma hex_nibbles x : (byte_N x / 16 < 16)%N ∧ (byte_N x mod 16 < 16)%N ∧
  (16 * (byte_N x / 16) + byte_N x mod 16 = byte_N x)%N.
Proof.
  pose proof (byte_N_bound x). split; [by apply N.Div0.div_lt_upper_bound|].
  split; [by apply N.mod_lt|]. symmetry. by apply N.div_mod.
Qed.
Lemma hex_pairs_encode b : hex_pairs (real_hex_encode b) = Some b.
Proof.
  induction b as [|x b IH]; [done|]. cbn -[hex_alphabet].
  destruct (hex_nibbles x) as (H1 & H2 & H3).
  rewrite (proj2 (hex_letter _ H1)), (proj2 (hex_letter _ H2)), IH. cbn -[N.mul].
  by rewrite H3, byte_of_N.
Qed.
Lemma hex_encode_even b : String.length (real_hex_encode b) = 2 * length b.
Proof. induction b as [|x b IH]; cbn -[hex_alphabet] in *; lia. Qed.
(** Induction two characters at a time. *)
Lemma string_pair_ind (P : string → Prop) :
  P EmptyString → (∀ c, P (String c EmptyString)) →
  (∀ c d s, P s → P (String c (String d s))) → ∀ s, P s.
Proof.
  intros H0 H1 H2 s. assert (P s ∧ ∀ c, P (String c s)) as [? _]; [|done].
  induction s as [|c s [IH1 IH2]]; auto.
Qed.
Lemma hex_pairs_props s b : hex_pairs s = Some b →
  String.length s = 2 * length b ∧ str_forallb is_lower_hex (to_lower s) = true.
Proof.
  revert b. induction s as [|c|c d s IH] using string_pair_ind; intros b.
  - by intros [= <-].
  - done.
  - cbn -[hex_alphabet]. destruct (index_of (lower_char c) _) eqn:E1; [|done].
    destruct (index_of (lower_char d) _) eqn:E2; [|done].
    destruct (hex_pairs s) as [b'|]; [|done]. cbn. intros [= <-].
    apply hex_index in E1, E2. destruct (IH b' eq_refl) as [Hl Hd].
    fold (to_lower s). cbn. rewrite E1, E2, Hl. split; [lia|done].
Qed.
Lemma hex_pairs_case s t : to_lower s = to_lower t → hex_pairs s = hex_pairs t.
Proof.
  revert t. induction s as [|c|c d s IH] using string_pair_ind; intros t Heq.
  - by destruct t.
  - by destruct t as [|? [|? ?]].
  - destruct t as [|c' [|d' t]]; try done. cbn in Heq. injection Heq as Hc Hd Ht.
    cbn -[hex_alphabet]. by rewrite Hc, Hd, (IH t).
Qed.
Lemma to_lower_length s t : to_lower s = to_lower t → String.length s = String.length t.
Proof.
  intros Heq. assert (∀ u, String.length (to_lower u) = String.length u) as Hl
    by (induction u; cbn; unfold to_lower in *; congruence).
  by rewrite <- Hl, Heq.
Qed.
Lemma real_hex_decode_Ok s b : real_hex_decode s = Ok b ↔ hex_pairs s = Some b.
Proof.
  unfold real_hex_decode. split.
  - destruct (Nat.odd _); [done|]. destruct (hex_pairs s); naive_solver.
  - intros Hp. destruct (hex_pairs_props _ _ Hp) as [-> _].
    replace (Nat.odd (2 * length b)) with false by
      (symmetry; rewrite <- Nat.negb_even; apply negb_false_iff, Nat.even_spec; eexists; done).
    by rewrite Hp.
Qed.
Lemma fx_hex_laws : @HexLaws fx_hex.
Proof.
  split; cbn.
  - intros b. apply real_hex_decode_Ok, hex_pairs_encode.
  - intros b. induction b as [|x b IH]; [done|]. cbn -[hex_alphabet].
    destruct (hex_nibbles x) as (H1 & H2 & _).
    by rewrite (proj1 (hex_letter _ H1)), (proj1 (hex_letter _ H2)), IH.
  - apply hex_encode_even.
  - intros s b Hd%real_hex_decode_Ok. by apply hex_pairs_props.
  - intros s t b Hst. unfold real_hex_decode. by rewrite (hex_pairs_case s t Hst), (to_lower_length s t Hst).
  - intros s b Hd%real_hex_decode_Ok. by apply hex_pairs_props in Hd as [_ ?].
Qed.

(** ** base64url *)

Definition b64_alphabet : string :=
  "ABCDEFGHIJKLMNOPQRSTUVWXYZabcdefghijklmnopqrstuvwxyz0123456789-_".
Fixpoint b64_digits (bs : list N) : list N :=
  match bs with
  | a :: b :: c :: r =>
      (a / 4 :: (a mod 4) * 16 + b / 16 :: (b mod 16) * 4 + c / 64 :: c mod 64
        :: b64_digits r)%N
  | [a; b] => [a / 4; (a mod 4) * 16 + b / 16; (b mod 16) * 4]%N
  | [a] => [a / 4; (a mod 4) * 16]%N
  | [] => []
  end.
Fixpoint b64_bytes (ds : list N) : option (list N) :=
  match ds with
  | w :: x :: y :: z :: r =>
      bs ← b64_bytes r;
      Some (w * 4 + x / 16 :: (x mod 16) * 16 + y / 4 :: (y mod 4) * 64 + z :: bs)%N
  | [w; x; y] => if (y mod 4 =? 0)%N
      then Some [w * 4 + x / 16; (x mod 16) * 16 + y / 4]%N else None
  | [w; x] => if (x mod 16 =? 0)%N then Some [w * 4 + x / 16]%N else None
  | [_] => None
  | [] => Some []
  end.
Definition real_b64url_encode (b : bytes) : string :=
  letters b64_alphabet (b64_digits (byte_N <$> b)).
Definition real_b64url_decode (s : string) : result bytes string :=
  match unletters b64_alphabet s ≫= b64_bytes with
  | Some bs => Ok (byte_of <$> bs)
  | None => Err "Invalid symbol"
  end.
Definition fx_base64 : Base64 := {|
  b64url_encode := real_b64url_encode;
  b64url_decode_no_pad := real_b64url_decode;
  b64url_decode_any_pad := λ s, real_b64url_decode (trim_end_matches "="%char s);
|}.

(** Induction three elements at a time. *)
Lemma list_triple_ind {A} (P : list A → Prop) :
  P [] → (∀ a, P [a]) → (∀ a b, P [a; b]) →
  (∀ a b c l, P l → P (a :: b :: c :: l)) → ∀ l, P l.
Proof.
  intros H0 H1 H2 H3 l. assert (P l ∧ (∀ a, P (a :: l)) ∧ (∀ a b, P (a :: b :: l)))
    as [? _]; [|done].
  induction l as [|x l (? & ? & ?)]; auto.
Qed.
#[local] Ltac div_mod_lia :=
  repeat match goal with
  | |- context [N.div ?a ?b] =>
      let q := fresh "q" in let r := fresh "r" in
      pose proof (N.div_mod a b ltac:(done)); pose proof (N.mod_lt a b ltac:(done));
      set (q := N.div a b) in *; set (r := N.modulo a b) in *; clearbody q r
  | |- context [N.modulo ?a ?b] =>
      let q := fresh "q" in let r := fresh "r" in
      pose proof (N.div_mod a b ltac:(done)); pose proof (N.mod_lt a b ltac:(done));
      set (q := N.div a b) in *; set (r := N.modulo a b) in *; clearbody q r
  end; lia.
Lemma b64_digits_ok bs : Forall (λ d, d < 256)%N bs → Forall (λ d, d < 64)%N (b64_digits bs).
Proof.
  induction bs as [|a|a b|a b c l IH] using list_triple_ind; intros Hall; cbn -[N.div N.modulo];
    repeat match goal with Hf : Forall _ (_ :: _) |- _ => inversion Hf; clear Hf; subst end;
    cbn beta in *; repeat apply List.Forall_cons; auto; cbn beta; div_mod_lia.
Qed.
Lemma b64_combine (m k r : N) : (r < m)%N → m ≠ 0%N → ((k * m + r) / m = k ∧ (k * m + r) mod m = r)%N.
Proof.
  intros Hr Hm. split.
  - symmetry. apply (N.div_unique _ _ _ r); [done|]. by rewrite N.mul_comm.
  - symmetry. apply (N.mod_unique _ _ k); [done|]. by rewrite N.mul_comm.
Qed.
Lemma b64_split m a : m ≠ 0%N → ((a / m) * m + a mod m = a)%N.
Proof. intros Hm. rewrite N.mul_comm. symmetry. by apply N.div_mod. Qed.
Lemma b64_bytes_digits bs : Forall (λ d, d < 256)%N bs → b64_bytes (b64_digits bs) = Some bs.
Proof.
  assert (∀ a, a / 4 * 4 + (a mod 4 * 16) / 16 = a)%N as H0.
  { intros a. rewrite N.div_mul by done. by apply b64_split. }
  assert (∀ a b, b < 256 → (a / 4) * 4 + (a mod 4 * 16 + b / 16) / 16 = a ∧
    (a mod 4 * 16 + b / 16) mod 16 = b / 16)%N as H1.
  { intros a b Hb. destruct (b64_combine 16 (a mod 4) (b / 16)) as [-> ->]; [|done|].
    - by apply N.Div0.div_lt_upper_bound.
    - split; [by apply b64_split|done]. }
  assert (∀ b c, c < 256 → (b mod 16 * 4 + c / 64) / 4 = b mod 16 ∧
    (b mod 16 * 4 + c / 64) mod 4 = c / 64)%N as H2.
  { intros b c Hc. apply (b64_combine 4); [|done]. by apply N.Div0.div_lt_upper_bound. }
  induction bs as [|a|a b|a b c l IH] using list_triple_ind; intros Hall; [done|..];
    repeat match goal with Hf : Forall _ (_ :: _) |- _ => inversion Hf; clear Hf; subst end;
    cbn [b64_digits b64_bytes].
  - rewrite H0, N.Div0.mod_mul. done.
  - destruct (H1 a b) as [-> ->]; [done|]. rewrite N.Div0.mod_mul, N.div_mul by done.
    rewrite (N.mul_comm _ 16), <- N.div_mod by done. done.
  - rewrite IH by done. destruct (H1 a b) as [-> ->]; [done|].
    destruct (H2 b c) as [-> ->]; [done|]. cbn -[N.div N.modulo].
    rewrite !b64_split by done. done.
Qed.
Lemma b64_alphabet_ok : alphabet_ok b64_alphabet 64 = true.
Proof. by vm_compute. Qed.
Lemma b64_encode_chars b : str_forallb is_b64url (real_b64url_encode b) = true.
Proof.
  unfold real_b64url_encode. apply letters_forallb; [done|].
  apply b64_digits_ok, bytes_N_bound.
Qed.
Lemma b64_decode_encode b : real_b64url_decode (real_b64url_encode b) = Ok b.
Proof.
  unfold real_b64url_decode, real_b64url_encode.
  rewrite (unletters_letters _ 64) by
    (apply b64_alphabet_ok || apply b64_digits_ok, bytes_N_bound).
  cbn [option_bind mbind]. rewrite b64_bytes_digits by apply bytes_N_bound.
  by rewrite bytes_of_N.
Qed.
Lemma fx_base64_laws : @Base64Laws fx_base64.
Proof.
  split.
  - apply b64_decode_encode.
  - intros b. change (real_b64url_decode (trim_end_matches "="%char (real_b64url_encode b)) = Ok b).
    rewrite trim_end_matches_free; [apply b64_decode_encode|].
    apply free_of_rev_head. unfold free_of.
    eapply str_forallb_impl; [|apply b64_encode_chars].
    intros c Hc. by destruct (Ascii.eqb_spec "="%char c) as [<-|].
  - apply b64_encode_chars.
Qed.

(** ** Stand-ins for the hashes *)

Definition toy_hash (seed : N) (b : bytes) : bytes :=
  let v := foldl (λ acc x, N.land (acc * 17 + byte_N x + seed) 4294967295)%N seed b in
  map (λ i, byte_of (N.land (N.shiftr v (8 * N.of_nat i)) 255)) (seq 0 32).
Definition fx_hashes : Hashes :=
  {| sha256 := toy_hash 1; keccak256 := toy_hash 2; sha3_256 := toy_hash 3 |}.
Lemma fx_hashes_laws : @HashesLaws fx_hashes.
Proof. split; intros b; apply length_map. Qed.

(** ** Stand-ins for the signature schemes: a signature is a keyed hash *)

Definition toy_sign (seed : N) (key msg : bytes) : bytes :=
  toy_hash seed (key ++ msg) ++ toy_hash (seed + 1) (key ++ msg).
Definition sized (n : nat) (b : bytes) : result bytes string :=
  if length b =? n then Ok b else Err "wrong length".
Definition fx_ed25519 : Ed25519 := {|
  ed_point := bytes; ed_key := bytes; ed_sig := bytes;
  ed_decompress := λ b, if length b =? 32 then Some b else None;
  ed_compress := λ b, b;
  ed_torsion_free := λ b, negb (bytes_eqb (take 1 b) [Byte.x08]);
  ed_key_from_bytes := sized 32;
  ed_is_weak := λ b, bytes_eqb b (replicate 32 Byte.x00);
  ed_sig_from_slice := sized 64;
  ed_verify_strict := λ k m s, bytes_eqb s (toy_sign 4 k m);
|}.

(** A P-256 key is its compressed point. *)
Record toy_key : Type := { key_bytes : bytes; key_len : (length key_bytes =? 33) = true }.
Lemma toy_key_eq (k k' : toy_key) : key_bytes k = key_bytes k' → k = k'.
Proof.
  destruct k as [b p], k' as [b' p']. cbn. intros ->. f_equal.
  apply Eqdep_dec.UIP_dec, Bool.bool_dec.
Qed.
Definition toy_key_of (b : bytes) : result toy_key string :=
  match decide ((length b =? 33) = true) with
  | left p => Ok {| key_bytes := b; key_len := p |}
  | right _ => Err "not a point"
  end.
(** An uncompressed encoding is a 0x04, the compressed one and 31 bytes more. *)
Definition toy_point (b : bytes) : result bytes string :=
  if length b =? 33 then Ok b
  else if length b =? 65 then Ok (take 33 (drop 1 b)) else Err "not a SEC1 encoding".
(** A signature is the [x] coordinate of its even candidate and 32 bytes more;
    its encoding is a 0x30 and these 64 bytes. The top bit of its last byte is
    set in the high form of its [s]. *)
Definition toy_last (f : N → N) (s : bytes) : bytes :=
  take 63 s ++ map (λ b, byte_of (f (byte_N b))) (drop 63 s).
Definition toy_low : bytes → bytes := toy_last (λ n, N.land n 127).
Definition toy_negate : bytes → bytes := toy_last (λ n, N.lxor n 128).
Definition toy_recover (h s : bytes) (odd : bool) : result toy_key string :=
  toy_key_of (if odd then Byte.x03 :: toy_hash 7 (h ++ toy_low s) else Byte.x02 :: take 32 s).
Definition recovers_to (h s : bytes) (k : toy_key) (odd : bool) : bool :=
  match toy_recover h s odd with Ok k' => bytes_eqb (key_bytes k') (key_bytes k) | Err _ => false end.
Definition fx_p256 : P256 := {|
  p256_point := bytes; p256_key := toy_key; p256_sig := bytes;
  p256_point_from_bytes := toy_point;
  p256_key_from_point := toy_key_of;
  p256_sec1_valid := λ b, is_ok (toy_point b);
  p256_compressed := key_bytes;
  p256_sig_from_der := λ b, match b with Byte.x30 :: s => sized 64 s | _ => Err "no DER" end;
  p256_sig_from_slice := sized 64;
  p256_verify := λ k m s,
    recovers_to (toy_hash 1 m) s k false || recovers_to (toy_hash 1 m) s k true;
  p256_normalize_s := λ s, if bytes_eqb (toy_low s) s then None else Some (toy_low s);
  p256_recover := toy_recover;
  p256_key_from_spki := toy_key_of;
|}.
Lemma fx_p256_laws : @P256Laws fx_p256.
Proof.
  split; cbn.
  - intros k. by apply Nat.eqb_eq, key_len.
  - intros k. unfold toy_point. by rewrite key_len.
  - apply toy_key_eq.
Qed.
Lemma toy_key_of_bytes b k : toy_key_of b = Ok k → key_bytes k = b.
Proof. unfold toy_key_of. destruct (decide _); [|done]. by intros [= <-]. Qed.
Lemma toy_last_app f (a b : bytes) : length a = 63 →
  toy_last f (a ++ b) = a ++ map (λ b, byte_of (f (byte_N b))) b.
Proof. intros Ha. unfold toy_last. by rewrite take_app_length', drop_app_length'. Qed.
Lemma toy_last_short f (a : bytes) : length a < 63 → toy_last f a = a.
Proof. intros Ha. unfold toy_last. rewrite take_ge, drop_ge by lia. apply app_nil_r. Qed.
Lemma toy_last_cases (s : bytes) : length s < 63 ∨ ∃ a b, s = a ++ b ∧ length a = 63.
Proof.
  destruct (decide (length s < 63)); [by left|right]. exists (take 63 s), (drop 63 s).
  rewrite take_drop, length_take. split; [done|lia].
Qed.
Lemma toy_last_comp f g s : toy_last f (toy_last g s) = toy_last (λ n, f (byte_N (byte_of (g n)))) s.
Proof.
  destruct (toy_last_cases s) as [Hs|(a & b & -> & Ha)].
  - by rewrite (toy_last_short g s), !(toy_last_short _ s).
  - by rewrite (toy_last_app g a b), !(toy_last_app _ a), map_map.
Qed.
Lemma toy_last_ext f g s : (∀ b, byte_of (f (byte_N b)) = byte_of (g (byte_N b))) →
  toy_last f s = toy_last g s.
Proof. intros Hfg. unfold toy_last. f_equal. apply map_ext. intros b. apply Hfg. Qed.
Lemma toy_low_idemp s : toy_low (toy_low s) = toy_low s.
Proof. unfold toy_low. rewrite toy_last_comp. apply toy_last_ext. by intros []; vm_compute. Qed.
Lemma toy_low_negate s : toy_low (toy_negate s) = toy_low s.
Proof. unfold toy_low, toy_negate. rewrite toy_last_comp. apply toy_last_ext. by intros []; vm_compute. Qed.
Lemma toy_last_take f s : take 32 (toy_last f s) = take 32 s.
Proof.
  destruct (toy_last_cases s) as [Hs|(a & b & -> & Ha)]; [by rewrite toy_last_short|].
  rewrite toy_last_app by done. by rewrite !take_app_le by lia.
Qed.
Lemma toy_recover_low h s odd : toy_recover h (toy_low s) odd = toy_recover h s odd.
Proof. unfold toy_recover. rewrite toy_low_idemp. unfold toy_low. by rewrite toy_last_take. Qed.
Lemma fx_p256_recover_laws : @P256RecoverLaws fx_p256 fx_hashes.
Proof.
  split; cbn -[toy_recover].
  - intros m s odd k Hk. apply orb_true_iff. unfold recovers_to.
    destruct odd; [right|left]; rewrite Hk; apply bytes_eqb_refl.
  - intros h s k k' H1 H2 ->. apply toy_key_of_bytes in H1, H2. congruence.
  - intros k m s s'. destruct (bytes_eqb _ _); [done|]. intros [= <-].
    unfold recovers_to. by rewrite !toy_recover_low.
Qed.
Definition fx_k256 : K256 := {|
  k256_sig := bytes; k256_key := bytes; k256_recid := Z;
  k256_recid_from_byte := λ z, if (z <? 4)%Z then Some z else None;
  k256_sig_from_slice := sized 64;
  k256_recover := λ h s v, Ok (take 32 s);
  k256_uncompressed := λ k, Byte.x04 :: k;
|}.
Definition fx_mldsa : MlDsa := {|
  mldsa_vk := bytes; mldsa_sig := bytes;
  mldsa_vk_decode := λ b, b;
  mldsa_sig_decode := Some;
  mldsa_verify_with_context := λ k m c s, bytes_eqb (take 64 s) (toy_sign 8 (take 8 k) m);
|}.
Definition fx_profile : Profile := {| overflow_checks := true |}.
Definition fx_features : Features := {| did_aqua := true |}.

(** ** Time *)

(** The proleptic Gregorian date of a day number, day 0 being 1970-01-01. *)
Definition civil (day : Z) : Z * Z * Z :=
  (let z := day + 719468 in
   let era := z / 146097 in
   let doe := z mod 146097 in
   let yoe := (doe - doe / 1460 + doe / 36524 - doe / 146096) / 365 in
   let doy := doe - (365 * yoe + yoe / 4 - yoe / 100) in
   let mp := (5 * doy + 2) / 153 in
   let d := doy - (153 * mp + 2) / 5 + 1 in
   let m := if mp <? 10 then mp + 3 else mp - 9 in
   (yoe + era * 400 + (if m <=? 2 then 1 else 0), m, d))%Z.
Definition digit (z : Z) : ascii := letter "0123456789" (Z.to_N (z mod 10)).
Definition pad2 (z : Z) : string := String (digit (z / 10)) (String (digit z) EmptyString).
Definition pad4 (z : Z) : string := pad2 (z / 100) +:+ pad2 z.
(** [%Y-%m-%dT%H:%M:%S.000Z], for the years 0 to 9999. *)
Definition format_time (t : Z) : string :=
  let '(y, m, d) := civil (t / 86400) in
  let s := (t mod 86400)%Z in
  pad4 y +:+ "-" +:+ pad2 m +:+ "-" +:+ pad2 d +:+ "T" +:+ pad2 (s / 3600)
    +:+ ":" +:+ pad2 (s / 60 mod 60) +:+ ":" +:+ pad2 (s mod 60) +:+ ".000Z".
(** Whole seconds; the range of [chrono] is about 262,000 years each way. *)
Definition time_max : Z := 8210266876799.
Definition in_time_range (z : Z) : bool := ((- time_max <=? z) && (z <=? time_max))%Z.
Definition fx_chrono : Chrono := {|
  date_time := Z;
  dt_timestamp := λ t, if in_time_range t then t else 0%Z;
  dt_add_seconds := λ t s,
    let u := ((if in_time_range t then t else 0) + s)%Z in
    if in_time_range u then Returned u else Panicked;
  dt_format := format_time;
|}.
Lemma digit_graphic z : graphic (digit z) = true.
Proof.
  unfold digit. pose proof (Z.mod_pos_bound z 10 ltac:(done)) as Hz.
  assert (∃ k : nat, k < 10 ∧ Z.to_N (z mod 10) = N.of_nat k) as (k & Hk & ->)
    by (exists (Z.to_nat (z mod 10)); lia).
  do 10 (destruct k as [|k]; [done|]). lia.
Qed.
Lemma pad2_graphic z : str_forallb graphic (pad2 z) = true.
Proof. unfold pad2. cbn -[graphic digit]. by rewrite !digit_graphic. Qed.
Lemma fx_chrono_laws : @ChronoLaws fx_chrono.
Proof.
  split; cbn -[Z.add].
  - intros d s d'. destruct (in_time_range (_ + s)) eqn:E; [|done]. intros [= <-].
    by rewrite E.
  - intros d. unfold format_time, pad4. destruct (civil (d / 86400)) as [[y m] dd].
    cbv zeta. by rewrite !str_forallb_app, !pad2_graphic.
  - intros d. unfold in_time_range, i64_min, i64_max, time_max.
    destruct (_ && _)%Z eqn:E; [|lia]. bool_simpl. lia.
Qed.

Example format_time_2026 : format_time 1773748800 = "2026-03-17T12:00:00.000Z".
Proof. by vm_compute. Qed.
(** A published [did:key] of an Ed25519 key: the multicodec prefix and 32 bytes. *)
Example bs58_did_key :
  match real_bs58_decode "6MkhaXgBZDvotDkL5257faiztiGiC2QtKLGpbnnEGta2doK" with
  | Ok b => (take 2 b, length b) = ([Byte.xed; Byte.x01], 34)
  | Err _ => False
  end.
Proof. by vm_compute. Qed.

(** ** URLs: [http] and [https] with an authority; any other scheme has none *)

Inductive toy_scheme : Type := SHttp | SHttps | SOther.
Record toy_url : Type := {
  tu_scheme : toy_scheme; tu_user : string; tu_password : option string;
  tu_host : option string; tu_port : option Z;
  tu_path : string; tu_query : option string; tu_fragment : option string;
}.
Fixpoint span (p : ascii → bool) (s : string) : string * string :=
  match s with
  | EmptyString => (EmptyString, EmptyString)
  | String c s' => if p c then let '(a, b) := span p s' in (String c a, b)
                   else (EmptyString, s)
  end.
Definition none_of (cs : list ascii) (c : ascii) : bool := negb (existsb (Ascii.eqb c) cs).
Definition toy_host_port (hp : string) : result (string * option Z) string :=
  match rsplit_once ":" hp with
  | Some (h, p) => let? n := ok_or (parse_u16 p) "invalid port number" in Ok (h, Some n)
  | None => Ok (hp, None)
  end.
Definition toy_parse_authority (scheme : toy_scheme) (s : string) : result toy_url string :=
  let '(authority, rest) := span (none_of ["/"; "?"; "#"]%char) s in
  let '(path, rest) := span (none_of ["?"; "#"]%char) rest in
  let '(query, rest) := span (none_of ["#"]%char) rest in
  let '(userinfo, hp) := match rsplit_once "@" authority with
    | Some (u, h) => (u, h) | None => (EmptyString, authority) end in
  let '(user, password) := match split_once ":" userinfo with
    | Some (u, p) => (u, Some p) | None => (userinfo, None) end in
  let? '(host, port) := toy_host_port hp in
  if str_is_empty host then Err "empty host" else
  Ok {| tu_scheme := scheme; tu_user := user; tu_password := password;
        tu_host := Some (to_lower host); tu_port := port;
        tu_path := if str_is_empty path then "/" else path;
        tu_query := strip_prefix "?" query; tu_fragment := strip_prefix "#" rest |}.
Definition toy_parse (s : string) : result toy_url string :=
  match strip_prefix "https://" s, strip_prefix "http://" s, split_once ":" s with
  | Some r, _, _ => toy_parse_authority SHttps r
  | _, Some r, _ => toy_parse_authority SHttp r
  | _, _, Some (_, r) => Ok {| tu_scheme := SOther; tu_user := EmptyString;
      tu_password := None; tu_host := None; tu_port := None; tu_path := r;
      tu_query := None; tu_fragment := None |}
  | _, _, None => Err "relative URL without a base"
  end.
Definition toy_scheme_text (s : toy_scheme) : string :=
  match s with SHttp => "http" | SHttps => "https" | SOther => "other" end.
Definition toy_default_port (s : toy_scheme) : option Z :=
  match s with SHttp => Some 80%Z | SHttps => Some 443%Z | SOther => None end.
Definition toy_port (u : toy_url) : option Z :=
  match tu_port u with
  | Some p => if ((0 <=? p) && (p <? 65536))%Z then Some p else None
  | None => toy_default_port (tu_scheme u)
  end.
Definition toy_origin (u : toy_url) : string :=
  match tu_host u with
  | None => "null"
  | Some h => toy_scheme_text (tu_scheme u) +:+ "://" +:+ h +:+
      (if bool_decide (toy_port u = toy_default_port (tu_scheme u)) then EmptyString
       else match toy_port u with Some p => ":" +:+ show_Z p | None => EmptyString end)
  end.
Definition fx_urls : Urls := {|
  url := toy_url; url_parse := toy_parse;
  url_scheme := λ u, toy_scheme_text (tu_scheme u);
  url_username := tu_user; url_password := tu_password; url_host_str := tu_host;
  url_port_or_known_default := toy_port; url_path := tu_path; url_query := tu_query;
  url_fragment := tu_fragment; url_origin := toy_origin;
|}.
Lemma fx_urls_laws : @UrlsLaws fx_urls.
Proof.
  split; cbn.
  - intros u. by destruct (tu_scheme u).
  - intros u. by destruct (tu_scheme u).
  - intros u p. unfold toy_port. destruct (tu_port u) as [q|].
    + destruct (_ && _)%Z eqn:E; [|done]. intros [= <-]. bool_simpl. lia.
    + destruct (tu_scheme u); intros [= <-]; lia.
Qed.

(** ** An outside world that answers from a script *)

Record toy_response : Type := { tr_status : Z; tr_body : string }.
Definition fx_world : World := {| world := list (result toy_response string) |}.
Definition fx_reqwest : @Reqwest fx_world := {|
  request := string; response := toy_response; http_error := string;
  rq_send := λ (w : @world fx_world) _, match w with [] => ([], Err "connection refused") | x :: w' => (w', x) end;
  rs_status := tr_status;
  rs_error_for_status := λ r, if (400 <=? tr_status r)%Z then Err "status" else Ok r;
|}.

(** ** Structured fields: a stand-in text, prefix-free and all graphic *)

(** A reader takes a value off the front of a text. *)
Definition reader (A : Type) : Type := string → option (A * string).
Definition reads {A} (r : reader A) (w : A → string) : Prop :=
  ∀ a rest, r (w a +:+ rest) = Some (a, rest).

Definition nibble (n : N) : ascii := Ascii.ascii_of_N (97 + n).
Definition of_nibble (c : ascii) : N := (code c - 97)%N.
Fixpoint put_string (s : string) : string :=
  match s with
  | EmptyString => "."
  | String c s => String (nibble (code c / 16)) (String (nibble (code c mod 16)) (put_string s))
  end.
Fixpoint get_string (s : string) : option (string * string) :=
  match s with
  | String c s =>
      if Ascii.eqb c "." then Some (EmptyString, s)
      else match s with
           | String d s => '(t, rest) ← get_string s;
               Some (String (Ascii.ascii_of_N (16 * of_nibble c + of_nibble d)) t, rest)
           | EmptyString => None
           end
  | EmptyString => None
  end.
Fixpoint put_positive (p : positive) : string :=
  match p with xH => "." | xO p => String "0" (put_positive p) | xI p => String "1" (put_positive p) end.
Fixpoint get_positive (s : string) : option (positive * string) :=
  match s with
  | EmptyString => None
  | String c s =>
      if Ascii.eqb c "." then Some (xH, s)
      else '(p, rest) ← get_positive s;
        Some ((if Ascii.eqb c "0" then xO else xI) p, rest)
  end.
Definition put_Z (z : Z) : string :=
  match z with Z0 => "=" | Zpos p => String "+" (put_positive p) | Zneg p => String "-" (put_positive p) end.
Definition get_Z (s : string) : option (Z * string) :=
  match s with
  | EmptyString => None
  | String c s =>
      if Ascii.eqb c "=" then Some (Z0, s)
      else '(p, rest) ← get_positive s; Some ((if Ascii.eqb c "+" then Zpos else Zneg) p, rest)
  end.
Definition put_bare (b : bare_item) : string :=
  match b with
  | SfInteger z => String "i" (put_Z z)
  | SfString s => String "s" (put_string s)
  | SfBytes bs => String "b" (put_string (String.string_of_list_byte bs))
  | SfOther s => String "o" (put_string s)
  end.
Definition get_bare (s : string) : option (bare_item * string) :=
  match s with
  | EmptyString => None
  | String c s =>
      if Ascii.eqb c "i" then '(z, rest) ← get_Z s; Some (SfInteger z, rest)
      else '(t, rest) ← get_string s;
        Some (if Ascii.eqb c "s" then SfString t
              else if Ascii.eqb c "b" then SfBytes (as_bytes t) else SfOther t, rest)
  end.
Definition put_pair {A B} (f : A → string) (g : B → string) (x : A * B) : string :=
  f x.1 +:+ g x.2.
Definition get_pair {A B} (f : reader A) (g : reader B) : reader (A * B) :=
  λ s, '(a, s) ← f s; '(b, s) ← g s; Some ((a, b), s).
Fixpoint put_list {A} (f : A → string) (l : list A) : string :=
  match l with [] => "]" | a :: l => String "," (f a +:+ put_list f l) end.
Fixpoint get_many {A} (fuel : nat) (f : reader A) : reader (list A) :=
  λ s, match fuel, s with
  | S n, String c s =>
      if Ascii.eqb c "]" then Some ([], s)
      else '(a, s) ← f s; '(l, s) ← get_many n f s; Some (a :: l, s)
  | _, _ => None
  end.
Definition get_list {A} (f : reader A) : reader (list A) := λ s, get_many (S (String.length s)) f s.
Definition put_item (i : sf_item) : string :=
  put_bare (item_bare i) +:+ put_list (put_pair put_string put_bare) (item_params i).
Definition get_item : reader sf_item :=
  λ s, '(b, s) ← get_bare s; '(ps, s) ← get_list (get_pair get_string get_bare) s;
    Some ({| item_bare := b; item_params := ps |}, s).
Definition put_entry (e : list_entry) : string :=
  match e with
  | EntryItem i => String "I" (put_item i)
  | EntryInnerList l ps =>
      String "L" (put_list put_item l +:+ put_list (put_pair put_string put_bare) ps)
  end.
Definition get_entry : reader list_entry :=
  λ s, match s with
  | EmptyString => None
  | String c s =>
      if Ascii.eqb c "I" then '(i, s) ← get_item s; Some (EntryItem i, s)
      else '(l, s) ← get_list get_item s;
        '(ps, s) ← get_list (get_pair get_string get_bare) s; Some (EntryInnerList l ps, s)
  end.
Definition put_dict : sf_dict → string := put_list (put_pair put_string put_entry).
Definition get_dict (s : string) : option sf_dict :=
  '(d, rest) ← get_list (get_pair get_string get_entry) s;
  if str_is_empty rest then Some d else None.

Lemma nibbles_char c :
  Ascii.ascii_of_N (16 * of_nibble (nibble (code c / 16)) + of_nibble (nibble (code c mod 16))) = c ∧
  Ascii.eqb (nibble (code c / 16)) "." = false ∧
  graphic (nibble (code c / 16)) = true ∧ graphic (nibble (code c mod 16)) = true.
Proof. by destruct c as [[] [] [] [] [] [] [] []]. Qed.
Lemma get_put_string : reads get_string put_string.
Proof.
  intros s rest. induction s as [|c s IH]; [done|]. cbn [put_string]. rewrite !str_app_cons.
  cbn [get_string]. destruct (nibbles_char c) as (Hc & -> & _). rewrite IH. cbn. by rewrite Hc.
Qed.
Lemma get_put_positive : reads get_positive put_positive.
Proof.
  intros p rest. induction p as [p IH|p IH|]; cbn [put_positive]; rewrite ?str_app_cons;
    cbn [get_positive]; cbn [Ascii.eqb Bool.eqb]; [by rewrite IH..|done].
Qed.
Lemma get_put_Z : reads get_Z put_Z.
Proof.
  intros [|p|p] rest; [done|..]; cbn [put_Z]; rewrite str_app_cons; unfold get_Z;
    cbn [Ascii.eqb Bool.eqb]; by rewrite get_put_positive.
Qed.
Lemma get_put_bare : reads get_bare put_bare.
Proof.
  intros b rest. destruct b as [z|s|bs|s]; cbn [put_bare]; rewrite str_app_cons; unfold get_bare;
    cbn [Ascii.eqb Bool.eqb]; rewrite ?get_put_Z, ?get_put_string; try done.
  cbn. unfold as_bytes. by rewrite String.list_byte_of_string_of_list_byte.
Qed.
Lemma get_put_pair {A B} (f : reader A) (g : reader B) p q :
  reads f p → reads g q → reads (get_pair f g) (put_pair p q).
Proof.
  intros Hf Hg [a b] rest. unfold get_pair, put_pair. cbn [fst snd]. rewrite str_app_assoc, Hf.
  cbn. by rewrite Hg.
Qed.
Lemma get_put_list {A} (f : reader A) p : reads f p → reads (get_list f) (put_list p).
Proof.
  intros Hf l rest. unfold get_list.
  assert (∀ fuel, String.length (put_list p l +:+ rest) < fuel →
    get_many fuel f (put_list p l +:+ rest) = Some (l, rest)) as Hm; [|apply Hm; lia].
  induction l as [|a l IH]; intros [|n] Hn; try lia; [done|]. cbn [put_list] in *.
  rewrite str_app_cons in *. cbn [get_many]. cbn [Ascii.eqb Bool.eqb].
  rewrite str_app_assoc in *. rewrite Hf. cbn. rewrite IH; [done|].
  cbn [String.length] in Hn. rewrite str_length_app in Hn. lia.
Qed.
Lemma get_put_item : reads get_item put_item.
Proof.
  intros [b ps] rest. unfold get_item, put_item. cbn [item_bare item_params].
  rewrite str_app_assoc, get_put_bare. cbn [mbind option_bind].
  by rewrite (get_put_list _ _ (get_put_pair _ _ _ _ get_put_string get_put_bare)).
Qed.
Lemma get_put_entry : reads get_entry put_entry.
Proof.
  intros [i|l ps] rest; cbn [put_entry]; rewrite str_app_cons; unfold get_entry;
    cbn [Ascii.eqb Bool.eqb]; [by rewrite get_put_item|].
  rewrite str_app_assoc, (get_put_list _ _ get_put_item). cbn [mbind option_bind].
  by rewrite (get_put_list _ _ (get_put_pair _ _ _ _ get_put_string get_put_bare)).
Qed.
Lemma get_put_dict d : get_dict (put_dict d) = Some d.
Proof.
  unfold get_dict, put_dict.
  rewrite <- (str_app_nil_r (put_list _ d)).
  by rewrite (get_put_list _ _ (get_put_pair _ _ _ _ get_put_string get_put_entry)).
Qed.

(** Everything written is graphic. *)
Definition writes_graphic {A} (w : A → string) : Prop := ∀ a, str_forallb graphic (w a) = true.
Lemma put_string_graphic : writes_graphic put_string.
Proof.
  intros s. induction s as [|c s IH]; [done|]. cbn [put_string str_forallb].
  destruct (nibbles_char c) as (_ & _ & -> & ->). exact IH.
Qed.
Lemma put_positive_graphic : writes_graphic put_positive.
Proof. intros p. by induction p. Qed.
Lemma put_bare_graphic : writes_graphic put_bare.
Proof.
  intros [[|p|p]|s|bs|s]; [done|exact (put_positive_graphic p)..|exact (put_string_graphic s)|
    exact (put_string_graphic _)|exact (put_string_graphic s)].
Qed.
Lemma put_pair_graphic {A B} (f : A → string) (g : B → string) :
  writes_graphic f → writes_graphic g → writes_graphic (put_pair f g).
Proof. intros Hf Hg [a b]. unfold put_pair. cbn [fst snd]. by rewrite str_forallb_app, Hf, Hg. Qed.
Lemma put_list_graphic {A} (f : A → string) : writes_graphic f → writes_graphic (put_list f).
Proof.
  intros Hf l. induction l as [|a l IH]; [done|]. cbn [put_list str_forallb].
  by rewrite str_forallb_app, Hf, IH.
Qed.
Lemma put_item_graphic : writes_graphic put_item.
Proof.
  intros [b ps]. unfold put_item. rewrite str_forallb_app, put_bare_graphic.
  by apply put_list_graphic, put_pair_graphic; [apply put_string_graphic|apply put_bare_graphic].
Qed.
Lemma put_entry_graphic : writes_graphic put_entry.
Proof.
  intros [i|l ps]; [exact (put_item_graphic i)|]. cbn [put_entry str_forallb].
  rewrite str_forallb_app, (put_list_graphic _ put_item_graphic).
  by apply put_list_graphic, put_pair_graphic; [apply put_string_graphic|apply put_bare_graphic].
Qed.
Lemma put_dict_graphic : writes_graphic put_dict.
Proof.
  apply put_list_graphic, put_pair_graphic; [apply put_string_graphic|apply put_entry_graphic].
Qed.

Definition in_sf_range (z : Z) : bool := ((- sf_integer_max <=? z) && (z <=? sf_integer_max))%Z.
Definition toy_bare_checked (b : bare_item) : bool :=
  match b with SfInteger z => in_sf_range z | _ => true end.
Definition toy_entry_checked (e : list_entry) : bool :=
  match e with
  | EntryItem _ => true
  | EntryInnerList _ ps => forallb (λ kv, toy_bare_checked kv.2) ps
  end.
Definition toy_parse_dict (s : string) : result sf_dict string :=
  match get_dict s with
  | Some d => if forallb (λ ke, toy_entry_checked ke.2) d then Ok d else Err "out of range"
  | None => Err "parse error"
  end.
Definition toy_key_char (c : ascii) : bool := is_lower c || is_digit c || (code c =? 45)%N.
Definition fx_sfv : Sfv := {|
  sfv_parse_dict := toy_parse_dict;
  sfv_write_list := λ l, match l with [] => None | _ => Some (put_list put_entry l) end;
  sfv_write_dict := λ d, match d with [] => None | _ => Some (put_dict d) end;
  sfv_key := λ s, if str_forallb toy_key_char s then Ok s else Err "invalid key";
  sfv_string := λ s, if printable s then Ok s else Err "invalid string";
  sfv_integer := λ z, if in_sf_range z then Ok z else Err "out of range";
|}.
Lemma in_sf_range_spec z : in_sf_range z = true ↔ (- sf_integer_max ≤ z ≤ sf_integer_max)%Z.
Proof. unfold in_sf_range. rewrite andb_true_iff, !Z.leb_le. done. Qed.
Lemma toy_entry_ok e : @entry_ok fx_sfv e → toy_entry_checked e = true.
Proof.
  destruct e as [i|items ps]; [done|]. intros [_ [_ Hps]]. cbn.
  apply forallb_forall. intros [k b] Hin%list_elem_of_In.
  rewrite Forall_forall in Hps. apply list_elem_of_In in Hin.
  destruct (Hps _ Hin) as [_ Hb]. destruct b as [z| | |]; try done. cbn in *.
  by destruct (in_sf_range z).
Qed.
Lemma graphic_printable c : graphic c = true → in_range 32 126 c = true.
Proof. by destruct c as [[] [] [] [] [] [] [] []]. Qed.
Lemma fx_sfv_laws : @SfvLaws fx_sfv.
Proof.
  split; cbn -[put_dict put_list in_sf_range printable].
  - intros k k'. case_match; congruence.
  - intros c k Hc Hk.
    assert (str_forallb toy_key_char k = true) as Hk'.
    { eapply str_forallb_impl; [|exact Hk]. intros d Hd. unfold toy_key_char. by rewrite Hd. }
    unfold toy_key_char at 1. by rewrite Hc, Hk'.
  - intros s s'. case_match; congruence.
  - intros z z'. case_match; congruence.
  - intros s. by destruct (printable s).
  - intros z. rewrite <- in_sf_range_spec. by destruct (in_sf_range z).
  - intros k e _ _. eauto.
  - intros k e t _ He [= <-]. unfold toy_parse_dict. rewrite get_put_dict.
    cbn -[put_dict toy_entry_checked]. rewrite (toy_entry_ok _ He). cbn -[put_dict].
    split; [done|]. split; [apply trim_graphic, put_dict_graphic|].
    eapply str_forallb_impl; [apply graphic_printable|apply put_dict_graphic].
  - intros e _. eauto.
  - intros e t _ [= <-]. eapply str_forallb_impl; [apply graphic_printable|].
    exact (put_list_graphic _ put_entry_graphic [e]).
  - intros e e' t _ _ Ht Ht'.
    assert (put_list put_entry [e] = put_list put_entry [e']) as Heq by congruence.
    apply (f_equal (λ s, get_list get_entry (s +:+ EmptyString))) in Heq.
    cbn beta in Heq. rewrite !(get_put_list _ _ get_put_entry) in Heq. congruence.
  - intros t d k items ps n z Hp Hd Hn. unfold toy_parse_dict in Hp.
    destruct (get_dict t) as [d'|]; [|done].
    destruct (forallb _ d') eqn:Hall; [|done]. injection Hp as <-.
    rewrite forallb_forall in Hall. apply list_elem_of_In in Hd, Hn.
    specialize (Hall _ Hd). cbn in Hall. rewrite forallb_forall in Hall.
    specialize (Hall _ Hn). cbn in Hall. by apply in_sf_range_spec.
Qed.

(** ** JSON: one stand-in document per text *)

(** The text is ["type challenge origin"], optionally followed by [x] for a
    cross-origin and [t] for a top-origin member. *)
Definition toy_document (b : bytes) : result json string :=
  match split " " (String.string_of_list_byte b) with
  | ty :: ch :: o :: more =>
      Ok (JObject ([("type", JString ty); ("challenge", JString ch); ("origin", JString o)]
        ++ (if existsb (String.eqb "x") more then [("crossOrigin", JBool true)] else [])
        ++ (if existsb (String.eqb "t") more then [("topOrigin", JNull)] else [])))
  | _ => Err "expected value"
  end.
(** A compact writer of any value, and a reader of the objects it writes whose
    members are flat. A quote or a backslash is written behind a backslash. *)
Definition is_special (c : ascii) : bool := Ascii.eqb c "034" || Ascii.eqb c "092".
Fixpoint toy_escape (s : string) : string :=
  match s with
  | EmptyString => EmptyString
  | String c s' =>
      if is_special c then String "092" (String c (toy_escape s')) else String c (toy_escape s')
  end.
Fixpoint toy_write (v : json) : string :=
  match v with
  | JNull => "null"
  | JBool b => if b then "true" else "false"
  | JNumber s => s
  | JString s => quoted (toy_escape s)
  | JArray l => "[" +:+ String.concat "," (map toy_write l) +:+ "]"
  | JObject ms => "{" +:+ String.concat ","
      (map (λ kv, quoted (toy_escape kv.1) +:+ ":" +:+ toy_write kv.2) ms) +:+ "}"
  end.
(** The rest of a string after its opening quote. *)
Fixpoint toy_string (s : string) : option (string * string) :=
  match s with
  | EmptyString => None
  | String c s' =>
      if Ascii.eqb c "034" then Some (EmptyString, s')
      else if Ascii.eqb c "092" then
        match s' with
        | String d s'' => '(r, rest) ← toy_string s''; Some (String d r, rest)
        | EmptyString => None
        end
      else '(r, rest) ← toy_string s'; Some (String c r, rest)
  end.
Fixpoint toy_digits (s : string) : string * string :=
  match s with
  | String c s' => if is_digit c then let '(r, rest) := toy_digits s' in (String c r, rest) else ("", s)
  | EmptyString => ("", "")
  end.
Definition toy_value (s : string) : option (json * string) :=
  match strip_prefix quote s with
  | Some r => '(t, rest) ← toy_string r; Some (JString t, rest)
  | None =>
      match strip_prefix "null" s with
      | Some rest => Some (JNull, rest)
      | None =>
          match strip_prefix "true" s with
          | Some rest => Some (JBool true, rest)
          | None =>
              match strip_prefix "false" s with
              | Some rest => Some (JBool false, rest)
              | None => let '(ds, rest) := toy_digits s in Some (JNumber ds, rest)
              end
          end
      end
  end.
Fixpoint toy_members (fuel : nat) (s : string) : option (list (string * json)) :=
  match fuel with
  | O => None
  | S n =>
      r ← strip_prefix quote s;
      '(k, r) ← toy_string r;
      r ← strip_prefix ":" r;
      '(v, r) ← toy_value r;
      if String.eqb r "}" then Some [(k, v)]
      else r ← strip_prefix "," r; ms ← toy_members n r; Some ((k, v) :: ms)
  end.
Definition toy_read (b : bytes) : result json string :=
  let s := String.string_of_list_byte b in
  match strip_prefix "{" s with
  | Some r =>
      if String.eqb r "}" then Ok (JObject [])
      else ok_or (JObject <$> toy_members (String.length r) r) "expected value"
  | None => toy_document b
  end.
Definition fx_json : Json := {|
  json_document := toy_read; json_value := toy_read; json_error := λ _, "bad JSON" |}.
Definition fx_json_write : JsonWrite := {| json_to_string := λ v, Ok (toy_write v) |}.

Lemma toy_string_escape s rest : toy_string (toy_escape s +:+ quote +:+ rest) = Some (s, rest).
Proof.
  induction s as [|c s IH]; [done|]. cbn [toy_escape]. unfold is_special.
  destruct (Ascii.eqb_spec c "034") as [->|Hq];
    [|destruct (Ascii.eqb_spec c "092") as [->|Hb]]; cbn [orb].
  - rewrite !str_app_cons. cbn [toy_string Ascii.eqb Bool.eqb]. by rewrite IH.
  - rewrite !str_app_cons. cbn [toy_string Ascii.eqb Bool.eqb]. by rewrite IH.
  - rewrite str_app_cons. cbn [toy_string]. apply Ascii.eqb_neq in Hq, Hb. rewrite Hq, Hb.
    by rewrite IH.
Qed.
Lemma toy_digits_app ds c rest : str_forallb is_digit ds = true → is_digit c = false →
  toy_digits (ds +:+ String c rest) = (ds, String c rest).
Proof.
  intros Hd Hc. induction ds as [|d ds IH].
  - rewrite str_app_nil_l. cbn [toy_digits]. by rewrite Hc.
  - rewrite str_forallb_cons in Hd. apply andb_true_iff in Hd as [Hd Hds].
    rewrite str_app_cons. cbn [toy_digits]. by rewrite Hd, IH.
Qed.
Lemma toy_value_flat v c rest : flat v = true → is_digit c = false →
  toy_value (toy_write v +:+ String c rest) = Some (v, String c rest).
Proof.
  intros Hf Hc. destruct v as [|[]|ds|s|l|ms]; try done; cbn [toy_write].
  - cbn [flat] in Hf. apply andb_true_iff in Hf as [Hne Hds]. unfold toy_value.
    destruct ds as [|d ds]; [done|].
    assert (is_digit d = true) as Hd by (rewrite str_forallb_cons in Hds; by apply andb_true_iff in Hds as [? _]).
    assert (∀ p q r, is_digit p = false → strip_prefix (String p q) (String d r) = None) as Hp.
    { intros p q r Hp. unfold strip_prefix. destruct (Ascii.eqb_spec p d); [congruence|done]. }
    rewrite toy_digits_app by done. rewrite str_app_cons. unfold quote.
    by rewrite !Hp.
  - unfold quoted, toy_value. rewrite !str_app_assoc, strip_prefix_app, toy_string_escape. done.
Qed.
Lemma concat_comma_length l : length l ≤ S (String.length (String.concat "," l)).
Proof.
  induction l as [|x l IH]; [cbn; lia|]. destruct l as [|y l]; [cbn [length]; lia|].
  change (String.concat "," (x :: y :: l)) with (x +:+ "," +:+ String.concat "," (y :: l)).
  rewrite !str_length_app. cbn [String.length length] in *. lia.
Qed.
Lemma toy_members_write ms kv n : length ms < n → forallb flat (kv :: ms).*2 = true →
  toy_members n (String.concat "," (map (λ kv, quoted (toy_escape kv.1) +:+ ":" +:+ toy_write kv.2)
    (kv :: ms)) +:+ "}") = Some (kv :: ms).
Proof.
  revert kv n. induction ms as [|kv' ms IH]; intros [k v] n Hn Hf; (destruct n as [|n]; [cbn in Hn; lia|]);
    cbn [fmap list_fmap snd forallb] in Hf; apply andb_true_iff in Hf as [Hv Hf].
  - cbn [map String.concat fst snd toy_members]. unfold quoted.
    rewrite !str_app_assoc, strip_prefix_app. cbn [mbind option_bind].
    rewrite toy_string_escape. cbn [mbind option_bind]. rewrite strip_prefix_app.
    cbn [mbind option_bind]. rewrite (toy_value_flat v "}" "") by done. done.
  - cbn [map fst snd toy_members]. set (tail := map _ ms).
    change (String.concat "," (?a :: ?b :: tail)) with (a +:+ "," +:+ String.concat "," (b :: tail)).
    unfold quoted at 1. rewrite !str_app_assoc, strip_prefix_app. cbn [mbind option_bind].
    rewrite toy_string_escape. cbn [mbind option_bind]. rewrite strip_prefix_app.
    cbn [mbind option_bind].
    rewrite (str_app_cons "," ""), str_app_nil_l, toy_value_flat by done.
    cbn [mbind option_bind String.eqb Ascii.eqb Bool.eqb].
    change (strip_prefix "," (String "," ?s)) with (Some s). cbn [mbind option_bind].
    unfold tail. rewrite <- (map_cons (λ kv, quoted (toy_escape kv.1) +:+ ":" +:+ toy_write kv.2)).
    rewrite IH; [done|cbn in Hn; lia|done].
Qed.
Lemma toy_read_write ms : forallb flat ms.*2 = true →
  toy_read (as_bytes (toy_write (JObject ms))) = Ok (JObject ms).
Proof.
  intros Hf. unfold toy_read, as_bytes. rewrite String.string_of_list_byte_of_string.
  cbn [toy_write]. rewrite strip_prefix_app. destruct ms as [|kv ms]; [done|].
  set (f := λ kv : string * json, quoted (toy_escape kv.1) +:+ ":" +:+ toy_write kv.2).
  set (body := String.concat "," (map f (kv :: ms)) +:+ "}").
  assert (length ms < String.length body) as Hlen.
  { subst body. rewrite str_length_app. pose proof (concat_comma_length (map f (kv :: ms))) as Hl.
    rewrite length_map in Hl. cbn [length String.length] in *. lia. }
  assert (String.eqb body "}" = false) as ->.
  { apply String.eqb_neq. intros Hb. subst body. cbn [map] in Hb.
    destruct (map f ms); cbn in Hb; discriminate. }
  pose proof (toy_members_write ms kv (String.length body) Hlen Hf) as Hm.
  fold f body in Hm. by rewrite Hm.
Qed.
Lemma fx_json_text_laws : @JsonTextLaws fx_json fx_json_write.
Proof.
  split; cbn [json_to_string fx_json_write json_document json_value fx_json].
  - eauto.
  - intros s Hs. f_equal. cbn [toy_write]. f_equal. induction s as [|c s IH]; [done|].
    unfold plain in Hs. rewrite str_forallb_cons in Hs.
    apply andb_true_iff in Hs as [Hc Hs]. cbn [toy_escape].
    unfold plain_char in Hc. unfold is_special.
    destruct (Ascii.eqb c "034"), (Ascii.eqb c "092"); cbn in Hc |- *;
      rewrite ?andb_false_r in Hc; try done. f_equal. by apply IH.
  - by intros [].
  - done.
  - intros ms ts Hall. f_equal. cbn [toy_write]. do 2 f_equal.
    f_equal. induction Hall as [|[k v] t ms ts (k' & v' & [= <-] & [= <-] & ->) _ IH]; [done|].
    cbn [map fst snd]. by f_equal.
  - intros ms t _ Hf Ht. assert (t = toy_write (JObject ms)) as -> by congruence.
    rewrite toy_read_write by done. split; [done|]. by exists ms.
Qed.

(** The instances, for the sections of witnesses that import them. *)
Module Instances.
  #[export] Existing Instances fx_hex fx_base58 fx_base64 fx_hashes fx_ed25519
    fx_p256 fx_k256 fx_mldsa fx_features fx_profile fx_chrono fx_urls fx_world fx_reqwest fx_sfv fx_json
    fx_json_write.
  #[export] Existing Instances fx_hex_laws fx_base58_laws fx_base64_laws
    fx_hashes_laws fx_p256_laws fx_p256_recover_laws fx_chrono_laws fx_urls_laws fx_sfv_laws
    fx_json_text_laws.
End Instances.

(** ** Sample values *)

Definition sample_key_did : string :=
  "did:key:z6MkhaXgBZDvotDkL5257faiztiGiC2QtKLGpbnnEGta2doK".
Definition sample_eip155_did : string :=
  "did:pkh:eip155:1:0xd8dA6BF26964aF9D7eEd9e03E53415D37aA96045".
Definition sample_nonce (n : N) : bytes := replicate 31 Byte.x00 ++ [byte_of n].
(** [s] seconds after 2026-03-17T12:00:00Z. *)
Definition sample_time (s : Z) : @date_time fx_chrono := (1773748800 + s)%Z.
