(* ===== verification/Errors.v ===== *)
(** * Error types: src/crypto_error.rs and src/auth_error.rs *)

From S2P Require Import Prelude.

(** [CryptoError]; [HexDecode] carries the text of [hex::FromHexError]. *)
Inductive CryptoError : Type :=
| UnsupportedMethod (did : string)
| InvalidDid (why : string)
| InvalidSignature (why : string)
| VerificationFailed
| HexDecode (e : string).

(** The [Display] that [thiserror] derives. *)
Definition crypto_error_display (e : CryptoError) : string :=
  match e with
  | UnsupportedMethod s => "unsupported DID method: " +:+ s
  | InvalidDid s => "invalid DID: " +:+ s
  | InvalidSignature s => "invalid signature: " +:+ s
  | VerificationFailed => "signature verification failed"
  | HexDecode s => "hex decode error: " +:+ s
  end.

Inductive AuthError : Type :=
| Crypto (e : CryptoError)
| ChallengeNotFound
| ChallengeExpired
| SessionNotFound
| SessionExpired
| SessionStoreFull (max : nat)
| BackendUnavailable (why : string).

(** A format error (rule 5 of SPEC section 7): the identifier is malformed. *)
Definition is_format_error (e : CryptoError) : bool :=
  match e with InvalidDid _ | HexDecode _ => true | _ => false end.

#[export] Instance CryptoError_eq_dec : EqDecision CryptoError.
Proof. solve_decision. Defined.
#[export] Instance AuthError_eq_dec : EqDecision AuthError.
Proof. solve_decision. Defined.
