(* ===== verification/Keys.v ===== *)
(** * Multibase keys: src/key/mod.rs and the strict Ed25519 decoder of
    src/key/ed25519.rs

    [decode_multibase_key] and [verify_with_key] are shared by [did:key] and
    [did:peer]; [strict_verifying_key] is shared by every decoder of an
    Ed25519 key out of a DID. *)

From S2P Require Import Prelude Crates Errors Fixtures.

Section defs.
Context `{Ed25519, P256, Base58}.

(** [strict_verifying_key]: a canonical, torsion-free, not weak point. *)
Definition strict_verifying_key (b : bytes) : result ed_key CryptoError :=
  let? point := ok_or (ed_decompress b)
    (InvalidDid "Ed25519 public key is not a curve point") in
  if negb (bytes_eqb (ed_compress point) b) then
    Err (InvalidDid "Ed25519 public key has a non-canonical encoding")
  else
  let? key := map_err (λ e, InvalidDid ("invalid Ed25519 public key: " +:+ e))
    (ed_key_from_bytes b) in
  if ed_is_weak key then
    Err (InvalidDid "Ed25519 public key is a weak (small order) key")
  else if negb (ed_torsion_free point) then
    Err (InvalidDid "Ed25519 public key is not in the prime-order subgroup")
  else Ok key.

(** Multicodec varints. *)
Definition ED25519_PREFIX : bytes := [Byte.xed; Byte.x01].
Definition P256_PREFIX : bytes := [Byte.x80; Byte.x24].

Inductive KeyType : Type :=
| KeyEd25519 (raw : bytes)
| KeyP256 (raw : bytes).

(** [bytes.starts_with(prefix)], with the rest. *)
Fixpoint bytes_strip_prefix (p b : bytes) : option bytes :=
  match p, b with
  | [], _ => Some b
  | x :: p', y :: b' => if Byte.eqb x y then bytes_strip_prefix p' b' else None
  | _ :: _, [] => None
  end.

Definition decode_multibase_key (z_body : string) : result KeyType CryptoError :=
  let? bs := map_err (λ e, InvalidDid ("base58btc decode error: " +:+ e))
    (bs58_decode z_body) in
  match bytes_strip_prefix ED25519_PREFIX bs with
  | Some raw =>
      (* a wrong length is reported by the callers *)
      if length raw =? 32 then
        let? _k := strict_verifying_key raw in Ok (KeyEd25519 raw)
      else Ok (KeyEd25519 raw)
  | None =>
      match bytes_strip_prefix P256_PREFIX bs with
      | Some raw => Ok (KeyP256 raw)
      | None => Err (InvalidDid
          ("unknown multicodec prefix " +:+ debug_hex (take 2 bs)))
      end
  end.

(** [P256Sig::from_der(..).or_else(|_| P256Sig::from_slice(..))]. *)
Definition p256_sig_any (signature : bytes) : result p256_sig string :=
  match p256_sig_from_der signature with
  | Ok s => Ok s
  | Err _ => p256_sig_from_slice signature
  end.

Definition verify_with_key (key : KeyType) (message : string) (signature : bytes)
  : result bool CryptoError :=
  match key with
  | KeyEd25519 raw =>
      if negb (length raw =? 32) then
        Err (InvalidSignature "Ed25519 public key must be 32 bytes")
      else
      let? vk := strict_verifying_key raw in
      if negb (length signature =? 64) then
        Err (InvalidSignature ("Ed25519 signature must be 64 bytes, got "
          +:+ show_nat (length signature)))
      else
      let? sig := map_err (λ e, InvalidSignature ("invalid Ed25519 sig: " +:+ e))
        (ed_sig_from_slice signature) in
      Ok (ed_verify_strict vk (as_bytes message) sig)
  | KeyP256 raw =>
      let? point := map_err
        (λ e, InvalidSignature ("invalid P-256 encoded point: " +:+ e))
        (p256_point_from_bytes raw) in
      let? vk := map_err (λ e, InvalidSignature ("invalid P-256 key: " +:+ e))
        (p256_key_from_point point) in
      let? sig := map_err (λ e, InvalidSignature ("invalid P-256 sig: " +:+ e))
        (p256_sig_any signature) in
      Ok (p256_verify vk (as_bytes message) sig)
  end.

Definition key_type_label (k : KeyType) : string :=
  match k with KeyEd25519 _ => "Ed25519" | KeyP256 _ => "P-256" end.

Definition strip_did_key (did : string) : result string CryptoError :=
  ok_or (strip_prefix "did:key:z" did)
    (InvalidDid ("expected did:key DID: " +:+ did)).

Definition ed25519_pubkey_from_did_key (did : string) : result bytes CryptoError :=
  let? z_body := strip_did_key did in
  let? k := decode_multibase_key z_body in
  match k with
  | KeyEd25519 raw =>
      if length raw =? 32 then Ok raw
      else Err (InvalidDid "Ed25519 public key must be 32 bytes")
  | other => Err (InvalidDid
      ("expected an Ed25519 did:key, got " +:+ key_type_label other))
  end.

Definition p256_pubkey_from_did_key (did : string) : result bytes CryptoError :=
  let? z_body := strip_did_key did in
  let? k := decode_multibase_key z_body in
  match k with
  | KeyP256 raw =>
      if negb (length raw =? 33) then
        Err (InvalidDid ("P-256 did:key must carry a 33-byte compressed point, got "
          +:+ show_nat (length raw) +:+ " bytes"))
      else if p256_sec1_valid raw then Ok raw
      else Err (InvalidDid "P-256 did:key is not a point on the curve")
  | other => Err (InvalidDid
      ("expected a P-256 did:key, got " +:+ key_type_label other))
  end.

(** ** The encoders of src/did.rs *)

Definition encode_did_key (prefix pubkey : bytes) : string :=
  "did:key:z" +:+ bs58_encode (prefix ++ pubkey).
Definition ed25519_did_key_from_pubkey (pubkey : bytes) : string :=
  encode_did_key ED25519_PREFIX pubkey.
Definition p256_did_key_from_pubkey (pubkey : bytes) : string :=
  encode_did_key P256_PREFIX pubkey.

(** What a strict Ed25519 key is: the specification of [strict_verifying_key]. *)
Definition strict_key_spec (b : bytes) (key : ed_key) : Prop :=
  ∃ point, ed_decompress b = Some point ∧ ed_compress point = b ∧
    ed_key_from_bytes b = Ok key ∧ ed_is_weak key = false ∧
    ed_torsion_free point = true.
End defs.

Section proofs.
Context `{Ed25519, P256, Base58}.

(** The strict decoder accepts exactly the canonical, strong, torsion-free
    keys, whatever error it reports for the others. *)
Lemma strict_verifying_key_Ok b key :
  strict_verifying_key b = Ok key ↔ strict_key_spec b key.
Proof.
  unfold strict_verifying_key, strict_key_spec, ok_or, map_err. split.
  - intros Hr. inv_res Hr. bool_simpl.
    rewrite bytes_eqb_eq in *. naive_solver.
  - intros (p & -> & Hc & -> & -> & ->). by rewrite Hc, bytes_eqb_refl.
Qed.
Lemma strict_verifying_key_Err b e :
  strict_verifying_key b = Err e → is_format_error e = true.
Proof.
  unfold strict_verifying_key, ok_or, map_err. intros Hr.
  repeat case_match; by simplify_eq.
Qed.
Lemma bytes_strip_prefix_app p b : bytes_strip_prefix p (p ++ b) = Some b.
Proof. induction p as [|x p IH]; [done|]. simpl. by rewrite Byte.byte_dec_lb. Qed.
Lemma bytes_strip_prefix_Some p b r : bytes_strip_prefix p b = Some r → b = p ++ r.
Proof.
  revert b. induction p as [|x p IH]; intros [|y b]; simpl; try congruence.
  destruct (Byte.eqb x y) eqn:E; [|done]. apply Byte.byte_dec_bl in E as ->.
  intros ->%IH. done.
Qed.

Context `{!Base58Laws}.

Lemma decode_multibase_ed25519 raw key :
  strict_verifying_key raw = Ok key →
  decode_multibase_key (bs58_encode (ED25519_PREFIX ++ raw)) = Ok (KeyEd25519 raw).
Proof.
  intros Hk. unfold decode_multibase_key. rewrite bs58_decode_encode.
  cbn [map_err]. rewrite bytes_strip_prefix_app, Hk. by destruct (length raw =? 32).
Qed.
Lemma decode_multibase_p256 raw :
  decode_multibase_key (bs58_encode (P256_PREFIX ++ raw)) = Ok (KeyP256 raw).
Proof.
  unfold decode_multibase_key. rewrite bs58_decode_encode. cbn [map_err].
  by rewrite bytes_strip_prefix_app.
Qed.
Lemma decode_multibase_key_inv z k :
  decode_multibase_key z = Ok k →
  z = bs58_encode (match k with
                   | KeyEd25519 raw => ED25519_PREFIX ++ raw
                   | KeyP256 raw => P256_PREFIX ++ raw
                   end).
Proof.
  unfold decode_multibase_key. destruct (bs58_decode z) as [bs|] eqn:E; [|done].
  cbn [map_err]. apply bs58_encode_decode in E as <-.
  destruct (bytes_strip_prefix ED25519_PREFIX bs) as [raw|] eqn:E1.
  - apply bytes_strip_prefix_Some in E1 as ->. intros Hr. by inv_res Hr.
  - destruct (bytes_strip_prefix P256_PREFIX bs) as [raw|] eqn:E2; [|done].
    apply bytes_strip_prefix_Some in E2 as ->. by intros [= <-].
Qed.
Lemma decode_multibase_key_Err z e :
  decode_multibase_key z = Err e → is_format_error e = true.
Proof.
  unfold decode_multibase_key, map_err. intros Hr.
  repeat case_match; simplify_eq; eauto using strict_verifying_key_Err.
Qed.
(** An Ed25519 body of the right length holds a strict key. *)
Lemma decode_multibase_key_strict z raw :
  decode_multibase_key z = Ok (KeyEd25519 raw) → length raw = 32 →
  ∃ key, strict_verifying_key raw = Ok key.
Proof.
  unfold decode_multibase_key, map_err. intros Hr Hl.
  repeat case_match; simplify_eq; eauto. bool_simpl. done.
Qed.

(** The two encodings of an Ed25519 identity are mutually inverse. *)
Lemma ed25519_did_key_inverse did raw :
  ed25519_pubkey_from_did_key did = Ok raw ↔
  did = ed25519_did_key_from_pubkey raw ∧ length raw = 32 ∧
  ∃ key, strict_key_spec raw key.
Proof.
  unfold ed25519_pubkey_from_did_key, strip_did_key. split.
  - destruct (strip_prefix "did:key:z" did) as [z|] eqn:Ez; [|done]. cbn [ok_or].
    destruct (decode_multibase_key z) as [[r|r]|] eqn:Ed; [|done..].
    destruct (length r =? 32) eqn:El; [|done]. intros [= <-]. bool_simpl.
    split; [|split; [done|]].
    + apply strip_prefix_Some in Ez as ->. by apply decode_multibase_key_inv in Ed as ->.
    + destruct (decode_multibase_key_strict _ _ Ed El) as [k Hk].
      exists k. by apply strict_verifying_key_Ok.
  - intros (-> & Hl & key & Hk%strict_verifying_key_Ok).
    unfold ed25519_did_key_from_pubkey, encode_did_key.
    rewrite strip_prefix_app. cbn [ok_or].
    erewrite decode_multibase_ed25519 by done. by rewrite Hl.
Qed.
Lemma p256_did_key_inverse did raw :
  p256_pubkey_from_did_key did = Ok raw ↔
  did = p256_did_key_from_pubkey raw ∧ length raw = 33 ∧ p256_sec1_valid raw = true.
Proof.
  unfold p256_pubkey_from_did_key, strip_did_key. split.
  - destruct (strip_prefix "did:key:z" did) as [z|] eqn:Ez; [|done]. cbn [ok_or].
    destruct (decode_multibase_key z) as [[r|r]|] eqn:Ed; [done| |done].
    destruct (length r =? 33) eqn:El; [|done]. simpl.
    destruct (p256_sec1_valid r) eqn:Ev; [|done]. intros [= <-]. bool_simpl.
    apply strip_prefix_Some in Ez as ->. by apply decode_multibase_key_inv in Ed as ->.
  - intros (-> & Hl & Hv). unfold p256_did_key_from_pubkey, encode_did_key.
    rewrite strip_prefix_app. cbn [ok_or]. rewrite decode_multibase_p256, Hl. simpl.
    by rewrite Hv.
Qed.
Lemma encode_did_key_inj p a b : encode_did_key p a = encode_did_key p b → a = b.
Proof.
  unfold encode_did_key. intros Heq%str_app_inj_l.
  apply (f_equal bs58_decode) in Heq. rewrite !bs58_decode_encode in Heq.
  injection Heq as Heq. by apply app_inv_head in Heq.
Qed.
End proofs.

Section properties.
Context `{Ed25519, P256, Base58, !Base58Laws}.

(** C33: a [did:key] and the key it names determine each other. A DID yields an
    Ed25519 key exactly when it is the encoding of that key, of 32 bytes and
    strict (canonical, of large order, in the prime-order subgroup); it yields
    a P-256 key exactly when it is the encoding of that key, a compressed
    point of 33 bytes on the curve. *)
Theorem did_key_round_trip did raw :
  (ed25519_pubkey_from_did_key did = Ok raw ↔
    did = ed25519_did_key_from_pubkey raw ∧ length raw = 32 ∧
    ∃ key, strict_key_spec raw key) ∧
  (p256_pubkey_from_did_key did = Ok raw ↔
    did = p256_did_key_from_pubkey raw ∧ length raw = 33 ∧ p256_sec1_valid raw = true).
Proof. split; [apply ed25519_did_key_inverse|apply p256_did_key_inverse]. Qed.
End properties.

Section witnesses.
Import Fixtures.Instances.

Definition named_key : bytes :=
  match ed25519_pubkey_from_did_key sample_key_did with Ok raw => raw | Err _ => [] end.
Lemma did_key_round_trip_witness :
  sample_key_did = ed25519_did_key_from_pubkey named_key ∧ length named_key = 32.
Proof.
  destruct (proj1 (proj1 (did_key_round_trip sample_key_did named_key))) as (Hd & Hl & _);
    [vm_refl|]. split; [exact Hd|exact Hl].
Defined.
End witnesses.
