(* ===== verification/Did.v ===== *)
(** * DID parsing: src/did.rs

    The parsers of the three [did:pkh] identifiers, the EIP-55 checksum and
    the identifier line of a CAIP-122 message. *)

From S2P Require Import Prelude Crates Errors Keys.

Section defs.
Context `{Ed25519, Hex, Hashes, K256}.

(** [s.split(c).next()]: the first segment. *)
Definition split_head (c : ascii) (s : string) : string :=
  match split_once c s with Some (a, _) => a | None => s end.

Definition parse_did_namespace (did : string) : result string CryptoError :=
  let? rest := ok_or (strip_prefix "did:pkh:" did)
    (InvalidDid ("expected 'did:pkh:' prefix: " +:+ did)) in
  Ok (split_head ":"%char rest).

Definition address_from_did (did : string) : result bytes CryptoError :=
  let? rest := ok_or (strip_prefix "did:pkh:eip155:" did)
    (InvalidDid ("expected eip155 DID: " +:+ did)) in
  let? hex_str := ok_or (strip_prefix "0x" (rsplit_next ":"%char rest))
    (InvalidDid ("missing 0x address in eip155 DID: " +:+ did)) in
  if negb (String.length hex_str =? 40) then
    Err (InvalidDid ("eip155 address must be 40 hex chars, got "
      +:+ show_nat (String.length hex_str)))
  else
  let? bs := map_err HexDecode (hex_decode hex_str) in
  if length bs =? 20 then Ok bs
  else Err (InvalidDid "address must be exactly 20 bytes").

Definition pubkey_from_ed25519_did (did : string) : result bytes CryptoError :=
  let? hex_str := ok_or (strip_prefix "did:pkh:ed25519:0x" did)
    (InvalidDid ("expected ed25519 DID: " +:+ did)) in
  if negb (String.length hex_str =? 64) then
    Err (InvalidDid ("ed25519 pubkey must be 64 hex chars, got "
      +:+ show_nat (String.length hex_str)))
  else
  let? bs := map_err HexDecode (hex_decode hex_str) in
  if negb (length bs =? 32) then
    Err (InvalidDid "ed25519 pubkey must be 32 bytes")
  else
  let? _k := strict_verifying_key bs in
  Ok bs.

Definition pubkey_from_p256_did (did : string) : result bytes CryptoError :=
  let? hex_str := ok_or (strip_prefix "did:pkh:p256:0x" did)
    (InvalidDid ("expected p256 DID: " +:+ did)) in
  if negb (String.length hex_str =? 66) then
    Err (InvalidDid ("p256 compressed pubkey must be 66 hex chars, got "
      +:+ show_nat (String.length hex_str)))
  else
  let? bs := map_err HexDecode (hex_decode hex_str) in
  if length bs =? 33 then Ok bs
  else Err (InvalidDid "p256 compressed pubkey must be 33 bytes").

(** [keccak256(uncompressed_pubkey[1..])[12..]]. *)
Definition address_from_verifying_key (key : k256_key) : bytes :=
  drop 12 (keccak256 (drop 1 (k256_uncompressed key))).

(** One character of the checksum. [hash] has 32 bytes and [i] is below 40,
    so the index is in range. *)
Definition eip55_char (hash : bytes) (i : nat) (c : ascii) : ascii :=
  if is_digit c then c
  else
    let b := byte_N (default Byte.x00 (hash !! (i / 2)%nat)) in
    let nibble := (if Nat.even i then N.land (N.shiftr b 4) 15 else N.land b 15) in
    if (8 <=? nibble)%N then upper_char c else c.
Fixpoint eip55_chars (hash : bytes) (i : nat) (s : string) : string :=
  match s with
  | EmptyString => EmptyString
  | String c s' => String (eip55_char hash i c) (eip55_chars hash (S i) s')
  end.
Definition eip55_checksum (addr : bytes) : string :=
  let lower := hex_encode addr in
  eip55_chars (keccak256 (as_bytes lower)) 0 lower.

Definition identifier_from_message (message : string) : option string :=
  match split "010"%char message with
  | _ :: line :: _ =>
      let id := trim (trim_end_matches "013"%char line) in
      if str_is_empty id then None else Some id
  | _ => None
  end.

Definition checksummed_address (did : string) : result string CryptoError :=
  let? addr := address_from_did did in
  Ok ("0x" +:+ eip55_checksum addr).

Definition identifier_from_did (did : string) : result string CryptoError :=
  let? ns := parse_did_namespace did in
  if String.eqb ns "eip155" then checksummed_address did
  else if String.eqb ns "ed25519" then
    let? pk := pubkey_from_ed25519_did did in Ok ("0x" +:+ hex_encode pk)
  else if String.eqb ns "p256" then
    let? pk := pubkey_from_p256_did did in Ok ("0x" +:+ hex_encode pk)
  else Err (UnsupportedMethod ns).
End defs.

Section proofs.
Context `{Ed25519, Hex, Hashes, K256, !HexLaws}.

Lemma split_head_app c a b : free_of c a = true → split_head c (a +:+ String c b) = a.
Proof. intros Hf. unfold split_head. by rewrite split_once_app. Qed.

Lemma lower_hex_fixed c : is_lower_hex c = true → lower_char c = c.
Proof. destruct c as [[] [] [] [] [] [] [] []]; try discriminate; done. Qed.
Lemma lower_upper_char c : is_lower_hex c = true → lower_char (upper_char c) = c.
Proof. destruct c as [[] [] [] [] [] [] [] []]; try discriminate; done. Qed.
Lemma lower_hex_alnum c : is_lower_hex c = true → is_alnum c = true ∧ is_alnum (upper_char c) = true.
Proof. destruct c as [[] [] [] [] [] [] [] []]; try discriminate; done. Qed.
Lemma alnum_graphic c : is_alnum c = true → graphic c = true.
Proof. destruct c as [[] [] [] [] [] [] [] []]; try discriminate; done. Qed.
Lemma to_lower_lower_hex s : str_forallb is_lower_hex s = true → to_lower s = s.
Proof.
  unfold to_lower. induction s as [|c s IH]; [done|]. simpl. intros Hs. bool_simpl.
  rewrite lower_hex_fixed, IH by done. done.
Qed.

Lemma eip55_char_lower h i c :
  is_lower_hex c = true → lower_char (eip55_char h i c) = c ∧ is_alnum (eip55_char h i c) = true.
Proof.
  intros Hc. destruct (lower_hex_alnum c Hc) as [? ?]. unfold eip55_char.
  destruct (is_digit c); [auto using lower_hex_fixed|].
  cbv zeta. case_match; auto using lower_hex_fixed, lower_upper_char.
Qed.
Lemma eip55_chars_lower h i s :
  str_forallb is_lower_hex s = true →
  to_lower (eip55_chars h i s) = s ∧ str_forallb is_alnum (eip55_chars h i s) = true.
Proof.
  unfold to_lower. revert i. induction s as [|c s IH]; intros i; [done|].
  simpl. intros Hs. bool_simpl. destruct (eip55_char_lower h i c) as [-> ->]; [done|].
  destruct (IH (S i)) as [-> ->]; done.
Qed.
(** The checksum only changes the case of the address's hex digits. *)
Lemma eip55_checksum_lower a : to_lower (eip55_checksum a) = hex_encode a.
Proof. unfold eip55_checksum. by apply eip55_chars_lower, hex_encode_digits. Qed.
Lemma eip55_checksum_alnum a : str_forallb is_alnum (eip55_checksum a) = true.
Proof. unfold eip55_checksum. by apply eip55_chars_lower, hex_encode_digits. Qed.
Lemma eip55_checksum_decode a : hex_decode (eip55_checksum a) = Ok a.
Proof.
  eapply hex_decode_case; [|apply hex_decode_encode].
  rewrite eip55_checksum_lower. apply to_lower_lower_hex, hex_encode_digits.
Qed.
Lemma str_map_length f s : String.length (str_map f s) = String.length s.
Proof. induction s; simpl; congruence. Qed.
Lemma eip55_checksum_length a : String.length (eip55_checksum a) = 2 * length a.
Proof.
  rewrite <- (hex_encode_length a), <- eip55_checksum_lower. symmetry. apply str_map_length.
Qed.
Lemma free_of_alnum c s : is_alnum c = false → str_forallb is_alnum s = true → free_of c s = true.
Proof.
  intros Hc. apply str_forallb_impl. intros d Hd.
  destruct (Ascii.eqb_spec c d); [congruence|done].
Qed.

(** What [address_from_did] accepts: the chain segment is never read. *)
Lemma address_from_did_Ok did a :
  address_from_did did = Ok a ↔
  ∃ rest h, did = "did:pkh:eip155:" +:+ rest ∧ rsplit_next ":"%char rest = "0x" +:+ h ∧
    hex_decode h = Ok a ∧ length a = 20.
Proof.
  unfold address_from_did. split.
  - destruct (strip_prefix _ did) as [rest|] eqn:E1; [|done]. cbn [ok_or].
    destruct (strip_prefix "0x" _) as [h|] eqn:E2; [|done]. cbn [ok_or].
    destruct (negb _); [done|]. destruct (hex_decode h) as [b|] eqn:E3; [|done].
    cbn [map_err]. destruct (length b =? 20) eqn:E4; [|done]. intros [= <-].
    apply strip_prefix_Some in E1, E2. bool_simpl. eauto 10.
  - intros (rest & h & -> & Hr & Hh & Hl). rewrite strip_prefix_app. cbn [ok_or].
    rewrite Hr, strip_prefix_app. cbn [ok_or].
    pose proof (hex_decode_length _ _ Hh) as Hlen. rewrite Hlen, Hl. simpl.
    by rewrite Hh; simpl; rewrite Hl.
Qed.
Lemma address_from_did_any_chain chain h a :
  free_of ":"%char h = true → hex_decode h = Ok a → length a = 20 →
  address_from_did ("did:pkh:eip155:" +:+ chain +:+ ":0x" +:+ h) = Ok a.
Proof.
  intros Hf Hh Hl. apply address_from_did_Ok. eexists _, h. split; [done|].
  split; [|done]. change (":0x" +:+ h) with (String ":"%char ("0x" +:+ h)).
  apply rsplit_next_app. done.
Qed.

(** Checksumming a DID's address is a normal form: the address read back
    under any chain is the same, and so is its checksum. *)
Lemma checksummed_address_normal did c chain :
  checksummed_address did = Ok c →
  address_from_did ("did:pkh:eip155:" +:+ chain +:+ ":" +:+ c) = address_from_did did ∧
  checksummed_address ("did:pkh:eip155:" +:+ chain +:+ ":" +:+ c) = Ok c.
Proof.
  unfold checksummed_address. destruct (address_from_did did) as [a|] eqn:E; [|done].
  intros [= <-]. apply address_from_did_Ok in E as (? & ? & _ & _ & _ & Hl).
  change (":" +:+ "0x" +:+ eip55_checksum a) with (":0x" +:+ eip55_checksum a).
  assert (address_from_did ("did:pkh:eip155:" +:+ chain +:+ ":0x" +:+ eip55_checksum a)
    = Ok a) as ->; [|done].
  apply address_from_did_any_chain; [|apply eip55_checksum_decode|done].
  apply free_of_alnum; [done|apply eip55_checksum_alnum].
Qed.

Lemma pubkey_from_ed25519_did_Ok did pk :
  pubkey_from_ed25519_did did = Ok pk ↔
  ∃ h key, did = "did:pkh:ed25519:0x" +:+ h ∧ hex_decode h = Ok pk ∧
    length pk = 32 ∧ strict_verifying_key pk = Ok key.
Proof.
  unfold pubkey_from_ed25519_did. split.
  - destruct (strip_prefix _ did) as [h|] eqn:E1; [|done]. cbn [ok_or].
    destruct (negb _); [done|]. destruct (hex_decode h) as [b|] eqn:E3; [|done].
    cbn [map_err]. destruct (length b =? 32) eqn:E4; [|done]. cbn [negb].
    destruct (strict_verifying_key b) as [k|] eqn:E5; [|done]. intros [= <-].
    apply strip_prefix_Some in E1. bool_simpl. eauto 10.
  - intros (h & key & -> & Hh & Hl & Hk). rewrite strip_prefix_app. cbn [ok_or].
    rewrite (hex_decode_length _ _ Hh), Hl, Hh. simpl. by rewrite Hl, Hk.
Qed.
Lemma pubkey_from_p256_did_Ok did pk :
  pubkey_from_p256_did did = Ok pk ↔
  ∃ h, did = "did:pkh:p256:0x" +:+ h ∧ hex_decode h = Ok pk ∧ length pk = 33.
Proof.
  unfold pubkey_from_p256_did. split.
  - destruct (strip_prefix _ did) as [h|] eqn:E1; [|done]. cbn [ok_or].
    destruct (negb _); [done|]. destruct (hex_decode h) as [b|] eqn:E3; [|done].
    cbn [map_err]. destruct (length b =? 33) eqn:E4; [|done]. intros [= <-].
    apply strip_prefix_Some in E1. bool_simpl. eauto 10.
  - intros (h & -> & Hh & Hl). rewrite strip_prefix_app. cbn [ok_or].
    rewrite (hex_decode_length _ _ Hh), Hl, Hh. simpl. by rewrite Hl.
Qed.
End proofs.
