(* ===== verification/Suites.v ===== *)
(** * Cipher suites: src/cipher_suite.rs, src/pkh/eip155.rs,
    src/key/ed25519.rs and src/key/p256.rs

    The trait [CipherSuite] is a record of operations; the registry is the
    list of its three implementations in priority order. *)

From S2P Require Import Prelude Crates Errors Keys Did.

(** The trait [CipherSuite]. *)
Record CipherSuite : Type := {
  cs_namespace : string;
  cs_has_chain_id : bool;
  cs_did_segments : nat;
  cs_verify : string → string → bytes → result bool CryptoError;
  cs_parse_did_parts : string → result (string * option string) CryptoError;
}.

Section defs.
Context `{Ed25519, P256, K256, Base58, Hex, Hashes}.

(** ** [eip155]: EIP-191 [personal_sign] *)

Definition eip191_prefix (message : string) : string :=
  String "025"%char ("Ethereum Signed Message:" +:+ nl
    +:+ show_nat (String.length message)).
Definition eip191_prehash (message : string) : bytes :=
  keccak256 (as_bytes (eip191_prefix message) ++ as_bytes message).

Definition eip155_verify (did message : string) (signature : bytes)
  : result bool CryptoError :=
  let? expected_addr := address_from_did did in
  let prehash := eip191_prehash message in
  match length signature =? 65, signature !! 64%nat with
  | true, Some v =>
      let v := Z.of_N (byte_N v) in
      if (v <? 27)%Z then
        Err (InvalidSignature ("invalid v=" +:+ show_Z v +:+ "; expected 27 or 28"))
      else
      let? rec_id := ok_or (k256_recid_from_byte (v - 27))
        (InvalidSignature ("invalid recovery id " +:+ show_Z (v - 27))) in
      let? sig := map_err InvalidSignature (k256_sig_from_slice (take 64 signature)) in
      let? recovered := map_err (λ e, InvalidSignature ("ecrecover failed: " +:+ e))
        (k256_recover prehash sig rec_id) in
      Ok (bytes_eqb (address_from_verifying_key recovered) expected_addr)
  | _, _ => Err (InvalidSignature ("EIP-191 signature must be 65 bytes, got "
              +:+ show_nat (length signature)))
  end.

(** [splitn(2, ':')]: the chain up to the first colon, the address after it. *)
Definition eip155_parse_did_parts (did_remainder : string)
  : result (string * option string) CryptoError :=
  match split_once ":"%char did_remainder with
  | Some (chain_num, address) => Ok (address, Some ("eip155:" +:+ chain_num))
  | None => Err (InvalidDid
      ("missing address in eip155 remainder: " +:+ did_remainder))
  end.

Definition Eip155Suite : CipherSuite := {|
  cs_namespace := "eip155";
  cs_has_chain_id := true;
  cs_did_segments := 2;
  cs_verify := eip155_verify;
  cs_parse_did_parts := eip155_parse_did_parts;
|}.

(** ** [ed25519] *)

Definition ed25519_verify (did message : string) (signature : bytes)
  : result bool CryptoError :=
  let? pubkey := pubkey_from_ed25519_did did in
  let? vk := strict_verifying_key pubkey in
  if negb (length signature =? 64) then
    Err (InvalidSignature ("Ed25519 signature must be 64 bytes, got "
      +:+ show_nat (length signature)))
  else
  let? sig := map_err (λ e, InvalidSignature ("invalid ed25519 signature: " +:+ e))
    (ed_sig_from_slice signature) in
  Ok (ed_verify_strict vk (as_bytes message) sig).

Definition Ed25519Suite : CipherSuite := {|
  cs_namespace := "ed25519";
  cs_has_chain_id := false;
  cs_did_segments := 1;
  cs_verify := ed25519_verify;
  cs_parse_did_parts := λ rem, Ok (rem, None);
|}.

(** ** [p256] *)

Definition p256_suite_verify (did message : string) (signature : bytes)
  : result bool CryptoError :=
  let? pubkey := pubkey_from_p256_did did in
  let? point := map_err (λ e, InvalidSignature ("invalid p256 encoded point: " +:+ e))
    (p256_point_from_bytes pubkey) in
  let? vk := map_err (λ e, InvalidSignature ("invalid p256 pubkey: " +:+ e))
    (p256_key_from_point point) in
  let? sig := map_err (λ e, InvalidSignature ("invalid p256 signature: " +:+ e))
    (p256_sig_any signature) in
  Ok (p256_verify vk (as_bytes message) sig).

Definition P256Suite : CipherSuite := {|
  cs_namespace := "p256";
  cs_has_chain_id := false;
  cs_did_segments := 1;
  cs_verify := p256_suite_verify;
  cs_parse_did_parts := λ rem, Ok (rem, None);
|}.

(** ** The registry *)

Definition all_cipher_suites : list CipherSuite :=
  [Eip155Suite; Ed25519Suite; P256Suite].
Definition find_cipher_suite (ns : string) : option CipherSuite :=
  List.find (λ cs, String.eqb (cs_namespace cs) ns) all_cipher_suites.
End defs.

Section proofs.
Context `{Ed25519, P256, K256, Base58, Hex, Hashes}.

(** The registry, as a case analysis on the namespace. *)
Lemma find_cipher_suite_cases ns cs :
  find_cipher_suite ns = Some cs →
  (ns = "eip155" ∧ cs = Eip155Suite) ∨ (ns = "ed25519" ∧ cs = Ed25519Suite) ∨
  (ns = "p256" ∧ cs = P256Suite).
Proof.
  unfold find_cipher_suite. cbn [all_cipher_suites List.find cs_namespace
    Eip155Suite Ed25519Suite P256Suite].
  repeat match goal with
  | |- context [String.eqb ?a ns] => destruct (String.eqb_spec a ns); subst
  end; intros Hf; simplify_eq; auto.
Qed.
Lemma find_cipher_suite_None ns :
  find_cipher_suite ns = None ↔ ns ∉ ["eip155"; "ed25519"; "p256"].
Proof.
  unfold find_cipher_suite. cbn [all_cipher_suites List.find cs_namespace
    Eip155Suite Ed25519Suite P256Suite].
  rewrite !not_elem_of_cons.
  repeat match goal with
  | |- context [String.eqb ?a ns] => destruct (String.eqb_spec a ns); subst
  end; split; intros Hf; (discriminate || tauto || idtac).
  repeat split; auto using not_elem_of_nil.
Qed.

(** A verifier that answers at all has parsed its DID. *)
Lemma eip155_verify_parses did m s b :
  eip155_verify did m s = Ok b → ∃ a, address_from_did did = Ok a.
Proof. unfold eip155_verify. destruct (address_from_did did); [eauto|discriminate]. Qed.
Lemma ed25519_verify_parses did m s b :
  ed25519_verify did m s = Ok b → ∃ a, pubkey_from_ed25519_did did = Ok a.
Proof. unfold ed25519_verify. destruct (pubkey_from_ed25519_did did); [eauto|discriminate]. Qed.
Lemma p256_suite_verify_parses did m s b :
  p256_suite_verify did m s = Ok b → ∃ a, pubkey_from_p256_did did = Ok a.
Proof. unfold p256_suite_verify. destruct (pubkey_from_p256_did did); [eauto|discriminate]. Qed.
End proofs.
