(* ===== verification/Aqua.v ===== *)
(** * [did:aqua]: src/aqua/codec.rs and src/aqua/ml_dsa.rs

    The content-addressed identity of an ML-DSA-87 key, its binding check,
    and the decode/verify split of the signature. [hint_bit_unpack] is the
    reference (FIPS 204, Algorithm 21) the ported hint gate is compared to. *)

From S2P Require Import Prelude Crates Errors.

Section codec.
Context `{Base58, Base64, Hashes}.

Definition ML_DSA_87_PUBLIC_KEY_BYTES : nat := 2592.
Definition DID_AQUA_PREFIX : string := "did:aqua:".
Definition DID_AQUA_LEN : nat := 56.
Definition MULTIHASH_SHA2_256 : byte := Byte.x12.
Definition MULTIHASH_DIGEST_LEN : byte := Byte.x20.
Definition MULTIHASH_LEN : nat := 34.

(** The RFC 7638 bytes: members in lexicographic order, no white space. *)
Definition aqua_jwk (pubkey : bytes) : string :=
  "{" +:+ quoted "alg" +:+ ":" +:+ quoted "ML-DSA-87" +:+ ","
      +:+ quoted "kty" +:+ ":" +:+ quoted "AKP" +:+ ","
      +:+ quoted "pub" +:+ ":" +:+ quoted (b64url_encode pubkey) +:+ "}".
Definition aqua_multihash (pubkey : bytes) : bytes :=
  MULTIHASH_SHA2_256 :: MULTIHASH_DIGEST_LEN :: sha256 (as_bytes (aqua_jwk pubkey)).
Definition aqua_did_from_pubkey (pubkey : bytes) : string :=
  "did:aqua:z" +:+ bs58_encode (aqua_multihash pubkey).

Definition aqua_bad {T} (why : string) : result T CryptoError :=
  Err (InvalidDid ("did:aqua: " +:+ why)).
Definition multihash_from_aqua_did (did : string) : result bytes CryptoError :=
  if contains_any ["/"; "?"; "#"; ";"]%char did then
    aqua_bad "forbidden component (path, query, fragment or parameter)"
  else if negb (String.length did =? DID_AQUA_LEN) then
    aqua_bad ("wrong total length (expected 56 characters, got "
      +:+ show_nat (String.length did) +:+ ")")
  else match strip_prefix DID_AQUA_PREFIX did with
  | None => aqua_bad ("missing or incorrect " +:+ quoted "did:aqua:" +:+ " prefix")
  | Some rest =>
  match strip_prefix "z" rest with
  | None => aqua_bad "missing or wrong multibase prefix (expected 'z')"
  | Some body =>
  match bs58_decode body with
  | Err _ => aqua_bad "non-base58btc characters or decode failure"
  | Ok raw =>
      if negb (bool_decide (raw !! 0%nat = Some MULTIHASH_SHA2_256)) then aqua_bad
        "wrong multihash code (expected 0x12 / sha2-256, the RFC 7638 thumbprint hash)"
      else if negb (bool_decide (raw !! 1%nat = Some MULTIHASH_DIGEST_LEN)) then
        aqua_bad "wrong digest length (expected 0x20 / 32 bytes)"
      else if length raw =? MULTIHASH_LEN then Ok raw
      else aqua_bad "multihash is not 34 bytes"
  end end end.

Definition aqua_did_binds_pubkey (did : string) (pubkey : bytes)
  : result bool CryptoError :=
  let? claimed := multihash_from_aqua_did did in
  let? derived := multihash_from_aqua_did (aqua_did_from_pubkey pubkey) in
  Ok (bytes_eqb claimed derived).
End codec.

Section ml_dsa.
Context `{MlDsa}.

Definition ML_DSA_87_SIGNATURE_BYTES : nat := 4627.
Definition OMEGA : nat := 75.
Definition K : nat := 8.
Definition HINT_OFFSET : nat := ML_DSA_87_SIGNATURE_BYTES - (OMEGA + K).

Inductive HintDefect : Type :=
| CumulativeCountNotMonotone
| CumulativeCountAboveOmega
| IndicesNotStrictlyIncreasing
| UnusedHintByteNonZero.
Definition hint_defect_display (d : HintDefect) : string :=
  match d with
  | CumulativeCountNotMonotone => "cumulative hint counts are not monotone"
  | CumulativeCountAboveOmega => "a cumulative hint count exceeds omega"
  | IndicesNotStrictlyIncreasing =>
      "hint indices are not strictly increasing within a polynomial"
  | UnusedHintByteNonZero => "an unused hint byte is non-zero"
  end.

Definition byte_nat (b : byte) : nat := N.to_nat (byte_N b).

(** Gates 1 and 2: the walk over the cumulative counts. *)
Fixpoint hint_cuts (running : nat) (cuts : bytes) : result nat HintDefect :=
  match cuts with
  | [] => Ok running
  | cut :: cuts' =>
      if byte_nat cut <? running then Err CumulativeCountNotMonotone
      else if OMEGA <? byte_nat cut then Err CumulativeCountAboveOmega
      else hint_cuts (byte_nat cut) cuts'
  end.
(** [&l[start..end]]; [hint_slices_in_range] shows every use is in range. *)
Definition slice (start stop : nat) (l : bytes) : bytes := take (stop - start) (drop start l).
(** [windows(2).any(|w| w[0] >= w[1])]. *)
Fixpoint not_increasing (l : bytes) : bool :=
  match l with
  | a :: (b :: _) as l' => (byte_nat b <=? byte_nat a) || not_increasing l'
  | _ => false
  end.
(** Gate 4: the windows between consecutive counts. *)
Fixpoint hint_windows (indices : bytes) (start : nat) (cuts : bytes)
  : result unit HintDefect :=
  match cuts with
  | [] => Ok tt
  | cut :: cuts' =>
      if not_increasing (slice start (byte_nat cut) indices)
      then Err IndicesNotStrictlyIncreasing
      else hint_windows indices (byte_nat cut) cuts'
  end.
Definition hint_indices (sig : bytes) : bytes := take OMEGA (drop HINT_OFFSET sig).
Definition hint_cut_bytes (sig : bytes) : bytes := drop OMEGA (drop HINT_OFFSET sig).
Definition hint_encoding_is_canonical (sig : bytes) : result unit HintDefect :=
  let indices := hint_indices sig in
  let cuts := hint_cut_bytes sig in
  let? max_cut := hint_cuts 0 cuts in
  if existsb (λ b, negb (byte_nat b =? 0)) (drop max_cut indices)
  then Err UnusedHintByteNonZero
  else hint_windows indices 0 cuts.

Definition mldsa_verify (public_key signature message : bytes)
  : result bool CryptoError :=
  if negb (length public_key =? ML_DSA_87_PUBLIC_KEY_BYTES) then
    Err (InvalidSignature ("ML-DSA-87 public key must be 2592 bytes, got "
      +:+ show_nat (length public_key)))
  else if negb (length signature =? ML_DSA_87_SIGNATURE_BYTES) then
    Err (InvalidSignature ("ML-DSA-87 signature must be 4627 bytes, got "
      +:+ show_nat (length signature)))
  else
  let? _g := map_err (λ d, InvalidSignature
      ("ML-DSA-87 hint encoding: " +:+ hint_defect_display d))
    (hint_encoding_is_canonical signature) in
  let vk := mldsa_vk_decode public_key in
  match mldsa_sig_decode signature with
  | None => Ok false
  | Some decoded => Ok (mldsa_verify_with_context vk message [] decoded)
  end.
End ml_dsa.

(** ** The reference: FIPS 204, Algorithm 21, over [y] of 83 bytes

    The result is the list of the indices set in each polynomial. *)

Definition y_at (y : bytes) (i : nat) : nat := byte_nat (default Byte.x00 (y !! i)).
(** Lines 7 to 14: [n] iterations of the while loop. *)
Fixpoint unpack_while (y : bytes) (first index n : nat) : option (list nat) :=
  match n with
  | O => Some []
  | S n' =>
      if (first <? index) && (y_at y index <=? y_at y (index - 1)) then None
      else rest ← unpack_while y first (S index) n'; Some (y_at y index :: rest)
  end.
(** Lines 3 to 15, for the [n] polynomials from [i] on. *)
Fixpoint unpack_for (y : bytes) (i index n : nat) : option (list (list nat) * nat) :=
  match n with
  | O => Some ([], index)
  | S n' =>
      let c := y_at y (OMEGA + i) in
      if (c <? index) || (OMEGA <? c) then None
      else
        p ← unpack_while y index index (c - index);
        '(ps, last) ← unpack_for y (S i) c n';
        Some (p :: ps, last)
  end.
Definition hint_bit_unpack (y : bytes) : option (list (list nat)) :=
  '(ps, index) ← unpack_for y 0 0 K;
  if forallb (λ i, y_at y i =? 0) (seq index (OMEGA - index)) then Some ps else None.

Section codec_proofs.
Context `{Base58, Base64, Hashes, !Base58Laws, !Base64Laws, !HashesLaws}.

Lemma alnum_not_forbidden c :
  is_alnum c = true → negb (existsb (Ascii.eqb c) ["/"; "?"; "#"; ";"]%char) = true.
Proof. destruct c as [[] [] [] [] [] [] [] []]; try discriminate; done. Qed.
Lemma aqua_multihash_length pk : length (aqua_multihash pk) = 34.
Proof. unfold aqua_multihash. cbn [length]. by rewrite sha256_length. Qed.

(** A minted identity passes its own grammar check, and decodes to the
    multihash it was minted from. *)
Lemma multihash_from_minted pk :
  multihash_from_aqua_did (aqua_did_from_pubkey pk) = Ok (aqua_multihash pk).
Proof.
  pose proof (aqua_multihash_length pk) as Hl.
  unfold multihash_from_aqua_did, aqua_did_from_pubkey.
  assert (contains_any _ ("did:aqua:z" +:+ bs58_encode (aqua_multihash pk)) = false) as ->.
  { unfold contains_any. rewrite str_forallb_app. cbn. apply negb_false_iff.
    eapply str_forallb_impl; [apply alnum_not_forbidden|apply bs58_encode_alnum]. }
  rewrite str_length_app, (bs58_encode_34_len _ Hl) by done.
  change ("did:aqua:z" +:+ ?x) with (DID_AQUA_PREFIX +:+ "z" +:+ x).
  rewrite !strip_prefix_app, bs58_decode_encode. cbn -[aqua_multihash].
  rewrite !bool_decide_true by done. cbn -[aqua_multihash]. by rewrite Hl.
Qed.
Lemma multihash_from_aqua_did_inv did mh :
  multihash_from_aqua_did did = Ok mh →
  did = "did:aqua:z" +:+ bs58_encode mh ∧ length mh = 34 ∧ String.length did = 56.
Proof.
  unfold multihash_from_aqua_did, aqua_bad. intros Hr. inv_res Hr. bool_simpl.
  repeat match goal with
  | E : strip_prefix _ _ = Some _ |- _ => apply strip_prefix_Some in E; subst
  | E : bs58_decode _ = Ok _ |- _ => apply bs58_encode_decode in E; subst
  end.
  done.
Qed.

Lemma aqua_did_binds_spec did pk :
  aqua_did_binds_pubkey did pk = Ok true ↔ did = aqua_did_from_pubkey pk.
Proof.
  unfold aqua_did_binds_pubkey. rewrite multihash_from_minted. split.
  - destruct (multihash_from_aqua_did did) as [mh|] eqn:E; [|done].
    intros [= Heq%bytes_eqb_eq]. subst.
    by apply multihash_from_aqua_did_inv in E as [-> _].
  - intros ->. by rewrite multihash_from_minted, bytes_eqb_refl.
Qed.
Lemma aqua_did_binds_total did pk :
  is_ok (aqua_did_binds_pubkey did pk) = is_ok (multihash_from_aqua_did did).
Proof.
  unfold aqua_did_binds_pubkey. rewrite multihash_from_minted.
  by destruct (multihash_from_aqua_did did).
Qed.
Lemma aqua_jwk_inj pk pk' : aqua_jwk pk = aqua_jwk pk' → pk = pk'.
Proof.
  unfold aqua_jwk. intros Heq. repeat apply str_app_inj_l in Heq.
  apply (f_equal (strip_suffix "}")) in Heq. rewrite !strip_suffix_app in Heq.
  injection Heq as Heq. unfold quoted in Heq. apply str_app_inj_l in Heq.
  apply (f_equal (strip_suffix quote)) in Heq. rewrite !strip_suffix_app in Heq.
  injection Heq as Heq. apply (f_equal b64url_decode_no_pad) in Heq.
  rewrite !b64url_no_pad_encode in Heq. by injection Heq.
Qed.
(** Two keys behind one identity are one key, or their JWKs collide. *)
Lemma aqua_did_collision pk pk' :
  aqua_did_from_pubkey pk = aqua_did_from_pubkey pk' → pk = pk' ∨
    collides sha256 (as_bytes (aqua_jwk pk)) (as_bytes (aqua_jwk pk')).
Proof.
  intros Heq. apply (f_equal multihash_from_aqua_did) in Heq.
  rewrite !multihash_from_minted in Heq. injection Heq as Heq.
  destruct (decide (as_bytes (aqua_jwk pk) = as_bytes (aqua_jwk pk'))) as [E|E].
  - left. by apply aqua_jwk_inj, as_bytes_inj.
  - by right.
Qed.
End codec_proofs.

Section hint_proofs.

Lemma hint_cuts_Ok r cuts m : hint_cuts r cuts = Ok m → r ≤ m ∧ (r ≤ OMEGA → m ≤ OMEGA).
Proof.
  revert r. induction cuts as [|c cuts IH]; intros r; cbn [hint_cuts fmap list_fmap take length]; [intros [= <-]; lia|].
  destruct (_ <? r) eqn:E1; [done|]. destruct (OMEGA <? _) eqn:E2; [done|].
  intros [??]%IH. bool_simpl. lia.
Qed.
(** Every slice the gate takes is in range: the running start never exceeds
    the next count, and no count exceeds the 75 index bytes. *)
Lemma hint_slices_in_range r cuts m : hint_cuts r cuts = Ok m → r ≤ OMEGA →
  Forall2 (λ start stop, start ≤ stop ≤ OMEGA)
    (take (length cuts) (r :: (byte_nat <$> cuts))) (byte_nat <$> cuts).
Proof.
  revert r. induction cuts as [|c cuts IH]; intros r; cbn [hint_cuts fmap list_fmap take length]; [constructor|].
  destruct (_ <? r) eqn:E1; [done|]. destruct (OMEGA <? _) eqn:E2; [done|].
  intros Hc Hr. bool_simpl. constructor; [lia|]. by apply IH.
Qed.

Lemma not_increasing_spec l :
  not_increasing l = false ↔ ∀ j, S j < length l → y_at l j < y_at l (S j).
Proof.
  induction l as [|a [|b l] IH].
  - cbn. split; [lia|done].
  - cbn. split; [lia|done].
  - change (not_increasing (a :: b :: l))
      with ((byte_nat b <=? byte_nat a) || not_increasing (b :: l)).
    rewrite orb_false_iff, IH, Nat.leb_gt. split.
    + intros [Hab Hl] [|j] Hj; [done|]. apply (Hl j). cbn in *. lia.
    + intros Hl. split; [apply (Hl 0); cbn; lia|].
      intros j Hj. apply (Hl (S j)). cbn in *. lia.
Qed.
Lemma unpack_while_spec y first index n :
  is_Some (unpack_while y first index n) ↔
  ∀ j, index ≤ j < index + n → first < j → y_at y (j - 1) < y_at y j.
Proof.
  revert index. induction n as [|n IH]; intros index; cbn.
  - split; [lia|eauto].
  - specialize (IH (S index)).
    destruct ((first <? index) && (y_at y index <=? y_at y (index - 1))) eqn:E; cbn.
    + split; [intros [? [=]]|]. intros Hall. bool_simpl.
      specialize (Hall index). lia.
    + assert (is_Some (rest ← unpack_while y first (S index) n;
        Some (y_at y index :: rest)) ↔ is_Some (unpack_while y first (S index) n)) as ->.
      { destruct (unpack_while y first (S index) n); cbn; split; eauto;
          intros [? [=]]. }
      rewrite IH. apply andb_false_iff in E. split.
      * intros Hall j Hj Hf. destruct (decide (j = index)) as [->|]; [|apply Hall; lia].
        destruct E; bool_simpl; lia.
      * intros Hall j Hj. apply Hall. lia.
Qed.
Lemma slice_y_at y s e j :
  e ≤ OMEGA → j < e - s → y_at (slice s e (take OMEGA y)) j = y_at y (s + j).
Proof.
  intros He Hj. unfold y_at, slice. rewrite lookup_take_lt by lia.
  rewrite lookup_drop, lookup_take_lt by lia. done.
Qed.
Lemma slice_length y s e :
  e ≤ OMEGA → OMEGA ≤ length y → length (slice s e (take OMEGA y)) = e - s.
Proof. intros. unfold slice. rewrite length_take, length_drop, length_take. lia. Qed.
Lemma window_while y s e : s ≤ e → e ≤ OMEGA → OMEGA ≤ length y →
  is_Some (unpack_while y s s (e - s)) ↔ not_increasing (slice s e (take OMEGA y)) = false.
Proof.
  intros Hse He Hy. rewrite unpack_while_spec, not_increasing_spec, slice_length by done.
  split.
  - intros Hall j Hj. rewrite !slice_y_at by lia.
    specialize (Hall (s + S j)). replace (s + S j - 1) with (s + j) in Hall by lia.
    apply Hall; lia.
  - intros Hall j Hj Hs. specialize (Hall (j - s - 1)).
    rewrite !slice_y_at in Hall by lia.
    replace (s + (j - s - 1)) with (j - 1) in Hall by lia.
    replace (s + S (j - s - 1)) with j in Hall by lia. apply Hall. lia.
Qed.

Lemma drop_S_lookup (y : bytes) k n : length (drop k y) = S n →
  ∃ c, drop k y = c :: drop (S k) y ∧ y_at y k = byte_nat c.
Proof.
  intros Hl. destruct (y !! k) as [c|] eqn:E.
  - exists c. split; [by apply drop_S|]. unfold y_at. by rewrite E.
  - apply lookup_ge_None in E. rewrite length_drop in Hl. lia.
Qed.
Lemma unpack_for_spec y i index n last :
  length y = OMEGA + K → i + n = K →
  (∃ ps, unpack_for y i index n = Some (ps, last)) ↔
  hint_cuts index (drop (OMEGA + i) y) = Ok last ∧
  hint_windows (take OMEGA y) index (drop (OMEGA + i) y) = Ok tt.
Proof.
  intros Hy. revert i index. induction n as [|n IH]; intros i index Hi.
  - rewrite drop_ge by lia. cbn. split.
    + by intros [? [= <- <-]].
    + intros [[= ->] _]. eauto.
  - destruct (drop_S_lookup y (OMEGA + i) n) as (c & -> & Hc).
    { rewrite length_drop. lia. }
    cbn [unpack_for hint_cuts hint_windows]. rewrite Hc.
    destruct (byte_nat c <? index) eqn:E1; cbn [orb];
      [split; [intros [? [=]]|intros [[=] _]]|].
    destruct (OMEGA <? byte_nat c) eqn:E2; [split; [intros [? [=]]|intros [[=] _]]|].
    bool_simpl. specialize (IH (S i) (byte_nat c)).
    replace (OMEGA + S i) with (S (OMEGA + i)) in IH by lia.
    pose proof (window_while y index (byte_nat c)) as Hw.
    destruct (not_increasing _).
    + split; [|intros [_ [=]]]. intros [ps Hps].
      destruct (unpack_while y index index (byte_nat c - index)); [|done].
      destruct Hw as [Hw _]; [lia..|]. by discriminate Hw.
    + destruct Hw as [_ [p Hp]]; [lia..|done|]. rewrite Hp, <- IH by lia. cbn. split.
      * intros [ps Hps]. destruct (unpack_for y (S i) (byte_nat c) n) as [[ps' l]|];
          [|done]. simplify_eq/=. eauto.
      * intros [ps ->]. cbn. eauto.
Qed.
Lemma unused_spec y m : m ≤ OMEGA → OMEGA ≤ length y →
  existsb (λ b, negb (byte_nat b =? 0)) (drop m (take OMEGA y)) = false ↔
  forallb (λ i, y_at y i =? 0) (seq m (OMEGA - m)) = true.
Proof.
  intros Hm Hy. rewrite <- not_true_iff_false, existsb_exists, forallb_forall.
  setoid_rewrite in_seq. split.
  - intros Hne i Hi. apply Nat.eqb_eq. destruct (decide (y_at y i = 0)); [done|].
    destruct Hne. exists (default Byte.x00 (y !! i)). split.
    + apply list_elem_of_In, list_elem_of_lookup. exists (i - m).
      rewrite lookup_drop, lookup_take_lt by lia. replace (m + (i - m)) with i by lia.
      destruct (lookup_lt_is_Some_2 y i) as [b ->]; [lia|done].
    + apply negb_true_iff, Nat.eqb_neq. done.
  - intros Hall [b [Hb Hn]]. apply list_elem_of_In, list_elem_of_lookup in Hb as [k Hk].
    rewrite lookup_drop in Hk. apply lookup_take_Some in Hk as [Hk Hlt].
    assert (m ≤ m + k < m + (OMEGA - m)) as Hr by lia. specialize (Hall _ Hr).
    unfold y_at in Hall. rewrite Hk in Hall. cbn in Hall. by rewrite Hall in Hn.
Qed.

Lemma hint_gate_spec sig :
  length sig = ML_DSA_87_SIGNATURE_BYTES →
  hint_encoding_is_canonical sig = Ok tt ↔
  is_Some (hint_bit_unpack (drop HINT_OFFSET sig)).
Proof.
  intros Hs. set (y := drop HINT_OFFSET sig).
  assert (length y = OMEGA + K) as Hy by (unfold y; rewrite length_drop, Hs; done).
  unfold hint_encoding_is_canonical, hint_bit_unpack, hint_indices, hint_cut_bytes.
  fold y. pose proof (λ last, unpack_for_spec y 0 0 K last Hy eq_refl) as Hfor.
  rewrite Nat.add_0_r in Hfor. split.
  - destruct (hint_cuts 0 (drop OMEGA y)) as [m|] eqn:Ec; [|done].
    destruct (existsb _ _) eqn:Eu; [done|]. intros Hw.
    destruct (proj2 (Hfor m)) as [ps ->]; [done|].
    cbn [mbind option_bind].
    apply hint_cuts_Ok in Ec as [_ Hm].
    apply unused_spec in Eu; [rewrite Eu; eauto|apply Hm; lia|lia].
  - destruct (unpack_for y 0 0 K) as [[ps last]|] eqn:Ef; cbn [mbind option_bind];
      [|intros [? [=]]].
    destruct (forallb _ _) eqn:Eu; [|intros [? [=]]]. intros _.
    destruct (proj1 (Hfor last)) as [Hc Hw]; [eauto|]. rewrite Hc.
    apply hint_cuts_Ok in Hc as [_ Hm].
    apply unused_spec in Eu; [by rewrite Eu|apply Hm; lia|lia].
Qed.

(** C35: the signature gate agrees with the standard. Of a signature of the
    right length, the canonicality check passes exactly when HintBitUnpack of
    FIPS 204 (Algorithm 21, over the last 83 bytes) returns a hint and not
    the error value. *)
Theorem hint_gate_reference sig :
  length sig = ML_DSA_87_SIGNATURE_BYTES →
  hint_encoding_is_canonical sig = Ok tt ↔
  is_Some (hint_bit_unpack (drop HINT_OFFSET sig)).
Proof. apply hint_gate_spec. Qed.
Lemma hint_gate_reference_witness :
  is_Some (hint_bit_unpack (drop HINT_OFFSET (replicate ML_DSA_87_SIGNATURE_BYTES Byte.x00))).
Proof.
  apply (hint_gate_reference (replicate ML_DSA_87_SIGNATURE_BYTES Byte.x00)); [vm_refl|vm_refl].
Defined.
End hint_proofs.
