(* ===== verification/Methods.v ===== *)
(** * DID methods: src/did_method.rs, src/pkh/method.rs, src/key/mod.rs,
    src/peer/mod.rs and src/aqua/mod.rs

    The trait [DIDMethod] is a record of operations; the registry lists its
    implementations in priority order, [did:aqua] under its feature flag. *)

From S2P Require Import Prelude Crates Errors Keys Did Suites Aqua.

(** The trait [DIDMethod]. A display label slices strings and may panic. *)
Record DIDMethod : Type := {
  dm_method_name : string;
  dm_supports_did : string → bool;
  dm_method_label : string → result string CryptoError;
  dm_display_label : string → run (result string CryptoError);
  dm_address_for_message : string → result string CryptoError;
  dm_has_chain_id : string → bool;
  dm_chain_id : string → result (option string) CryptoError;
  dm_canonical_subject : string → result string CryptoError;
  dm_verify : string → string → bytes → result bool CryptoError;
  dm_verify_with_public_key :
    string → string → bytes → option bytes → result bool CryptoError;
}.
(** The default bodies of the trait. *)
Definition default_supports_did (name did : string) : bool :=
  starts_with ("did:" +:+ name +:+ ":") did.
Definition default_verify_with_public_key
    (verify : string → string → bytes → result bool CryptoError)
    (did msg : string) (signature : bytes) (public_key : option bytes)
  : result bool CryptoError := verify did msg signature.

(** [let r: Result = ...?; ...] inside a body that may panic. *)
Definition run_bind {A B} (r : run A) (f : A → run B) : run B :=
  match r with Returned a => f a | Panicked => Panicked end.

Section defs.
Context `{Ed25519, P256, K256, MlDsa, Base58, Base64, Hex, Hashes, Features}.

(** ** [did:pkh] *)

Definition split_namespace (did : string) : result (string * string) CryptoError :=
  let? rest := ok_or (strip_prefix "did:pkh:" did)
    (InvalidDid ("expected did:pkh: prefix: " +:+ did)) in
  ok_or (split_once ":"%char rest) (InvalidDid ("no namespace in: " +:+ did)).

Definition pkh_suite (ns : string) : result CipherSuite CryptoError :=
  ok_or (find_cipher_suite ns) (UnsupportedMethod ns).

Definition pkh_tag (ns : string) : option string :=
  if String.eqb ns "eip155" then Some "Ethereum"
  else if String.eqb ns "ed25519" then Some "Ed25519"
  else if String.eqb ns "p256" then Some "P-256" else None.

Definition pkh_method_label (did : string) : result string CryptoError :=
  let? '(ns, _rem) := split_namespace did in
  ok_or (pkh_tag ns) (UnsupportedMethod ns).

Definition pkh_address_for_message (did : string) : result string CryptoError :=
  let? '(ns, remainder) := split_namespace did in
  let? suite := pkh_suite ns in
  let? '(address, _chain) := cs_parse_did_parts suite remainder in
  if String.eqb ns "eip155" then checksummed_address did else Ok address.

(** The label shortens the address by byte indices: a panic when one of them
    is not a character boundary. *)
Definition pkh_display_label (did : string) : run (result string CryptoError) :=
  match split_namespace did with
  | Err e => Returned (Err e)
  | Ok (ns, _) =>
      match pkh_address_for_message did with
      | Err e => Returned (Err e)
      | Ok address =>
          let n := String.length address in
          run_bind
            (if 12 <? n then
               run_bind (slice_to 6 address) (λ a,
               run_bind (slice_from (n - 4) address) (λ b,
               Returned (a +:+ "..." +:+ b)))
             else Returned address)
            (λ short, Returned
               (Ok (short +:+ " (" +:+ default ns (pkh_tag ns) +:+ ")")))
      end
  end.

Definition pkh_has_chain_id (did : string) : bool :=
  match split_namespace did with
  | Ok (ns, _) =>
      match find_cipher_suite ns with Some s => cs_has_chain_id s | None => false end
  | Err _ => false
  end.

Definition pkh_chain_id (did : string) : result (option string) CryptoError :=
  let? '(ns, remainder) := split_namespace did in
  let? suite := pkh_suite ns in
  let? '(_addr, chain_id) := cs_parse_did_parts suite remainder in
  Ok chain_id.

Definition pkh_verify (did canonical_msg : string) (signature : bytes)
  : result bool CryptoError :=
  let? '(ns, _rem) := split_namespace did in
  let? suite := pkh_suite ns in
  cs_verify suite did canonical_msg signature.

Definition PkhMethod : DIDMethod := {|
  dm_method_name := "pkh";
  dm_supports_did := default_supports_did "pkh";
  dm_method_label := pkh_method_label;
  dm_display_label := pkh_display_label;
  dm_address_for_message := pkh_address_for_message;
  dm_has_chain_id := pkh_has_chain_id;
  dm_chain_id := pkh_chain_id;
  dm_canonical_subject := Ok;
  dm_verify := pkh_verify;
  dm_verify_with_public_key := default_verify_with_public_key pkh_verify;
|}.

(** ** [did:key] *)

Definition key_z_body (did : string) : result string CryptoError :=
  ok_or (strip_prefix "did:key:z" did) (InvalidDid did).

Definition key_method_label (did : string) : result string CryptoError :=
  let? z_body := key_z_body did in
  let? k := decode_multibase_key z_body in
  Ok (key_type_label k).

(** [&z_body[..z_body.len().min(8)]]. *)
Definition short_label (z_body tail : string) : run (result string CryptoError) :=
  run_bind (slice_to (Nat.min (String.length z_body) 8) z_body) (λ short,
  Returned (Ok ("z" +:+ short +:+ tail))).
Definition key_display_label (did : string) : run (result string CryptoError) :=
  match key_z_body did with
  | Err e => Returned (Err e)
  | Ok z_body =>
      match decode_multibase_key z_body with
      | Err e => Returned (Err e)
      | Ok k => short_label z_body ("... (" +:+ key_type_label k +:+ ")")
      end
  end.

Definition key_address_for_message (did : string) : result string CryptoError :=
  ok_or (strip_prefix "did:key:" did) (InvalidDid did).

Definition key_verify (did message : string) (signature : bytes)
  : result bool CryptoError :=
  let? z_body := key_z_body did in
  let? k := decode_multibase_key z_body in
  verify_with_key k message signature.

Definition KeyMethod : DIDMethod := {|
  dm_method_name := "key";
  dm_supports_did := default_supports_did "key";
  dm_method_label := key_method_label;
  dm_display_label := key_display_label;
  dm_address_for_message := key_address_for_message;
  dm_has_chain_id := λ _, false;
  dm_chain_id := λ _, Ok None;
  dm_canonical_subject := Ok;
  dm_verify := key_verify;
  dm_verify_with_public_key := default_verify_with_public_key key_verify;
|}.

(** ** [did:peer], variants 0 and 2 *)

(** The first component that starts with [V] and contains a [z]: what follows
    its first [z]. *)
Fixpoint first_v_key (components : list string) : option string :=
  match components with
  | [] => None
  | component :: rest =>
      if starts_with "V" component then
        match split_once "z"%char component with
        | Some (_, k) => Some k
        | None => first_v_key rest
        end
      else first_v_key rest
  end.
Definition extract_z_body (did : string) : result string CryptoError :=
  let? body := ok_or (strip_prefix "did:peer:" did) (InvalidDid did) in
  match strip_prefix "0" body with
  | Some rest => ok_or (strip_prefix "z" rest)
      (InvalidDid ("did:peer variant 0 body must start with 'z': " +:+ did))
  | None =>
      match strip_prefix "2" body with
      | Some rest => ok_or (first_v_key (split "."%char rest))
          (InvalidDid ("no V (verification) key found in did:peer variant 2: " +:+ did))
      | None => Err (InvalidDid ("unsupported did:peer variant: " +:+ did))
      end
  end.

Definition peer_supports_did (did : string) : bool :=
  starts_with "did:peer:0z" did || starts_with "did:peer:2." did.

Definition peer_method_label (did : string) : result string CryptoError :=
  let? z_body := extract_z_body did in
  let? k := decode_multibase_key z_body in
  Ok (key_type_label k).

Definition peer_display_label (did : string) : run (result string CryptoError) :=
  match extract_z_body did with
  | Err e => Returned (Err e)
  | Ok z_body =>
      match decode_multibase_key z_body with
      | Err e => Returned (Err e)
      | Ok k => short_label z_body ("... (peer/" +:+ key_type_label k +:+ ")")
      end
  end.

Definition peer_address_for_message (did : string) : result string CryptoError :=
  let? b := extract_z_body did in Ok ("z" +:+ b).

Definition peer_verify (did message : string) (signature : bytes)
  : result bool CryptoError :=
  let? z_body := extract_z_body did in
  let? k := decode_multibase_key z_body in
  verify_with_key k message signature.

Definition PeerMethod : DIDMethod := {|
  dm_method_name := "peer";
  dm_supports_did := peer_supports_did;
  dm_method_label := peer_method_label;
  dm_display_label := peer_display_label;
  dm_address_for_message := peer_address_for_message;
  dm_has_chain_id := λ _, false;
  dm_chain_id := λ _, Ok None;
  dm_canonical_subject := Ok;
  dm_verify := peer_verify;
  dm_verify_with_public_key := default_verify_with_public_key peer_verify;
|}.

(** ** [did:aqua] *)

Definition aqua_method_label (did : string) : result string CryptoError :=
  let? _mh := multihash_from_aqua_did did in Ok "ML-DSA-87".

Definition aqua_display_label (did : string) : run (result string CryptoError) :=
  match multihash_from_aqua_did did with
  | Err e => Returned (Err e)
  | Ok _ =>
      run_bind (slice_from (String.length DID_AQUA_PREFIX) did) (λ body,
      run_bind (slice_to (Nat.min (String.length body) 9) body) (λ short,
      Returned (Ok (short +:+ "... (ML-DSA-87)"))))
  end.

Definition aqua_address_for_message (did : string) : result string CryptoError :=
  let? _mh := multihash_from_aqua_did did in
  ok_or (strip_prefix "did:aqua:" did) (InvalidDid did).

Definition aqua_canonical_subject (did : string) : result string CryptoError :=
  let? _mh := multihash_from_aqua_did did in Ok did.

Definition aqua_verify (did canonical_msg : string) (signature : bytes)
  : result bool CryptoError :=
  Err (InvalidSignature
    "did:aqua requires the signer's public key; call verify_with_public_key").

(** Bind first: verifying under an unbound key says nothing about the DID. *)
Definition aqua_verify_with_public_key (did canonical_msg : string)
    (signature : bytes) (public_key : option bytes) : result bool CryptoError :=
  let? pk := ok_or public_key (InvalidSignature
    "did:aqua requires the signer's public key, none supplied") in
  let? bound := aqua_did_binds_pubkey did pk in
  if negb bound then Ok false
  else mldsa_verify pk signature (as_bytes canonical_msg).

Definition AquaMethod : DIDMethod := {|
  dm_method_name := "aqua";
  dm_supports_did := default_supports_did "aqua";
  dm_method_label := aqua_method_label;
  dm_display_label := aqua_display_label;
  dm_address_for_message := aqua_address_for_message;
  dm_has_chain_id := λ _, false;
  dm_chain_id := λ _, Ok None;
  dm_canonical_subject := aqua_canonical_subject;
  dm_verify := aqua_verify;
  dm_verify_with_public_key := aqua_verify_with_public_key;
|}.

(** ** The registry *)

Definition all_did_methods : list DIDMethod :=
  [PkhMethod; KeyMethod; PeerMethod] ++ (if did_aqua then [AquaMethod] else []).
Definition find_did_method (did : string) : option DIDMethod :=
  List.find (λ m, dm_supports_did m did) all_did_methods.
End defs.

Section proofs.
Context `{Ed25519, P256, K256, MlDsa, Base58, Base64, Hex, Hashes, Features}.

Lemma find_did_method_cases did m :
  find_did_method did = Some m →
  (starts_with "did:pkh:" did = true ∧ m = PkhMethod) ∨
  (starts_with "did:key:" did = true ∧ m = KeyMethod) ∨
  (peer_supports_did did = true ∧ m = PeerMethod) ∨
  (did_aqua = true ∧ starts_with "did:aqua:" did = true ∧ m = AquaMethod).
Proof.
  unfold find_did_method, all_did_methods.
  cbn [List.find app dm_supports_did PkhMethod KeyMethod PeerMethod].
  change (default_supports_did "pkh" did) with (starts_with "did:pkh:" did).
  change (default_supports_did "key" did) with (starts_with "did:key:" did).
  destruct (starts_with "did:pkh:" did); [intros [= <-]; auto|].
  destruct (starts_with "did:key:" did); [intros [= <-]; auto|].
  destruct (peer_supports_did did); [intros [= <-]; auto|].
  destruct did_aqua; cbn [List.find dm_supports_did AquaMethod]; [|done].
  change (default_supports_did "aqua" did) with (starts_with "did:aqua:" did).
  destruct (starts_with "did:aqua:" did); [intros [= <-]; auto 6|done].
Qed.
Lemma find_did_method_pkh rest : find_did_method ("did:pkh:" +:+ rest) = Some PkhMethod.
Proof. done. Qed.
Lemma find_did_method_key rest : find_did_method ("did:key:" +:+ rest) = Some KeyMethod.
Proof. done. Qed.
Lemma find_did_method_peer0 rest : find_did_method ("did:peer:0z" +:+ rest) = Some PeerMethod.
Proof. done. Qed.
Lemma find_did_method_peer2 rest : find_did_method ("did:peer:2." +:+ rest) = Some PeerMethod.
Proof. done. Qed.
Lemma find_did_method_aqua rest :
  find_did_method ("did:aqua:" +:+ rest) = if did_aqua then Some AquaMethod else None.
Proof. unfold find_did_method, all_did_methods. by destruct did_aqua. Qed.

Lemma split_namespace_Ok did ns rem :
  split_namespace did = Ok (ns, rem) ↔
  did = "did:pkh:" +:+ ns +:+ ":" +:+ rem ∧ free_of ":"%char ns = true.
Proof.
  unfold split_namespace. split.
  - destruct (strip_prefix "did:pkh:" did) as [rest|] eqn:E; [|done]. cbn [ok_or].
    destruct (split_once _ rest) as [[a b]|] eqn:E2; [|done]. intros [= <- <-].
    apply strip_prefix_Some in E as ->. by apply split_once_Some in E2 as [-> ?].
  - intros [-> Hf]. rewrite strip_prefix_app. cbn [ok_or].
    change (":" +:+ rem) with (String ":" rem). by rewrite split_once_app.
Qed.

(** The only labels the registry gives. *)
Lemma method_label_values m did l :
  m ∈ all_did_methods → dm_method_label m did = Ok l →
  l ∈ ["Ethereum"; "Ed25519"; "P-256"; "ML-DSA-87"].
Proof.
  unfold all_did_methods. rewrite elem_of_app, !elem_of_cons.
  intros [[->|[->|[->|Hm]]]|Hm] Hl; cbn in Hl.
  - unfold pkh_method_label, pkh_tag in Hl. inv_res Hl; set_solver.
  - unfold key_method_label in Hl. inv_res Hl. destruct t0; set_solver.
  - unfold peer_method_label in Hl. inv_res Hl. destruct t0; set_solver.
  - by apply not_elem_of_nil in Hm.
  - destruct did_aqua; [|by apply not_elem_of_nil in Hm].
    apply list_elem_of_singleton in Hm as ->. cbn in Hl.
    unfold aqua_method_label in Hl. inv_res Hl; set_solver.
Qed.
End proofs.
