(* ===== verification/DidFormat.v ===== *)
(** * DID well-formedness: src/did_format.rs

    [validate_did_well_formed] is rules 4 and 5 of SPEC section 7. The
    theorems compare it with the verification path of [Methods]: what it
    refuses, with which error, and the one gap between the two. *)

From S2P Require Import Prelude Crates Errors Keys Did Suites Aqua Methods Fixtures.

Section defs.
Context `{Ed25519, P256, K256, MlDsa, Base58, Base64, Hex, Hashes, Features}.

Definition ED25519_PUBKEY_BYTES : nat := 32.
Definition P256_COMPRESSED_PUBKEY_BYTES : nat := 33.

Definition validate_multibase_key_body (z_body : string) : result unit CryptoError :=
  let? k := decode_multibase_key z_body in
  match k with
  | KeyEd25519 raw =>
      if negb (length raw =? ED25519_PUBKEY_BYTES) then
        Err (InvalidDid ("Ed25519 public key must be 32 bytes, got "
          +:+ show_nat (length raw)))
      else Ok tt
  | KeyP256 raw =>
      if negb (length raw =? P256_COMPRESSED_PUBKEY_BYTES) then
        Err (InvalidDid ("P-256 compressed public key must be 33 bytes, got "
          +:+ show_nat (length raw)))
      else Ok tt
  end.

Definition validate_pkh (did : string) : result unit CryptoError :=
  let? ns := parse_did_namespace did in
  if String.eqb ns "eip155" then let? _a := address_from_did did in Ok tt
  else if String.eqb ns "ed25519" then let? _k := pubkey_from_ed25519_did did in Ok tt
  else if String.eqb ns "p256" then let? _k := pubkey_from_p256_did did in Ok tt
  else Err (UnsupportedMethod ns).

Definition validate_did_well_formed (did : string) : result unit CryptoError :=
  let? method := ok_or (find_did_method did) (UnsupportedMethod did) in
  let name := dm_method_name method in
  if String.eqb name "pkh" then validate_pkh did
  else if String.eqb name "key" then
    let? z_body := ok_or (strip_prefix "did:key:z" did)
      (InvalidDid ("did:key body must be multibase 'z': " +:+ did)) in
    validate_multibase_key_body z_body
  else if String.eqb name "peer" then
    let? z_body := extract_z_body did in validate_multibase_key_body z_body
  else if did_aqua && String.eqb name "aqua" then
    let? _mh := multihash_from_aqua_did did in Ok tt
  else Err (UnsupportedMethod name).

(** The multibase body a [did:key] or [did:peer] carries. *)
Definition multibase_body (did : string) : result string CryptoError :=
  if starts_with "did:key:" did then key_z_body did else extract_z_body did.
End defs.

Section proofs.
Context `{Ed25519, P256, K256, MlDsa, Base58, Base64, Hex, Hashes, Features}.

Lemma parse_did_namespace_split did ns rem :
  split_namespace did = Ok (ns, rem) → parse_did_namespace did = Ok ns.
Proof.
  intros [-> Hf]%split_namespace_Ok. unfold parse_did_namespace.
  rewrite strip_prefix_app. cbn [ok_or]. f_equal. by apply split_head_app.
Qed.

(** The parser behind each [did:pkh] namespace, as one function. *)
Definition pkh_parser (ns did : string) : result bytes CryptoError :=
  if String.eqb ns "eip155" then address_from_did did
  else if String.eqb ns "ed25519" then pubkey_from_ed25519_did did
  else pubkey_from_p256_did did.
Lemma validate_pkh_parser did ns cs :
  parse_did_namespace did = Ok ns → find_cipher_suite ns = Some cs →
  validate_pkh did = (let? _a := pkh_parser ns did in Ok tt).
Proof.
  unfold validate_pkh, pkh_parser. intros ->.
  by intros [[-> ->]|[[-> ->]|[-> ->]]]%find_cipher_suite_cases.
Qed.
Lemma suite_verify_parser did ns cs msg s e :
  find_cipher_suite ns = Some cs → pkh_parser ns did = Err e →
  cs_verify cs did msg s = Err e.
Proof.
  intros [[-> ->]|[[-> ->]|[-> ->]]]%find_cipher_suite_cases Hp;
    unfold pkh_parser in Hp; cbn [String.eqb Ascii.eqb Bool.eqb] in Hp;
    cbn [cs_verify Eip155Suite Ed25519Suite P256Suite];
    unfold eip155_verify, ed25519_verify, p256_suite_verify; by rewrite Hp.
Qed.

(** A [did:pkh] with a namespace segment that rule 5 refuses, verification
    refuses with the very same error, whatever was signed. *)
Lemma validate_pkh_same_error did ns rem e msg s :
  split_namespace did = Ok (ns, rem) → validate_did_well_formed did = Err e →
  pkh_verify did msg s = Err e.
Proof.
  intros Hs. pose proof (proj1 (split_namespace_Ok _ _ _) Hs) as [Hd _].
  unfold validate_did_well_formed. rewrite Hd, find_did_method_pkh. cbn [ok_or].
  rewrite <- Hd. cbn [dm_method_name PkhMethod]. rewrite String.eqb_refl.
  unfold pkh_verify, pkh_suite. rewrite Hs. cbn [ok_or].
  pose proof (parse_did_namespace_split _ _ _ Hs) as Hn.
  destruct (find_cipher_suite ns) as [cs|] eqn:Ec; cbn [ok_or].
  - rewrite (validate_pkh_parser _ _ _ Hn Ec).
    destruct (pkh_parser ns did) eqn:Ep; [done|]. intros [= <-].
    by eapply suite_verify_parser.
  - apply find_cipher_suite_None in Ec. unfold validate_pkh. rewrite Hn.
    rewrite !not_elem_of_cons in Ec. destruct Ec as (E1 & E2 & E3 & _).
    apply String.eqb_neq in E1, E2, E3. rewrite E1, E2, E3. by intros [= <-].
Qed.

(** What a successful verification of a multibase key says of its length. *)
Lemma verify_with_key_length k msg s b :
  verify_with_key k msg s = Ok b →
  match k with
  | KeyEd25519 raw => length raw = 32
  | KeyP256 raw => ∃ p, p256_point_from_bytes raw = Ok p
  end.
Proof.
  unfold verify_with_key. destruct k as [raw|raw].
  - destruct (length raw =? 32) eqn:E; [|done]. by bool_simpl.
  - destruct (p256_point_from_bytes raw); [eauto|done].
Qed.
Lemma validate_body_Err z e :
  validate_multibase_key_body z = Err e →
  decode_multibase_key z = Err e ∨
  (∃ raw, decode_multibase_key z = Ok (KeyEd25519 raw) ∧ length raw ≠ 32) ∨
  (∃ raw, decode_multibase_key z = Ok (KeyP256 raw) ∧ length raw ≠ 33).
Proof.
  unfold validate_multibase_key_body.
  destruct (decode_multibase_key z) as [[raw|raw]|e']; [..|intros [= ->]; auto].
  - destruct (length raw =? _) eqn:E; [done|]. bool_simpl. eauto 10.
  - destruct (length raw =? _) eqn:E; [done|]. bool_simpl. eauto 10.
Qed.
Lemma validate_body_gap z k e msg s b :
  validate_multibase_key_body z = Err e → decode_multibase_key z = Ok k →
  verify_with_key k msg s = Ok b →
  ∃ raw p, k = KeyP256 raw ∧ length raw ≠ 33 ∧ p256_point_from_bytes raw = Ok p.
Proof.
  intros [Hd|[(raw & Hd & Hl)|(raw & Hd & Hl)]]%validate_body_Err Hk Hv;
    rewrite Hd in Hk; simplify_eq; apply verify_with_key_length in Hv.
  - done.
  - destruct Hv as [p ?]. eauto.
Qed.

(** The [did:key] of a 33-byte P-256 key is well-formed, whatever the bytes. *)
Lemma p256_did_key_well_formed `{!Base58Laws} b : length b = 33 →
  validate_did_well_formed (p256_did_key_from_pubkey b) = Ok tt.
Proof.
  intros Hl. unfold validate_did_well_formed, p256_did_key_from_pubkey, encode_did_key.
  set (z := bs58_encode (P256_PREFIX ++ b)).
  assert (find_did_method ("did:key:z" +:+ z) = Some KeyMethod) as ->
    by exact (find_did_method_key ("z" +:+ z)).
  cbn [ok_or dm_method_name KeyMethod]. change (String.eqb "key" "pkh") with false. cbv iota.
  rewrite String.eqb_refl, strip_prefix_app. cbn [ok_or].
  unfold validate_multibase_key_body, z. rewrite decode_multibase_p256.
  unfold P256_COMPRESSED_PUBKEY_BYTES. by rewrite Hl.
Qed.

(** C34: validation refuses what verification cannot use. When a DID is
    refused as malformed, its verifier gives no verdict on any message,
    signature and public key, but for one gap: a multibase P-256 key in a SEC1
    form other than the compressed one, which the verifiers would take. *)
Theorem validate_refusal_gap did m e msg s pk b :
  validate_did_well_formed did = Err e → find_did_method did = Some m →
  dm_verify_with_public_key m did msg s pk = Ok b →
  ∃ z raw p, multibase_body did = Ok z ∧ decode_multibase_key z = Ok (KeyP256 raw) ∧
    length raw ≠ 33 ∧ p256_point_from_bytes raw = Ok p.
Proof.
  intros Hv Hm. pose proof (find_did_method_cases _ _ Hm) as Hcases.
  unfold validate_did_well_formed in Hv. rewrite Hm in Hv. cbn [ok_or] in Hv.
  destruct Hcases as [[Hs ->]|[[Hs ->]|[[Hs ->]|(Hf & Hs & ->)]]]; cbn in Hv |- *;
    unfold default_verify_with_public_key.
  - intros Hok. unfold pkh_verify in Hok.
    destruct (split_namespace did) as [[ns rem]|] eqn:Esp; [|done].
    assert (pkh_verify did msg s = Err e) as Hbad; [|unfold pkh_verify in Hbad;
      rewrite Esp in Hbad; congruence].
    eapply validate_pkh_same_error; [done|].
    unfold validate_did_well_formed. by rewrite Hm.
  - unfold key_verify, key_z_body, multibase_body, key_z_body. rewrite Hs.
    destruct (strip_prefix "did:key:z" did) as [z|] eqn:Ez; cbn [ok_or] in *; [|done].
    destruct (decode_multibase_key z) as [k|] eqn:Ek; [|done]. intros Hok.
    destruct (validate_body_gap _ _ _ _ _ _ Hv Ek Hok) as (raw & p & -> & ? & ?).
    by exists z, raw, p.
  - assert (starts_with "did:key:" did = false) as Hk.
    { unfold peer_supports_did in Hs. apply orb_true_iff in Hs.
      destruct Hs as [[r ->]%starts_with_spec|[r ->]%starts_with_spec]; done. }
    unfold peer_verify, multibase_body. rewrite Hk.
    destruct (extract_z_body did) as [z|] eqn:Ez; [|done].
    destruct (decode_multibase_key z) as [k|] eqn:Ek; [|done]. intros Hok.
    destruct (validate_body_gap _ _ _ _ _ _ Hv Ek Hok) as (raw & p & -> & ? & ?).
    by exists z, raw, p.
  - unfold aqua_verify_with_public_key, aqua_did_binds_pubkey. rewrite Hf in Hv.
    cbn in Hv. destruct (multihash_from_aqua_did did); [done|].
    by destruct pk.
Qed.
End proofs.

Section witnesses.
Import Fixtures.Instances.

(** The uncompressed spelling of a P-256 key. *)
Definition uncompressed_did : string :=
  encode_did_key P256_PREFIX (Byte.x04 :: replicate 64 Byte.x11).
Lemma validate_refusal_gap_witness : ∃ z raw p,
  multibase_body uncompressed_did = Ok z ∧ decode_multibase_key z = Ok (KeyP256 raw) ∧
  length raw ≠ 33 ∧ p256_point_from_bytes raw = Ok p.
Proof.
  apply (validate_refusal_gap uncompressed_did KeyMethod
    (InvalidDid "P-256 compressed public key must be 33 bytes, got 65") "message"
    (replicate 64 Byte.x00) None false); [vm_refl|apply find_did_method_key|vm_refl].
Defined.
End witnesses.
