(* ===== verification/Principal.v ===== *)
(** * The authenticated identity: src/principal.rs and the verification
    entry points of src/lib.rs *)

From S2P Require Import Prelude Crates Errors Keys Did Suites Aqua Methods DidFormat Fixtures.

(** [Principal]: its only field is private; the values of the program are the
    results of [authenticate], [from_trusted_did] and [from_proven_did_key]. *)
Record Principal : Type := mk_principal { principal_did : string }.
#[export] Instance Principal_eq_dec : EqDecision Principal.
Proof. solve_decision. Defined.

Section defs.
Context `{Ed25519, P256, K256, MlDsa, Base58, Base64, Hex, Hashes, Features}.

Definition verify_caip122 (did message : string) (signature : bytes)
  : result bool CryptoError :=
  let? method := ok_or (find_did_method did) (UnsupportedMethod did) in
  dm_verify method did message signature.

Definition verify_caip122_with_public_key (did message : string) (signature : bytes)
    (public_key : option bytes) : result bool CryptoError :=
  let? method := ok_or (find_did_method did) (UnsupportedMethod did) in
  dm_verify_with_public_key method did message signature public_key.

Definition from_trusted_did (did : string) : result Principal CryptoError :=
  let? _u := validate_did_well_formed did in Ok (mk_principal did).

(** Crate-private; the proof of possession lives in the caller. Its
    [debug_assert!] does not run in a release build. *)
Definition from_proven_did_key (did : string) : Principal := mk_principal did.

Definition principal_method (p : Principal) : result DIDMethod CryptoError :=
  ok_or (find_did_method (principal_did p)) (UnsupportedMethod (principal_did p)).
Definition principal_method_label (p : Principal) : result string CryptoError :=
  let? m := principal_method p in dm_method_label m (principal_did p).
Definition canonical_subject (p : Principal) : result string CryptoError :=
  let? m := principal_method p in dm_canonical_subject m (principal_did p).

Definition authenticate_with_public_key (did message : string) (signature : bytes)
    (public_key : option bytes) : result Principal CryptoError :=
  let? _u := validate_did_well_formed did in
  let? verified := verify_caip122_with_public_key did message signature public_key in
  if verified then from_trusted_did did
  else Err (InvalidSignature "CAIP-122 signature did not verify for this DID").

Definition authenticate (did message : string) (signature : bytes)
  : result Principal CryptoError :=
  authenticate_with_public_key did message signature None.
End defs.

Section proofs.
Context `{Ed25519, P256, K256, MlDsa, Base58, Base64, Hex, Hashes, Features}.

Lemma authenticate_spec did msg s pk p :
  authenticate_with_public_key did msg s pk = Ok p ↔
  p = mk_principal did ∧ validate_did_well_formed did = Ok tt ∧
  verify_caip122_with_public_key did msg s pk = Ok true.
Proof.
  unfold authenticate_with_public_key, from_trusted_did.
  destruct (validate_did_well_formed did) as [[]|]; [|naive_solver].
  destruct (verify_caip122_with_public_key did msg s pk) as [[]|]; naive_solver.
Qed.
(** Every outcome of an authentication, the errors included. *)
Lemma authenticate_error did msg s pk e :
  authenticate_with_public_key did msg s pk = Err e ↔
  validate_did_well_formed did = Err e ∨
  (validate_did_well_formed did = Ok tt ∧
    (verify_caip122_with_public_key did msg s pk = Err e ∨
     (verify_caip122_with_public_key did msg s pk = Ok false ∧
      e = InvalidSignature "CAIP-122 signature did not verify for this DID"))).
Proof.
  unfold authenticate_with_public_key, from_trusted_did.
  destruct (validate_did_well_formed did) as [[]|]; [|naive_solver].
  destruct (verify_caip122_with_public_key did msg s pk) as [[]|]; naive_solver.
Qed.

Lemma validated_method did :
  validate_did_well_formed did = Ok tt → ∃ m, find_did_method did = Some m.
Proof.
  unfold validate_did_well_formed. destruct (find_did_method did); [eauto|done].
Qed.
Lemma validated_pkh_namespace did :
  validate_pkh did = Ok tt → ∃ ns rem cs,
    split_namespace did = Ok (ns, rem) ∧ find_cipher_suite ns = Some cs.
Proof.
  unfold validate_pkh. destruct (parse_did_namespace did) as [ns|]; [|done].
  destruct (String.eqb_spec ns "eip155") as [->|_];
    [|destruct (String.eqb_spec ns "ed25519") as [->|_];
      [|destruct (String.eqb_spec ns "p256") as [->|_]; [|done]]].
  - unfold address_from_did.
    destruct (strip_prefix "did:pkh:eip155:" did) as [r|] eqn:E; [|done]. intros _.
    apply strip_prefix_Some in E as ->.
    eexists "eip155", r, Eip155Suite. split; [|done]. by apply split_namespace_Ok.
  - unfold pubkey_from_ed25519_did.
    destruct (strip_prefix "did:pkh:ed25519:0x" did) as [r|] eqn:E; [|done]. intros _.
    apply strip_prefix_Some in E as ->.
    eexists "ed25519", ("0x" +:+ r), Ed25519Suite. split; [|done].
    by apply split_namespace_Ok.
  - unfold pubkey_from_p256_did.
    destruct (strip_prefix "did:pkh:p256:0x" did) as [r|] eqn:E; [|done]. intros _.
    apply strip_prefix_Some in E as ->.
    eexists "p256", ("0x" +:+ r), P256Suite. split; [|done].
    by apply split_namespace_Ok.
Qed.
(** A validated DID has a label and a subject: the accessors of a [Principal]
    cannot fail. *)
Lemma validated_label_subject did m :
  validate_did_well_formed did = Ok tt → find_did_method did = Some m →
  is_ok (dm_method_label m did) = true ∧ dm_canonical_subject m did = Ok did.
Proof.
  intros Hv Hm. unfold validate_did_well_formed in Hv. rewrite Hm in Hv. cbn in Hv.
  destruct (find_did_method_cases _ _ Hm)
    as [[Hs ->]|[[Hs ->]|[[Hs ->]|(Hf & Hs & ->)]]]; cbn in Hv |- *.
  - destruct (validated_pkh_namespace did Hv) as (ns & rem & cs & Hsp & Hc).
    unfold pkh_method_label. rewrite Hsp.
    by apply find_cipher_suite_cases in Hc as [[-> _]|[[-> _]|[-> _]]].
  - unfold key_method_label, key_z_body.
    destruct (strip_prefix "did:key:z" did) as [z|]; [|done]. cbn [ok_or] in *.
    unfold validate_multibase_key_body in Hv. by destruct (decode_multibase_key z).
  - unfold peer_method_label. destruct (extract_z_body did) as [z|]; [|done].
    unfold validate_multibase_key_body in Hv. by destruct (decode_multibase_key z).
  - rewrite Hf in Hv. cbn in Hv. unfold aqua_method_label, aqua_canonical_subject.
    by destruct (multihash_from_aqua_did did).
Qed.
Lemma principal_accessors p : validate_did_well_formed (principal_did p) = Ok tt →
  (∃ label, principal_method_label p = Ok label ∧
    label ∈ ["Ethereum"; "Ed25519"; "P-256"; "ML-DSA-87"]) ∧
  canonical_subject p = Ok (principal_did p).
Proof.
  intros Hv. destruct (validated_method _ Hv) as [m Hm].
  destruct (validated_label_subject _ _ Hv Hm) as [Hl Hs].
  unfold principal_method_label, canonical_subject, principal_method. rewrite Hm. cbn [ok_or].
  split; [|done]. destruct (dm_method_label m (principal_did p)) as [l|] eqn:El; [|done].
  exists l. split; [done|]. eapply method_label_values, El. unfold find_did_method in Hm.
  by apply List.find_some in Hm as [?%list_elem_of_In _].
Qed.
End proofs.

(** ** A sample identity for the witnesses *)

Section witnesses.
Import Fixtures.Instances.

Definition sample_ed_key : bytes :=
  match decode_multibase_key "6MkhaXgBZDvotDkL5257faiztiGiC2QtKLGpbnnEGta2doK" with
  | Ok (KeyEd25519 raw) => raw | _ => [] end.
Definition sample_sign (msg : string) : bytes := toy_sign 4 sample_ed_key (as_bytes msg).
Lemma toy_sign_length seed k m : length (toy_sign seed k m) = 64.
Proof. unfold toy_sign, toy_hash. by rewrite length_app, !length_map, !length_seq. Qed.
Lemma sample_sign_verifies msg :
  verify_caip122_with_public_key sample_key_did msg (sample_sign msg) None = Ok true.
Proof.
  unfold verify_caip122_with_public_key.
  assert (find_did_method sample_key_did = Some KeyMethod) as -> by apply find_did_method_key.
  cbn [ok_or]. change (dm_verify_with_public_key KeyMethod sample_key_did msg (sample_sign msg) None)
    with (key_verify sample_key_did msg (sample_sign msg)). unfold key_verify.
  assert (key_z_body sample_key_did = Ok "6MkhaXgBZDvotDkL5257faiztiGiC2QtKLGpbnnEGta2doK")
    as -> by vm_refl.
  assert (decode_multibase_key "6MkhaXgBZDvotDkL5257faiztiGiC2QtKLGpbnnEGta2doK"
    = Ok (KeyEd25519 sample_ed_key)) as -> by vm_refl.
  cbn [verify_with_key].
  assert (negb (length sample_ed_key =? 32) = false) as -> by vm_refl.
  assert (strict_verifying_key sample_ed_key = Ok sample_ed_key) as -> by vm_refl.
  unfold sample_sign. rewrite toy_sign_length. cbn [Nat.eqb negb].
  assert (ed_sig_from_slice (toy_sign 4 sample_ed_key (as_bytes msg))
    = Ok (toy_sign 4 sample_ed_key (as_bytes msg))) as ->.
  { cbn [ed_sig_from_slice fx_ed25519]. unfold sized. by rewrite toy_sign_length. }
  cbn [map_err ed_verify_strict fx_ed25519]. by rewrite bytes_eqb_refl.
Qed.
End witnesses.
