(* ===== verification/Message.v ===== *)
(** * The canonical message: src/message.rs

    [build_message] renders the CAIP-122 text a signer signs. The theorems
    read it back: its lines, the identifier and the fields it binds. *)

From S2P Require Import Prelude Crates Errors Keys Did Suites Aqua Methods DidFormat Principal Fixtures.

Section defs.
Context `{Ed25519, P256, K256, MlDsa, Base58, Base64, Hex, Hashes, Features, Chrono}.

Record MessageParams : Type := {
  mp_did : string;
  mp_domain : string;
  mp_uri : string;
  mp_nonce : string;
  mp_issued_at : date_time;
  mp_expiration_time : date_time;
}.

(** The text of the template, given the identifier and the method label. *)
Definition message_text (params : MessageParams) (identifier method_label : string)
  : string :=
  mp_domain params +:+ " wants you to sign in with your " +:+ method_label
    +:+ " account:" +:+ nl +:+ identifier +:+ nl +:+ nl
    +:+ "Sign in to Aqua Node" +:+ nl +:+ nl
    +:+ "URI: " +:+ mp_uri params +:+ nl
    +:+ "Version: 1" +:+ nl
    +:+ "Nonce: " +:+ mp_nonce params +:+ nl
    +:+ "Issued At: " +:+ dt_format (mp_issued_at params) +:+ nl
    +:+ "Expiration Time: " +:+ dt_format (mp_expiration_time params).
(** What is appended after it. *)
Definition chain_suffix (m : DIDMethod) (did : string) : string :=
  match dm_chain_id m did with
  | Ok (Some chain) =>
      match strip_prefix "eip155:" chain with
      | Some id => nl +:+ "Chain ID: " +:+ id
      | None => EmptyString
      end
  | _ => EmptyString
  end.

Definition build_message (params : MessageParams) : result string AuthError :=
  let? method := ok_or (find_did_method (mp_did params))
    (Crypto (UnsupportedMethod (mp_did params))) in
  let? identifier := map_err Crypto (dm_address_for_message method (mp_did params)) in
  let? method_label := map_err Crypto (dm_method_label method (mp_did params)) in
  Ok (message_text params identifier method_label
        +:+ chain_suffix method (mp_did params)).

(** One line of text. *)
Definition one_line (s : string) : bool := free_of "010"%char s.
(** The lines of the SPEC template, in order. *)
Definition message_lines (params : MessageParams) (identifier method_label : string)
  : list string :=
  [mp_domain params +:+ " wants you to sign in with your " +:+ method_label
     +:+ " account:";
   identifier; EmptyString; "Sign in to Aqua Node"; EmptyString;
   "URI: " +:+ mp_uri params; "Version: 1"; "Nonce: " +:+ mp_nonce params;
   "Issued At: " +:+ dt_format (mp_issued_at params);
   "Expiration Time: " +:+ dt_format (mp_expiration_time params)].
End defs.

Section proofs.
Context `{Ed25519, P256, K256, MlDsa, Base58, Base64, Hex, Hashes, Features, Chrono}.

Lemma build_message_Ok p msg :
  build_message p = Ok msg ↔
  ∃ m id label, find_did_method (mp_did p) = Some m ∧
    dm_address_for_message m (mp_did p) = Ok id ∧
    dm_method_label m (mp_did p) = Ok label ∧
    msg = message_text p id label +:+ chain_suffix m (mp_did p).
Proof.
  unfold build_message. split.
  - intros Hr. inv_res Hr.
    destruct (find_did_method (mp_did p)) as [m|]; [|done].
    cbn [ok_or map_err] in *. simplify_eq.
    destruct (dm_address_for_message _ _) eqn:?; [|done].
    destruct (dm_method_label _ _) eqn:?; [|done]. simplify_eq/=.
    by eexists _, _, _.
  - intros (m & id & label & -> & Hi & Hl & ->). cbn [ok_or].
    rewrite Hi. cbn [map_err]. by rewrite Hl.
Qed.

Lemma one_line_app a b : one_line (a +:+ b) = one_line a && one_line b.
Proof. apply str_forallb_app. Qed.
Lemma graphic_one_line s : str_forallb graphic s = true → one_line s = true.
Proof. by apply free_of_graphic. Qed.
Lemma split_line a b : one_line a = true → split "010"%char (a +:+ nl +:+ b) = a :: split "010"%char b.
Proof. apply split_app. Qed.
Lemma split_last_line a : one_line a = true → split "010"%char a = [a].
Proof. apply split_free. Qed.

Context `{!HexLaws, !Base58Laws, !ChronoLaws}.

Lemma hex_char_alnum c : is_lower_hex (lower_char c) = true → is_alnum c = true.
Proof. destruct c as [[] [] [] [] [] [] [] []]; try discriminate; done. Qed.
Lemma hex_decode_alnum h b : hex_decode h = Ok b → str_forallb is_alnum h = true.
Proof.
  intros Hd%hex_decode_digits. revert Hd. unfold to_lower.
  induction h as [|c h IH]; cbn; [done|]. intros Hd. bool_simpl.
  rewrite hex_char_alnum by done. by apply IH.
Qed.
Lemma prefixed_alnum_graphic p s :
  str_forallb graphic p = true → str_forallb is_alnum s = true →
  str_forallb graphic (p +:+ s) = true.
Proof.
  intros Hp Hs. rewrite str_forallb_app, Hp. cbn.
  eapply str_forallb_impl; [apply alnum_graphic|done].
Qed.
Lemma multibase_alnum z k : decode_multibase_key z = Ok k → str_forallb is_alnum z = true.
Proof. intros ->%decode_multibase_key_inv. apply bs58_encode_alnum. Qed.

Lemma pkh_identifier_graphic did id :
  validate_pkh did = Ok tt → pkh_address_for_message did = Ok id →
  ∃ s, id = "0x" +:+ s ∧ str_forallb is_alnum s = true.
Proof.
  intros Hv Ha. destruct (validated_pkh_namespace did Hv) as (ns & rem & cs & Hsp & Hc).
  pose proof (parse_did_namespace_split _ _ _ Hsp) as Hn.
  unfold validate_pkh in Hv. rewrite Hn in Hv.
  unfold pkh_address_for_message, pkh_suite in Ha. rewrite Hsp, Hc in Ha. cbn [ok_or] in Ha.
  apply split_namespace_Ok in Hsp as [-> _].
  apply find_cipher_suite_cases in Hc as [[-> ->]|[[-> ->]|[-> ->]]].
  - destruct (cs_parse_did_parts _ rem) as [[? ?]|]; [|done].
    rewrite String.eqb_refl in Ha. unfold checksummed_address in Ha.
    destruct (address_from_did _) as [a|]; [|done]. simplify_eq.
    eexists. split; [done|]. apply eip55_checksum_alnum.
  - cbn in Ha. simplify_eq. cbn [String.eqb Ascii.eqb Bool.eqb] in Hv.
    destruct (pubkey_from_ed25519_did _) as [pk|] eqn:E; [|done].
    apply pubkey_from_ed25519_did_Ok in E as (h & key & Heq & Hh & _).
    apply (str_app_inj_l "did:pkh:ed25519:" id ("0x" +:+ h)) in Heq as ->. exists h. eauto using hex_decode_alnum.
  - cbn in Ha. simplify_eq. cbn [String.eqb Ascii.eqb Bool.eqb] in Hv.
    destruct (pubkey_from_p256_did _) as [pk|] eqn:E; [|done].
    apply pubkey_from_p256_did_Ok in E as (h & Heq & Hh & _).
    apply (str_app_inj_l "did:pkh:p256:" id ("0x" +:+ h)) in Heq as ->. exists h. eauto using hex_decode_alnum.
Qed.

(** The identifier of a validated DID is a visible, non-empty word. *)
Lemma identifier_graphic did m id :
  validate_did_well_formed did = Ok tt → find_did_method did = Some m →
  dm_address_for_message m did = Ok id →
  ∃ p s, id = p +:+ s ∧ p ∈ ["0x"; "z"] ∧ str_forallb is_alnum s = true.
Proof.
  intros Hv Hm Ha. unfold validate_did_well_formed in Hv. rewrite Hm in Hv. cbn [ok_or] in Hv.
  destruct (find_did_method_cases _ _ Hm)
    as [[Hs ->]|[[Hs ->]|[[Hs ->]|(Hf & Hs & ->)]]]; cbn in Hv, Ha.
  - destruct (pkh_identifier_graphic _ _ Hv Ha) as (s & -> & ?).
    exists "0x", s. set_solver.
  - unfold key_address_for_message in Ha.
    destruct (strip_prefix "did:key:z" did) as [z|] eqn:E; [|done]. cbn [ok_or] in Hv.
    apply strip_prefix_Some in E as ->.
    change ("did:key:z" +:+ z) with ("did:key:" +:+ ("z" +:+ z)) in Ha.
    rewrite strip_prefix_app in Ha. cbn [ok_or] in Ha. simplify_eq.
    unfold validate_multibase_key_body in Hv.
    destruct (decode_multibase_key z) eqn:E; [|done]. apply multibase_alnum in E.
    exists "z", z. set_solver.
  - unfold peer_address_for_message in Ha.
    destruct (extract_z_body did) as [z|] eqn:E; [|done]. simplify_eq.
    unfold validate_multibase_key_body in Hv.
    destruct (decode_multibase_key z) eqn:E'; [|done]. apply multibase_alnum in E'.
    exists "z", z. set_solver.
  - unfold aqua_address_for_message in Ha.
    destruct (multihash_from_aqua_did did) as [mh|] eqn:E; [|done].
    apply multihash_from_aqua_did_inv in E as [-> _].
    change ("did:aqua:z" +:+ ?z) with ("did:aqua:" +:+ ("z" +:+ z)) in Ha.
    rewrite strip_prefix_app in Ha. cbn [ok_or] in Ha. simplify_eq.
    eexists "z", _. split; [done|]. split; [set_solver|]. apply bs58_encode_alnum.
Qed.
Lemma identifier_visible did m id :
  validate_did_well_formed did = Ok tt → find_did_method did = Some m →
  dm_address_for_message m did = Ok id →
  str_forallb graphic id = true ∧ str_is_empty id = false.
Proof.
  intros Hv Hm Ha. destruct (identifier_graphic _ _ _ Hv Hm Ha) as (p & s & -> & Hp & Hs).
  apply elem_of_cons in Hp as [->|Hp]; [|apply list_elem_of_singleton in Hp as ->];
    (split; [by apply prefixed_alnum_graphic|done]).
Qed.
Lemma label_one_line m did l :
  find_did_method did = Some m → dm_method_label m did = Ok l → one_line l = true.
Proof.
  intros Hm Hl. assert (m ∈ all_did_methods) as Hin.
  { unfold find_did_method in Hm. apply find_some in Hm as [? _].
    by apply list_elem_of_In. }
  pose proof (method_label_values _ _ _ Hin Hl) as Hv.
  rewrite !elem_of_cons in Hv. repeat destruct Hv as [->|Hv]; try done. by apply not_elem_of_nil in Hv.
Qed.

(** The fields the store fills in, each on one line. *)
Definition params_one_line (p : MessageParams) : Prop :=
  one_line (mp_domain p) = true ∧ one_line (mp_uri p) = true ∧
  one_line (mp_nonce p) = true.

Lemma message_text_lines p id label :
  message_text p id label = String.concat nl (message_lines p id label).
Proof.
  unfold message_text, message_lines. cbn [String.concat].
  by rewrite !str_app_assoc.
Qed.
Lemma message_lines_one_line p id label :
  params_one_line p → one_line id = true → one_line label = true →
  Forall (λ l, one_line l = true) (message_lines p id label).
Proof.
  intros (Hd & Hu & Hn) Hi Hl.
  assert (∀ d, one_line (dt_format d) = true) as Hf
    by (intros; apply graphic_one_line, dt_format_graphic).
  unfold message_lines. repeat constructor; rewrite ?one_line_app, ?Hd, ?Hu, ?Hn, ?Hl, ?Hf; done.
Qed.
Lemma split_join l ls tail :
  Forall (λ l, one_line l = true) (l :: ls) →
  split "010"%char (String.concat nl (l :: ls) +:+ tail) =
    match tail with
    | EmptyString => l :: ls
    | String c r => if Ascii.eqb "010"%char c then (l :: ls) ++ split "010"%char r
                    else split "010"%char (String.concat nl (l :: ls) +:+ tail)
    end.
Proof.
  intros Hall. destruct tail as [|c r]; [rewrite str_app_nil_r|destruct (Ascii.eqb_spec "010"%char c); [subst c|done]].
  - revert l Hall. induction ls as [|k ls IH]; intros l Hall; inversion Hall; subst.
    + by apply split_last_line.
    + change (String.concat nl (l :: k :: ls)) with (l +:+ nl +:+ String.concat nl (k :: ls)).
      rewrite split_line by done. by rewrite IH.
  - revert l Hall. induction ls as [|k ls IH]; intros l Hall; inversion Hall; subst.
    + cbn [String.concat app]. by apply (split_line l r).
    + change (String.concat nl (l :: k :: ls)) with (l +:+ nl +:+ String.concat nl (k :: ls)).
      rewrite !str_app_assoc. rewrite split_line by done. by rewrite IH.
Qed.

(** The lines a chain line adds: one, or more when the chain segment of the
    DID holds a line feed. *)
Definition chain_lines (m : DIDMethod) (did : string) : list string :=
  match chain_suffix m did with
  | EmptyString => []
  | String _ r => split "010"%char r
  end.
Lemma chain_suffix_cases m did :
  chain_suffix m did = EmptyString ∨
  ∃ id, dm_chain_id m did = Ok (Some ("eip155:" +:+ id)) ∧
    chain_suffix m did = nl +:+ "Chain ID: " +:+ id.
Proof.
  unfold chain_suffix. destruct (dm_chain_id m did) as [[c|]|]; auto.
  destruct (strip_prefix "eip155:" c) as [id|] eqn:E; [|auto].
  apply strip_prefix_Some in E as ->. right. eauto.
Qed.
Lemma message_split m p id label :
  params_one_line p → one_line id = true → one_line label = true →
  split "010"%char (message_text p id label +:+ chain_suffix m (mp_did p))
    = message_lines p id label ++ chain_lines m (mp_did p).
Proof.
  intros Hp Hi Hl. rewrite message_text_lines.
  pose proof (message_lines_one_line _ _ _ Hp Hi Hl) as Hall.
  unfold message_lines in *. rewrite split_join by done. unfold chain_lines.
  destruct (chain_suffix_cases m (mp_did p)) as [->|(? & _ & ->)]; [|done].
  by rewrite app_nil_r.
Qed.
(** Every message of a validated DID, line by line. *)
Lemma build_message_split p msg :
  validate_did_well_formed (mp_did p) = Ok tt → params_one_line p →
  build_message p = Ok msg →
  ∃ m id label, find_did_method (mp_did p) = Some m ∧
    dm_address_for_message m (mp_did p) = Ok id ∧
    dm_method_label m (mp_did p) = Ok label ∧
    str_forallb graphic id = true ∧ str_is_empty id = false ∧
    split "010"%char msg = message_lines p id label ++ chain_lines m (mp_did p).
Proof.
  intros Hv Hp (m & id & label & Hm & Ha & Hl & ->)%build_message_Ok.
  destruct (identifier_visible _ _ _ Hv Hm Ha) as [Hg He].
  exists m, id, label. do 5 (split; [done|]).
  apply message_split; [done|by apply graphic_one_line|by eapply label_one_line].
Qed.

Lemma identifier_line msg first id rest :
  split "010"%char msg = first :: id :: rest →
  str_forallb graphic id = true → str_is_empty id = false →
  identifier_from_message msg = Some id.
Proof.
  intros Hs Hg He. unfold identifier_from_message. rewrite Hs.
  rewrite trim_end_matches_free, trim_graphic by
    (try done; apply free_of_rev_head; by apply free_of_graphic).
  by rewrite He.
Qed.
Lemma build_message_identifier p msg :
  validate_did_well_formed (mp_did p) = Ok tt → params_one_line p →
  build_message p = Ok msg →
  ∃ m id, find_did_method (mp_did p) = Some m ∧
    dm_address_for_message m (mp_did p) = Ok id ∧
    identifier_from_message msg = Some id.
Proof.
  intros Hv Hp Hb.
  destruct (build_message_split _ _ Hv Hp Hb) as (m & id & label & Hm & Ha & _ & Hg & He & Hs).
  exists m, id. do 2 (split; [done|]). by apply (identifier_line _ _ _ _ Hs).
Qed.

(** A validated DID always has a message, unless it is an [eip155] one with no
    chain segment. *)
Lemma validated_address_total did m :
  validate_did_well_formed did = Ok tt → find_did_method did = Some m →
  is_ok (dm_address_for_message m did) = true ∨
  ∃ a, did = "did:pkh:eip155:" +:+ a ∧ free_of ":"%char a = true.
Proof.
  intros Hv Hm. unfold validate_did_well_formed in Hv. rewrite Hm in Hv. cbn [ok_or] in Hv.
  destruct (find_did_method_cases _ _ Hm)
    as [[Hs ->]|[[Hs ->]|[[Hs ->]|(Hf & Hs & ->)]]]; cbn in Hv |- *.
  - destruct (validated_pkh_namespace did Hv) as (ns & rem & cs & Hsp & Hc).
    unfold pkh_address_for_message, pkh_suite. rewrite Hsp, Hc. cbn [ok_or].
    apply find_cipher_suite_cases in Hc as [[-> ->]|[[-> ->]|[-> ->]]]; [|by left..].
    unfold validate_pkh in Hv. rewrite (parse_did_namespace_split _ _ _ Hsp) in Hv.
    cbn in Hv. unfold checksummed_address. cbn.
    apply split_namespace_Ok in Hsp as [-> _]. unfold eip155_parse_did_parts.
    destruct (split_once ":"%char rem) as [[? ?]|] eqn:E.
    + left. by destruct (address_from_did _).
    + right. exists rem. by apply split_once_None in E.
  - left. unfold key_address_for_message.
    apply starts_with_spec in Hs as [r ->]. by rewrite strip_prefix_app.
  - left. unfold peer_address_for_message. by destruct (extract_z_body did).
  - left. rewrite Hf in Hv. cbn in Hv. unfold aqua_address_for_message.
    destruct (multihash_from_aqua_did did); [|done].
    apply starts_with_spec in Hs as [r ->]. by rewrite strip_prefix_app.
Qed.
Lemma build_message_total p :
  validate_did_well_formed (mp_did p) = Ok tt →
  (∃ msg, build_message p = Ok msg) ∨
  ∃ a, mp_did p = "did:pkh:eip155:" +:+ a ∧ free_of ":"%char a = true.
Proof.
  intros Hv. destruct (validated_method _ Hv) as [m Hm].
  destruct (validated_label_subject _ _ Hv Hm) as [Hl _].
  destruct (validated_address_total _ _ Hv Hm) as [Ha|?]; [left|by right].
  unfold build_message. rewrite Hm. cbn [ok_or].
  destruct (dm_address_for_message m _); [|done].
  destruct (dm_method_label m _); [|done]. cbn [map_err]. eauto.
Qed.
(** The exception is real. *)
Lemma chainless_no_message p a :
  mp_did p = "did:pkh:eip155:" +:+ a → free_of ":"%char a = true →
  ∃ e, build_message p = Err e.
Proof.
  intros Hd Hf. unfold build_message. rewrite Hd. change (find_did_method _) with (Some PkhMethod).
  cbn [ok_or dm_address_for_message PkhMethod]. unfold pkh_address_for_message.
  assert (split_namespace ("did:pkh:eip155:" +:+ a) = Ok ("eip155", a)) as ->
    by by apply split_namespace_Ok.
  cbn. unfold eip155_parse_did_parts. rewrite (proj2 (split_once_None _ _) Hf). cbn. eauto.
Qed.
End proofs.

Section properties.
Context `{Ed25519, P256, K256, MlDsa, Base58, Base64, Hex, Hashes, Features, Chrono}.
Context `{!HexLaws, !Base58Laws, !ChronoLaws}.

(** C15: a signed message has one meaning. Two well-formed requests whose
    fields each stay on one line and that render to the same text name the
    same identifier, URI, nonce and times: nothing can be signed as one and
    presented as another. *)
Theorem build_message_binds p q msg :
  validate_did_well_formed (mp_did p) = Ok tt → params_one_line p →
  validate_did_well_formed (mp_did q) = Ok tt → params_one_line q →
  build_message p = Ok msg → build_message q = Ok msg →
  mp_uri p = mp_uri q ∧ mp_nonce p = mp_nonce q ∧
  dt_format (mp_issued_at p) = dt_format (mp_issued_at q) ∧
  dt_format (mp_expiration_time p) = dt_format (mp_expiration_time q) ∧
  ∃ m n, find_did_method (mp_did p) = Some m ∧ find_did_method (mp_did q) = Some n ∧
    dm_address_for_message m (mp_did p) = dm_address_for_message n (mp_did q).
Proof.
  intros Hvp Hp Hvq Hq Hbp Hbq.
  destruct (build_message_split _ _ Hvp Hp Hbp) as (m & id & lp & Hm & Ha & _ & _ & _ & Hs).
  destruct (build_message_split _ _ Hvq Hq Hbq) as (n & id' & lq & Hn & Ha' & _ & _ & _ & Hs').
  rewrite Hs in Hs'. cbv [message_lines app] in Hs'.
  injection Hs' as _ <- Hu Hno Hi He _.
  repeat match goal with H : _ = _ |- _ => apply str_app_inj_l in H end.
  do 4 (split; [done|]). exists m, n. do 2 (split; [done|]). by rewrite Ha, Ha'.
Qed.
End properties.

Section witnesses.
Import Fixtures.Instances.

(** Two spellings of one address. *)
Definition spelled (did : string) : MessageParams := {|
  mp_did := did; mp_domain := "aqua-node"; mp_uri := "https://node.example";
  mp_nonce := "0x01"; mp_issued_at := sample_time 0; mp_expiration_time := sample_time 300 |}.
Definition lower_eip155_did : string := to_lower sample_eip155_did.
Definition spelled_message : string :=
  match build_message (spelled sample_eip155_did) with Ok m => m | Err _ => EmptyString end.
Lemma build_message_binds_witness : ∃ m n,
  find_did_method sample_eip155_did = Some m ∧ find_did_method lower_eip155_did = Some n ∧
  dm_address_for_message m sample_eip155_did = dm_address_for_message n lower_eip155_did.
Proof.
  apply (build_message_binds (spelled sample_eip155_did) (spelled lower_eip155_did)
    spelled_message); [vm_refl| |vm_refl| |vm_refl|vm_refl]; repeat split; vm_refl.
Defined.
End witnesses.
