(* ===== verification/Types.v ===== *)
(** * The stored and exchanged values: src/types.rs *)

From S2P Require Import Prelude.

(** [Challenge]: the server's record of an issued challenge. *)
Record Challenge : Type := {
  ch_did : string;
  ch_nonce : string;
  ch_message : string;
  ch_expires_at : Z;
}.
(** [SessionRequest]: what the client posts after signing. *)
Record SessionRequest : Type := {
  sr_did : string;
  sr_nonce : string;
  sr_signature : string;
}.
(** [Session]: an authenticated session. *)
Record Session : Type := {
  se_did : string;
  se_token : string;
  se_valid_until : Z;
  se_created_at : Z;
}.
(** [SessionInfo]: a session as the management API lists it, without token. *)
Record SessionInfo : Type := {
  si_did : string;
  si_created_at : Z;
  si_valid_until : Z;
}.

#[export] Instance Challenge_eq_dec : EqDecision Challenge.
Proof. solve_decision. Defined.
#[export] Instance SessionRequest_eq_dec : EqDecision SessionRequest.
Proof. solve_decision. Defined.
#[export] Instance Session_eq_dec : EqDecision Session.
Proof. solve_decision. Defined.
#[export] Instance Session_inhabited : Inhabited Session :=
  populate {| se_did := EmptyString; se_token := EmptyString; se_valid_until := 0;
              se_created_at := 0 |}.
