(* ===== verification/Challenge.v ===== *)
(** * The challenge store: src/challenge.rs

    The [DashMap] is a [gmap] from nonces to challenges; every clock reading
    and the random nonce are arguments. [ChOp] and [ch_step] are the store as
    a sequential object, over which the single-use theorems are stated. *)

From S2P Require Import Prelude Crates Errors Keys Did Suites Aqua Methods DidFormat Principal Message Types Fixtures.

Section defs.
Context `{Ed25519, P256, K256, MlDsa, Base58, Base64, Hex, Hashes, Features, Chrono}.

Definition DEFAULT_CHALLENGE_TTL_SECS : Z := 300.
Definition MAX_CHALLENGES : nat := N.to_nat 8192.

Record ChallengeStore : Type := {
  cst_challenges : gmap string Challenge;
  cst_ttl_secs : Z;
  cst_domain : string;
  cst_uri : string;
  cst_max_challenges : nat;
}.
Definition with_capacity (ttl_secs : Z) (domain uri : string) (max_challenges : nat)
  : ChallengeStore :=
  {| cst_challenges := ∅; cst_ttl_secs := ttl_secs; cst_domain := domain;
     cst_uri := uri; cst_max_challenges := max_challenges |}.
Definition new_challenge_store (ttl_secs : Z) (domain uri : string) : ChallengeStore :=
  with_capacity ttl_secs domain uri MAX_CHALLENGES.
Definition set_challenges (st : ChallengeStore) (m : gmap string Challenge)
  : ChallengeStore :=
  {| cst_challenges := m; cst_ttl_secs := cst_ttl_secs st; cst_domain := cst_domain st;
     cst_uri := cst_uri st; cst_max_challenges := cst_max_challenges st |}.

(** [Utc::now().timestamp() as u64]. *)
Definition now_secs (now : date_time) : Z := as_u64 (dt_timestamp now).

Definition cst_len (st : ChallengeStore) : nat := size (cst_challenges st).
Definition cst_is_empty (st : ChallengeStore) : bool := cst_len st =? 0.

Definition cleanup_expired (now : date_time) (st : ChallengeStore) : ChallengeStore :=
  set_challenges st
    (filter (λ kc, (now_secs now < ch_expires_at kc.2)%Z) (cst_challenges st)).

(** [expires_at], ties broken by the nonce. *)
Definition issued_before (a b : string * Challenge) : bool :=
  stamp_ltb (ch_expires_at a.2, a.1) (ch_expires_at b.2, b.1).
Definition oldest (st : ChallengeStore) : option (string * Challenge) :=
  min_by issued_before (map_to_list (cst_challenges st)).
Definition evict_oldest (st : ChallengeStore) : ChallengeStore :=
  match oldest st with
  | Some (nonce, _) => set_challenges st (delete nonce (cst_challenges st))
  | None => st
  end.

(** The capacity block of [create]; its clock is read by [cleanup_expired]. *)
Definition make_room (now : date_time) (st : ChallengeStore) : ChallengeStore :=
  if cst_max_challenges st <=? cst_len st then
    let st := cleanup_expired now st in
    if cst_max_challenges st <=? cst_len st then evict_oldest st else st
  else st.

Definition nonce_text (nonce_bytes : bytes) : string := "0x" +:+ hex_encode nonce_bytes.

(** The store after the call, and what the call returns or that it panics
    ([now + Duration::seconds(ttl as i64)] out of range). *)
Definition create (st : ChallengeStore) (did : string) (clean_now : date_time)
    (nonce_bytes : bytes) (now : date_time)
  : ChallengeStore * run (result Challenge AuthError) :=
  match validate_did_well_formed did with
  | Err e => (st, Returned (Err (Crypto e)))
  | Ok _ =>
      let st := make_room clean_now st in
      let nonce := nonce_text nonce_bytes in
      match dt_add_seconds now (as_i64 (cst_ttl_secs st)) with
      | Panicked => (st, Panicked)
      | Returned expires =>
          match build_message {| mp_did := did; mp_domain := cst_domain st;
              mp_uri := cst_uri st; mp_nonce := nonce; mp_issued_at := now;
              mp_expiration_time := expires |} with
          | Err e => (st, Returned (Err e))
          | Ok message =>
              let challenge := {| ch_did := did; ch_nonce := nonce;
                ch_message := message; ch_expires_at := now_secs expires |} in
              (set_challenges st (<[nonce := challenge]> (cst_challenges st)),
               Returned (Ok challenge))
          end
      end
  end.

Definition validate (st : ChallengeStore) (nonce : string) (now : date_time)
  : ChallengeStore * result Challenge AuthError :=
  match cst_challenges st !! nonce with
  | None => (st, Err ChallengeNotFound)
  | Some challenge =>
      let st := set_challenges st (delete nonce (cst_challenges st)) in
      if (ch_expires_at challenge <=? now_secs now)%Z then (st, Err ChallengeExpired)
      else (st, Ok challenge)
  end.

(** ** The store as a sequential object *)

Inductive ChOp : Type :=
| OpCreate (did : string) (clean_now : date_time) (nonce_bytes : bytes) (now : date_time)
| OpValidate (nonce : string) (now : date_time)
| OpCleanup (now : date_time).
Inductive ChOut : Type :=
| OutCreate (r : run (result Challenge AuthError))
| OutValidate (nonce : string) (now : date_time) (r : result Challenge AuthError)
| OutCleanup.
Definition ch_step (st : ChallengeStore) (op : ChOp) : ChallengeStore * ChOut :=
  match op with
  | OpCreate did clean_now nonce_bytes now =>
      let '(st', r) := create st did clean_now nonce_bytes now in (st', OutCreate r)
  | OpValidate nonce now =>
      let '(st', r) := validate st nonce now in (st', OutValidate nonce now r)
  | OpCleanup now => (cleanup_expired now st, OutCleanup)
  end.
Fixpoint ch_run (st : ChallengeStore) (ops : list ChOp) : ChallengeStore * list ChOut :=
  match ops with
  | [] => (st, [])
  | op :: ops' =>
      let '(st1, out) := ch_step st op in
      let '(st2, outs) := ch_run st1 ops' in (st2, out :: outs)
  end.

(** How often [nonce] was handed out, and how often it was accepted. *)
Definition issues (nonce : string) (o : ChOut) : nat :=
  match o with
  | OutCreate (Returned (Ok c)) => if String.eqb (ch_nonce c) nonce then 1 else 0
  | _ => 0
  end.
Definition accepts (nonce : string) (o : ChOut) : nat :=
  match o with
  | OutValidate n _ (Ok _) => if String.eqb n nonce then 1 else 0
  | _ => 0
  end.
Definition count (f : ChOut → nat) (outs : list ChOut) : nat := list_sum (map f outs).
(** Whether [nonce] is pending. *)
Definition pending (nonce : string) (st : ChallengeStore) : nat :=
  match cst_challenges st !! nonce with Some _ => 1 | None => 0 end.

(** The invariant of the store: a challenge sits under its own nonce, for a
    well-formed DID, with the message built for them. *)
Definition challenge_ok (st : ChallengeStore) (n : string) (c : Challenge) : Prop :=
  ch_nonce c = n ∧ validate_did_well_formed (ch_did c) = Ok tt ∧
  ∃ issued expires,
    build_message {| mp_did := ch_did c; mp_domain := cst_domain st;
      mp_uri := cst_uri st; mp_nonce := n; mp_issued_at := issued;
      mp_expiration_time := expires |} = Ok (ch_message c) ∧
    dt_add_seconds issued (as_i64 (cst_ttl_secs st)) = Returned expires ∧
    ch_expires_at c = now_secs expires.
Definition store_ok (st : ChallengeStore) : Prop :=
  map_Forall (challenge_ok st) (cst_challenges st).
(** The bound the capacity logic keeps: one challenge is stored even under a
    cap of zero. *)
Definition within_capacity (st : ChallengeStore) : Prop :=
  cst_len st ≤ Nat.max 1 (cst_max_challenges st).
End defs.

Section proofs.
Context `{Ed25519, P256, K256, MlDsa, Base58, Base64, Hex, Hashes, Features, Chrono}.

(** ** Eviction *)

Lemma issued_before_trans a b c :
  issued_before a b = false → issued_before b c = false → issued_before a c = false.
Proof. apply stamp_ltb_trans. Qed.
Lemma issued_before_tie st a b :
  a ∈ map_to_list (cst_challenges st) → b ∈ map_to_list (cst_challenges st) →
  issued_before a b = false → issued_before b a = false → a = b.
Proof.
  destruct a as [n c], b as [n' c']. rewrite !elem_of_map_to_list.
  intros Ha Hb Hab Hba. pose proof (stamp_ltb_tie _ _ Hab Hba). simplify_eq/=. congruence.
Qed.
(** The victim is the same whatever order the map is walked in. *)
Lemma oldest_any_order st l :
  l ≡ₚ map_to_list (cst_challenges st) → min_by issued_before l = oldest st.
Proof.
  intros Hl. unfold oldest. apply min_by_perm; [apply issued_before_trans|
    intros ? ?; apply stamp_ltb_asym| |done].
  intros a b Ha Hb. rewrite Hl in Ha, Hb. by apply (issued_before_tie st).
Qed.
Lemma oldest_spec st n c :
  oldest st = Some (n, c) →
  cst_challenges st !! n = Some c ∧
  ∀ n' c', cst_challenges st !! n' = Some c' → n' ≠ n →
    (ch_expires_at c < ch_expires_at c' ∨
     (ch_expires_at c = ch_expires_at c' ∧ String.ltb n n' = true))%Z.
Proof.
  intros Ho. split; [by apply elem_of_map_to_list, (min_by_elem issued_before)|].
  intros n' c' Hn' Hne.
  assert (issued_before (n', c') (n, c) = false) as Hb.
  { eapply min_by_least; [apply issued_before_trans|intros ? ?; apply stamp_ltb_asym|exact Ho|].
    by apply elem_of_map_to_list. }
  apply stamp_ltb_false in Hb as [?|[? ?]]; cbn [fst snd] in *; [auto|right]. split; [done|].
  destruct (String.ltb n n') eqn:E; [done|]. by destruct Hne; apply str_ltb_tie.
Qed.
Lemma oldest_None st : oldest st = None ↔ cst_challenges st = ∅.
Proof.
  unfold oldest. rewrite <- map_to_list_empty_iff. split; [|by intros ->].
  intros Hn. destruct (map_to_list (cst_challenges st)) as [|x l]; [done|].
  destruct (min_by_is_Some issued_before (x :: l)) as [y Hx]; [done|]. by rewrite Hx in Hn.
Qed.

(** ** Sizes and contents after each step *)

Lemma cleanup_lookup now st n c :
  cst_challenges (cleanup_expired now st) !! n = Some c ↔
  cst_challenges st !! n = Some c ∧ (now_secs now < ch_expires_at c)%Z.
Proof. unfold cleanup_expired. cbn. by rewrite map_lookup_filter_Some. Qed.
Lemma cleanup_subseteq now st :
  cst_challenges (cleanup_expired now st) ⊆ cst_challenges st.
Proof. apply map_filter_subseteq. Qed.
Lemma evict_subseteq st : cst_challenges (evict_oldest st) ⊆ cst_challenges st.
Proof. unfold evict_oldest. destruct (oldest st) as [[n c]|]; [apply delete_subseteq|done]. Qed.
Lemma evict_len st : cst_len (evict_oldest st) = cst_len st - 1.
Proof.
  unfold evict_oldest, cst_len. destruct (oldest st) as [[n c]|] eqn:E; cbn.
  - apply oldest_spec in E as [E _]. rewrite map_size_delete, E. lia.
  - apply oldest_None in E as ->. by rewrite map_size_empty.
Qed.
Lemma make_room_subseteq now st : cst_challenges (make_room now st) ⊆ cst_challenges st.
Proof.
  unfold make_room. destruct (_ <=? cst_len st); [|done].
  destruct (_ <=? _); [|apply cleanup_subseteq].
  etrans; [apply evict_subseteq|apply cleanup_subseteq].
Qed.
Lemma make_room_config now st :
  cst_ttl_secs (make_room now st) = cst_ttl_secs st ∧
  cst_domain (make_room now st) = cst_domain st ∧
  cst_uri (make_room now st) = cst_uri st ∧
  cst_max_challenges (make_room now st) = cst_max_challenges st.
Proof.
  unfold make_room, evict_oldest. repeat case_match; done.
Qed.
Lemma size_mono (m m' : gmap string Challenge) : m ⊆ m' → size m ≤ size m'.
Proof. apply map_subseteq_size. Qed.
Lemma make_room_len now st :
  within_capacity st → S (cst_len (make_room now st)) ≤ Nat.max 1 (cst_max_challenges st).
Proof.
  unfold within_capacity, make_room. intros Hw.
  assert (cst_len (cleanup_expired now st) ≤ cst_len st) by apply size_mono, cleanup_subseteq.
  destruct (_ <=? cst_len st) eqn:E1; bool_simpl; [|lia].
  destruct (cst_max_challenges (cleanup_expired now st) <=? _) eqn:E2; bool_simpl.
  - rewrite evict_len. lia.
  - cbn in *. lia.
Qed.

(** ** What [create] returns, on every branch *)

Lemma create_Ok st did clean nb now st' c :
  create st did clean nb now = (st', Returned (Ok c)) ↔
  validate_did_well_formed did = Ok tt ∧
  ∃ expires, dt_add_seconds now (as_i64 (cst_ttl_secs st)) = Returned expires ∧
  build_message {| mp_did := did; mp_domain := cst_domain st; mp_uri := cst_uri st;
    mp_nonce := nonce_text nb; mp_issued_at := now; mp_expiration_time := expires |}
    = Ok (ch_message c) ∧
  c = {| ch_did := did; ch_nonce := nonce_text nb; ch_message := ch_message c;
         ch_expires_at := now_secs expires |} ∧
  st' = set_challenges (make_room clean st)
    (<[nonce_text nb := c]> (cst_challenges (make_room clean st))).
Proof.
  unfold create. destruct (make_room_config clean st) as (-> & -> & -> & _).
  destruct (validate_did_well_formed did) as [[]|];
    [|split; [done|by intros [[=] _]]].
  destruct (dt_add_seconds _ _) as [ex|]; [|split; [done|by intros (_ & ? & [=] & _)]].
  destruct (build_message _) as [msg|] eqn:E.
  - split.
    + intros [= <- <-]. split; [done|]. by eexists.
    + intros (_ & ex' & [= <-] & Hb & Hc & ->). rewrite E in Hb. injection Hb as Hb.
      rewrite Hc. cbn. by rewrite Hb.
  - split; [done|]. intros (_ & ex' & [= <-] & Hb & _). congruence.
Qed.
(** A malformed DID touches nothing. *)
Lemma create_malformed st did clean nb now e :
  validate_did_well_formed did = Err e →
  create st did clean nb now = (st, Returned (Err (Crypto e))).
Proof. unfold create. by intros ->. Qed.
(** A challenge that is not issued leaves a part of the store. *)
Lemma create_not_Ok st did clean nb now st' r :
  create st did clean nb now = (st', r) → (∀ c, r ≠ Returned (Ok c)) →
  st' = st ∨ st' = make_room clean st.
Proof.
  unfold create. intros Hc Hr. repeat case_match; simplify_eq; auto.
  by destruct (Hr _ eq_refl).
Qed.

Lemma validate_Ok st n now st' c :
  validate st n now = (st', Ok c) ↔
  cst_challenges st !! n = Some c ∧ (now_secs now < ch_expires_at c)%Z ∧
  st' = set_challenges st (delete n (cst_challenges st)).
Proof.
  unfold validate. destruct (cst_challenges st !! n) as [c'|]; [|split; [done|by intros [[=] _]]].
  destruct (_ <=? _)%Z eqn:E; bool_simpl;
    [|split; [by intros [= <- <-]|by intros ([= ->] & _ & ->)]].
  split; [done|]. intros (? & ? & ?). simplify_eq. lia.
Qed.
Lemma validate_consumes st n now :
  cst_challenges (validate st n now).1 = delete n (cst_challenges st).
Proof.
  unfold validate. destruct (cst_challenges st !! n) eqn:E; [by case_match|].
  cbn. by rewrite delete_id.
Qed.

(** ** Traces *)

Lemma pending_le n st m : cst_challenges m ⊆ cst_challenges st → pending n m ≤ pending n st.
Proof.
  intros Hs. unfold pending. destruct (cst_challenges m !! n) eqn:E; [|lia].
  by rewrite (lookup_weaken _ _ _ _ E Hs).
Qed.
Lemma ch_step_single_use n st op :
  accepts n (ch_step st op).2 + pending n (ch_step st op).1
    ≤ issues n (ch_step st op).2 + pending n st.
Proof.
  destruct op as [did clean nb now|n' now|now]; cbn [ch_step].
  - destruct (create st did clean nb now) as [st' r] eqn:E. cbn [fst snd accepts].
    pose proof (pending_le n st (make_room clean st) (make_room_subseteq clean st)).
    destruct r as [[c|e]|]; cbn [issues].
    + apply create_Ok in E as (_ & ex & _ & _ & -> & ->). cbn [ch_nonce].
      destruct (String.eqb_spec (nonce_text nb) n) as [->|Hne]; unfold pending in *; cbn in *.
      * rewrite lookup_insert_eq. repeat case_match; lia.
      * rewrite lookup_insert_ne by done. lia.
    + apply create_not_Ok in E as [->| ->]; [lia..|done].
    + apply create_not_Ok in E as [->| ->]; [lia..|done].
  - destruct (validate st n' now) as [st' r] eqn:E. cbn [fst snd issues].
    pose proof (validate_consumes st n' now) as Hc. rewrite E in Hc. cbn [fst] in Hc.
    unfold pending. rewrite Hc. destruct r as [c|e]; cbn [accepts].
    + apply validate_Ok in E as (Hl & _ & _).
      destruct (String.eqb_spec n' n) as [->|Hne].
      * by rewrite lookup_delete_eq, Hl.
      * rewrite lookup_delete_ne by done. lia.
    + destruct (decide (n' = n)) as [->|].
      * rewrite lookup_delete_eq. lia.
      * rewrite lookup_delete_ne by done. lia.
  - cbn. apply pending_le, cleanup_subseteq.
Qed.
Lemma ch_run_single_use n st ops :
  count (accepts n) (ch_run st ops).2 + pending n (ch_run st ops).1
    ≤ count (issues n) (ch_run st ops).2 + pending n st.
Proof.
  unfold count. revert st. induction ops as [|op ops IH]; intros st; cbn; [lia|].
  pose proof (ch_step_single_use n st op) as Hs. destruct (ch_step st op) as [st1 o].
  specialize (IH st1). destruct (ch_run st1 ops) as [st2 outs]. cbn in *. lia.
Qed.

Lemma ch_step_capacity st op : within_capacity st → within_capacity (ch_step st op).1.
Proof.
  unfold within_capacity. intros Hw. destruct op as [did clean nb now|n' now|now]; cbn [ch_step].
  - destruct (create st did clean nb now) as [st' r] eqn:E. cbn [fst].
    pose proof (make_room_len clean st Hw) as Hr.
    destruct (make_room_config clean st) as (_ & _ & _ & Hmax).
    destruct r as [[c|e]|].
    + apply create_Ok in E as (_ & ex & _ & _ & _ & ->). unfold cst_len in *. cbn.
      pose proof (size_insert_le (cst_challenges (make_room clean st)) (nonce_text nb) c).
      lia.
    + apply create_not_Ok in E as [->| ->]; [done|lia|done].
    + apply create_not_Ok in E as [->| ->]; [done|lia|done].
  - pose proof (validate_consumes st n' now) as Hc.
    assert (cst_max_challenges (validate st n' now).1 = cst_max_challenges st) as Hm
      by (unfold validate; repeat case_match; done).
    destruct (validate st n' now) as [st' r]. cbn [fst] in *.
    unfold cst_len in *. rewrite Hc, Hm.
    pose proof (size_mono _ _ (delete_subseteq (cst_challenges st) n')). lia.
  - pose proof (size_mono _ _ (cleanup_subseteq now st)). unfold cst_len in *. cbn in *. lia.
Qed.
Lemma ch_run_capacity st ops : within_capacity st → within_capacity (ch_run st ops).1.
Proof.
  revert st. induction ops as [|op ops IH]; intros st Hw; cbn; [done|].
  pose proof (ch_step_capacity st op Hw) as Hw1. destruct (ch_step st op) as [st1 o].
  specialize (IH st1 Hw1). by destruct (ch_run st1 ops) as [st2 outs].
Qed.

(** Every stored challenge was issued: stored at the start, or returned by a
    [create] of the run. *)
Definition known (st : ChallengeStore) (outs : list ChOut) (n : string) (c : Challenge) : Prop :=
  cst_challenges st !! n = Some c ∨ (OutCreate (Returned (Ok c)) ∈ outs ∧ ch_nonce c = n).
Lemma ch_step_known st op n c :
  cst_challenges (ch_step st op).1 !! n = Some c →
  cst_challenges st !! n = Some c ∨
  ((ch_step st op).2 = OutCreate (Returned (Ok c)) ∧ ch_nonce c = n).
Proof.
  destruct op as [did clean nb now|n' now|now]; cbn [ch_step].
  - destruct (create st did clean nb now) as [st' r] eqn:E. cbn [fst snd]. intros Hl.
    assert (cst_challenges (make_room clean st) !! n = Some c → cst_challenges st !! n = Some c)
      as Hr by (intros ?; by eapply lookup_weaken; [|apply make_room_subseteq]).
    destruct r as [[c'|e]|].
    + apply create_Ok in E as (_ & ex & _ & _ & Hc & ->). cbn in Hl.
      apply lookup_insert_Some in Hl as [[<- ->]|[_ Hl]]; [|auto].
      right. split; [done|]. by rewrite Hc.
    + apply create_not_Ok in E as [->| ->]; auto.
    + apply create_not_Ok in E as [->| ->]; auto.
  - pose proof (validate_consumes st n' now) as Hc.
    destruct (validate st n' now) as [st' r]. cbn [fst snd] in *. rewrite Hc.
    intros [_ ?]%lookup_delete_Some. auto.
  - cbn. intros [? _]%map_lookup_filter_Some. auto.
Qed.
Lemma ch_run_accepted st ops pre n now c post :
  (ch_run st ops).2 = pre ++ OutValidate n now (Ok c) :: post →
  known st pre n c ∧ (now_secs now < ch_expires_at c)%Z.
Proof.
  revert st pre. induction ops as [|op ops IH]; intros st pre; cbn.
  - by intros ?%app_cons_not_nil.
  - destruct (ch_step st op) as [st1 o] eqn:Es. specialize (IH st1).
    destruct (ch_run st1 ops) as [st2 outs]. cbn in *. intros Heq.
    destruct pre as [|o' pre]; injection Heq as -> Heq.
    + destruct op as [did clean nb t|n' t|t]; cbn in Es.
      * by destruct (create _ _ _ _ _).
      * destruct (validate st n' t) as [st' r] eqn:E. simplify_eq.
        apply validate_Ok in E as (? & ? & _). split; [by left|done].
      * done.
    + destruct (IH pre Heq) as [[Hk|[Hin Hn]] ?]; (split; [|done]).
      * apply (f_equal fst) in Es as Es1. apply (f_equal snd) in Es as Es2. cbn in *. subst st1 o'.
        apply ch_step_known in Hk as [?|[-> ?]]; [by left|right]. split; [by left|done].
      * right. split; [by right|done].
Qed.
End proofs.

Section properties.
Context `{Ed25519, P256, K256, MlDsa, Base58, Base64, Hex, Hashes, Features, Chrono}.

(** Replay protection. Over any sequence of [create], [validate] and
    cleanup calls on a fresh store, a nonce is accepted at most as often as it
    was issued: a challenge answers one login. *)
Theorem challenge_single_use ttl domain uri cap ops nonce :
  let outs := (ch_run (with_capacity ttl domain uri cap) ops).2 in
  count (accepts nonce) outs ≤ count (issues nonce) outs.
Proof.
  cbv zeta. pose proof (ch_run_single_use nonce (with_capacity ttl domain uri cap) ops) as Hs.
  change (pending nonce (with_capacity ttl domain uri cap)) with 0 in Hs. lia.
Qed.

(** Only an issued challenge is ever accepted: what [validate] hands back
    is the record an earlier [create] of the same run returned under that
    nonce, and it has not expired. *)
Theorem accepted_challenge_issued ttl domain uri cap ops pre nonce now c post :
  (ch_run (with_capacity ttl domain uri cap) ops).2
    = pre ++ OutValidate nonce now (Ok c) :: post →
  OutCreate (Returned (Ok c)) ∈ pre ∧ ch_nonce c = nonce ∧
  (now_secs now < ch_expires_at c)%Z.
Proof.
  intros Hr. destruct (ch_run_accepted _ _ _ _ _ _ _ Hr) as [[Hk|[Hin Hn]] Hf]; [|done].
  cbn [cst_challenges with_capacity] in Hk. by rewrite lookup_empty in Hk.
Qed.

(** The store is bounded. Whatever is asked of a fresh store, it never
    holds more challenges than its cap (and never more than one under a cap of
    zero). *)
Theorem challenge_store_bounded ttl domain uri cap ops :
  cst_len (ch_run (with_capacity ttl domain uri cap) ops).1 ≤
  Nat.max 1 (cst_max_challenges (ch_run (with_capacity ttl domain uri cap) ops).1).
Proof. apply ch_run_capacity. unfold within_capacity, cst_len. cbn [cst_challenges with_capacity]. rewrite map_size_empty. lia. Qed.

(** Eviction is deterministic and minimal. A [create] on a full store of
    live challenges removes exactly one of them: the one with the least expiry,
    then the least nonce, whatever order [l] the map is iterated in. *)
Theorem create_evicts_oldest st did clean nb now st' c l :
  create st did clean nb now = (st', Returned (Ok c)) →
  cst_challenges st ≠ ∅ → cst_max_challenges st ≤ cst_len st →
  map_Forall (λ _ c', now_secs clean < ch_expires_at c')%Z (cst_challenges st) →
  l ≡ₚ map_to_list (cst_challenges st) →
  ∃ victim cv, min_by issued_before l = Some (victim, cv) ∧
    cst_challenges st !! victim = Some cv ∧
    cst_challenges st' = <[ch_nonce c := c]> (delete victim (cst_challenges st)) ∧
    ∀ n' c', cst_challenges st !! n' = Some c' → n' ≠ victim →
      (ch_expires_at cv < ch_expires_at c' ∨
       (ch_expires_at cv = ch_expires_at c' ∧ String.ltb victim n' = true))%Z.
Proof.
  intros Hc Hne Hfull Hlive Hl. rewrite (oldest_any_order _ _ Hl).
  apply create_Ok in Hc as (_ & ex & _ & _ & Hrec & ->).
  assert (cst_challenges (cleanup_expired clean st) = cst_challenges st) as Hcl.
  { apply map_filter_id. intros n c' Hn. by apply (Hlive n). }
  destruct (oldest st) as [[v cv]|] eqn:Ho; [|by apply oldest_None in Ho].
  assert (make_room clean st = set_challenges st (delete v (cst_challenges st))) as ->.
  { unfold make_room, evict_oldest, oldest, cst_len. rewrite Hcl.
    rewrite (proj2 (Nat.leb_le _ _)) by done.
    cbn [cst_max_challenges cleanup_expired set_challenges].
    rewrite (proj2 (Nat.leb_le _ _)) by done.
    unfold oldest in Ho. by rewrite Ho. }
  destruct (oldest_spec _ _ _ Ho) as [Hv Hleast].
  exists v, cv. split; [done|]. split; [done|]. split; [|done]. by rewrite Hrec.
Qed.

(** Rule 5 is checked before any state is created: [create] refuses a
    malformed DID with the format error and leaves the store as it was, and a
    well-formed one only when it is an [eip155] DID without a chain segment
    (or when the clock overflows), in which case room was made already. *)
Theorem create_refusals st did clean nb now :
  match validate_did_well_formed did with
  | Err e => create st did clean nb now = (st, Returned (Err (Crypto e)))
  | Ok _ => ∀ st' r, create st did clean nb now = (st', r) →
      (∃ c, r = Returned (Ok c)) ∨
      st' = make_room clean st ∧
      (r = Panicked ∨
       ∃ a, did = "did:pkh:eip155:" +:+ a ∧ free_of ":"%char a = true)
  end.
Proof.
  destruct (validate_did_well_formed did) as [[]|e] eqn:Hv; [|by apply create_malformed].
  intros st' r. unfold create. rewrite Hv. destruct (make_room_config clean st) as (-> & -> & -> & _).
  destruct (dt_add_seconds _ _) as [ex|]; [|intros [= <- <-]; by right; auto].
  destruct (build_message _) as [msg|e'] eqn:Hb; intros [= <- <-]; [by left; eexists|].
  right. split; [done|]. right.
  match type of Hb with build_message ?p = _ =>
    by destruct (build_message_total p Hv) as [[msg Hm]|Hc]; [congruence|] end.
Qed.
End properties.

Section witnesses.
Import Fixtures.Instances.

Definition sample_store : ChallengeStore := with_capacity 300 "aqua-node" "http://127.0.0.1:3000" 1.
Definition sample_ops : list ChOp :=
  [OpCreate sample_key_did (sample_time 0) (sample_nonce 1) (sample_time 0);
   OpValidate (nonce_text (sample_nonce 1)) (sample_time 100)].
Definition sample_challenge : Challenge :=
  match (ch_run sample_store sample_ops).2 with
  | OutCreate (Returned (Ok c)) :: _ => c
  | _ => {| ch_did := ""; ch_nonce := ""; ch_message := ""; ch_expires_at := 0 |}
  end.

Lemma accepted_challenge_issued_witness :
  OutCreate (Returned (Ok sample_challenge)) ∈ [OutCreate (Returned (Ok sample_challenge))].
Proof.
  apply (accepted_challenge_issued 300 "aqua-node" "http://127.0.0.1:3000" 1 sample_ops
    _ (nonce_text (sample_nonce 1)) (sample_time 100) _ []).
  vm_refl.
Defined.

Definition is_created (r : run (result Challenge AuthError)) : bool :=
  match r with Returned (Ok _) => true | _ => false end.
Definition full_store : ChallengeStore := (ch_run sample_store (take 1 sample_ops)).1.
Lemma create_evicts_oldest_witness :
  ∃ st' c, create full_store sample_eip155_did (sample_time 1) (sample_nonce 2) (sample_time 1)
      = (st', Returned (Ok c)) ∧
    ∃ victim cv, min_by issued_before (map_to_list (cst_challenges full_store))
      = Some (victim, cv).
Proof.
  destruct (create full_store sample_eip155_did (sample_time 1) (sample_nonce 2) (sample_time 1))
    as [st' r] eqn:E.
  assert (is_created r = true) as Hr by (rewrite <- (f_equal snd E : _ = r); vm_refl).
  destruct r as [[c|e]|]; [|discriminate Hr..]. exists st', c. split; [done|].
  destruct (create_evicts_oldest full_store sample_eip155_did (sample_time 1)
    (sample_nonce 2) (sample_time 1) st' c (map_to_list (cst_challenges full_store)) E)
    as (v & cv & Hm & _); [| |apply (bool_decide_eq_true_1 _)|done|by eauto].
  - intros He. assert (cst_is_empty full_store = false) as Hf by vm_refl.
    unfold cst_is_empty, cst_len in Hf. by rewrite He, map_size_empty in Hf.
  - apply Nat.leb_le. vm_refl.
  - vm_refl.
Defined.
End witnesses.
