(* ===== verification/ChallengeCalls.v ===== *)
(** * Concurrent calls on one challenge store: src/challenge.rs

    The methods of [ChallengeStore] again, with every access to the [DashMap] as
    a step of its own. Left alone they are the functions of Challenge.v
    ([challenge_calls_refine]); interleaved, a challenge is still accepted at
    most as often as it was issued, and the capacity is what gives way. *)

From S2P Require Import Prelude Interleave SharedMap Locks Crates Errors Keys Did Suites Aqua Methods DidFormat Principal Message Types Challenge Fixtures.

(** The shards of the store's map. *)
Class ChallengeShards := challenge_shards : Shards.
#[local] Existing Instance challenge_shards.

Section defs.
Context `{Ed25519, P256, K256, MlDsa, Base58, Base64, Hex, Hashes, Features, Chrono}.
Context `{CS : ChallengeShards}.

Definition live_challenge (now : date_time) (c : Challenge) : bool :=
  (now_secs now <? ch_expires_at c)%Z.
Definition cleanup_call (now : date_time) : Prog (shared Challenge) unit :=
  dm_retain (live_challenge now).
(** [st] stands for the fields that no call changes; the map is shared. *)
Definition create_call (st : ChallengeStore) (did : string) (clean_now : date_time)
    (nonce_bytes : bytes) (now : date_time)
  : Prog (shared Challenge) (run (result Challenge AuthError)) :=
  match validate_did_well_formed did with
  | Err e => Ret (Returned (Err (Crypto e)))
  | Ok _ =>
      _ ← room_for_one issued_before (cst_max_challenges st) (live_challenge clean_now);
      let nonce := nonce_text nonce_bytes in
      match dt_add_seconds now (as_i64 (cst_ttl_secs st)) with
      | Panicked => Ret Panicked
      | Returned expires =>
          match build_message {| mp_did := did; mp_domain := cst_domain st;
              mp_uri := cst_uri st; mp_nonce := nonce; mp_issued_at := now;
              mp_expiration_time := expires |} with
          | Err e => Ret (Returned (Err e))
          | Ok message =>
              let challenge := {| ch_did := did; ch_nonce := nonce;
                ch_message := message; ch_expires_at := now_secs expires |} in
              _ ← dm_insert nonce challenge;
              Ret (Returned (Ok challenge))
          end
      end
  end.
Definition validate_call (nonce : string) (now : date_time)
  : Prog (shared Challenge) (result Challenge AuthError) :=
  o ← dm_remove nonce;
  match o with
  | None => Ret (Err ChallengeNotFound)
  | Some challenge =>
      if (ch_expires_at challenge <=? now_secs now)%Z then Ret (Err ChallengeExpired)
      else Ret (Ok challenge)
  end.

Definition challenge_call (st : ChallengeStore) (op : ChOp) : Prog (shared Challenge) ChOut :=
  match op with
  | OpCreate did clean_now nonce_bytes now =>
      r ← create_call st did clean_now nonce_bytes now; Ret (OutCreate r)
  | OpValidate nonce now => r ← validate_call nonce now; Ret (OutValidate nonce now r)
  | OpCleanup now => _ ← cleanup_call now; Ret OutCleanup
  end.
Definition challenge_calls (st : ChallengeStore) (p : Prog (shared Challenge) ChOut) : Prop :=
  ∃ op, p = challenge_call st op.

(** How many calls of [P]'s challenges were issued, and how many accepted. *)
Definition issues_any (P : string → Challenge → bool) (o : ChOut) : nat :=
  match o with
  | OutCreate (Returned (Ok c)) => if P (ch_nonce c) c then 1 else 0
  | _ => 0
  end.
Definition accepts_any (P : string → Challenge → bool) (o : ChOut) : nat :=
  match o with
  | OutValidate n _ (Ok c) => if P n c then 1 else 0
  | _ => 0
  end.
(** Two creates that start together on a store nobody else is using, and end. *)
Definition two_creates (st : ChallengeStore) (m m' : shared Challenge) : Prop :=
  ∃ r1 r2, sys_run (challenge_calls st) (m, []) (m', [Ret (OutCreate r1); Ret (OutCreate r2)]).
Definition pair_nonces (l : list (bytes * bytes)) : list string :=
  concat (map (λ nbs, [nonce_text nbs.1; nonce_text nbs.2]) l).
End defs.

Section proofs.
Context `{Ed25519, P256, K256, MlDsa, Base58, Base64, Hex, Hashes, Features, Chrono}.
Context `{CS : ChallengeShards}.

Lemma challenge_create_orderly st did clean nb now : orderly (create_call st did clean nb now).
Proof. unfold create_call. keep_order. Qed.
Lemma challenge_validate_orderly nonce now : orderly (validate_call nonce now).
Proof. unfold validate_call. keep_order. Qed.
Lemma issued_before_picks : picks_one issued_before.
Proof.
  split; [apply issued_before_trans|intros ? ?; apply stamp_ltb_asym|].
  intros [n c] [n' c'] Hab Hba. pose proof (stamp_ltb_tie _ _ Hab Hba). by simplify_eq/=.
Qed.
Lemma least_oldest st : least issued_before (cst_challenges st) = oldest st.
Proof. done. Qed.
Lemma live_challenges_filter now (m : shared Challenge) :
  filter (λ kv, live_challenge now kv.2 = true) m =
  filter (λ kc, (now_secs now < ch_expires_at kc.2)%Z) m.
Proof.
  apply map_filter_ext. intros n c _. cbn. unfold live_challenge. by rewrite Z.ltb_lt.
Qed.
Lemma room_make_room now st :
  room issued_before (cst_max_challenges st) (live_challenge now) (cst_challenges st) =
  cst_challenges (make_room now st).
Proof.
  unfold room, make_room, cst_len. destruct (_ <=? size (cst_challenges st)); [|done].
  rewrite live_challenges_filter. cbn [cleanup_expired set_challenges cst_challenges cst_max_challenges].
  destruct (_ <=? size _); [|done]. unfold without_least, evict_oldest.
  rewrite <- least_oldest. cbn [cst_challenges cleanup_expired set_challenges].
  by destruct (least _ _) as [[n c]|].
Qed.

(** Nothing interferes: the calls are the functions. *)
Lemma challenge_create_alone st did clean nb now Q :
  Q (cst_challenges (create st did clean nb now).1) (create st did clean nb now).2 →
  alone (create_call st did clean nb now) (cst_challenges st) Q.
Proof.
  unfold create, create_call. destruct (validate_did_well_formed did); [|done].
  intros HQ. apply alone_bind, (alone_room _ _ issued_before_picks). rewrite room_make_room.
  destruct (make_room_config clean st) as (Ht & Hd & Hu & _). rewrite Ht, Hd, Hu in HQ.
  destruct (dt_add_seconds _ _) as [ex|]; [|done]. by destruct (build_message _).
Qed.
Lemma challenge_validate_alone st nonce now Q :
  Q (cst_challenges (validate st nonce now).1) (validate st nonce now).2 →
  alone (validate_call nonce now) (cst_challenges st) Q.
Proof.
  rewrite validate_consumes. unfold validate. intros HQ. apply alone_bind. cbn in HQ |- *.
  destruct (cst_challenges st !! nonce); [|done]. by destruct (_ <=? _)%Z.
Qed.

Lemma challenge_call_alone st op Q :
  Q (cst_challenges (ch_step st op).1) (ch_step st op).2 →
  alone (challenge_call st op) (cst_challenges st) Q.
Proof.
  intros HQ. destruct op as [did clean nb now|nonce now|now]; apply alone_bind; cbn [ch_step] in *.
  - apply challenge_create_alone. by destruct (create st did clean nb now).
  - apply challenge_validate_alone. by destruct (validate st nonce now).
  - apply alone_retain. by rewrite live_challenges_filter.
Qed.
Lemma ch_step_fields st op : (ch_step st op).1 = set_challenges st (cst_challenges (ch_step st op).1).
Proof.
  destruct st as [m ttl dom uri cap], op as [did clean nb now|nonce now|now]; cbn [ch_step]; [..|done].
  - unfold create, make_room, evict_oldest. by repeat case_match; simplify_eq/=.
  - unfold validate. by repeat case_match; simplify_eq/=.
Qed.
(** Calls made one after the other are a run of the system. *)
Lemma sequential_run st ops ps :
  sys_run (challenge_calls st) (cst_challenges st, ps)
    (cst_challenges (ch_run st ops).1, ps ++ map Ret (ch_run st ops).2).
Proof.
  revert st ps. induction ops as [|op ops IH]; intros st ps; [by rewrite app_nil_r|].
  destruct (sys_run_alone (challenge_calls st)
    (challenge_call st op) (cst_challenges st) ps
    (λ m o, m = cst_challenges (ch_step st op).1 ∧ o = (ch_step st op).2))
    as (m & o & Hr & -> & ->); [by eexists|by apply challenge_call_alone|].
  etrans; [exact Hr|]. specialize (IH (ch_step st op).1 (ps ++ [Ret (ch_step st op).2])).
  rewrite ch_step_fields in IH at 1. cbn [ch_run].
  revert IH. destruct (ch_step st op) as [st1 o]. cbn [fst snd].
  destruct (ch_run st1 ops) as [st2 os]. cbn [fst snd map]. rewrite <- app_assoc. by intros IH.
Qed.

Lemma fresh_run st ops : cst_challenges st = ∅ →
  sys_run (challenge_calls st) (∅, [])
    (cst_challenges (ch_run st ops).1, map Ret (ch_run st ops).2).
Proof. intros <-. apply (sequential_run st ops []). Qed.

(** What the calls keep: every stored challenge is the one [create] builds for
    its DID and its nonce. *)
Section keeps.
Context (st : ChallengeStore).
Definition stored_ok (m : shared Challenge) : Prop := map_Forall (challenge_ok st) m.

Lemma stored_ok_subseteq m m' : m' ⊆ m → stored_ok m → stored_ok m'.
Proof. intros Hs Hm n c Hn. apply Hm. by eapply lookup_weaken. Qed.
Lemma create_keeps did clean nb now : keeps stored_ok (create_call st did clean nb now) (λ _, True).
Proof.
  unfold create_call. destruct (validate_did_well_formed did) as [[]|] eqn:Hv; [|done].
  apply keeps_shrinks; [auto with shrinks|apply stored_ok_subseteq|]. intros _.
  destruct (dt_add_seconds _ _) as [ex|] eqn:Hex; [|done].
  destruct (build_message _) as [msg|] eqn:Hm; [|done]. apply keeps_bind. intros m Hall.
  split; [|done]. cbn [fst]. apply map_Forall_insert_2; [|done]. split; [done|]. split; [done|].
  by exists now, ex.
Qed.
Lemma validate_keeps nonce now : keeps stored_ok (validate_call nonce now)
  (λ r, match r with Ok c => challenge_ok st nonce c ∧ (now_secs now < ch_expires_at c)%Z
        | Err _ => True end).
Proof.
  apply keeps_bind. intros m Hm. split; [by eapply stored_ok_subseteq; [apply delete_subseteq|]|].
  cbn [snd keeps]. destruct (m !! nonce) as [c|] eqn:Hc; [|done].
  destruct (_ <=? _)%Z eqn:E; [done|]. bool_simpl. split; [by apply Hm|lia].
Qed.
End keeps.

(** What the calls pay for. *)
Section pays.
Context (P : string → Challenge → bool).
Definition ch_earns (o : ChOut) : Z := Z.of_nat (accepts_any P o) - Z.of_nat (issues_any P o).

Lemma create_paid st did clean nb now :
  paying solvent (pays (holding P)) (create_call st did clean nb now)
    (λ r g, (ch_earns (OutCreate r) ≤ g)%Z ∧
      match r with Returned (Ok c) => ch_did c = did | _ => True end) 0%Z.
Proof.
  unfold create_call. destruct (validate_did_well_formed did); [|done].
  apply paid_shrinks; [auto with shrinks|done|]. intros _.
  destruct (dt_add_seconds _ _) as [ex|]; [|done]. destruct (build_message _); [|done].
  apply paying_bind. eapply paying_mono; [by apply paid_insert|]. intros _ ? ->.
  apply paid_ret. split; [|done]. unfold ch_earns, worth. cbn [accepts_any issues_any ch_nonce]. by case_match.
Qed.
Lemma validate_paid nonce now :
  paying solvent (pays (holding P)) (validate_call nonce now)
    (λ r g, ch_earns (OutValidate nonce now r) ≤ g)%Z 0%Z.
Proof.
  apply paying_bind. eapply paying_mono; [by apply paid_take|]. intros o ? ->.
  unfold ch_earns, worth. destruct o as [c|]; [|done]. destruct (_ <=? _)%Z; cbn; by case_match.
Qed.
Lemma challenge_calls_paid st p : challenge_calls st p → accounted (holding P) ch_earns p 0%Z.
Proof.
  intros [[did clean nb now|nonce now|now] ->].
  - apply paying_bind. eapply paying_mono; [apply create_paid|]. by intros r g [? _].
  - apply paying_bind. eapply paying_mono; [apply validate_paid|done].
  - apply paid_shrinks; [apply shrinks_retain|done..].
Qed.
End pays.
End proofs.

Section properties.
Context `{Ed25519, P256, K256, MlDsa, Base58, Base64, Hex, Hashes, Features, Chrono}.
Context `{CS : ChallengeShards}.

(** Single use under concurrency. However any number of [create], [validate]
    and cleanup calls on one store interleave, access by access, the challenges
    of any class [P] are accepted at most as often as [create] issued challenges
    of that class: no nonce answers two logins, and no challenge is accepted
    that was not issued as it is. *)
Theorem concurrent_single_use st P m ps :
  sys_run (challenge_calls st) (∅, []) (m, ps) →
  list_sum (map (accepts_any P) (results ps)) ≤ list_sum (map (issues_any P) (results ps)).
Proof.
  intros Hrun.
  pose proof (accounting (holding P) (ch_earns P) _ _ _ _ (challenge_calls_paid P st) Hrun) as Ha.
  rewrite (total_counts _ (accepts_any P) (issues_any P)) in Ha by done. change (holding P ∅) with 0%Z in Ha. unfold holding in Ha. lia.
Qed.

(** The calls refine the functions. A call that nothing interferes with
    returns, on every order in which the map may be walked, and leaves and
    returns what the sequential store does. *)
Theorem challenge_calls_refine st op :
  alone (challenge_call st op) (cst_challenges st)
    (λ m o, m = cst_challenges (ch_step st op).1 ∧ o = (ch_step st op).2).
Proof.
  by apply challenge_call_alone.
Qed.

Section race.
Context (st : ChallengeStore) (did : string) (clean now expires : date_time).
Context (Hdid : validate_did_well_formed did = Ok tt).
Context (Hchain : ¬ ∃ a, did = "did:pkh:eip155:" +:+ a ∧ free_of ":"%char a = true).
Context (Hexp : dt_add_seconds now (as_i64 (cst_ttl_secs st)) = Returned expires).
Context (Hlive : (now_secs clean < now_secs expires)%Z).
Abbreviation all_live := (map_Forall (λ _ c, live_challenge clean c = true)).

(** What [create] does on a full store of live challenges, up to the removal
    of its victim and from there. *)
Lemma create_in_two m nb n v : cst_max_challenges st ≤ size m → all_live m →
  least issued_before m = Some (n, v) →
  ∃ c w, ch_nonce c = nonce_text nb ∧ live_challenge clean c = true ∧
    prog_steps m (challenge_call st (OpCreate did clean nb now)) m w ∧
    ∀ m1, prog_steps m1 w (<[nonce_text nb := c]> (delete n m1))
      (Ret (OutCreate (Returned (Ok c)))).
Proof.
  intros Hfull Hall Hn.
  destruct (build_message_total {| mp_did := did; mp_domain := cst_domain st;
    mp_uri := cst_uri st; mp_nonce := nonce_text nb; mp_issued_at := now;
    mp_expiration_time := expires |} Hdid) as [[msg Hm]|?]; [|done].
  eexists {| ch_nonce := nonce_text nb; ch_expires_at := now_secs expires |}, _.
  split; [done|]. split; [by apply Z.ltb_lt|]. split.
  - unfold challenge_call, create_call. rewrite Hdid, Hexp, Hm.
    eapply prog_steps_bind, prog_steps_bind, steps_to_victim; [apply issued_before_picks|done..].
  - intros m1. do 4 (eapply StepsThen; [by split|]). constructor.
Qed.
Lemma create_pair m nb1 nb2 : cst_max_challenges st ≤ size m → m ≠ ∅ → all_live m →
  m !! nonce_text nb1 = None → m !! nonce_text nb2 = None → nonce_text nb1 ≠ nonce_text nb2 →
  ∃ m', two_creates st m m' ∧
    size m' = S (size m) ∧ all_live m' ∧
    ∀ k, m !! k = None → k ≠ nonce_text nb1 → k ≠ nonce_text nb2 → m' !! k = None.
Proof.
  intros Hfull Hne Hall Hf1 Hf2 Hf12.
  destruct (min_by_is_Some issued_before (map_to_list m)) as [[n v] Hn];
    [by rewrite map_to_list_empty_iff|].
  pose proof (min_by_elem _ _ _ Hn) as Hv. apply elem_of_map_to_list in Hv.
  destruct (create_in_two m nb1 n v) as (c1 & w1 & _ & Hc1 & Ha1 & Hb1); [done..|].
  destruct (create_in_two m nb2 n v) as (c2 & w2 & _ & Hc2 & Ha2 & Hb2); [done..|].
  assert (n ≠ nonce_text nb1) as Hn1 by congruence.
  set (m1 := <[nonce_text nb1 := c1]> (delete n m)).
  exists (<[nonce_text nb2 := c2]> (delete n m1)). split_and!.
  - eexists _, _. eapply (sys_run_race _ m _ _ w1 w2); [| |exact Ha1|exact Ha2|apply Hb1|apply Hb2]; by eexists.
  - rewrite map_size_insert_None.
    + rewrite delete_id by by subst m1; rewrite lookup_insert_ne, lookup_delete_eq.
      subst m1. rewrite map_size_insert_None by by apply lookup_delete_None; right.
      by rewrite (size_delete_in m n v).
    + apply lookup_delete_None. right. subst m1. rewrite lookup_insert_ne by done.
      apply lookup_delete_None. by right.
  - apply map_Forall_insert_2; [done|]. apply map_Forall_delete, map_Forall_insert_2; [done|].
    by apply map_Forall_delete.
  - intros k Hk Hk1 Hk2. rewrite lookup_insert_ne by done. apply lookup_delete_None. right.
    subst m1. rewrite lookup_insert_ne by done. apply lookup_delete_None. by right.
Qed.
(** A create that nothing interferes with makes no progress either. *)
Lemma create_same_size m nb : cst_max_challenges st ≤ size m → m ≠ ∅ → all_live m →
  m !! nonce_text nb = None →
  cst_len (create (set_challenges st m) did clean nb now).1 = size m.
Proof.
  intros Hfull Hne Hall Hnb.
  destruct (build_message_total {| mp_did := did; mp_domain := cst_domain st;
    mp_uri := cst_uri st; mp_nonce := nonce_text nb; mp_issued_at := now;
    mp_expiration_time := expires |} Hdid) as [[msg Hm]|?]; [|done].
  destruct (create (set_challenges st m) did clean nb now) as [st' r] eqn:Ec.
  assert (∃ c, r = Returned (Ok c) ∧ ch_nonce c = nonce_text nb) as (c & -> & Hc).
  { unfold create in Ec. rewrite Hdid in Ec.
    destruct (make_room_config clean (set_challenges st m)) as (Ht & Hd & Hu & _).
    rewrite Ht, Hd, Hu in Ec. cbn [set_challenges cst_ttl_secs cst_domain cst_uri] in Ec.
    rewrite Hexp, Hm in Ec. injection Ec as _ <-. by eexists. }
  destruct (create_evicts_oldest _ _ _ _ _ _ _ (map_to_list m) Ec Hne Hfull)
    as (v & cv & _ & Hv & Hst & _); [|done|].
  - intros n' c' Hn'. apply Z.ltb_lt. by apply (Hall n').
  - unfold cst_len. cbn [fst set_challenges cst_challenges] in *. rewrite Hst, Hc.
    rewrite map_size_insert_None; [by apply (size_delete_in m v cv)|].
    apply lookup_delete_None. by right.
Qed.
End race.

(** C40: what the capacity is worth under concurrency. Two creates that start
    together on a full store of live challenges pick the same victim, and leave
    the store one larger; nothing gives it back. However many such pairs come
    one after the other, never more than two calls at a time, the store holds
    that many challenges more than it did, and a create that nothing interferes
    with afterwards does not make it smaller. *)
Theorem racing_creates_outgrow_cap st did clean now expires m (l : list (bytes * bytes)) :
  validate_did_well_formed did = Ok tt →
  ¬ (∃ a, did = "did:pkh:eip155:" +:+ a ∧ free_of ":"%char a = true) →
  dt_add_seconds now (as_i64 (cst_ttl_secs st)) = Returned expires →
  (now_secs clean < now_secs expires)%Z →
  cst_max_challenges st ≤ size m → m ≠ ∅ →
  map_Forall (λ _ c, live_challenge clean c = true) m →
  NoDup (pair_nonces l) → Forall (λ nonce, m !! nonce = None) (pair_nonces l) →
  ∃ m', nsteps (two_creates st) (length l) m m' ∧
    size m' = size m + length l ∧
    ∀ nb, m' !! nonce_text nb = None →
      cst_len (create (set_challenges st m') did clean nb now).1 = size m + length l.
Proof.
  intros Hdid Hchain Hexp Hlive. revert m.
  induction l as [|[nb1 nb2] l IH]; intros m Hfull Hne Hall Hnd Hfresh.
  - exists m. cbn [length]. rewrite Nat.add_0_r. split; [constructor|]. split; [done|].
    intros nb Hnb. by eapply create_same_size.
  - change (pair_nonces ((nb1, nb2) :: l)) with
      (nonce_text nb1 :: nonce_text nb2 :: pair_nonces l) in *.
    apply list.NoDup_cons in Hnd as [[Hn12 Hn1]%not_elem_of_cons [Hn2 Hnd]%list.NoDup_cons].
    apply Forall_cons in Hfresh as [Hf1 [Hf2 Hfresh]%Forall_cons].
    destruct (create_pair st did clean now expires Hdid Hchain Hexp Hlive m nb1 nb2)
      as (m1 & Hr & Hs & Hall1 & Hk); [done..|].
    destruct (IH m1) as (m2 & Hrs & Hs2 & Hc); [lia| |done|done| |].
    + intros ->. rewrite map_size_empty in Hs. lia.
    + apply Forall_forall. intros nonce Hin. rewrite Forall_forall in Hfresh.
      apply Hk; [by apply Hfresh|congruence..].
    + exists m2. cbn [length]. split; [by econstructor|]. split; [lia|]. intros nb Hnb.
      rewrite Hc by done. lia.
Qed.
End properties.

Section witnesses.
Import Fixtures.Instances.
#[local] Instance two_shards : ChallengeShards := by_length.

Definition taken_twice : list ChOp := sample_ops ++
  [OpValidate (nonce_text (sample_nonce 1)) (sample_time 101)].
Definition of_sample (nonce : string) (c : Challenge) : bool :=
  String.eqb nonce (nonce_text (sample_nonce 1)) && String.eqb (ch_did c) sample_key_did.
Lemma concurrent_single_use_witness :
  list_sum (map (accepts_any of_sample) (ch_run sample_store taken_twice).2) = 1 ∧
  1 ≤ list_sum (map (issues_any of_sample) (ch_run sample_store taken_twice).2).
Proof.
  assert (list_sum (map (accepts_any of_sample) (ch_run sample_store taken_twice).2) = 1) as Ha
    by vm_refl.
  split; [exact Ha|].
  pose proof (concurrent_single_use sample_store of_sample _ _
    (fresh_run sample_store taken_twice eq_refl)) as Hc.
  rewrite results_Ret in Hc. rewrite Ha in Hc. exact Hc.
Defined.

Lemma racing_creates_outgrow_cap_witness :
  cst_max_challenges full_store = 1 ∧
  ∃ m, nsteps (two_creates full_store) 2
    (cst_challenges full_store) m ∧ size m = 3.
Proof.
  split; [vm_refl|].
  destruct (racing_creates_outgrow_cap full_store sample_key_did (sample_time 1) (sample_time 1)
    (sample_time 301) (cst_challenges full_store)
    [(sample_nonce 2, sample_nonce 3); (sample_nonce 4, sample_nonce 5)])
    as (m & Hm & Hs & _).
  - vm_refl.
  - intros (a & Ha & _). assert (starts_with "did:key" sample_key_did = true) as Hk by vm_refl.
    by rewrite Ha in Hk.
  - vm_refl.
  - apply Z.ltb_lt. vm_refl.
  - apply Nat.leb_le. vm_refl.
  - intros He. assert (cst_is_empty full_store = false) as Hf by vm_refl.
    unfold cst_is_empty, cst_len in Hf. by rewrite He, map_size_empty in Hf.
  - apply (bool_decide_eq_true_1 _). vm_refl.
  - apply (bool_decide_eq_true_1 _). vm_refl.
  - apply (bool_decide_eq_true_1 _). vm_refl.
  - exists m. split; [exact Hm|]. rewrite Hs. vm_refl.
Defined.
End witnesses.
