(* ===== verification/SessionBackend.v ===== *)
(** * Session storage: src/session_backend.rs

    The trait is a class of operations on an abstract state; its contract is a
    class of laws over the map [sb_view] a backend state stands for. The
    in-memory backend is the map itself and discharges the laws. *)

From S2P Require Import Prelude Crates Errors Types.

Abbreviation sessions := (gmap string Session).

(** ** The trait *)

Class SessionBackend := {
  backend : Type;
  sb_insert : backend → Session → backend * result unit AuthError;
  sb_get : backend → string → option Session;
  sb_remove : backend → string → backend * bool;
  sb_sessions_for_did : backend → string → list Session;
  sb_remove_all_for_did : backend → string → backend * nat;
  sb_purge_expired : backend → Z → backend * nat;
  sb_all : backend → list Session;
  sb_len : backend → nat;
}.
Definition sb_is_empty `{SessionBackend} (b : backend) : bool := sb_len b =? 0.

(** The body the trait gives [purge_expired], for any [all] and [remove]: the
    tokens are listed first, then removed one by one and counted. *)
Fixpoint remove_tokens {B} (remove : B → string → B * bool) (b : B) (tokens : list string)
  : B * nat :=
  match tokens with
  | [] => (b, 0)
  | t :: ts =>
      let '(b, removed) := remove b t in
      let '(b, n) := remove_tokens remove b ts in
      (b, if removed then S n else n)
  end.
Definition default_purge_expired {B} (all : B → list Session)
    (remove : B → string → B * bool) (b : B) (now_secs : Z) : B * nat :=
  remove_tokens remove b
    (se_token <$> filter (λ s, se_valid_until s ≤ now_secs)%Z (all b)).

(** ** Its contract *)

(** A map of sessions keyed by their tokens. *)
Definition keyed (m : sessions) : Prop := map_Forall (λ t s, se_token s = t) m.
Definition of_did (did : string) (m : sessions) : sessions :=
  filter (λ ts, se_did ts.2 = did) m.
Definition not_of_did (did : string) (m : sessions) : sessions :=
  filter (λ ts, se_did ts.2 ≠ did) m.
Definition live_at (now : Z) (m : sessions) : sessions :=
  filter (λ ts, now < se_valid_until ts.2)%Z m.
Definition values (m : sessions) : list Session := (map_to_list m).*2.

(** What the store relies on. [sb_ok] is the backend's own invariant; an
    [insert] may fail, and then it stores nothing. *)
Class SessionBackendLaws `{SessionBackend} := {
  sb_ok : backend → Prop;
  sb_view : backend → sessions;
  sb_keyed b : sb_ok b → keyed (sb_view b);
  sb_insert_spec b s : sb_ok b →
    let '(b', r) := sb_insert b s in
    sb_ok b' ∧
    sb_view b' = match r with Ok _ => <[se_token s := s]> (sb_view b) | Err _ => sb_view b end;
  sb_get_spec b t : sb_ok b → sb_get b t = sb_view b !! t;
  sb_remove_spec b t : sb_ok b →
    sb_ok (sb_remove b t).1 ∧ sb_view (sb_remove b t).1 = delete t (sb_view b) ∧
    (sb_remove b t).2 = bool_decide (is_Some (sb_view b !! t));
  sb_sessions_for_did_spec b did : sb_ok b →
    sb_sessions_for_did b did ≡ₚ values (of_did did (sb_view b));
  sb_remove_all_spec b did : sb_ok b →
    sb_ok (sb_remove_all_for_did b did).1 ∧
    sb_view (sb_remove_all_for_did b did).1 = not_of_did did (sb_view b) ∧
    (sb_remove_all_for_did b did).2 = size (of_did did (sb_view b));
  sb_purge_spec b now : sb_ok b →
    sb_ok (sb_purge_expired b now).1 ∧
    sb_view (sb_purge_expired b now).1 = live_at now (sb_view b);
  sb_all_spec b : sb_ok b → sb_all b ≡ₚ values (sb_view b);
  sb_len_spec b : sb_ok b → sb_len b = size (sb_view b);
}.

(** ** [InMemoryBackend]: a [DashMap] from tokens to sessions *)

Definition mem_insert (m : sessions) (s : Session) : sessions * result unit AuthError :=
  (<[se_token s := s]> m, Ok tt).
Definition mem_get (m : sessions) (t : string) : option Session := m !! t.
Definition mem_remove (m : sessions) (t : string) : sessions * bool :=
  (delete t m, match m !! t with Some _ => true | None => false end).
Definition mem_sessions_for_did (m : sessions) (did : string) : list Session :=
  filter (λ s, se_did s = did) (values m).
(** The matching tokens first, then their removal. *)
Definition mem_remove_all_for_did (m : sessions) (did : string) : sessions * nat :=
  let tokens := (filter (λ ts, se_did ts.2 = did) (map_to_list m)).*1 in
  (foldl (λ m t, delete t m) m tokens, length tokens).
Definition mem_purge_expired (m : sessions) (now_secs : Z) : sessions * nat :=
  let m' := live_at now_secs m in (m', size m - size m').
Definition mem_all (m : sessions) : list Session := values m.
Definition mem_len (m : sessions) : nat := size m.
Definition InMemoryBackend : SessionBackend := {|
  backend := sessions;
  sb_insert := mem_insert;
  sb_get := mem_get;
  sb_remove := mem_remove;
  sb_sessions_for_did := mem_sessions_for_did;
  sb_remove_all_for_did := mem_remove_all_for_did;
  sb_purge_expired := mem_purge_expired;
  sb_all := mem_all;
  sb_len := mem_len;
|}.
Definition new_in_memory : sessions := ∅.

(** ** The in-memory backend keeps the contract *)

Lemma keyed_empty : keyed ∅.
Proof. apply map_Forall_empty. Qed.
Lemma keyed_insert m s : keyed m → keyed (<[se_token s := s]> m).
Proof. intros Hk. by apply map_Forall_insert_2. Qed.
Lemma keyed_subseteq m m' : m' ⊆ m → keyed m → keyed m'.
Proof. intros Hs Hk t s Hl. apply Hk. by eapply lookup_weaken. Qed.
Lemma values_filter (P : Session → Prop) `{!∀ s, Decision (P s)} (m : sessions) :
  values (filter (λ ts, P ts.2) m) ≡ₚ filter P (values m).
Proof. unfold values. by rewrite map_to_list_filter_perm, filter_snd. Qed.
Lemma elem_of_values m s : s ∈ values m ↔ ∃ t, m !! t = Some s.
Proof.
  unfold values. rewrite list_elem_of_fmap. split.
  - intros ([t s'] & -> & Hin%elem_of_map_to_list). eauto.
  - intros [t Ht%elem_of_map_to_list]. by exists (t, s).
Qed.
Lemma values_length m : length (values m) = size m.
Proof. unfold values. rewrite length_fmap. apply length_map_to_list. Qed.
Lemma mem_remove_all_view m did : (mem_remove_all_for_did m did).1 = not_of_did did m.
Proof.
  apply map_eq. intros t. cbn [mem_remove_all_for_did fst]. rewrite foldl_delete_lookup.
  unfold not_of_did. case_decide as Hin.
  - apply list_elem_of_fmap in Hin as ([t' s] & -> & Hin).
    apply list_elem_of_filter in Hin as [Hd Hl%elem_of_map_to_list]. symmetry.
    apply map_lookup_filter_None_2. right. intros s' Hs' Hne. simplify_eq/=.
  - destruct (m !! t) as [s|] eqn:Hl; symmetry.
    + apply map_lookup_filter_Some_2; [done|]. cbn. intros Hd. apply Hin.
      apply list_elem_of_fmap. exists (t, s). split; [done|].
      apply list_elem_of_filter. split; [done|]. by apply elem_of_map_to_list.
    + apply map_lookup_filter_None_2. by left.
Qed.
Lemma mem_remove_all_count m did :
  (mem_remove_all_for_did m did).2 = size (of_did did m).
Proof.
  cbn [mem_remove_all_for_did snd]. rewrite length_fmap, <- map_to_list_filter_perm.
  apply length_map_to_list.
Qed.
#[export] Program Instance in_memory_laws : @SessionBackendLaws InMemoryBackend := {|
  sb_ok := (keyed : @backend InMemoryBackend → Prop);
  sb_view := λ m : sessions, m;
|}.
Next Obligation. done. Qed.
Next Obligation. intros b s Hk. split; [by apply keyed_insert|done]. Qed.
Next Obligation. done. Qed.
Next Obligation.
  intros b t Hk. split; [|split; [done|]].
  - eapply keyed_subseteq; [apply delete_subseteq|done].
  - cbn [sb_remove InMemoryBackend mem_remove snd].
    destruct ((b : sessions) !! t); symmetry; [apply bool_decide_true; eauto|].
    apply bool_decide_false. by intros [? [=]].
Qed.
Next Obligation. intros b did Hk. symmetry. exact (values_filter (λ s, se_did s = did) b). Qed.
Next Obligation.
  intros b did Hk. pose proof (mem_remove_all_view b did) as Hv.
  split; [|split; [exact Hv|exact (mem_remove_all_count b did)]].
  change (keyed (mem_remove_all_for_did b did).1). rewrite Hv.
  eapply keyed_subseteq; [apply map_filter_subseteq|exact Hk].
Qed.
Next Obligation.
  intros b now Hk. split; [|done]. eapply keyed_subseteq; [apply map_filter_subseteq|done].
Qed.
Next Obligation. done. Qed.
Next Obligation. done. Qed.

Lemma live_at_complement now m :
  live_at now m = filter (λ ts, ¬ (se_valid_until ts.2 ≤ now)%Z) m.
Proof. apply map_filter_ext. intros t s _. cbn. lia. Qed.

Lemma live_size now m :
  size m = size (filter (λ ts, se_valid_until ts.2 ≤ now)%Z m) + size (live_at now m).
Proof.
  rewrite live_at_complement, <- map_size_disj_union by apply map_disjoint_filter_complement.
  by rewrite map_filter_union_complement.
Qed.

(** ** The default sweep, over any lawful backend *)

Section default_purge.
Context `{SessionBackendLaws}.

Lemma remove_tokens_spec b ts : sb_ok b → NoDup ts →
  (∀ t, t ∈ ts → is_Some (sb_view b !! t)) →
  let '(b', n) := remove_tokens sb_remove b ts in
  sb_ok b' ∧ sb_view b' = foldl (λ m t, delete t m) (sb_view b) ts ∧ n = length ts.
Proof.
  revert b. induction ts as [|t ts IH]; intros b Hok Hnd Hin; cbn [remove_tokens foldl]; [done|].
  apply list.NoDup_cons in Hnd as [Ht Hnd].
  destruct (sb_remove_spec b t Hok) as (Hok' & Hv & Hr).
  destruct (sb_remove b t) as [b1 removed]. cbn [fst snd] in *.
  rewrite bool_decide_true in Hr by (apply Hin; left). subst removed.
  specialize (IH b1 Hok' Hnd). destruct (remove_tokens sb_remove b1 ts) as [b2 n].
  destruct IH as (? & Hv2 & ->); [|by rewrite Hv2, Hv].
  intros t' Ht'. rewrite Hv, lookup_delete_ne by congruence. apply Hin. by right.
Qed.
Lemma expired_tokens b now : sb_ok b →
  (se_token <$> filter (λ s, se_valid_until s ≤ now)%Z (sb_all b))
    ≡ₚ (map_to_list (filter (λ ts, se_valid_until ts.2 ≤ now)%Z (sb_view b))).*1.
Proof.
  intros Hok. rewrite (sb_all_spec b Hok), map_to_list_filter_perm. unfold values.
  assert (Forall (λ ts, se_token ts.2 = ts.1) (map_to_list (sb_view b))) as Hall.
  { apply Forall_forall. intros [t s] Hin%list_elem_of_In%elem_of_map_to_list.
    by apply (sb_keyed b Hok). }
  induction Hall as [|[t s] l Hts _ IH]; [done|]. cbn [fmap list_fmap].
  rewrite !filter_cons. cbn [fst snd] in *. case_decide; [|done]. cbn. by rewrite Hts, IH.
Qed.
Lemma default_purge_spec b now : sb_ok b →
  let '(b', n) := default_purge_expired sb_all sb_remove b now in
  sb_ok b' ∧ sb_view b' = live_at now (sb_view b) ∧
  n = size (sb_view b) - size (live_at now (sb_view b)).
Proof.
  intros Hok. unfold default_purge_expired.
  pose proof (expired_tokens b now Hok) as Hp.
  set (ts := se_token <$> _) in *.
  set (dead := filter (λ ts, se_valid_until ts.2 ≤ now)%Z (sb_view b)) in *.
  assert (∀ t, t ∈ ts ↔ is_Some (dead !! t)) as Hts.
  { intros t. rewrite Hp, list_elem_of_fmap. split.
    - intros ([t' s] & -> & Hin%elem_of_map_to_list). eauto.
    - intros [s Hs%elem_of_map_to_list]. by exists (t, s). }
  pose proof (remove_tokens_spec b ts Hok) as Hr.
  destruct (remove_tokens sb_remove b ts) as [b' n]. destruct Hr as (Hok' & Hv & ->).
  - rewrite Hp. apply NoDup_fst_map_to_list.
  - intros t [s [Hs _]%map_lookup_filter_Some]%Hts. eauto.
  - assert (sb_view b' = live_at now (sb_view b)) as Hlive.
    { rewrite Hv. apply map_eq. intros t. rewrite foldl_delete_lookup. unfold live_at.
      destruct (sb_view b !! t) as [s|] eqn:Es.
      - case_decide as Hin.
        + apply Hts in Hin as [s' [? Hle]%map_lookup_filter_Some]. simplify_eq/=.
          symmetry. apply map_lookup_filter_None_2. right. intros s2 Hs2. simplify_eq/=. lia.
        + symmetry. apply map_lookup_filter_Some_2; [done|]. cbn.
          apply Z.nle_gt. intros Hle. apply Hin, Hts. exists s.
          by apply map_lookup_filter_Some_2.
      - symmetry. rewrite map_lookup_filter, Es. cbn. by case_decide. }
    split; [done|]. split; [done|].
    rewrite (Permutation_length Hp), length_fmap, length_map_to_list.
    rewrite (live_size now (sb_view b)). subst dead. lia.
Qed.
End default_purge.

(** The sweep the trait gives every backend and the one the in-memory
    backend overrides it with are the same: same remaining sessions, same
    count. *)
Theorem purge_override_equivalent (m : sessions) now : keyed m →
  @default_purge_expired (@backend InMemoryBackend) mem_all mem_remove m now
    = mem_purge_expired m now.
Proof.
  intros Hk. pose proof (@default_purge_spec InMemoryBackend in_memory_laws m now Hk) as Hd.
  change (@sb_all InMemoryBackend) with mem_all in Hd.
  change (@sb_remove InMemoryBackend) with mem_remove in Hd.
  destruct (@default_purge_expired (@backend InMemoryBackend) mem_all mem_remove m now)
    as [m' n].
  destruct Hd as (_ & Hv & ->). cbn in Hv. by subst m'.
Qed.

Definition sample_two : sessions :=
  list_to_map [("t1", {| se_did := "did:key:a"; se_token := "t1"; se_valid_until := 10;
                         se_created_at := 0 |});
               ("t2", {| se_did := "did:key:b"; se_token := "t2"; se_valid_until := 20;
                         se_created_at := 5 |})].
Lemma purge_override_equivalent_witness :
  @default_purge_expired (@backend InMemoryBackend) mem_all mem_remove sample_two 10
    = mem_purge_expired sample_two 10 ∧ (mem_purge_expired sample_two 10).2 = 1.
Proof.
  split; [|reflexivity]. apply purge_override_equivalent.
  apply (bool_decide_eq_true_1 _). reflexivity.
Defined.
