(* ===== verification/Session.v ===== *)
(** * The session store: src/session.rs

    Token generation, lifetimes and the two capacity bounds, over any
    [SessionBackend]. The theorems are stated on the map a lawful backend
    stands for; [create_simulates] shows that the choice of the backend is
    invisible. *)

From S2P Require Import Prelude Crates Errors Keys Did Suites Aqua Methods DidFormat Principal Message Types Challenge SessionBackend Fixtures.

Section defs.
Context `{Hex, Chrono, Profile, SessionBackend}.

Definition DEFAULT_SESSION_TTL_SECS : Z := 3600.
Definition DEFAULT_CLEANUP_INTERVAL_SECS : Z := 60.
Definition MAX_SESSIONS : nat := N.to_nat 8192.
Definition MAX_SESSIONS_PER_DID : nat := 32.

Record SessionStore : Type := {
  ss_backend : backend;
  ss_ttl_secs : Z;
  ss_max_sessions : nat;
  ss_max_sessions_per_did : nat;
}.
Definition with_backend (ttl_secs : Z) (max_sessions max_sessions_per_did : nat)
    (b : backend) : SessionStore :=
  {| ss_backend := b; ss_ttl_secs := ttl_secs; ss_max_sessions := max_sessions;
     ss_max_sessions_per_did := max_sessions_per_did |}.
Definition set_backend (st : SessionStore) (b : backend) : SessionStore :=
  {| ss_backend := b; ss_ttl_secs := ss_ttl_secs st;
     ss_max_sessions := ss_max_sessions st;
     ss_max_sessions_per_did := ss_max_sessions_per_did st |}.

Definition cleanup_expired (now : date_time) (st : SessionStore) : SessionStore :=
  set_backend st (sb_purge_expired (ss_backend st) (now_secs now)).1.

(** [(token, created_at)], by creation time, ties broken by the token. *)
Definition created_before (a b : string * Z) : bool :=
  stamp_ltb (a.2, a.1) (b.2, b.1).
Definition enforce_per_did_cap (did : string) (st : SessionStore) : SessionStore :=
  let this_did := map (λ s, (se_token s, se_created_at s))
    (sb_sessions_for_did (ss_backend st) did) in
  if length this_did <? ss_max_sessions_per_did st then st
  else match head (sort_by created_before this_did) with
       | Some (oldest_token, _) =>
           set_backend st (sb_remove (ss_backend st) oldest_token).1
       | None => st
       end.

(** The store after the call, and what the call returns, or that it panics
    ([now + self.ttl_secs] overflows under overflow checks). [clean_now] is the
    clock [cleanup_expired] reads. *)
Definition create (st : SessionStore) (did : string) (clean_now : date_time)
    (token_bytes : bytes) (now : date_time)
  : SessionStore * run (result Session AuthError) :=
  let full st := ss_max_sessions st <=? sb_len (ss_backend st) in
  let st := if full st then cleanup_expired clean_now st else st in
  if full st then (st, Returned (Err (SessionStoreFull (ss_max_sessions st))))
  else
  let st := enforce_per_did_cap did st in
  let token := hex_encode token_bytes in
  let now := now_secs now in
  match add_u64 overflow_checks now (ss_ttl_secs st) with
  | Panicked => (st, Panicked)
  | Returned valid_until =>
      let session := {| se_did := did; se_token := token;
        se_valid_until := valid_until; se_created_at := now |} in
      let '(b, r) := sb_insert (ss_backend st) session in
      (set_backend st b,
       Returned (match r with Ok _ => Ok session | Err e => Err e end))
  end.

Definition revoke (st : SessionStore) (token : string) : SessionStore * bool :=
  let '(b, r) := sb_remove (ss_backend st) token in (set_backend st b, r).
Definition revoke_all_for_did (st : SessionStore) (did : string) : SessionStore * nat :=
  let '(b, n) := sb_remove_all_for_did (ss_backend st) did in (set_backend st b, n).

Definition validate (st : SessionStore) (token : string) (now : date_time)
  : SessionStore * result string AuthError :=
  match sb_get (ss_backend st) token with
  | None => (st, Err SessionNotFound)
  | Some session =>
      if (se_valid_until session <=? now_secs now)%Z then
        (set_backend st (sb_remove (ss_backend st) token).1, Err SessionExpired)
      else (st, Ok (se_did session))
  end.

Definition list_sessions (st : SessionStore) (now : date_time) : list SessionInfo :=
  map (λ s, {| si_did := se_did s; si_created_at := se_created_at s;
               si_valid_until := se_valid_until s |})
    (filter (λ s, now_secs now < se_valid_until s)%Z (sb_all (ss_backend st))).

(** [as u32]. *)
Definition active_count (st : SessionStore) : Z :=
  as_u32 (Z.of_nat (sb_len (ss_backend st))).

(** One tick of the background task, and the task: the [strong_count] read
    after each tick decides whether it goes on. *)
Definition cleanup_tick (session_now challenge_now : date_time)
    (stores : SessionStore * ChallengeStore) : SessionStore * ChallengeStore :=
  (cleanup_expired session_now stores.1, Challenge.cleanup_expired challenge_now stores.2).
Fixpoint start_cleanup (ticks : list (date_time * date_time * nat))
    (stores : SessionStore * ChallengeStore) : SessionStore * ChallengeStore :=
  match ticks with
  | [] => stores
  | (session_now, challenge_now, strong_count) :: ticks' =>
      let stores := cleanup_tick session_now challenge_now stores in
      if strong_count <=? 1 then stores else start_cleanup ticks' stores
  end.
End defs.

(** [SessionStore::with_capacity] and [SessionStore::new]: in memory. *)
Definition session_store_with_capacity (ttl_secs : Z) (max_sessions max_per_did : nat)
  : @SessionStore InMemoryBackend :=
  @with_backend InMemoryBackend ttl_secs max_sessions max_per_did new_in_memory.
Definition new_session_store (ttl_secs : Z) : @SessionStore InMemoryBackend :=
  session_store_with_capacity ttl_secs MAX_SESSIONS MAX_SESSIONS_PER_DID.

(** ** The specification: what a store does to the map of its sessions *)

Section spec.
Context `{Hex, Chrono, Profile}.

Definition oldest_of (did : string) (m : sessions) : option (string * Z) :=
  min_by created_before (map (λ s, (se_token s, se_created_at s)) (values (of_did did m))).
(** At its quota, a DID loses its own oldest session. *)
Definition evict_for (did : string) (quota : nat) (m : sessions) : sessions :=
  if size (of_did did m) <? quota then m
  else match oldest_of did m with Some (t, _) => delete t m | None => m end.
(** [verdict] is what the backend says of the insertion. *)
Definition spec_create (ttl : Z) (cap quota : nat) (did : string) (clean_now : date_time)
    (token_bytes : bytes) (now : date_time) (verdict : result unit AuthError) (m : sessions)
  : sessions * run (result Session AuthError) :=
  let m := if cap <=? size m then live_at (now_secs clean_now) m else m in
  if cap <=? size m then (m, Returned (Err (SessionStoreFull cap)))
  else
  let m := evict_for did quota m in
  match add_u64 overflow_checks (now_secs now) ttl with
  | Panicked => (m, Panicked)
  | Returned valid_until =>
      let s := {| se_did := did; se_token := hex_encode token_bytes;
        se_valid_until := valid_until; se_created_at := now_secs now |} in
      match verdict with
      | Ok _ => (<[se_token s := s]> m, Returned (Ok s))
      | Err e => (m, Returned (Err e))
      end
  end.
Definition spec_validate (token : string) (now : date_time) (m : sessions)
  : sessions * result string AuthError :=
  match m !! token with
  | None => (m, Err SessionNotFound)
  | Some s => if (se_valid_until s <=? now_secs now)%Z then (delete token m, Err SessionExpired)
              else (m, Ok (se_did s))
  end.
End spec.

Section refinement.
Context `{Hex, Chrono, Profile, SessionBackendLaws}.

Definition view (st : SessionStore) : sessions := sb_view (ss_backend st).
Definition ok (st : SessionStore) : Prop := sb_ok (ss_backend st).
Definition same_limits (st st' : SessionStore) : Prop :=
  ss_ttl_secs st' = ss_ttl_secs st ∧ ss_max_sessions st' = ss_max_sessions st ∧
  ss_max_sessions_per_did st' = ss_max_sessions_per_did st.

Lemma cleanup_refines st now : ok st →
  ok (cleanup_expired now st) ∧ view (cleanup_expired now st) = live_at (now_secs now) (view st).
Proof. apply sb_purge_spec. Qed.
Lemma created_before_head l l' :
  l ≡ₚ l' → head (sort_by created_before l) = min_by created_before l'.
Proof.
  intros Hp. rewrite head_sort_by. apply min_by_perm; [|..|done].
  - intros ? ? ?. apply stamp_ltb_trans.
  - intros ? ?. apply stamp_ltb_asym.
  - intros [t c] [t' c'] _ _ Hab Hba. pose proof (stamp_ltb_tie _ _ Hab Hba). by simplify_eq/=.
Qed.
Lemma enforce_refines did st : ok st →
  ok (enforce_per_did_cap did st) ∧ same_limits st (enforce_per_did_cap did st) ∧
  view (enforce_per_did_cap did st) = evict_for did (ss_max_sessions_per_did st) (view st).
Proof.
  intros Hok. unfold enforce_per_did_cap, evict_for, oldest_of.
  pose proof (sb_sessions_for_did_spec (ss_backend st) did Hok) as Hp.
  rewrite length_map, (Permutation_length Hp), values_length. fold (view st).
  destruct (_ <? _); [done|].
  erewrite created_before_head by (apply Permutation_map; exact Hp).
  fold (view st). destruct (min_by _ _) as [[t c]|]; [|done].
  destruct (sb_remove_spec (ss_backend st) t Hok) as (? & Hv & _). done.
Qed.

(** The store implements the specification, over every lawful backend. *)
Lemma create_refines_spec st did clean nb now : ok st →
  let '(st', r) := create st did clean nb now in
  ok st' ∧ same_limits st st' ∧
  ∃ verdict, (view st', r) = spec_create (ss_ttl_secs st) (ss_max_sessions st)
    (ss_max_sessions_per_did st) did clean nb now verdict (view st).
Proof.
  intros Hok. unfold create, spec_create.
  set (st1 := if ss_max_sessions st <=? sb_len (ss_backend st) then cleanup_expired clean st else st).
  set (m1 := if ss_max_sessions st <=? size (view st) then live_at _ (view st) else view st).
  assert (ok st1 ∧ same_limits st st1 ∧ view st1 = m1) as (Hok1 & (Ht1 & Hm1 & Hp1) & Hv1).
  { subst st1 m1. rewrite (sb_len_spec _ Hok). fold (view st). destruct (_ <=? _); [|done].
    by destruct (cleanup_refines st clean Hok). }
  clearbody st1 m1. rewrite (sb_len_spec _ Hok1), Hm1. fold (view st1). rewrite Hv1.
  destruct (_ <=? size m1); [split; [done|]; split; [done|]; exists (Ok tt); congruence|].
  destruct (enforce_refines did st1 Hok1) as (Hok2 & (Ht2 & Hm2 & Hp2) & Hv2).
  rewrite Hp1, Hv1 in Hv2. rewrite Ht2, Ht1, Hm2, Hm1, Hp2, Hp1 || rewrite Ht2, Ht1.
  set (st2 := enforce_per_did_cap did st1) in *. clearbody st2.
  destruct (add_u64 _ _ _) as [v|].
  - set (s := {| se_did := did |}).
    pose proof (sb_insert_spec (ss_backend st2) s Hok2) as Hi.
    destruct (sb_insert _ s) as [b r]. destruct Hi as [Hokb Hvb].
    split; [done|]. split; [unfold same_limits; cbn; split_and!; congruence|].
    exists r. unfold view at 1. cbn. rewrite Hvb. fold (view st2). rewrite Hv2. by destruct r.
  - split; [done|]. split; [unfold same_limits; split_and!; congruence|].
    exists (Ok tt). congruence.
Qed.
Lemma validate_refines_spec st t now : ok st →
  let '(st', r) := validate st t now in
  ok st' ∧ same_limits st st' ∧ (view st', r) = spec_validate t now (view st).
Proof.
  intros Hok. unfold validate, spec_validate. rewrite (sb_get_spec _ t Hok). fold (view st).
  destruct (view st !! t) as [s|]; [|done]. destruct (_ <=? _)%Z; [|done].
  destruct (sb_remove_spec (ss_backend st) t Hok) as (? & Hv & _).
  split; [done|]. split; [done|]. unfold view at 1. cbn. by rewrite Hv.
Qed.
Lemma revoke_refines_spec st t : ok st →
  let '(st', r) := revoke st t in
  ok st' ∧ same_limits st st' ∧ view st' = delete t (view st) ∧
  r = bool_decide (is_Some (view st !! t)).
Proof.
  intros Hok. unfold revoke. destruct (sb_remove_spec (ss_backend st) t Hok) as (? & Hv & Hr).
  destruct (sb_remove (ss_backend st) t) as [b r]. done.
Qed.
Lemma revoke_all_refines_spec st did : ok st →
  let '(st', n) := revoke_all_for_did st did in
  ok st' ∧ same_limits st st' ∧ view st' = not_of_did did (view st) ∧
  n = size (of_did did (view st)).
Proof.
  intros Hok. unfold revoke_all_for_did.
  destruct (sb_remove_all_spec (ss_backend st) did Hok) as (? & Hv & Hr).
  destruct (sb_remove_all_for_did (ss_backend st) did) as [b r]. done.
Qed.
End refinement.

(** ** Properties of the specification *)

Section spec_facts.
Context `{Hex, Chrono, Profile}.

Lemma of_did_lookup did m t s :
  of_did did m !! t = Some s ↔ m !! t = Some s ∧ se_did s = did.
Proof. apply map_lookup_filter_Some. Qed.
Lemma live_at_lookup now m t s :
  live_at now m !! t = Some s ↔ m !! t = Some s ∧ (now < se_valid_until s)%Z.
Proof. apply map_lookup_filter_Some. Qed.
Lemma live_at_subseteq now m : live_at now m ⊆ m.
Proof. apply map_filter_subseteq. Qed.
Lemma of_did_mono did m m' : m ⊆ m' → size (of_did did m) ≤ size (of_did did m').
Proof. intros Hs. by apply map_subseteq_size, map_filter_subseteq_mono. Qed.

(** The victim of the quota is the DID's own oldest session. *)
Lemma oldest_of_spec did m t c : keyed m → oldest_of did m = Some (t, c) →
  ∃ s, m !! t = Some s ∧ se_did s = did ∧ se_created_at s = c ∧
    ∀ t' s', m !! t' = Some s' → se_did s' = did → t' ≠ t →
      (c < se_created_at s' ∨ (c = se_created_at s' ∧ String.ltb t t' = true))%Z.
Proof.
  intros Hk Ho. unfold oldest_of in Ho.
  assert (∀ t' s', m !! t' = Some s' → se_did s' = did →
    (t', se_created_at s') ∈ map (λ s, (se_token s, se_created_at s)) (values (of_did did m)))
    as Hin.
  { intros t' s' Hl Hd. apply list_elem_of_fmap. exists s'.
    rewrite (Hk _ _ Hl). split; [done|]. apply elem_of_values. exists t'.
    by apply of_did_lookup. }
  pose proof (min_by_elem _ _ _ Ho) as Hm. apply list_elem_of_fmap in Hm as (s & [= -> ->] & Hm).
  apply elem_of_values in Hm as [t' Ht']. apply of_did_lookup in Ht' as [Ht' Hd].
  pose proof (Hk _ _ Ht') as Htok. cbn in Htok. subst t'.
  exists s. do 3 (split; [done|]). intros t' s' Hl' Hd' Hne.
  assert (created_before (t', se_created_at s') (se_token s, se_created_at s) = false) as Hb.
  { eapply min_by_least; [| |exact Ho|by apply Hin].
    - intros ? ? ?. apply stamp_ltb_trans.
    - intros ? ?. apply stamp_ltb_asym. }
  apply stamp_ltb_false in Hb as [?|[? ?]]; cbn [fst snd] in *; [by left|right].
  split; [done|]. destruct (String.ltb (se_token s) t') eqn:E; [done|].
  by destruct Hne; apply str_ltb_tie.
Qed.
Lemma oldest_of_is_Some did m : size (of_did did m) ≠ 0 → is_Some (oldest_of did m).
Proof.
  intros Hs. unfold oldest_of. apply min_by_is_Some. intros Hn.
  apply (f_equal length) in Hn. rewrite length_map, values_length in Hn. done.
Qed.
Lemma evict_for_subseteq did q m : evict_for did q m ⊆ m.
Proof.
  unfold evict_for. destruct (_ <? q); [done|].
  destruct (oldest_of did m) as [[t c]|]; [apply delete_subseteq|done].
Qed.
(** Another DID's sessions are never touched. *)
Lemma evict_for_other did q m t s : keyed m →
  m !! t = Some s → se_did s ≠ did → evict_for did q m !! t = Some s.
Proof.
  intros Hk Hl Hd. unfold evict_for. destruct (_ <? q); [done|].
  destruct (oldest_of did m) as [[t' c]|] eqn:Eo; [|done].
  destruct (oldest_of_spec _ _ _ _ Hk Eo) as (s' & Hl' & Hd' & _).
  rewrite lookup_delete_ne; [done|]. intros ->. congruence.
Qed.
Lemma of_did_delete did m t s : m !! t = Some s → se_did s = did →
  size (of_did did m) = S (size (of_did did (delete t m))).
Proof.
  intros Hl Hd. unfold of_did. rewrite map_filter_delete, map_size_delete.
  assert (of_did did m !! t = Some s) as Hof by by apply of_did_lookup.
  unfold of_did in Hof. rewrite Hof.
  destruct (size (filter _ m)) eqn:E; [|lia].
  apply map_size_empty_inv in E. by rewrite E, lookup_empty in Hof.
Qed.
Lemma evict_for_quota did q m : keyed m →
  size (of_did did m) ≤ Nat.max 1 q →
  S (size (of_did did (evict_for did q m))) ≤ Nat.max 1 q.
Proof.
  intros Hk Hs. unfold evict_for. destruct (_ <? q) eqn:E; bool_simpl; [lia|].
  destruct (decide (size (of_did did m) = 0)) as [Hz|Hnz].
  - pose proof (of_did_mono did (match oldest_of did m with Some (t, _) => delete t m | None => m end) m).
    destruct (oldest_of did m) as [[t c]|]; [|lia].
    pose proof (of_did_mono did _ _ (delete_subseteq m t)). lia.
  - destruct (oldest_of_is_Some did m Hnz) as [[t c] Ho]. rewrite Ho.
    destruct (oldest_of_spec _ _ _ _ Hk Ho) as (s & Hl & Hd & _).
    rewrite (of_did_delete did m t s Hl Hd) in Hs. lia.
Qed.

(** The map right before the insertion. *)
Definition before_insert (cap quota : nat) (did : string) (clean_now : date_time) (m : sessions)
  : sessions :=
  evict_for did quota (if cap <=? size m then live_at (now_secs clean_now) m else m).
Lemma purge_subseteq cap now m : (if cap <=? size m then live_at now m else m) ⊆ m.
Proof. destruct (_ <=? _); [apply live_at_subseteq|done]. Qed.
Lemma purge_live cap now m t s : m !! t = Some s → (now < se_valid_until s)%Z →
  (if cap <=? size m then live_at now m else m) !! t = Some s.
Proof. intros Hl Hv. destruct (cap <=? size m); [by apply live_at_lookup|done]. Qed.
Lemma spec_create_cases ttl cap q did clean nb now v m m' r :
  spec_create ttl cap q did clean nb now v m = (m', r) →
  (∃ s, r = Returned (Ok s) ∧ se_did s = did ∧ se_token s = hex_encode nb ∧
    se_created_at s = now_secs now ∧
    add_u64 overflow_checks (now_secs now) ttl = Returned (se_valid_until s) ∧
    size (before_insert cap q did clean m) < cap ∧
    m' = <[se_token s := s]> (before_insert cap q did clean m)) ∨
  (∀ s, r ≠ Returned (Ok s)) ∧ m' ⊆ m ∧
  (r = Returned (Err (SessionStoreFull cap)) → v ≠ Err (SessionStoreFull cap) →
    m' = live_at (now_secs clean) m ∧ cap ≤ size m').
Proof.
  unfold spec_create, before_insert. pose proof (purge_subseteq cap (now_secs clean) m) as Hsub.
  set (m1 := if cap <=? size m then _ else m) in *.
  pose proof (evict_for_subseteq did q m1) as Hsub2.
  destruct (cap <=? size m1) eqn:E1; bool_simpl.
  - intros [= <- <-]. right. split; [done|]. split; [done|]. intros _ _.
    subst m1. destruct (cap <=? size m) eqn:E2; [done|]. bool_simpl. lia.
  - destruct (add_u64 _ _ _) as [u|]; [destruct v as [[]|e]|]; intros [= <- <-].
    + left. eexists. split; [done|]. cbn. do 4 (split; [done|]). split; [|done].
      pose proof (map_subseteq_size _ _ Hsub2). lia.
    + right. split; [done|]. split; [by etrans|]. intros [= ->]. done.
    + right. split; [done|]. split; [by etrans|]. done.
Qed.
Lemma keyed_before_insert cap q did clean m : keyed m → keyed (before_insert cap q did clean m).
Proof.
  apply keyed_subseteq. unfold before_insert.
  etrans; [apply evict_for_subseteq|apply purge_subseteq].
Qed.
Lemma before_insert_other cap q did clean m t s : keyed m →
  m !! t = Some s → se_did s ≠ did → (now_secs clean < se_valid_until s)%Z →
  before_insert cap q did clean m !! t = Some s.
Proof.
  intros Hk Hl Hd Hlive. apply evict_for_other; [|by apply purge_live|done].
  eapply keyed_subseteq; [apply purge_subseteq|done].
Qed.
End spec_facts.

(** ** The store as a sequential object *)

Section traces.
Context `{Hex, Chrono, Profile, SessionBackendLaws}.

Inductive SOp : Type :=
| SCreate (did : string) (clean_now : date_time) (token_bytes : bytes) (now : date_time)
| SValidate (token : string) (now : date_time)
| SRevoke (token : string)
| SRevokeAll (did : string)
| SCleanup (now : date_time).
Inductive SOut : Type :=
| SCreated (r : run (result Session AuthError))
| SValidated (token : string) (now : date_time) (r : result string AuthError)
| SRevoked (token : string) (removed : bool)
| SRevokedAll (did : string) (removed : nat)
| SCleaned.
Definition s_step (st : SessionStore) (op : SOp) : SessionStore * SOut :=
  match op with
  | SCreate did clean nb now =>
      let '(st', r) := create st did clean nb now in (st', SCreated r)
  | SValidate t now => let '(st', r) := validate st t now in (st', SValidated t now r)
  | SRevoke t => let '(st', r) := revoke st t in (st', SRevoked t r)
  | SRevokeAll did => let '(st', n) := revoke_all_for_did st did in (st', SRevokedAll did n)
  | SCleanup now => (cleanup_expired now st, SCleaned)
  end.
Fixpoint s_run (st : SessionStore) (ops : list SOp) : SessionStore * list SOut :=
  match ops with
  | [] => (st, [])
  | op :: ops' =>
      let '(st1, out) := s_step st op in
      let '(st2, outs) := s_run st1 ops' in (st2, out :: outs)
  end.

(** The bounds: on the store, and on each DID. *)
Definition bounded (st : SessionStore) : Prop :=
  ok st ∧ size (view st) ≤ ss_max_sessions st ∧
  ∀ did, size (of_did did (view st)) ≤ Nat.max 1 (ss_max_sessions_per_did st).

Lemma bounded_shrink st st' : bounded st → ok st' → same_limits st st' →
  view st' ⊆ view st → bounded st'.
Proof.
  intros (_ & Hs & Hd) Hok (_ & Hm & Hp) Hv. unfold bounded. rewrite Hm, Hp.
  split; [done|]. split; [pose proof (map_subseteq_size _ _ Hv); lia|].
  intros did. pose proof (of_did_mono did _ _ Hv). specialize (Hd did). lia.
Qed.
Lemma of_did_insert_le d (m : sessions) t s :
  size (of_did d (<[t:=s]> m)) ≤ if decide (se_did s = d) then S (size (of_did d m)) else size (of_did d m).
Proof.
  unfold of_did. case_decide as Hd.
  - rewrite map_filter_insert_True by done. apply size_insert_le.
  - rewrite map_filter_insert_False by done. apply of_did_mono, delete_subseteq.
Qed.
Lemma s_step_bounded st op : bounded st → bounded (s_step st op).1.
Proof.
  intros Hb. pose proof Hb as (Hok & Hs & Hd).
  destruct op as [did clean nb now|t now|t|did|now]; cbn [s_step].
  - pose proof (create_refines_spec st did clean nb now Hok) as Hr.
    destruct (create st did clean nb now) as [st' r]. destruct Hr as (Hok' & Hlim & v & Hv).
    symmetry in Hv. cbn [fst].
    apply spec_create_cases in Hv as [(s & -> & Hdid & _ & _ & _ & Hlt & Hm)|(_ & Hsub & _)];
      [|by apply (bounded_shrink st)].
    destruct Hlim as (_ & Hmax & Hper). unfold bounded. rewrite Hmax, Hper, Hm.
    split; [done|]. split.
    + pose proof (size_insert_le (before_insert (ss_max_sessions st)
        (ss_max_sessions_per_did st) did clean (view st)) (se_token s) s). lia.
    + intros d. etrans; [apply of_did_insert_le|]. case_decide as Hsd.
      * rewrite <- Hsd, Hdid. unfold before_insert.
        apply evict_for_quota.
        -- eapply keyed_subseteq; [apply purge_subseteq|by apply sb_keyed].
        -- etrans; [apply of_did_mono, purge_subseteq|done].
      * etrans; [|apply (Hd d)]. apply of_did_mono. unfold before_insert.
        etrans; [apply evict_for_subseteq|apply purge_subseteq].
  - pose proof (validate_refines_spec st t now Hok) as Hr.
    destruct (validate st t now) as [st' r]. destruct Hr as (Hok' & Hlim & Hv).
    apply (bounded_shrink st); [done..|]. cbn [fst snd]. unfold spec_validate in Hv.
    destruct (view st !! t); [destruct (_ <=? _)%Z|]; injection Hv as -> _;
      [apply delete_subseteq|done..].
  - pose proof (revoke_refines_spec st t Hok) as Hr. destruct (revoke st t) as [st' r].
    destruct Hr as (Hok' & Hlim & Hv & _). apply (bounded_shrink st); [done..|].
    cbn [fst snd]. rewrite Hv. apply delete_subseteq.
  - pose proof (revoke_all_refines_spec st did Hok) as Hr.
    destruct (revoke_all_for_did st did) as [st' n].
    destruct Hr as (Hok' & Hlim & Hv & _). apply (bounded_shrink st); [done..|].
    cbn [fst snd]. rewrite Hv. apply map_filter_subseteq.
  - destruct (cleanup_refines st now Hok) as [Hok' Hv].
    apply (bounded_shrink st); [done..|]. cbn [fst snd]. rewrite Hv. apply live_at_subseteq.
Qed.
Lemma s_run_bounded st ops : bounded st → bounded (s_run st ops).1.
Proof.
  revert st. induction ops as [|op ops IH]; intros st Hb; [done|]. cbn [s_run].
  pose proof (s_step_bounded st op Hb) as Hb1. destruct (s_step st op) as [st1 o].
  specialize (IH st1 Hb1). by destruct (s_run st1 ops).
Qed.

(** Where a session in the store comes from. *)
Lemma s_step_origin st op t s : ok st →
  ok (s_step st op).1 ∧
  (view (s_step st op).1 !! t = Some s →
    view st !! t = Some s ∨ (s_step st op).2 = SCreated (Returned (Ok s)) ∧ se_token s = t).
Proof.
  intros Hok. destruct op as [did clean nb now|t' now|t'|did|now]; cbn [s_step].
  - pose proof (create_refines_spec st did clean nb now Hok) as Hr.
    destruct (create st did clean nb now) as [st' r]. destruct Hr as (Hok' & _ & v & Hv).
    symmetry in Hv. cbn [fst snd]. split; [done|].
    apply spec_create_cases in Hv as [(s' & -> & _ & _ & _ & _ & _ & ->)|(_ & Hsub & _)].
    + intros [[<- ->]|[_ Hl]]%lookup_insert_Some; [by right|left].
      eapply lookup_weaken; [done|]. unfold before_insert.
      etrans; [apply evict_for_subseteq|apply purge_subseteq].
    + intros Hl. left. by eapply lookup_weaken.
  - pose proof (validate_refines_spec st t' now Hok) as Hr.
    destruct (validate st t' now) as [st' r]. destruct Hr as (Hok' & _ & Hv).
    split; [done|]. cbn [fst snd]. intros Hl. left. unfold spec_validate in Hv.
    destruct (view st !! t') as [s0|]; [destruct (_ <=? _)%Z|]; injection Hv as Hv _;
      rewrite Hv in Hl; [by apply lookup_delete_Some in Hl as [_ ?]|done..].
  - pose proof (revoke_refines_spec st t' Hok) as Hr. destruct (revoke st t') as [st' r].
    destruct Hr as (Hok' & _ & Hv & _). split; [done|]. cbn [fst snd]. rewrite Hv.
    intros [_ ?]%lookup_delete_Some. by left.
  - pose proof (revoke_all_refines_spec st did Hok) as Hr.
    destruct (revoke_all_for_did st did) as [st' n].
    destruct Hr as (Hok' & _ & Hv & _). split; [done|]. cbn [fst snd]. rewrite Hv.
    intros [? _]%map_lookup_filter_Some. by left.
  - destruct (cleanup_refines st now Hok) as [Hok' Hv]. split; [done|]. cbn [fst snd]. rewrite Hv.
    intros [? _]%live_at_lookup. by left.
Qed.
Lemma s_run_origin st ops pre t now did post : ok st →
  (s_run st ops).2 = pre ++ SValidated t now (Ok did) :: post →
  ∃ s, (view st !! t = Some s ∨ SCreated (Returned (Ok s)) ∈ pre ∧ se_token s = t) ∧
    se_did s = did ∧ (now_secs now < se_valid_until s)%Z.
Proof.
  revert st pre. induction ops as [|op ops IH]; intros st pre Hok; cbn [s_run].
  - by intros ?%app_cons_not_nil.
  - pose proof (λ t s, s_step_origin st op t s Hok) as Ho.
    destruct (s_step st op) as [st1 o] eqn:Es. specialize (IH st1).
    destruct (s_run st1 ops) as [st2 outs]. cbn [fst snd] in *. intros Heq.
    destruct pre as [|o' pre]; cbn in Heq; injection Heq as -> Heq.
    + destruct op as [d clean nb nw|t' nw|t'|d|nw]; cbn [s_step] in Es;
        try by (destruct (create _ _ _ _ _) || destruct (revoke _ _) ||
                destruct (revoke_all_for_did _ _) || idtac).
      pose proof (validate_refines_spec st t' nw Hok) as Hr.
      destruct (validate st t' nw) as [st' r]. destruct Hr as (_ & _ & Hv). simplify_eq.
      unfold spec_validate in Hv. destruct (view st !! t) as [s|] eqn:Hl; [|done].
      destruct (_ <=? _)%Z eqn:Hle; [done|]. bool_simpl. simplify_eq. eauto.
    + destruct (IH pre) as (s & [Hv|[Hin Ht]] & Hd & Hl); [by apply (Ho t inhabitant)|done|..];
        exists s; (split; [|done]).
      * apply Ho in Hv as [?|[-> ?]]; [by left|right]. split; [by left|done].
      * right. split; [by right|done].
Qed.
(** A token that is not in the store is refused until a [create] returns it. *)
Lemma s_run_absent st ops t now r : ok st → view st !! t = None →
  (∀ s, SCreated (Returned (Ok s)) ∈ (s_run st ops).2 → se_token s ≠ t) →
  SValidated t now r ∈ (s_run st ops).2 → r = Err SessionNotFound.
Proof.
  revert st. induction ops as [|op ops IH]; intros st Hok Hn; cbn [s_run].
  - by intros _ ?%not_elem_of_nil.
  - pose proof (λ t s, s_step_origin st op t s Hok) as Ho.
    destruct (s_step st op) as [st1 o] eqn:Es. specialize (IH st1).
    destruct (s_run st1 ops) as [st2 outs]. cbn [fst snd] in *. intros Hc.
    intros [Heq|Hin]%elem_of_cons.
    + subst o. destruct op as [d clean nb nw|t' nw|t'|d|nw]; cbn [s_step] in Es;
        try by (destruct (create _ _ _ _ _) || destruct (revoke _ _) ||
                destruct (revoke_all_for_did _ _) || idtac).
      pose proof (validate_refines_spec st t' nw Hok) as Hr.
      destruct (validate st t' nw) as [st' r']. destruct Hr as (_ & _ & Hv). simplify_eq.
      unfold spec_validate in Hv. rewrite Hn in Hv. by simplify_eq.
    + apply IH; [by apply (Ho t inhabitant)| | |done].
      * destruct (view st1 !! t) as [s|] eqn:Hl; [|done]. exfalso.
        apply Ho in Hl as [?|[-> Ht]]; [congruence|]. apply (Hc s); [by left|done].
      * intros s Hs. apply Hc. by right.
Qed.
End traces.

Section properties.
Context `{Hex, Chrono, Profile, SessionBackendLaws}.

(** C8: the session store refines its specification over any lawful backend:
    whatever the backend does inside, [create] and [validate] return what
    [spec_create] and [spec_validate] return on the map it stands for, and
    leave a backend standing for the specified map. *)
Theorem session_store_refines_spec st did clean nb now t : ok st →
  (let '(st', r) := create st did clean nb now in
   ok st' ∧ ∃ verdict, (view st', r) =
     spec_create (ss_ttl_secs st) (ss_max_sessions st) (ss_max_sessions_per_did st)
       did clean nb now verdict (view st)) ∧
  (let '(st', r) := validate st t now in
   ok st' ∧ (view st', r) = spec_validate t now (view st)).
Proof.
  intros Hok. split.
  - pose proof (create_refines_spec st did clean nb now Hok) as Hr.
    destruct (create st did clean nb now). by destruct Hr as (? & _ & ?).
  - pose proof (validate_refines_spec st t now Hok) as Hr.
    destruct (validate st t now). by destruct Hr as (? & _ & ?).
Qed.

(** C18: both caps hold along every run: a store that starts empty never holds
    more than [max_sessions] sessions, nor more than [max_sessions_per_did] of
    one DID (one, under a per-DID cap of zero). *)
Theorem session_caps_hold st ops did : ok st → view st = ∅ →
  let st' := (s_run st ops).1 in
  size (view st') ≤ ss_max_sessions st' ∧
  size (of_did did (view st')) ≤ Nat.max 1 (ss_max_sessions_per_did st').
Proof.
  intros Hok Hv. cbv zeta.
  destruct (s_run_bounded st ops) as (_ & Hs & Hd); [|by split].
  split; [done|]. rewrite Hv. split; [rewrite map_size_empty; lia|].
  intros d. unfold of_did. rewrite map_filter_empty, map_size_empty. lia.
Qed.

(** C19: a login never costs another identity its session. Across a [create]
    for [did], whatever it returns, every live session of another DID is still
    there, unless the new session drew the same token. *)
Theorem create_isolates_other_dids st did clean nb now t s : ok st →
  view st !! t = Some s → se_did s ≠ did → (now_secs clean < se_valid_until s)%Z →
  t ≠ hex_encode nb →
  view (create st did clean nb now).1 !! t = Some s.
Proof.
  intros Hok Hl Hd Hlive Ht.
  pose proof (create_refines_spec st did clean nb now Hok) as Hr.
  destruct (create st did clean nb now) as [st' r]. destruct Hr as (_ & _ & v & Hv).
  cbn [fst]. unfold spec_create in Hv.
  pose proof (purge_subseteq (ss_max_sessions st) (now_secs clean) (view st)) as Hsub.
  set (m1 := if ss_max_sessions st <=? size (view st) then live_at (now_secs clean) (view st)
             else view st) in *.
  assert (m1 !! t = Some s) as Hm1
    by by apply purge_live.
  destruct (_ <=? size m1); [by injection Hv as -> _|].
  pose proof (evict_for_other did (ss_max_sessions_per_did st) m1 t s
    (keyed_subseteq _ _ Hsub (sb_keyed _ Hok)) Hm1 Hd) as Hm2.
  destruct (add_u64 _ _ _) as [u|]; [|by injection Hv as -> _].
  destruct v as [[]|e]; injection Hv as -> _; [|done].
  by rewrite lookup_insert_ne.
Qed.

(** A full store refuses, it does not evict: [SessionStoreFull] is returned
    only when every remaining session is live and they fill the cap, and then
    every live session is still in the store. *)
Theorem store_full_only_when_live st did clean nb now st' :
  ok st →
  (∀ b s b' r, sb_insert b s = (b', r) → r ≠ Err (SessionStoreFull (ss_max_sessions st))) →
  create st did clean nb now = (st', Returned (Err (SessionStoreFull (ss_max_sessions st)))) →
  view st' = live_at (now_secs clean) (view st) ∧ ss_max_sessions st ≤ size (view st').
Proof.
  intros Hok Hins Hc.
  unfold create in Hc.
  destruct (cleanup_refines st clean Hok) as [Hok1 Hv1].
  rewrite (sb_len_spec _ Hok) in Hc. fold (view st) in Hc.
  destruct (ss_max_sessions st <=? size (view st)) eqn:E1.
  - rewrite (sb_len_spec _ Hok1) in Hc. fold (view (cleanup_expired clean st)) in Hc.
    destruct (ss_max_sessions (cleanup_expired clean st) <=?
      size (view (cleanup_expired clean st))) eqn:E2.
    + injection Hc as <-. bool_simpl. split; [done|]. exact E2.
    + destruct (add_u64 _ _ _); [|done]. destruct (sb_insert _ _) as [b [u|e]] eqn:Ei; [done|].
      injection Hc as _ ->. by destruct (Hins _ _ _ _ Ei).
  - rewrite (sb_len_spec _ Hok) in Hc. fold (view st) in Hc. rewrite E1 in Hc.
    destruct (add_u64 _ _ _); [|done]. destruct (sb_insert _ _) as [b [u|e]] eqn:Ei; [done|].
    injection Hc as _ ->. by destruct (Hins _ _ _ _ Ei).
Qed.

(** Only a live session authenticates: [validate] returns a DID exactly for
    a token whose session an earlier [create] of the run returned for that DID,
    and only before the session's [valid_until]. *)
Theorem validated_session_created st ops pre t now did post : ok st → view st = ∅ →
  (s_run st ops).2 = pre ++ SValidated t now (Ok did) :: post →
  ∃ s, SCreated (Returned (Ok s)) ∈ pre ∧ se_token s = t ∧ se_did s = did ∧
    (now_secs now < se_valid_until s)%Z.
Proof.
  intros Hok Hv Hr.
  destruct (s_run_origin _ _ _ _ _ _ _ Hok Hr) as (s & [Hl|[? ?]] & ? & ?); [|by exists s].
  by rewrite Hv, lookup_empty in Hl.
Qed.

(** Revocation is final: after [revoke], every [validate] of that token
    answers [SessionNotFound], in any continuation that does not draw the same
    token for a new session. *)
Theorem revoked_token_is_dead st t ops now r : ok st →
  (∀ s, SCreated (Returned (Ok s)) ∈ (s_run (revoke st t).1 ops).2 → se_token s ≠ t) →
  SValidated t now r ∈ (s_run (revoke st t).1 ops).2 → r = Err SessionNotFound.
Proof.
  intros Hok. pose proof (revoke_refines_spec st t Hok) as Hr.
  destruct (revoke st t) as [st' b]. destruct Hr as (Hok' & _ & Hv & _). cbn [fst].
  apply s_run_absent; [done|]. by rewrite Hv, lookup_delete_eq.
Qed.

(** Revoking an identity removes its sessions and no other one, and reports
    how many there were. *)
Theorem revoke_all_exact st did : ok st →
  let '(st', n) := revoke_all_for_did st did in
  n = size (of_did did (view st)) ∧
  ∀ t s, view st' !! t = Some s ↔ view st !! t = Some s ∧ se_did s ≠ did.
Proof.
  intros Hok. pose proof (revoke_all_refines_spec st did Hok) as Hr.
  destruct (revoke_all_for_did st did) as [st' n]. destruct Hr as (_ & _ & Hv & ->).
  split; [done|]. intros t s. rewrite Hv. apply map_lookup_filter_Some.
Qed.

End properties.

Section witnesses.
Import Fixtures.Instances.
#[local] Existing Instance InMemoryBackend.

Definition sample_sessions : SessionStore := session_store_with_capacity 3600 2 1.
Definition sample_token (n : N) : string := hex_encode (sample_nonce n).
Definition sample_session_ops : list SOp :=
  [SCreate sample_key_did (sample_time 0) (sample_nonce 1) (sample_time 0);
   SValidate (sample_token 1) (sample_time 10);
   SCreate sample_eip155_did (sample_time 20) (sample_nonce 2) (sample_time 20)].
Definition two_sessions : SessionStore := (s_run sample_sessions sample_session_ops).1.
Definition sample_session : Session :=
  {| se_did := sample_key_did; se_token := sample_token 1;
     se_valid_until := 1773752400; se_created_at := 1773748800 |}.

Lemma sample_ok : ok sample_sessions.
Proof. exact keyed_empty. Defined.
Lemma two_ok : ok two_sessions.
Proof.
  assert (bounded sample_sessions) as Hb.
  { split; [exact sample_ok|]. split; [vm_compute; lia|]. intros did.
    change (view sample_sessions) with (∅ : sessions). unfold of_did.
    rewrite map_filter_empty, map_size_empty. lia. }
  exact (proj1 (s_run_bounded _ sample_session_ops Hb)).
Qed.
Lemma session_store_refines_spec_witness :
  let '(st', r) := validate two_sessions (sample_token 1) (sample_time 30) in
  ok st' ∧ (view st', r) = spec_validate (sample_token 1) (sample_time 30) (view two_sessions).
Proof.
  exact (proj2 (session_store_refines_spec two_sessions sample_key_did (sample_time 30)
    (sample_nonce 3) (sample_time 30) (sample_token 1) two_ok)).
Defined.
Lemma session_caps_hold_witness :
  size (view two_sessions) = 2 ∧
  size (view two_sessions) ≤ 2 ∧ size (of_did sample_key_did (view two_sessions)) ≤ 1.
Proof.
  split; [vm_refl|].
  exact (session_caps_hold sample_sessions sample_session_ops sample_key_did sample_ok eq_refl).
Defined.
Lemma create_isolates_other_dids_witness :
  view (create two_sessions sample_eip155_did (sample_time 30) (sample_nonce 3) (sample_time 30)).1
    !! sample_token 1 = Some sample_session.
Proof.
  apply create_isolates_other_dids; [exact two_ok|vm_refl|vm_compute; discriminate|
    vm_compute; reflexivity|vm_compute; discriminate].
Defined.
Lemma store_full_only_when_live_witness :
  2 ≤ size (view (create two_sessions sample_eip155_did (sample_time 30) (sample_nonce 3)
    (sample_time 30)).1).
Proof.
  destruct (create two_sessions sample_eip155_did (sample_time 30) (sample_nonce 3)
    (sample_time 30)) as [st' r] eqn:E.
  apply (store_full_only_when_live two_sessions sample_eip155_did (sample_time 30)
    (sample_nonce 3) (sample_time 30) st' two_ok).
  - intros b s b' r' Hi. injection Hi as _ <-. discriminate.
  - rewrite E. f_equal. transitivity (create two_sessions sample_eip155_did (sample_time 30)
      (sample_nonce 3) (sample_time 30)).2; [by rewrite E|vm_refl].
Defined.
Lemma validated_session_created_witness :
  ∃ s, SCreated (Returned (Ok s)) ∈ [SCreated (Returned (Ok sample_session))] ∧
    se_token s = sample_token 1 ∧ se_did s = sample_key_did ∧
    (now_secs (sample_time 10) < se_valid_until s)%Z.
Proof.
  apply (validated_session_created sample_sessions (take 2 sample_session_ops)
    _ _ _ _ [] sample_ok eq_refl). vm_refl.
Defined.
Lemma revoked_token_is_dead_witness :
  SValidated (sample_token 1) (sample_time 10) (Err SessionNotFound) ∈
    (s_run (revoke two_sessions (sample_token 1)).1
      [SValidate (sample_token 1) (sample_time 10)]).2 ∧
  (Err SessionNotFound : result string AuthError) = Err SessionNotFound.
Proof.
  assert ((s_run (revoke two_sessions (sample_token 1)).1
      [SValidate (sample_token 1) (sample_time 10)]).2
    = [SValidated (sample_token 1) (sample_time 10) (Err SessionNotFound)]) as Hr by vm_refl.
  split; [rewrite Hr; left|].
  apply (revoked_token_is_dead two_sessions (sample_token 1)
    [SValidate (sample_token 1) (sample_time 10)] (sample_time 10) _ two_ok).
  - intros s Hin. rewrite Hr in Hin. by apply list_elem_of_singleton in Hin.
  - rewrite Hr. left.
Defined.
Lemma revoke_all_exact_witness :
  let '(st', n) := revoke_all_for_did two_sessions sample_key_did in
  n = size (of_did sample_key_did (view two_sessions)) ∧
  ∀ t s, view st' !! t = Some s ↔ view two_sessions !! t = Some s ∧ se_did s ≠ sample_key_did.
Proof. exact (revoke_all_exact two_sessions sample_key_did two_ok). Defined.
End witnesses.
