(* ===== verification/SessionCalls.v ===== *)
(** * Concurrent calls on one session store: src/session.rs, src/session_backend.rs

    The methods of [SessionStore] over the in-memory backend, with every access
    to the [DashMap] as a step of its own. Left alone they are the functions of
    Session.v ([session_calls_refine]); interleaved, a session is still valid
    only when it was created, and the global cap holds up to the number of calls
    under way, but the quota of one DID does not hold, and a purge may panic. *)

From S2P Require Import Prelude Interleave SharedMap Locks Crates Errors Keys Did Suites Aqua Methods DidFormat Principal Message Types Challenge SessionBackend Session Fixtures.

#[local] Abbreviation SessionStore := (@SessionStore InMemoryBackend).
#[local] Abbreviation call := (Prog (shared Session)).

(** The shards of the backend's map. *)
Class SessionShards := session_shards : Shards.
#[local] Existing Instance session_shards.

Section defs.
Context `{Hex, Chrono, Profile, SS : SessionShards}.

(** [self.sessions.len()] *)
Definition len_call : call nat := dm_len.

(** ** The in-memory backend, one access at a time *)

Definition insert_call (s : Session) : call (result unit AuthError) :=
  _ ← dm_insert (se_token s) s; Ret (Ok tt).
Definition get_call (token : string) : call (option Session) := dm_get token.
Definition remove_call (token : string) : call bool :=
  o ← dm_remove token; Ret (match o with Some _ => true | None => false end).
Definition sessions_for_did_call (did : string) : call (list Session) :=
  es ← dm_iter; Ret (filter (λ s, se_did s = did) es.*2).
(** The matching tokens first, then their removal. *)
Definition remove_all_for_did_call (did : string) : call nat :=
  es ← dm_iter;
  let tokens := (filter (λ ts, se_did ts.2 = did) es).*1 in
  _ ← for_each (λ t, _ ← dm_remove t; Ret tt) tokens;
  Ret (length tokens).
(** [before - self.sessions.len()]: two lengths of a map that other calls may
    change in between. *)
Definition purge_expired_call (now_secs : Z) : call (run Z) :=
  before ← len_call;
  _ ← dm_retain (λ s, now_secs <? se_valid_until s)%Z;
  after ← len_call;
  Ret (sub_u64 overflow_checks (Z.of_nat before) (Z.of_nat after)).
Definition all_call : call (list Session) := es ← dm_iter; Ret es.*2.

(** ** The store *)

Definition cleanup_call (now : date_time) : call (run unit) :=
  r ← purge_expired_call (now_secs now);
  Ret (match r with Returned _ => Returned tt | Panicked => Panicked end).
Definition enforce_call (st : SessionStore) (did : string) : call unit :=
  ss ← sessions_for_did_call did;
  let this_did := map (λ s, (se_token s, se_created_at s)) ss in
  if length this_did <? ss_max_sessions_per_did st then Ret tt
  else match head (sort_by created_before this_did) with
       | Some (oldest_token, _) => _ ← remove_call oldest_token; Ret tt
       | None => Ret tt
       end.
Definition full_call (st : SessionStore) : call bool :=
  l ← len_call; Ret (ss_max_sessions st <=? l).
(** What follows the check of the capacity. *)
Definition admit_call (st : SessionStore) (did : string) (token_bytes : bytes)
    (now : date_time) : call (run (result Session AuthError)) :=
  _ ← enforce_call st did;
  match add_u64 overflow_checks (now_secs now) (ss_ttl_secs st) with
  | Panicked => Ret Panicked
  | Returned valid_until =>
      let session := {| se_did := did; se_token := hex_encode token_bytes;
        se_valid_until := valid_until; se_created_at := now_secs now |} in
      r ← insert_call session;
      Ret (Returned (match r with Ok _ => Ok session | Err e => Err e end))
  end.
(** [st] stands for the fields that no call changes; the map is shared. *)
Definition create_call (st : SessionStore) (did : string) (clean_now : date_time)
    (token_bytes : bytes) (now : date_time) : call (run (result Session AuthError)) :=
  full ← full_call st;
  if full : bool then
    purged ← cleanup_call clean_now;
    match purged with
    | Panicked => Ret Panicked
    | Returned _ =>
        full ← full_call st;
        if full : bool then Ret (Returned (Err (SessionStoreFull (ss_max_sessions st))))
        else admit_call st did token_bytes now
    end
  else admit_call st did token_bytes now.
Definition validate_call (token : string) (now : date_time) : call (result string AuthError) :=
  o ← get_call token;
  match o with
  | None => Ret (Err SessionNotFound)
  | Some session =>
      if (se_valid_until session <=? now_secs now)%Z then
        _ ← remove_call token; Ret (Err SessionExpired)
      else Ret (Ok (se_did session))
  end.
Definition revoke_call (token : string) : call bool := remove_call token.
Definition revoke_all_call (did : string) : call nat := remove_all_for_did_call did.
Definition list_sessions_call (now : date_time) : call (list SessionInfo) :=
  ss ← all_call;
  Ret (map (λ s, {| si_did := se_did s; si_created_at := se_created_at s;
                    si_valid_until := se_valid_until s |})
    (filter (λ s, now_secs now < se_valid_until s)%Z ss)).
Definition active_count_call : call Z := l ← len_call; Ret (as_u32 (Z.of_nat l)).

Definition session_call (st : SessionStore) (op : SOp) : call (run SOut) :=
  match op with
  | SCreate did clean_now token_bytes now =>
      r ← create_call st did clean_now token_bytes now; Ret (Returned (SCreated r))
  | SValidate token now => r ← validate_call token now; Ret (Returned (SValidated token now r))
  | SRevoke token => r ← revoke_call token; Ret (Returned (SRevoked token r))
  | SRevokeAll did => n ← revoke_all_call did; Ret (Returned (SRevokedAll did n))
  | SCleanup now =>
      r ← cleanup_call now;
      Ret (match r with Returned _ => Returned SCleaned | Panicked => Panicked end)
  end.
Definition pair_tokens (l : list (bytes * bytes)) : list string :=
  concat (map (λ nbs, [hex_encode nbs.1; hex_encode nbs.2]) l).
Definition session_calls (st : SessionStore) (p : call (run SOut)) : Prop :=
  ∃ op, p = session_call st op.
End defs.

#[local] Existing Instance InMemoryBackend.

Section alone.
Context `{Hex, Chrono, Profile, SS : SessionShards}.
Implicit Types (st : SessionStore) (m : shared Session).

Lemma admit_orderly st did nb now : orderly (admit_call st did nb now).
Proof.
  unfold admit_call, enforce_call, sessions_for_did_call, remove_call, insert_call. keep_order.
Qed.
Lemma session_create_orderly st did clean nb now : orderly (create_call st did clean nb now).
Proof.
  pose proof (admit_orderly st did nb now).
  unfold create_call, full_call, len_call, cleanup_call, purge_expired_call. keep_order.
Qed.
Lemma session_validate_orderly token now : orderly (validate_call token now).
Proof. unfold validate_call, get_call, remove_call. keep_order. Qed.
Lemma live_sessions_filter now m :
  filter (λ kv, (λ s, now <? se_valid_until s)%Z kv.2 = true) m = live_at now m.
Proof. apply map_filter_ext. intros t s _. cbn. by rewrite Z.ltb_lt. Qed.
Lemma purge_alone now m Q : (∀ n, Q (live_at now m) (Returned n)) →
  alone (purge_expired_call now) m Q.
Proof.
  intros HQ. apply alone_bind, alone_len, alone_bind, alone_retain. rewrite live_sessions_filter.
  apply alone_bind, alone_len. cbn [alone]. rewrite sub_u64_small; [apply HQ|].
  pose proof (map_subseteq_size _ _ (live_at_subseteq now m)). lia.
Qed.
Lemma cleanup_alone now m Q : Q (live_at (now_secs now) m) (Returned tt) →
  alone (cleanup_call now) m Q.
Proof. intros HQ. apply alone_bind, purge_alone. by intros n. Qed.
Lemma remove_alone token m Q : Q (mem_remove m token).1 (mem_remove m token).2 →
  alone (remove_call token) m Q.
Proof. done. Qed.
Lemma values_perm es m : es ≡ₚ map_to_list m → es.*2 ≡ₚ values m.
Proof. intros Hp. unfold values. by rewrite Hp. Qed.
Lemma enforce_alone st did Q :
  Q (ss_backend (enforce_per_did_cap did st)) tt →
  alone (enforce_call st did) (ss_backend st) Q.
Proof.
  intros HQ. apply alone_bind, alone_bind, alone_iter. intros es Hes. cbn [alone].
  unfold enforce_per_did_cap in HQ. cbn [sb_sessions_for_did InMemoryBackend] in HQ.
  unfold mem_sessions_for_did in HQ.
  assert (map (λ s, (se_token s, se_created_at s)) (filter (λ s, se_did s = did) es.*2) ≡ₚ
    map (λ s, (se_token s, se_created_at s)) (filter (λ s, se_did s = did) (values (ss_backend st))))
    as Hp by (apply Permutation_map; by rewrite (values_perm _ _ Hes)).
  rewrite (Permutation_length Hp), (created_before_head _ _ Hp).
  rewrite (created_before_head _ _ (Permutation_refl _)) in HQ.
  destruct (_ <? _); [done|]. destruct (min_by _ _) as [[t c]|]; [|done].
  by apply alone_bind, remove_alone.
Qed.
Definition full st : bool := ss_max_sessions st <=? sb_len (ss_backend st).
Ltac meet_full st :=
  match goal with
  | HQ : context [full st] |- alone (if ?b then _ else _) _ _ =>
      change b with (full st); revert HQ; destruct (full st); intros HQ
  end.
(** [create] past its check of the capacity. *)
Definition admitted st did (nb : bytes) now : SessionStore * run (result Session AuthError) :=
  let st := enforce_per_did_cap did st in
  match add_u64 overflow_checks (now_secs now) (ss_ttl_secs st) with
  | Panicked => (st, Panicked)
  | Returned v =>
      let s := {| se_did := did; se_token := hex_encode nb; se_valid_until := v;
        se_created_at := now_secs now |} in
      (set_backend st (<[se_token s := s]> (ss_backend st)), Returned (Ok s))
  end.
Lemma create_admitted st did clean nb now :
  create st did clean nb now =
  if full st then
    let st := cleanup_expired clean st in
    if full st then (st, Returned (Err (SessionStoreFull (ss_max_sessions st))))
    else admitted st did nb now
  else admitted st did nb now.
Proof. unfold create. fold (full st). destruct (full st) eqn:E; [done|]. fold (full st). by rewrite E. Qed.
Lemma admit_alone st did nb now Q :
  Q (ss_backend (admitted st did nb now).1) (admitted st did nb now).2 →
  alone (admit_call st did nb now) (ss_backend st) Q.
Proof.
  intros HQ. apply alone_bind, enforce_alone. unfold admitted in HQ.
  assert (ss_ttl_secs (enforce_per_did_cap did st) = ss_ttl_secs st) as Ht
    by (unfold enforce_per_did_cap; by repeat case_match).
  rewrite Ht in HQ. by destruct (add_u64 _ _ _).
Qed.
Lemma session_create_alone st did clean nb now Q :
  Q (ss_backend (create st did clean nb now).1) (create st did clean nb now).2 →
  alone (create_call st did clean nb now) (ss_backend st) Q.
Proof.
  rewrite create_admitted. intros HQ. apply alone_bind, alone_bind, alone_len. cbn [alone].
  meet_full st; [|by apply admit_alone].
  set (st1 := cleanup_expired clean st) in *. cbv zeta in HQ.
  apply alone_bind, cleanup_alone, alone_bind, alone_bind, alone_len. cbn [alone].
  change (live_at (now_secs clean) (ss_backend st)) with (ss_backend st1).
  meet_full st1; [exact HQ|by apply (admit_alone st1)].
Qed.
Lemma session_validate_alone st token now Q :
  Q (ss_backend (validate st token now).1) (validate st token now).2 →
  alone (validate_call token now) (ss_backend st) Q.
Proof.
  intros HQ. apply alone_bind, alone_get. revert HQ. unfold validate.
  change (sb_get (ss_backend st) token) with (mem_get (ss_backend st) token).
  match goal with
  |- _ → alone (match ?o with _ => _ end) _ _ => change o with (mem_get (ss_backend st) token)
  end.
  destruct (mem_get (ss_backend st) token); [|done]. by destruct (_ <=? _)%Z.
Qed.
Lemma remove_all_alone did m Q :
  Q (mem_remove_all_for_did m did).1 (mem_remove_all_for_did m did).2 →
  alone (remove_all_for_did_call did) m Q.
Proof.
  intros HQ. apply alone_bind, alone_iter. intros es Hes.
  set (f := λ es : list (string * Session), (filter (λ ts, se_did ts.2 = did) es).*1).
  assert (f es ≡ₚ f (map_to_list m)) as Hf by (unfold f; by rewrite Hes).
  assert (∀ ts m1 R, R (foldl (λ m t, delete t m) m1 ts) tt →
    alone (for_each (λ t, _ ← dm_remove t; Ret tt) ts) m1 R) as Hdel.
  { induction ts as [|t ts IH]; intros m1 R HR; [done|]. by apply IH. }
  apply alone_bind, Hdel. cbn [alone]. fold (f es). rewrite (Permutation_length Hf).
  cbn [mem_remove_all_for_did fst snd] in HQ. fold (f (map_to_list m)) in HQ.
  replace (foldl _ m (f es)) with (foldl (λ m t, delete t m) m (f (map_to_list m))); [done|].
  apply map_eq. intros k. rewrite !foldl_delete_lookup.
  destruct (decide (k ∈ f es)) as [Hin|Hn]; [rewrite Hf in Hin|rewrite Hf in Hn];
    [by rewrite decide_True|by rewrite decide_False].
Qed.
Lemma session_call_alone st op Q :
  Q (ss_backend (s_step st op).1) (Returned (s_step st op).2) →
  alone (session_call st op) (ss_backend st) Q.
Proof.
  intros HQ. destruct op as [did clean nb now|t now|t|did|now]; apply alone_bind; cbn [s_step] in *.
  - apply session_create_alone. by destruct (create st did clean nb now).
  - apply session_validate_alone. by destruct (validate st t now).
  - exact HQ.
  - apply remove_all_alone. exact HQ.
  - by apply cleanup_alone.
Qed.
(** The readers: what they list and count, in the order the map is walked. *)
Lemma list_sessions_alone st now Q :
  (∀ infos, infos ≡ₚ list_sessions st now → Q (ss_backend st) infos) →
  alone (list_sessions_call now) (ss_backend st) Q.
Proof.
  intros HQ. apply alone_bind, alone_bind, alone_iter. intros es Hes. apply HQ.
  unfold list_sessions. apply Permutation_map.
  change (sb_all (ss_backend st)) with (values (ss_backend st)). by rewrite (values_perm _ _ Hes).
Qed.
Lemma active_count_alone st Q : Q (ss_backend st) (active_count st) →
  alone (active_count_call) (ss_backend st) Q.
Proof. intros HQ. by apply alone_bind, alone_len. Qed.
(** No call changes the fields beside the map. *)
Lemma create_fields st did clean nb now :
  (create st did clean nb now).1 = set_backend st (ss_backend (create st did clean nb now).1).
Proof.
  rewrite create_admitted. destruct st as [m ttl cap quota]. unfold admitted, enforce_per_did_cap.
  by repeat case_match; simplify_eq/=.
Qed.
Lemma validate_fields st token now :
  (validate st token now).1 = set_backend st (ss_backend (validate st token now).1).
Proof. destruct st. unfold validate. by repeat case_match; simplify_eq/=. Qed.
End alone.

(** ** What nobody created is never valid *)

Section validity.
Context `{Hex, Chrono, Profile, SS : SessionShards}.
Context (P : string → string → bool).
Implicit Types m : shared Session.

Definition holds_none m : Prop := ∀ t s, m !! t = Some s → P t (se_did s) = false.
Definition creates_none (op : SOp) : Prop :=
  match op with SCreate did _ nb _ => P (hex_encode nb) did = false | _ => True end.
Definition validates (r : run SOut) : bool :=
  match r with Returned (SValidated t _ (Ok did)) => P t did | _ => false end.
Abbreviation quiet p := (keeps holds_none p).

Lemma holds_none_subseteq m m' : m' ⊆ m → holds_none m → holds_none m'.
Proof. intros Hs Hm t s Ht. apply (Hm t). by eapply lookup_weaken. Qed.
Lemma quiet_bind {A B} (p : call A) (f : A → call B) (Q : B → Prop) :
  shrinks p → (∀ a, quiet (f a) Q) → quiet (p ≫= f) Q.
Proof. intros Hp Hf. apply keeps_shrinks; [done|apply holds_none_subseteq|done]. Qed.
Lemma shrinks_cleanup now : shrinks (cleanup_call now).
Proof. unfold cleanup_call, purge_expired_call. shrink. Qed.
Lemma shrinks_remove_call t : shrinks (remove_call t).
Proof. unfold remove_call. shrink. Qed.
Lemma shrinks_enforce st did : shrinks (enforce_call st did).
Proof. unfold enforce_call, sessions_for_did_call, remove_call. shrink. Qed.
Lemma shrinks_remove_all did : shrinks (remove_all_for_did_call did).
Proof. unfold remove_all_for_did_call. shrink. Qed.
Lemma shrinks_full st : shrinks (full_call st).
Proof. unfold full_call. shrink. Qed.

Lemma admit_quiet st did nb now : P (hex_encode nb) did = false →
  quiet (admit_call st did nb now) (λ _, True).
Proof.
  intros HP. apply quiet_bind; [apply shrinks_enforce|]. intros _.
  destruct (add_u64 _ _ _) as [v|]; [|done]. apply keeps_bind. intros m Hm. split; [|done].
  intros t s Ht. cbn [fst] in Ht.
  apply lookup_insert_Some in Ht as [[<- <-]|[_ Hs]]; [done|by apply (Hm t)].
Qed.
Lemma create_quiet st did clean nb now : P (hex_encode nb) did = false →
  quiet (create_call st did clean nb now) (λ _, True).
Proof.
  intros HP. apply quiet_bind; [apply shrinks_full|]. intros [|]; [|by apply admit_quiet].
  apply quiet_bind; [apply shrinks_cleanup|]. intros [[]|]; [|done].
  apply quiet_bind; [apply shrinks_full|]. intros [|]; [done|by apply admit_quiet].
Qed.
Lemma validate_quiet t now :
  quiet (validate_call t now) (λ r, validates (Returned (SValidated t now r)) = false).
Proof.
  apply keeps_bind, keeps_get. intros m Hm.
  destruct (m !! t) as [s|] eqn:Ht; [|done].
  destruct (_ <=? _)%Z; [|by apply Hm]. apply quiet_bind; [apply shrinks_remove_call|done].
Qed.
Lemma session_calls_quiet st op : creates_none op →
  quiet (session_call st op) (λ r, validates r = false).
Proof.
  intros Hop. destruct op as [did clean nb now|t now|t|did|now].
  - apply keeps_bind. eapply keeps_mono; [by apply create_quiet|done].
  - apply keeps_bind, validate_quiet.
  - apply quiet_bind; [apply shrinks_remove_call|done].
  - apply quiet_bind; [apply shrinks_remove_all|done].
  - apply quiet_bind; [apply shrinks_cleanup|]. by intros [[]|].
Qed.
End validity.
#[export] Hint Resolve shrinks_cleanup shrinks_remove_call shrinks_enforce shrinks_remove_all
  shrinks_full : shrinks.

(** ** The global cap, with calls under way

    A call that has read a free slot is owed that slot until it inserts. While
    it reads the length, shard by shard, entries may move from the shards it has
    yet to read to those it has read, so that it reads less than the map ever
    held. What keeps the store within its cap all the same is a bound on what
    could be left if entries went: for every number of removals that leaves the
    store at its cap or above, the calls that own a slot by then, or would take
    one, fit in the number of calls. *)

Section capacity.
Context `{Hex, Chrono, Profile, SS : SessionShards}.
Context (st : SessionStore).
Implicit Types m : shared Session.
Abbreviation cap := (ss_max_sessions st).

(** What a call under way knows: [Counted i n] has counted [n] entries in the
    shards before [i]; [Owed] has read a length below the cap. *)
Inductive Slot : Type := Counted (i n : nat) | Owed.
Abbreviation idle := (Counted 0 0).
#[local] Instance Slot_eq_dec : EqDecision Slot.
Proof. solve_decision. Defined.

(** The length a call would read if nothing happened any more. *)
Definition would_read (i n : nat) m : nat := n + from i m.
Inductive moves m : Slot → shared Session → Slot → Prop :=
| SlotKept g m' : m' ⊆ m → moves m g m' g
| SlotLeft g : moves m g m idle
| SlotRead i n i' n' : would_read i' n' m = would_read i n m →
    moves m (Counted i n) m (Counted i' n')
| SlotTaken i n : would_read i n m < cap → moves m (Counted i n) m Owed
| SlotFilled t s : moves m Owed (<[t := s]> m) idle.
Abbreviation admitting := (paying (λ _, True) moves).

Lemma admitting_bind {A B} (p : call A) (f : A → call B) Q g :
  shrinks p → (∀ a, admitting (f a) Q g) → admitting (p ≫= f) Q g.
Proof. intros Hp Hf. apply paying_shrinks_bind; [done..| |done]. by intros m m' ?; constructor. Qed.
(** The check: a call that will insert takes a slot, one that will panic none. *)
Lemma full_admitting {B} (f : bool → call B) Q g : g = idle ∨ g = Owed →
  admitting (f true) Q idle → admitting (f false) Q g → admitting (full_call st ≫= f) Q idle.
Proof.
  intros Hg Ht Hf. apply paying_bind, (@paying_len Session session_shards _ _ _ _ Counted);
    [by constructor|done|..].
  - intros i n m _. apply SlotRead. unfold would_read. rewrite (from_split i). lia.
  - intros i n m Hi.
    assert (would_read i n m = n + shard_len i m) as Hw.
    { unfold would_read. rewrite (from_split i), Hi, from_none. lia. }
    cbn [paying]. destruct (cap <=? n + shard_len i m) eqn:E; bool_simpl.
    + exists idle. split; [constructor|done].
    + exists g. split; [|done]. destruct Hg as [-> | ->]; constructor. lia.
Qed.
Lemma admit_admitting did nb now :
  ∃ g, (g = idle ∨ g = Owed) ∧ admitting (admit_call st did nb now) (λ _ g, g = idle) g.
Proof.
  exists (match add_u64 overflow_checks (now_secs now) (ss_ttl_secs st) with
     | Panicked => idle | Returned _ => Owed end).
  split; [destruct (add_u64 _ _ _); auto|]. unfold admit_call.
  destruct (add_u64 _ _ _) as [v|]; (apply admitting_bind; [auto with shrinks|]); [|done].
  intros _. apply paying_brief; [done|by constructor|]. intros m. exists idle.
  split; [constructor|done].
Qed.
Lemma create_admitting did clean nb now :
  admitting (create_call st did clean nb now) (λ _ g, g = idle) idle.
Proof.
  destruct (admit_admitting did nb now) as (g & Hg & Ha).
  apply (full_admitting _ _ g); [done| |exact Ha].
  apply admitting_bind; [apply shrinks_cleanup|]. intros [[]|]; [|done].
  by apply (full_admitting _ _ g).
Qed.
Lemma session_calls_admitting op : admitting (session_call st op) (λ _ g, g = idle) idle.
Proof.
  destruct op as [did clean nb now|t now|t|did|now].
  - apply paying_bind. eapply paying_mono; [apply create_admitting|done].
  - apply admitting_bind; [|done]. unfold validate_call, get_call. shrink.
  - apply admitting_bind; [apply shrinks_remove_call|done].
  - apply admitting_bind; [apply shrinks_remove_all|done].
  - apply admitting_bind; [apply shrinks_cleanup|]. by intros [[]|].
Qed.

(** The calls that know something are under way. *)
Definition busy (g : Slot) : nat := if decide (g = idle) then 0 else 1.
(** After [r] removals, the calls that own a slot or would take one. *)
Definition load (r : nat) m (g : Slot) : nat :=
  match g with Owed => 1 | Counted i n => if would_read i n m <? cap + r then 1 else 0 end.
Definition sum_of (f : Slot → nat) (gs : list Slot) : nat := list_sum (map f gs).
Definition within (k : nat) m (gs : list Slot) : Prop :=
  sum_of busy gs ≤ k ∧ ∀ r, cap + r ≤ size m → size m + sum_of (load r m) gs < cap + k + r.

Lemma sum_of_cons f g gs : sum_of f (g :: gs) = f g + sum_of f gs.
Proof. done. Qed.
Lemma sum_of_app f gs gs' : sum_of f (gs ++ gs') = sum_of f gs + sum_of f gs'.
Proof. unfold sum_of. by rewrite map_app, list_sum_app. Qed.
Lemma sum_of_insert f gs i g g' : gs !! i = Some g →
  sum_of f (<[i := g']> gs) + f g = sum_of f gs + f g'.
Proof.
  revert i. induction gs as [|h gs IH]; intros [|i]; [done|done| |].
  - intros [= ->]. change (<[0 := g']> (g :: gs)) with (g' :: gs). rewrite !sum_of_cons. lia.
  - intros Hi. specialize (IH i Hi). change (<[S i := g']> (h :: gs)) with (h :: <[i := g']> gs).
    rewrite !sum_of_cons. lia.
Qed.
Lemma sum_of_le f f' gs : (∀ g, f g ≤ f' g) → sum_of f gs ≤ sum_of f' gs.
Proof. intros Hf. induction gs as [|g gs IH]; [done|]. rewrite !sum_of_cons. pose proof (Hf g). lia. Qed.
Lemma busy_in_flight ps gs :
  Forall2 (λ p g, admitting p (λ (_ : run SOut) g, g = idle) g) ps gs →
  sum_of busy gs ≤ in_flight ps.
Proof.
  unfold in_flight. induction 1 as [|p g ps gs Hp Hps IH]; [done|].
  rewrite sum_of_cons, filter_cons.
  assert (busy g ≤ 1) by (unfold busy; destruct (decide _); lia).
  destruct p as [r|A f k|A may k|e k]; cbn [paying finished] in *.
  - rewrite decide_False by done. subst g. exact IH.
  - rewrite decide_True by done. cbn [length]. lia.
  - rewrite decide_True by done. cbn [length]. lia.
  - rewrite decide_True by done. cbn [length]. lia.
Qed.
Lemma load_idle r m : cap + r ≤ size m → load r m idle = 0.
Proof.
  intros Hr. cbn [load]. unfold would_read. rewrite from_all.
  destruct (_ <? _) eqn:E; bool_simpl; [lia|done].
Qed.
Lemma load_busy r m g : cap + r ≤ size m → load r m g ≤ busy g.
Proof.
  intros Hr. unfold busy. destruct (decide (g = idle)) as [->|_]; [by rewrite load_idle|].
  destruct g; cbn [load]; [case_match|]; lia.
Qed.
(** A removal brings every reading down by at most what it takes. *)
Lemma load_subseteq r m m' g : m' ⊆ m → load r m' g ≤ load (r + (size m - size m')) m g.
Proof.
  intros Hs. destruct g as [i n|]; [|done]. cbn [load]. unfold would_read.
  pose proof (filter_loss (λ kv, i ≤ shard kv.1) m m' Hs) as Hl.
  pose proof (map_subseteq_size _ _ Hs). unfold from.
  do 2 (destruct (_ <? _) eqn:?; bool_simpl); lia.
Qed.
Lemma load_insert r m t s g : load r (<[t := s]> m) g ≤ load r m g.
Proof.
  destruct g as [i n|]; [|done]. cbn [load]. unfold would_read, from.
  pose proof (filter_insert (λ k, i ≤ shard k) m t s).
  do 2 (destruct (_ <? _) eqn:?; bool_simpl); lia.
Qed.
(** Every access keeps the bound. *)
Lemma within_step k m gs i g m' g' : within k m gs → gs !! i = Some g → moves m g m' g' →
  sum_of busy (<[i := g']> gs) ≤ k → within k m' (<[i := g']> gs).
Proof.
  intros [Hb Hw] Hi Hm Hb'. split; [done|]. intros r Hr.
  assert (∀ f, sum_of f (<[i := g']> gs) + f g = sum_of f gs + f g') as Hf
    by (intros f; by apply sum_of_insert).
  destruct Hm as [g m' Hs|g|j n j' n' Heq|j n Hlt|t s].
  - rewrite list_insert_id by done. pose proof (map_subseteq_size _ _ Hs).
    specialize (Hw (r + (size m - size m')) ltac:(lia)).
    pose proof (sum_of_le _ _ gs (λ g, load_subseteq r m m' g Hs)). lia.
  - specialize (Hw r Hr). specialize (Hf (load r m)). rewrite load_idle in Hf by done. lia.
  - specialize (Hw r Hr). specialize (Hf (load r m)). cbn [load] in Hf. rewrite Heq in Hf. lia.
  - specialize (Hw r Hr). specialize (Hf (load r m)). cbn [load] in Hf.
    destruct (_ <? _) eqn:E; bool_simpl; lia.
  - pose proof (size_insert_le m t s) as Hsize.
    destruct (decide (cap + r ≤ size m)) as [Hr'|Hr'].
    + specialize (Hw r Hr'). specialize (Hf (load r (<[t := s]> m))).
      rewrite load_idle in Hf by done. cbn [load] in Hf.
      pose proof (sum_of_le _ _ gs (λ g, load_insert r m t s g)). lia.
    + specialize (Hf busy). change (busy Owed) with 1 in Hf. change (busy idle) with 0 in Hf.
      pose proof (sum_of_le _ _ (<[i := idle]> gs) (λ g, load_busy r (<[t := s]> m) g Hr)). lia.
Qed.
End capacity.

(** ** Two logins of one DID that race *)

Section race.
Context `{Hex, Chrono, Profile, SS : SessionShards}.
Context (st : SessionStore) (did : string) (clean now : date_time) (valid_until : Z).
Context (Hvalid : add_u64 overflow_checks (now_secs now) (ss_ttl_secs st) = Returned valid_until).
Implicit Types m : shared Session.

Definition new_session (nb : bytes) : Session :=
  {| se_did := did; se_token := hex_encode nb; se_valid_until := valid_until;
     se_created_at := now_secs now |}.
(** Two calls that start together on a store nobody else is using, and end. *)
Definition two_logins m m' : Prop :=
  ∃ nb1 nb2, sys_run (session_calls st) (m, [])
    (m', [Ret (Returned (SCreated (Returned (Ok (new_session nb1)))));
          Ret (Returned (SCreated (Returned (Ok (new_session nb2)))))]).

Lemma full_alone m Q : Q m (ss_max_sessions st <=? size m) →
  alone (full_call st) m Q.
Proof. intros HQ. by apply alone_bind, alone_len. Qed.
Lemma own_sessions m es : es ≡ₚ map_to_list m →
  filter (λ s, se_did s = did) es.*2 ≡ₚ values (of_did did m).
Proof.
  intros Hes. rewrite (values_perm _ _ Hes). symmetry. unfold of_did.
  exact (values_filter (λ s, se_did s = did) m).
Qed.
(** What [create] does at the quota, up to the removal of its victim and from
    there. *)
Lemma login_in_two m nb t c : size m < ss_max_sessions st →
  ss_max_sessions_per_did st ≤ size (of_did did m) → oldest_of did m = Some (t, c) →
  ∃ w, prog_steps m (session_call st (SCreate did clean nb now)) m w ∧
    ∀ m1, prog_steps m1 w (<[hex_encode nb := new_session nb]> (delete t m1))
      (Ret (Returned (SCreated (Returned (Ok (new_session nb)))))).
Proof.
  intros Hcap Hquota Ht.
  eexists (((_ ← remove_call t; Ret tt) ≫= _) ≫= _). split.
  - apply prog_steps_bind. eapply (steps_bind_alone _ _ _ _ _ (λ m' b, m' = m ∧ b = false)).
    + apply full_alone. split; [done|]. apply Nat.leb_gt. lia.
    + intros ? ? [-> ->]. unfold admit_call. rewrite Hvalid. apply prog_steps_bind.
      eapply (steps_bind_alone _ _ _ _ _ (λ m' ss, m' = m ∧ ss ≡ₚ values (of_did did m))).
      * apply alone_bind, alone_iter. intros es Hes. split; [done|]. by apply own_sessions.
      * intros ? ss [-> Hss]. cbv beta zeta.
        rewrite (created_before_head _ (map (λ s, (se_token s, se_created_at s))
          (values (of_did did m)))) by by apply Permutation_map.
        fold (oldest_of did m). rewrite Ht, length_map, (Permutation_length Hss), values_length.
        rewrite (proj2 (Nat.ltb_ge _ _)) by done. constructor.
  - intros m1. do 4 (eapply StepsThen; [by split|]). constructor.
Qed.
Lemma of_did_insert_own m t s : se_did s = did → m !! t = None →
  size (of_did did (<[t := s]> m)) = S (size (of_did did m)).
Proof.
  intros Hs Hm. unfold of_did. rewrite map_filter_insert_True by done.
  rewrite map_size_insert_None; [done|]. apply map_lookup_filter_None_2. by left.
Qed.
Lemma login_pair m nb1 nb2 : keyed m → size m < ss_max_sessions st →
  ss_max_sessions_per_did st ≤ size (of_did did m) → size (of_did did m) ≠ 0 →
  m !! hex_encode nb1 = None → m !! hex_encode nb2 = None → hex_encode nb1 ≠ hex_encode nb2 →
  ∃ m', two_logins m m' ∧ keyed m' ∧ size m' = S (size m) ∧
    size (of_did did m') = S (size (of_did did m)) ∧
    ∀ k, m !! k = None → k ≠ hex_encode nb1 → k ≠ hex_encode nb2 → m' !! k = None.
Proof.
  intros Hkey Hcap Hquota Hne Hf1 Hf2 Hf12.
  destruct (oldest_of_is_Some did m Hne) as [[t c] Ht].
  destruct (oldest_of_spec _ _ _ _ Hkey Ht) as (s & Hs & Hd & _).
  destruct (login_in_two m nb1 t c) as (w1 & Ha1 & Hb1); [done..|].
  destruct (login_in_two m nb2 t c) as (w2 & Ha2 & Hb2); [done..|].
  set (s1 := new_session nb1) in *. set (s2 := new_session nb2) in *.
  assert (t ≠ hex_encode nb1) as Hn1 by congruence.
  assert (delete t m !! hex_encode nb1 = None) as Hd1 by by apply lookup_delete_None; right.
  set (m1 := <[hex_encode nb1 := s1]> (delete t m)) in *.
  assert (delete t m1 = m1) as Hm1
    by (apply delete_id; subst m1; by rewrite lookup_insert_ne, lookup_delete_eq).
  assert (m1 !! hex_encode nb2 = None) as Hd2
    by (subst m1; rewrite lookup_insert_ne by done; by apply lookup_delete_None; right).
  exists (<[hex_encode nb2 := s2]> m1). split_and!.
  - exists nb1, nb2. specialize (Hb2 m1). rewrite Hm1 in Hb2.
    eapply (sys_run_race _ m _ _ w1 w2); [| |exact Ha1|exact Ha2|apply Hb1|apply Hb2]; by eexists.
  - apply (keyed_insert _ s2), (keyed_insert _ s1). by eapply keyed_subseteq; [apply delete_subseteq|].
  - rewrite map_size_insert_None by done. subst m1. rewrite map_size_insert_None by done.
    by rewrite (size_delete_in m t s).
  - rewrite of_did_insert_own by done. subst m1. rewrite of_did_insert_own by done.
    by rewrite (of_did_delete did m t s).
  - intros k Hk Hk1 Hk2. rewrite lookup_insert_ne by done. subst m1.
    rewrite lookup_insert_ne by done. apply lookup_delete_None. by right.
Qed.
(** A login under every bound. *)
Lemma login_below m nb : size m < ss_max_sessions st →
  size (of_did did m) < ss_max_sessions_per_did st →
  prog_steps m (session_call st (SCreate did clean nb now)) (<[hex_encode nb := new_session nb]> m)
    (Ret (Returned (SCreated (Returned (Ok (new_session nb)))))).
Proof.
  intros Hcap Hquota.
  assert (alone (session_call st (SCreate did clean nb now)) m (λ m' r,
    m' = <[hex_encode nb := new_session nb]> m ∧
    r = Returned (SCreated (Returned (Ok (new_session nb)))))) as Ha.
  { apply alone_bind, alone_bind, full_alone. rewrite (proj2 (Nat.leb_gt _ _)) by done.
    apply alone_bind, alone_bind, alone_bind, alone_iter. intros es Hes. cbn [alone].
    rewrite length_map, (Permutation_length (own_sessions m es Hes)), values_length.
    rewrite (proj2 (Nat.ltb_lt _ _)) by done. by rewrite Hvalid. }
  by destruct (alone_steps _ _ _ Ha) as (m' & r & Hs & -> & ->).
Qed.
(** A purge that finds nothing expired, up to its second reading of the length. *)
Lemma purge_in_two m tick : overflow_checks = true →
  map_Forall (λ _ s, now_secs tick < se_valid_until s)%Z m →
  ∃ w, prog_steps m (session_call st (SCleanup tick)) m w ∧
    ∀ m1, size m < size m1 → prog_steps m1 w m1 (Ret Panicked).
Proof.
  intros Hchecks Hlive.
  eexists (((l ← len_call;
    Ret (sub_u64 overflow_checks (Z.of_nat (size m)) (Z.of_nat l))) ≫= _) ≫= _). split.
  - apply prog_steps_bind, prog_steps_bind.
    eapply (steps_bind_alone _ _ _ _ _ (λ m' l, m' = m ∧ l = size m)); [by apply alone_len|].
    intros ? ? [-> ->]. eapply (steps_bind_alone _ _ _ _ _ (λ m' _, m' = m)).
    + apply alone_retain. rewrite live_sessions_filter. apply map_filter_id. intros t s Ht.
      by apply (Hlive t).
    + intros ? _ ->. constructor.
  - intros m1 Hlt.
    assert (sub_u64 overflow_checks (Z.of_nat (size m)) (Z.of_nat (size m1)) = Panicked) as Hsub
      by (unfold sub_u64; by rewrite (proj2 (Z.leb_gt _ _)), Hchecks by lia).
    match goal with |- prog_steps _ ?w _ _ => assert (alone w m1 (λ m' r, m' = m1 ∧ r = Panicked))
      as (m' & r & Hs & -> & ->)%alone_steps; [|exact Hs] end.
    apply alone_bind, alone_bind, alone_bind, alone_len. cbn [alone]. by rewrite Hsub.
Qed.
End race.

Section properties.
Context `{Hex, Chrono, Profile, SS : SessionShards}.
Implicit Types (st : SessionStore) (m : shared Session).

(** C11: a session is valid only if it was created, under concurrency. Take any
    class [P] of tokens and DIDs of which the store holds no session and [create]
    is asked for none. Then however the calls interleave, no [validate] accepts
    such a token for such a DID: no token is ever accepted for another DID than
    the one it was created for, and a removed token stays dead. *)
Theorem uncreated_session_never_valid st (P : string → string → bool) m m' ps :
  (∀ t s, m !! t = Some s → P t (se_did s) = false) →
  sys_run (λ p, ∃ op, p = session_call st op ∧ creates_none P op) (m, []) (m', ps) →
  Forall (λ r, validates P r = false) (results ps).
Proof.
  intros Hm Hrun. eapply (keeps_results (holds_none P)); [|exact Hm|exact Hrun].
  intros p (op & -> & Hop). by apply session_calls_quiet.
Qed.

(** C12: the global cap under concurrency. From a store below its cap plus [k],
    while at most [k] calls are under way at a time, the store never reaches its
    cap plus [k] sessions, however the keys are sharded and though a length is
    added up shard by shard while other calls insert and remove. With calls made
    one at a time the bound is the cap. *)
Theorem session_cap_concurrent st k m m' ps :
  size m < ss_max_sessions st + k →
  sys_run_within (session_calls st) k (m, []) (m', ps) →
  size m' < ss_max_sessions st + k.
Proof.
  intros Hm Hrun.
  destruct (sys_invariant (λ _, True) (moves st) (session_calls st) (λ _ g, g = Counted 0 0)
    (Counted 0 0) (λ c, in_flight c.2 ≤ k) (within st k) m [] [] m' ps) as (gs & [_ HJ] & _).
  - intros p [op ->]. apply session_calls_admitting.
  - intros s gs [Hb HJ]. unfold within. rewrite sum_of_app. change (sum_of busy [Counted 0 0]) with 0.
    split; [lia|]. intros r Hr. specialize (HJ r Hr). rewrite sum_of_app, sum_of_cons, load_idle by done.
    change (sum_of _ []) with 0. lia.
  - intros s gs i g s' g' ps' HJ Hi Hpay Ht Hk. cbn [snd] in Hk. apply busy_in_flight in Ht.
    eapply within_step; [exact HJ|exact Hi|exact Hpay|lia].
  - exact Hrun.
  - split; [cbn; lia|]. intros r Hr. change (sum_of _ []) with 0. lia.
  - constructor.
  - destruct (decide (ss_max_sessions st ≤ size m')) as [Hge|]; [|lia].
    specialize (HJ 0 ltac:(lia)). lia.
Qed.

(** The calls refine the functions of the sequential store over the in-memory
    backend: a call that nothing interferes with returns what they return and
    leaves what they leave, and its purge does not panic. *)
Theorem session_calls_refine st op :
  alone (session_call st op) (ss_backend st)
    (λ m r, m = ss_backend (s_step st op).1 ∧ r = Returned (s_step st op).2).
Proof. by apply session_call_alone. Qed.

(** C25: what the quota of a DID is worth under concurrency. Two logins of one
    DID that start together at its quota both remove its oldest session, one
    removal finding nothing, and leave the DID with one session more. However
    many such pairs come one after the other, never more than two calls at a
    time, each adds one, until the whole store is full of this DID's sessions. *)
Theorem racing_logins_outgrow_quota st did (clean now : date_time) valid_until m (l : list (bytes * bytes)) :
  add_u64 overflow_checks (now_secs now) (ss_ttl_secs st) = Returned valid_until →
  keyed m → ss_max_sessions_per_did st ≤ size (of_did did m) → size (of_did did m) ≠ 0 →
  size m + length l ≤ ss_max_sessions st →
  NoDup (pair_tokens l) → Forall (λ t, m !! t = None) (pair_tokens l) →
  ∃ m', nsteps (two_logins st did now valid_until) (length l) m m' ∧
    size (of_did did m') = size (of_did did m) + length l ∧ size m' = size m + length l.
Proof.
  intros Hv. revert m. induction l as [|[nb1 nb2] l IH]; intros m Hkey Hq Hne Hcap Hnd Hfresh.
  - exists m. cbn [length]. rewrite !Nat.add_0_r. split; [constructor|done].
  - change (pair_tokens ((nb1, nb2) :: l)) with
      (hex_encode nb1 :: hex_encode nb2 :: pair_tokens l) in *. cbn [length] in *.
    apply list.NoDup_cons in Hnd as [[Hn12 Hn1]%not_elem_of_cons [Hn2 Hnd]%list.NoDup_cons].
    apply Forall_cons in Hfresh as [Hf1 [Hf2 Hfresh]%Forall_cons].
    destruct (login_pair st did clean now valid_until Hv m nb1 nb2)
      as (m1 & Hr & Hk1 & Hs & Hd & Hk); [done|lia|done..|].
    destruct (IH m1) as (m2 & Hrs & Hd2 & Hs2); [done|lia|lia|lia|done| |].
    + apply Forall_forall. intros t Hin. rewrite Forall_forall in Hfresh.
      apply Hk; [by apply Hfresh|congruence..].
    + exists m2. split; [by econstructor|lia].
Qed.

(** C24: a purge is not safe to run beside a login. With overflow checks, the
    background purge panics when a session is created between its two readings
    of the number of sessions: it subtracts the larger from the smaller. *)
Theorem purge_race_panics st did (clean now tick : date_time) valid_until m nb :
  overflow_checks = true →
  add_u64 overflow_checks (now_secs now) (ss_ttl_secs st) = Returned valid_until →
  size m < ss_max_sessions st → size (of_did did m) < ss_max_sessions_per_did st →
  map_Forall (λ _ s, now_secs tick < se_valid_until s)%Z m → m !! hex_encode nb = None →
  ∃ m' s, sys_run (session_calls st) (m, [])
    (m', [Ret (Returned (SCreated (Returned (Ok s)))); Ret Panicked]).
Proof.
  intros Hchecks Hv Hcap Hquota Hlive Hfresh.
  destruct (purge_in_two st m tick Hchecks Hlive) as (w & Ha & Hb).
  pose proof (login_below st did clean now valid_until Hv m nb Hcap Hquota) as Hl.
  eexists _, _. eapply sys_run_race; [by eexists (SCreate did clean nb now)|
    by eexists (SCleanup tick)|apply StepsDone|exact Ha|exact Hl|].
  apply Hb. rewrite map_size_insert_None by done. lia.
Qed.
End properties.

Section witnesses.
Import Fixtures.Instances.
#[local] Instance two_shards : SessionShards := by_length.

Definition one_session : shared Session := {[sample_token 1 := sample_session]}.
Lemma one_session_keyed : keyed one_session.
Proof. by apply map_Forall_singleton. Qed.
(** The sample token, for anyone but its owner. *)
Definition stolen (t did : string) : bool :=
  String.eqb t (sample_token 1) && negb (String.eqb did sample_key_did).
Definition validated_here : run SOut :=
  Returned (SValidated (sample_token 1) (sample_time 10) (Ok sample_key_did)).
Lemma uncreated_session_never_valid_witness :
  ∃ m', sys_run (λ p, ∃ op, p = session_call sample_sessions op ∧
      creates_none stolen op) (one_session, []) (m', [Ret validated_here]) ∧
    Forall (λ r, validates stolen r = false) (results [Ret (St := shared Session) validated_here]).
Proof.
  destruct (sys_run_alone (λ p, ∃ op, p = session_call sample_sessions op ∧
      creates_none stolen op)
    (session_call sample_sessions (SValidate (sample_token 1) (sample_time 10)))
    one_session [] (λ _ r, r = validated_here)) as (m' & r & Hr & ->).
  - by eexists.
  - exact (session_call_alone (set_backend sample_sessions one_session)
      (SValidate (sample_token 1) (sample_time 10)) (λ _ r, r = validated_here)
      ltac:(reflexivity)).
  - exists m'. split; [exact Hr|].
    eapply (uncreated_session_never_valid sample_sessions stolen one_session);
      [|exact Hr].
    intros t s Hs. unfold one_session in Hs. apply lookup_singleton_Some in Hs as [<- <-]. vm_refl.
Defined.

Definition small_sessions : SessionStore := session_store_with_capacity 3600 4 1.
Definition sample_pairs : list (bytes * bytes) :=
  [(sample_nonce 2, sample_nonce 3); (sample_nonce 4, sample_nonce 5)].
Lemma racing_logins_outgrow_quota_witness :
  ss_max_sessions_per_did small_sessions = 1 ∧
  ∃ m', nsteps (two_logins small_sessions sample_key_did (sample_time 0) 1773752400) 2
    one_session m' ∧ size (of_did sample_key_did m') = 3.
Proof.
  split; [done|].
  destruct (racing_logins_outgrow_quota small_sessions sample_key_did (sample_time 0)
    (sample_time 0) 1773752400 one_session sample_pairs) as (m' & Hr & Hs & _).
  - vm_refl.
  - apply one_session_keyed.
  - apply Nat.leb_le. vm_refl.
  - apply Nat.eqb_neq. vm_refl.
  - apply Nat.leb_le. vm_refl.
  - apply (bool_decide_eq_true_1 _). vm_refl.
  - apply (bool_decide_eq_true_1 _). vm_refl.
  - exists m'. split; [exact Hr|]. rewrite Hs. vm_refl.
Defined.
Lemma session_cap_concurrent_witness :
  ∃ m', sys_run (session_calls sample_sessions) (one_session, []) m' ∧
    length m'.2 = 2 ∧ size m'.1 < 4.
Proof.
  destruct (login_pair sample_sessions sample_key_did (sample_time 0) (sample_time 0) 1773752400
    ltac:(vm_refl) one_session (sample_nonce 2) (sample_nonce 3)) as (m' & (nb1 & nb2 & Hr) & _).
  - apply one_session_keyed.
  - apply Nat.ltb_lt. vm_refl.
  - apply Nat.leb_le. vm_refl.
  - apply Nat.eqb_neq. vm_refl.
  - vm_refl.
  - vm_refl.
  - apply String.eqb_neq. vm_refl.
  - eexists. split; [exact Hr|]. split; [done|].
    apply (session_cap_concurrent sample_sessions 2 one_session _ _ ltac:(apply Nat.ltb_lt; vm_refl)
      (sys_run_few _ 2 _ _ Hr (le_n 2))).
Defined.
Lemma purge_race_panics_witness :
  ∃ m' s, sys_run (session_calls sample_sessions) (one_session, [])
    (m', [Ret (Returned (SCreated (Returned (Ok s)))); Ret Panicked]).
Proof.
  apply (purge_race_panics sample_sessions sample_eip155_did (sample_time 20) (sample_time 20)
    (sample_time 20) 1773752420 one_session (sample_nonce 2)).
  - vm_refl.
  - vm_refl.
  - apply Nat.ltb_lt. vm_refl.
  - apply Nat.ltb_lt. vm_refl.
  - apply (bool_decide_eq_true_1 _). vm_refl.
  - vm_refl.
Defined.
End witnesses.
