(* ===== verification/Wire.v ===== *)
(** * The bodies on the wire: src/wire.rs

    The three records and their derived JSON: the members the serializers
    write, in order, and what the readers make of an object. *)

From S2P Require Import Prelude Crates.

(** [ChallengeEnvelope]: the body of [GET /auth/challenge]. *)
Record ChallengeEnvelope : Type := {
  en_nonce : string;
  en_message : string;
  en_expires_at : Z;
}.
(** [wire::SessionRequest]: the body of [POST /auth/session]. *)
Record WireSessionRequest : Type := {
  wr_did : string;
  wr_nonce : string;
  wr_signature : string;
  wr_public_key : option string;
}.
(** [SessionResponse]: the answer to it. *)
Record SessionResponse : Type := {
  rp_did : string;
  rp_token : string;
  rp_valid_until : Z;
  rp_created_at : Z;
}.

(** ** The derived serializers *)

Definition envelope_to_json (e : ChallengeEnvelope) : json :=
  JObject [("nonce", JString (en_nonce e)); ("message", JString (en_message e));
    ("expires_at", JNumber (show_Z (en_expires_at e)))].
Definition session_response_to_json (r : SessionResponse) : json :=
  JObject [("did", JString (rp_did r)); ("token", JString (rp_token r));
    ("valid_until", JNumber (show_Z (rp_valid_until r)));
    ("created_at", JNumber (show_Z (rp_created_at r)))].
(** [public_key] is left out when absent. *)
Definition session_request_to_json (r : WireSessionRequest) : json :=
  JObject ([("did", JString (wr_did r)); ("nonce", JString (wr_nonce r));
      ("signature", JString (wr_signature r))]
    ++ match wr_public_key r with Some pk => [("public_key", JString pk)] | None => [] end).

(** ** The derived readers: a known member given twice is refused, an unknown
    one is skipped, and an absent or null [public_key] is none. The members
    may also come as an array, in order. *)

Definition session_request_of_json (v : json) : option WireSessionRequest :=
  match v with
  | JObject ms =>
      did ← one_string "did" ms; nonce ← one_string "nonce" ms;
      signature ← one_string "signature" ms; public_key ← optional_string "public_key" ms;
      Some {| wr_did := did; wr_nonce := nonce; wr_signature := signature;
              wr_public_key := public_key |}
  | JArray (JString did :: JString nonce :: JString signature :: rest) =>
      public_key ← optional_text rest;
      Some {| wr_did := did; wr_nonce := nonce; wr_signature := signature;
              wr_public_key := public_key |}
  | _ => None
  end.

Definition envelope_of_json (v : json) : option ChallengeEnvelope :=
  match v with
  | JObject ms =>
      nonce ← one_string "nonce" ms; message ← one_string "message" ms;
      expires_at ← one_u64 "expires_at" ms;
      Some {| en_nonce := nonce; en_message := message; en_expires_at := expires_at |}
  | JArray [JString nonce; JString message; v] =>
      expires_at ← as_u64_value v;
      Some {| en_nonce := nonce; en_message := message; en_expires_at := expires_at |}
  | _ => None
  end.
Definition session_response_of_json (v : json) : option SessionResponse :=
  match v with
  | JObject ms =>
      did ← one_string "did" ms; token ← one_string "token" ms;
      valid_until ← one_u64 "valid_until" ms; created_at ← one_u64 "created_at" ms;
      Some {| rp_did := did; rp_token := token; rp_valid_until := valid_until;
              rp_created_at := created_at |}
  | JArray [JString did; JString token; u; c] =>
      valid_until ← as_u64_value u; created_at ← as_u64_value c;
      Some {| rp_did := did; rp_token := token; rp_valid_until := valid_until;
              rp_created_at := created_at |}
  | _ => None
  end.

(** What a request says is what its text says. *)
Lemma session_request_json r : session_request_of_json (session_request_to_json r) = Some r.
Proof. by destruct r as [d n s [pk|]]. Qed.
Lemma envelope_json e : (0 ≤ en_expires_at e < u64_bound)%Z →
  envelope_of_json (envelope_to_json e) = Some e.
Proof.
  intros Hz. destruct e as [n m x]. unfold envelope_of_json, envelope_to_json, one_u64, one_string.
  cbn -[as_u64_value]. by rewrite as_u64_number.
Qed.
Lemma session_response_json r : (0 ≤ rp_valid_until r < u64_bound)%Z → (0 ≤ rp_created_at r < u64_bound)%Z →
  session_response_of_json (session_response_to_json r) = Some r.
Proof.
  intros Hv Hc. destruct r as [d t v c].
  unfold session_response_of_json, session_response_to_json, one_u64, one_string.
  cbn -[as_u64_value]. rewrite !as_u64_number by done. done.
Qed.
