(* ===== verification/Signer.v ===== *)
(** * Signers: src/signer.rs

    Signing waits on something outside the program (a KMS, a wallet), so it
    threads the world. *)

From S2P Require Import Prelude Crates.

Section defs.
Context `{World}.

Definition SignError : Type := string.
(** [SignError]'s [Display]. *)
Definition sign_error_display (e : SignError) : string := "signing failed: " +:+ e.
(** The trait [Signer]. *)
Record Signer : Type := {
  signer_did : string;
  sg_sign : world → string → world * result bytes SignError;
  sg_public_key : option bytes;
}.
(** [FnSigner::new]: a synchronous closure, no public key. *)
Definition FnSigner (did : string) (sign : string → result bytes SignError) : Signer :=
  {| signer_did := did; sg_sign := λ w message, (w, sign message); sg_public_key := None |}.
End defs.
