(* ===== verification/Client.v ===== *)
(** * The login client: src/client.rs

    The two binding checks, the login flow and the session that logs in again.
    A computation [Eff A] threads the outside world and records, in order, the
    requests it sends and the messages it hands to the signer, so that the
    theorems can say what the client never does. *)

From S2P Require Import Prelude Crates Errors Keys Did Suites Aqua Methods DidFormat Principal Message Types Wire Signer Fixtures.

Section defs.
Context `{Ed25519, P256, K256, MlDsa, Base58, Base64, Hex, Hashes, Features, Urls, World, !Reqwest}.

(** ** Effects *)

Inductive Event : Type :=
| Sent (r : request)
| Signing (message : string).
Definition Eff (A : Type) : Type := world → list Event * world * A.
Definition eff_ret {A} (a : A) : Eff A := λ w, ([], w, a).
Definition eff_bind {A B} (x : Eff A) (f : A → Eff B) : Eff B :=
  λ w, let '(e1, w1, a) := x w in let '(e2, w2, b) := f a w1 in (e1 ++ e2, w2, b).

(** ** Using a signer *)

Definition run_sign (signer : Signer) (message : string) : Eff (result bytes SignError) :=
  λ w, let '(w', r) := sg_sign signer w message in ([Signing message], w', r).
Definition send (r : request) : Eff (result response http_error) :=
  λ w, let '(w', x) := rq_send w r in ([Sent r], w', x).

(** ** Errors *)

Inductive AuthClientError : Type :=
| Http (e : http_error)
| Sign (why : string)
| Auth (e : AuthError)
| MessageIdentifierMismatch (expected actual : string)
| UriOriginMismatch (message_origin client_origin : string).

(** ** The binding checks *)

(** [s.replace(':', "%3A")]. *)
Fixpoint urlencoded (s : string) : string :=
  match s with
  | EmptyString => EmptyString
  | String c s' => if Ascii.eqb ":" c then "%3A" +:+ urlencoded s' else String c (urlencoded s')
  end.

Fixpoint first_uri (lines : list string) : option string :=
  match lines with
  | [] => None
  | line :: rest =>
      match strip_prefix "URI:" (trim_end_matches "013"%char line) with
      | Some v => Some v
      | None => first_uri rest
      end
  end.
Definition uri_line (message : string) : option string :=
  v ← first_uri (split "010"%char message);
  let uri := trim v in if str_is_empty uri then None else Some uri.

Definition origin_of (raw : string) : option string :=
  match url_parse raw with
  | Err _ => None
  | Ok u =>
      host ← url_host_str u;
      let scheme := to_lower (url_scheme u) in
      let host := to_lower host in
      Some (match url_port_or_known_default u with
            | Some port => scheme +:+ "://" +:+ host +:+ ":" +:+ show_Z port
            | None => scheme +:+ "://" +:+ host
            end)
  end.

Definition verify_uri_binding (message base_url : string) : result unit AuthClientError :=
  let client_origin := match origin_of base_url with
    | Some o => o
    | None => "<unparsable base_url: " +:+ base_url +:+ ">"
    end in
  let message_origin := match uri_line message with
    | None => "<message missing URI line>"
    | Some uri =>
        match origin_of uri with
        | Some origin => origin
        | None => "<unparsable URI line: " +:+ uri +:+ ">"
        end
    end in
  if String.eqb message_origin client_origin then Ok tt
  else Err (UriOriginMismatch message_origin client_origin).

(** The checks of [signed_session_request] that run before the key is used. *)
Definition check_envelope (envelope : ChallengeEnvelope) (base_url did : string)
  : result unit AuthClientError :=
  let? method := ok_or (find_did_method did) (Auth (Crypto (UnsupportedMethod did))) in
  let? expected := map_err (λ e, Auth (Crypto e)) (dm_address_for_message method did) in
  let? actual := ok_or (identifier_from_message (en_message envelope))
    (MessageIdentifierMismatch expected "<message missing identifier line>") in
  if negb (String.eqb actual expected) then Err (MessageIdentifierMismatch expected actual)
  else verify_uri_binding (en_message envelope) base_url.
Definition signed_session_request (envelope : ChallengeEnvelope) (base_url : string)
    (signer : Signer) : Eff (result WireSessionRequest AuthClientError) :=
  let did := signer_did signer in
  match check_envelope envelope base_url did with
  | Err e => eff_ret (Err e)
  | Ok _ =>
      eff_bind (run_sign signer (en_message envelope)) (λ r, eff_ret (
        let? sig_bytes := map_err (λ e, Sign (sign_error_display e)) r in
        Ok {| wr_did := did; wr_nonce := en_nonce envelope;
              wr_signature := "0x" +:+ hex_encode sig_bytes;
              wr_public_key := (λ pk, "0x" +:+ hex_encode pk) <$> sg_public_key signer |}))
  end.

(** ** The flow. [get], [post] and the two JSON readers are [reqwest]'s. *)

Context (get : string → request) (post_json : string → WireSessionRequest → request)
  (json_envelope : response → result ChallengeEnvelope http_error)
  (json_session : response → result SessionResponse http_error).

(** [.send().await?.error_for_status()?.json().await?]. *)
Definition fetch {A} (decode : response → result A http_error) (r : request)
  : Eff (result A AuthClientError) :=
  eff_bind (send r) (λ x, eff_ret (
    let? resp := map_err Http x in
    let? resp := map_err Http (rs_error_for_status resp) in
    map_err Http (decode resp))).

Definition authenticate (base_url : string) (signer : Signer)
  : Eff (result Session AuthClientError) :=
  let challenge_url := base_url +:+ "/auth/challenge?did=" +:+ urlencoded (signer_did signer) in
  eff_bind (fetch json_envelope (get challenge_url)) (λ x,
  match x with
  | Err e => eff_ret (Err e)
  | Ok envelope =>
      eff_bind (signed_session_request envelope base_url signer) (λ y,
      match y with
      | Err e => eff_ret (Err e)
      | Ok req =>
          eff_bind (fetch json_session (post_json (base_url +:+ "/auth/session") req)) (λ z,
          eff_ret (let? resp := z in
            Ok {| se_did := rp_did resp; se_token := rp_token resp;
                  se_valid_until := rp_valid_until resp;
                  se_created_at := rp_created_at resp |}))
      end)
  end).

Record AuthSession : Type := { as_base_url : string; as_session : Session }.
Definition login (base_url : string) (signer : Signer)
  : Eff (result AuthSession AuthClientError) :=
  eff_bind (authenticate base_url signer) (λ r, eff_ret (
    let? session := r in Ok {| as_base_url := base_url; as_session := session |})).

Definition UNAUTHORIZED : Z := 401.
(** [send]: the session after the call and its result. *)
Definition auth_send (s : AuthSession) (signer : Signer) (build : string → string → request)
  : Eff (AuthSession * result response AuthClientError) :=
  eff_bind (send (build (as_base_url s) (se_token (as_session s)))) (λ x,
  match x with
  | Err e => eff_ret (s, Err (Http e))
  | Ok first =>
      if negb (rs_status first =? UNAUTHORIZED)%Z then eff_ret (s, Ok first)
      else
        eff_bind (authenticate (as_base_url s) signer) (λ r,
        match r with
        | Err e => eff_ret (s, Err e)
        | Ok session =>
            let s := {| as_base_url := as_base_url s; as_session := session |} in
            eff_bind (send (build (as_base_url s) (se_token session))) (λ y,
            eff_ret (s, map_err Http y))
        end)
  end).
End defs.

Section proofs.
Context `{Ed25519, P256, K256, MlDsa, Base58, Base64, Hex, Hashes, Features, Urls, World, !Reqwest, !UrlsLaws}.

(** An origin starts with a letter, so it is none of the placeholders. *)
Lemma origin_of_letter raw o : origin_of raw = Some o →
  match o with String c _ => is_lower c | EmptyString => false end = true.
Proof.
  unfold origin_of. destruct (url_parse raw) as [u|]; [|done].
  destruct (url_host_str u) as [h|]; [|done]. cbn.
  pose proof (url_scheme_letter u) as Hs. rewrite url_scheme_lower.
  destruct (url_scheme u) as [|c s]; [done|].
  intros [= <-]. by destruct (url_port_or_known_default u).
Qed.
Lemma verify_uri_binding_Ok message base :
  verify_uri_binding message base = Ok tt ↔
  ∃ uri o, uri_line message = Some uri ∧ origin_of uri = Some o ∧ origin_of base = Some o.
Proof.
  unfold verify_uri_binding. split.
  - destruct (uri_line message) as [uri|] eqn:Eu.
    + destruct (origin_of uri) as [o|] eqn:Eo.
      * destruct (origin_of base) as [o'|] eqn:Eb.
        -- destruct (String.eqb_spec o o') as [->|]; [|done]. eauto.
        -- pose proof (origin_of_letter _ _ Eo). destruct (String.eqb_spec o ("<unparsable base_url: " +:+ base +:+ ">")); [by subst|done].
      * destruct (origin_of base) as [o'|] eqn:Eb; [|done].
        pose proof (origin_of_letter _ _ Eb).
        destruct (String.eqb_spec ("<unparsable URI line: " +:+ uri +:+ ">") o'); [by subst|done].
    + destruct (origin_of base) as [o'|] eqn:Eb; [|done].
      pose proof (origin_of_letter _ _ Eb).
      destruct (String.eqb_spec "<message missing URI line>" o'); [by subst|done].
  - intros (uri & o & -> & -> & ->). by rewrite String.eqb_refl.
Qed.

(** What must hold of a message before this client signs it. *)
Definition bound_to (base did message : string) : Prop :=
  (∃ m id, find_did_method did = Some m ∧ dm_address_for_message m did = Ok id ∧
    identifier_from_message message = Some id) ∧
  ∃ uri o, uri_line message = Some uri ∧ origin_of uri = Some o ∧ origin_of base = Some o.
Lemma check_envelope_Ok en base did :
  check_envelope en base did = Ok tt ↔ bound_to base did (en_message en).
Proof.
  unfold check_envelope, bound_to. split.
  - destruct (find_did_method did) as [m|]; [|done]. cbn [ok_or].
    destruct (dm_address_for_message m did) as [id|] eqn:Ea; [|done]. cbn [map_err].
    destruct (identifier_from_message (en_message en)) as [a|] eqn:Ei; [|done]. cbn [ok_or].
    destruct (String.eqb_spec a id) as [->|]; [|done]. cbn [negb].
    intros Hb%verify_uri_binding_Ok. split; [|done]. by exists m, id.
  - intros [(m & id & Hm & Ha & Hi) Hb]. rewrite Hm. cbn [ok_or]. rewrite Ha. cbn [map_err].
    rewrite Hi. cbn [ok_or]. rewrite String.eqb_refl. by apply verify_uri_binding_Ok.
Qed.

(** What one login may do, in order: at most a request, a signature of a bound
    message and a second request. *)
Definition login_events (base did : string) (es : list Event) : Prop :=
  ∃ r1, es = [Sent r1] ∨ ∃ msg, bound_to base did msg ∧
    (es = [Sent r1; Signing msg] ∨ ∃ r2, es = [Sent r1; Signing msg; Sent r2]).

Context (get : string → request) (post_json : string → WireSessionRequest → request)
  (json_envelope : response → result ChallengeEnvelope http_error)
  (json_session : response → result SessionResponse http_error).

Lemma fetch_events {A} (decode : response → result A http_error) r w es w' x :
  fetch decode r w = (es, w', x) → es = [Sent r].
Proof.
  unfold fetch, eff_bind, send, eff_ret. destruct (rq_send w r) as [w1 y].
  by intros [= <- _ _].
Qed.
Lemma signed_session_request_events en base signer w es w' x :
  signed_session_request en base signer w = (es, w', x) →
  (es = [] ∧ ∃ e, x = Err e) ∨
  (es = [Signing (en_message en)] ∧ bound_to base (signer_did signer) (en_message en)).
Proof.
  unfold signed_session_request. destruct (check_envelope en base (signer_did signer)) as [[]|e] eqn:E.
  - unfold eff_bind, run_sign, eff_ret. destruct (sg_sign signer w (en_message en)) as [w1 y].
    intros [= <- _ _]. right. split; [done|]. by apply check_envelope_Ok.
  - intros [= <- _ <-]. left. eauto.
Qed.
Lemma authenticate_events base signer w es w' x :
  authenticate get post_json json_envelope json_session base signer w = (es, w', x) →
  login_events base (signer_did signer) es.
Proof.
  unfold authenticate. cbv zeta. unfold eff_bind at 1.
  destruct (fetch json_envelope _ w) as [[e1 w1] [en|e]] eqn:E1; apply fetch_events in E1 as ->.
  - unfold eff_bind at 1. destruct (signed_session_request en base signer w1) as [[e2 w2] y] eqn:E2.
    apply signed_session_request_events in E2 as [[-> [e ->]]|[-> Hb]].
    + unfold eff_ret. intros [= <- _ _]. eexists. by left.
    + destruct y as [req|e].
      * unfold eff_bind. destruct (fetch json_session _ w2) as [[e3 w3] z] eqn:E3.
        apply fetch_events in E3 as ->. unfold eff_ret. intros [= <- _ _].
        eexists. right. eexists. split; [done|]. right. by eexists.
      * unfold eff_ret. intros [= <- _ _]. eexists. right. eexists. split; [done|]. by left.
  - unfold eff_ret. intros [= <- _ _]. eexists. by left.
Qed.
Lemma login_events_signing base did es msg :
  login_events base did es → Signing msg ∈ es → bound_to base did msg.
Proof.
  intros (r1 & [->|(m & Hb & [->|(r2 & ->)])]) Hin;
    repeat (apply elem_of_cons in Hin as [Hin|Hin]; [simplify_eq; done|]);
    by apply not_elem_of_nil in Hin.
Qed.
Lemma login_events_length base did es : login_events base did es → length es ≤ 3.
Proof. intros (r1 & [->|(m & Hb & [->|(r2 & ->)])]); cbn; lia. Qed.

End proofs.

(** ** The honest server's challenge passes the checks *)

Section honest.
Context `{Ed25519, P256, K256, MlDsa, Base58, Base64, Hex, Hashes, Features, Urls, Chrono}.
Context `{!UrlsLaws, !HexLaws, !Base58Laws, !ChronoLaws}.

Lemma cr_free_line l : free_of "013"%char l = true → trim_end_matches "013"%char l = l.
Proof. intros Hl. by apply trim_end_matches_free, free_of_rev_head. Qed.
Lemma first_line_untrimmed d label :
  trim_end_matches "013"%char (d +:+ " wants you to sign in with your " +:+ label +:+ " account:")
    = d +:+ " wants you to sign in with your " +:+ label +:+ " account:".
Proof. apply trim_end_matches_free. by rewrite !str_rev_app. Qed.
(** A domain that looks like a URI line would be read as one. *)
Lemma first_uri_lines p id label rest :
  str_forallb graphic (mp_uri p) = true → str_forallb graphic id = true →
  starts_with "URI:" (mp_domain p) = false → starts_with "URI:" id = false →
  first_uri (message_lines p id label ++ rest) = Some (" " +:+ mp_uri p).
Proof.
  intros Hu Hid Hd Hs. unfold message_lines. cbn [app first_uri].
  rewrite first_line_untrimmed, (cr_free_line id) by by apply free_of_graphic.
  assert (strip_prefix "URI:" (mp_domain p +:+ " wants you to sign in with your " +:+ label
    +:+ " account:") = None) as ->.
  { unfold starts_with in Hd. apply (strip_prefix_app_None _ " "); [done|].
    by destruct (strip_prefix "URI:" (mp_domain p)). }
  unfold starts_with in Hs. destruct (strip_prefix "URI:" id); [done|].
  assert (∀ l, l ∈ [EmptyString; "Sign in to Aqua Node"] →
    strip_prefix "URI:" (trim_end_matches "013"%char l) = None) as Hc.
  { intros l [->|[->|[]%not_elem_of_nil]%elem_of_cons]%elem_of_cons; done. }
  rewrite !Hc by set_solver. rewrite cr_free_line.
  2:{ rewrite free_of_app. change (free_of _ "URI: ") with true. by apply free_of_graphic. }
  change ("URI: " +:+ mp_uri p) with ("URI:" +:+ (" " +:+ mp_uri p)).
  by rewrite strip_prefix_app.
Qed.
(** The challenge a server mints for the signer, with the dialed origin in its
    URI, passes both checks. *)
Lemma minted_is_bound p msg base o :
  validate_did_well_formed (mp_did p) = Ok tt → params_one_line p →
  build_message p = Ok msg → str_forallb graphic (mp_uri p) = true →
  str_is_empty (mp_uri p) = false →
  starts_with "URI:" (mp_domain p) = false →
  origin_of (mp_uri p) = Some o → origin_of base = Some o →
  bound_to base (mp_did p) msg.
Proof.
  intros Hv Hp Hb Hu Hne Hd Ho Hbase.
  destruct (build_message_split _ _ Hv Hp Hb) as (m & id & label & Hm & Ha & Hl & Hg & He & Hs).
  split.
  - exists m, id. do 2 (split; [done|]). by apply (identifier_line _ _ _ _ Hs).
  - exists (mp_uri p), o. split; [|done].
    unfold uri_line. rewrite Hs, first_uri_lines; [|done..|].
    + cbn. rewrite trim_space_graphic by done. by rewrite Hne.
    + destruct (identifier_graphic _ _ _ Hv Hm Ha) as (q & s & -> & Hq & _).
      by repeat (apply elem_of_cons in Hq as [->|Hq]; [done|]); apply not_elem_of_nil in Hq.
Qed.
End honest.

Section properties.
Context `{Ed25519, P256, K256, MlDsa, Base58, Base64, Hex, Hashes, Features, Urls, World, !Reqwest, !UrlsLaws}.
Context `{Chrono, !HexLaws, !Base58Laws, !ChronoLaws}.

(** C13: no relayed challenge reaches the key. Whatever the endpoint answers,
    every message a login hands to the signer names the identifier of the
    signer's own DID and carries a URI whose origin is the dialed one. *)
Theorem client_signs_only_bound get post_json json_envelope json_session base signer w es w' x msg :
  authenticate get post_json json_envelope json_session base signer w = (es, w', x) →
  Signing msg ∈ es → bound_to base (signer_did signer) msg.
Proof. intros He. by apply login_events_signing, (authenticate_events _ _ _ _ _ _ _ _ _ _ He). Qed.

(** C36: one retry, not a loop. [AuthSession::send] sends the built request; only
    when that one is answered [401] does it log in again, once, and it then
    sends the request rebuilt with the new token at most once. A call makes at
    most four requests and one signature. *)
Theorem auth_send_one_retry get post_json json_envelope json_session s signer build w es w' s' x :
  auth_send get post_json json_envelope json_session s signer build w = (es, w', (s', x)) →
  let first := Sent (build (as_base_url s) (se_token (as_session s))) in
  (es = [first] ∧ s' = s ∧
    match x with Ok r => rs_status r ≠ UNAUTHORIZED | Err e => ∃ h, e = Http h end) ∨
  ∃ login_es, login_events (as_base_url s) (signer_did signer) login_es ∧
    as_base_url s' = as_base_url s ∧
    ((es = first :: login_es ∧ s' = s ∧ is_ok x = false) ∨
     es = first :: login_es ++ [Sent (build (as_base_url s) (se_token (as_session s')))]).
Proof.
  unfold auth_send, eff_bind at 1, send at 1. destruct (rq_send w _) as [w1 [r|e]].
  - destruct (rs_status r =? UNAUTHORIZED)%Z eqn:Es; cbn [negb].
    + unfold eff_bind at 1.
      destruct (authenticate _ _ _ _ (as_base_url s) signer w1) as [[e2 w2] y] eqn:Ea.
      apply authenticate_events in Ea. destruct y as [session|e].
      * unfold eff_bind, send, eff_ret. destruct (rq_send w2 _) as [w3 z].
        intros [= <- <- <- <-]. right. exists e2. split; [done|]. split; [done|]. right. done.
      * unfold eff_ret. intros [= <- <- <- <-]. right. exists e2. split; [done|].
        split; [done|]. left. rewrite app_nil_r. done.
    + unfold eff_ret. intros [= <- <- <- <-]. left. bool_simpl. split; [done|]. done.
  - unfold eff_ret. intros [= <- <- <- <-]. left. split; [done|]. split; [done|]. eauto.
Qed.

(** An honest login is not refused. The challenge a store mints for the
    signer's DID passes the client's checks when the store's URI has the
    origin the client dialed (and its domain is not itself a [URI:] line). *)
Theorem minted_challenge_accepted p msg nonce expires base o :
  validate_did_well_formed (mp_did p) = Ok tt → params_one_line p →
  build_message p = Ok msg →
  str_forallb graphic (mp_uri p) = true → str_is_empty (mp_uri p) = false →
  starts_with "URI:" (mp_domain p) = false →
  origin_of (mp_uri p) = Some o → origin_of base = Some o →
  check_envelope {| en_nonce := nonce; en_message := msg; en_expires_at := expires |}
    base (mp_did p) = Ok tt.
Proof. intros. apply check_envelope_Ok. by eapply minted_is_bound. Qed.
End properties.

Section witnesses.
Import Fixtures.Instances.

Definition sample_params : MessageParams := {|
  mp_did := sample_key_did; mp_domain := "aqua-node"; mp_uri := "https://node.example";
  mp_nonce := "0x01"; mp_issued_at := sample_time 0; mp_expiration_time := sample_time 300 |}.
Definition sample_message : string :=
  match build_message sample_params with Ok m => m | Err _ => EmptyString end.
Definition sample_signer : Signer := FnSigner sample_key_did (λ m, Ok (as_bytes "sig")).
Definition sample_envelope (r : toy_response) : result ChallengeEnvelope string :=
  Ok {| en_nonce := "0x01"; en_message := tr_body r; en_expires_at := 0 |}.
Definition sample_reply (r : toy_response) : result SessionResponse string :=
  Ok {| rp_did := sample_key_did; rp_token := tr_body r; rp_valid_until := 0; rp_created_at := 0 |}.
Definition sample_login := authenticate (λ u, "GET " +:+ u) (λ u _, "POST " +:+ u)
  sample_envelope sample_reply "https://node.example:443/x" sample_signer.
Definition sample_world : list (result toy_response string) :=
  [Ok {| tr_status := 200; tr_body := sample_message |};
   Ok {| tr_status := 200; tr_body := "token" |}].

Lemma client_signs_only_bound_witness :
  bound_to "https://node.example:443/x" sample_key_did sample_message.
Proof.
  destruct (sample_login sample_world) as [[es w'] x] eqn:E.
  apply (client_signs_only_bound _ _ _ _ _ sample_signer sample_world es w' x _ E).
  rewrite <- (f_equal (λ p, p.1.1) E : _ = es).
  assert ((sample_login sample_world).1.1 =
    [Sent ("GET https://node.example:443/x/auth/challenge?did=did%3Akey%3Az6MkhaXgBZDvotDkL5257faiztiGiC2QtKLGpbnnEGta2doK");
     Signing sample_message; Sent "POST https://node.example:443/x/auth/session"]) as -> by vm_refl.
  right. left.
Defined.
Definition stale : AuthSession :=
  {| as_base_url := "https://node.example:443/x"; as_session := inhabitant |}.
Definition retry := auth_send (λ u, "GET " +:+ u) (λ u _, "POST " +:+ u)
  sample_envelope sample_reply stale sample_signer (λ base token, "GET " +:+ base +:+ " " +:+ token)
  (Ok {| tr_status := 401; tr_body := "" |} :: sample_world ++ [Ok {| tr_status := 401; tr_body := "" |}]).
Lemma auth_send_one_retry_witness :
  ∃ login_es, login_events (as_base_url stale) sample_key_did login_es ∧ length retry.1.1 = 5.
Proof.
  destruct retry as [[es w'] [s' x]] eqn:E.
  assert (length es = 5) as Hl
    by (rewrite <- (f_equal (λ p, length p.1.1) E : _ = length es); vm_refl).
  destruct (auth_send_one_retry _ _ _ _ _ _ _ _ _ _ _ _ E) as [(-> & _)|(l & Hl' & _)];
    [discriminate Hl|]. exists l. split; [exact Hl'|exact Hl].
Defined.
Lemma minted_challenge_accepted_witness :
  check_envelope {| en_nonce := "0x01"; en_message := sample_message; en_expires_at := 0 |}
    "https://node.example:443/x" sample_key_did = Ok tt.
Proof.
  apply (minted_challenge_accepted sample_params sample_message "0x01" 0 _
    "https://node.example:443"); [vm_refl| |vm_refl..]. repeat split; vm_refl.
Defined.
End witnesses.
