(* ===== verification/LoginChallenge.v ===== *)
(** * The derived passkey login challenge: src/login_challenge.rs *)

From S2P Require Import Prelude Crates Fixtures.

Section defs.
Context `{Urls, Hashes}.

Definition LOGIN_CHALLENGE_TAG : bytes := as_bytes "aqua-auth/webauthn-login/v1".

Inductive LoginChallengeError : Type :=
| InvalidUrl (why : string)
| UnsupportedScheme (scheme : string).

(** What is hashed: tag, nonce, origin. *)
Definition login_preimage (nonce : bytes) (origin : string) : bytes :=
  LOGIN_CHALLENGE_TAG ++ nonce ++ as_bytes origin.
Definition derive_login_challenge (nonce : bytes) (node_url : string)
  : result bytes LoginChallengeError :=
  let? u := map_err InvalidUrl (url_parse node_url) in
  if negb (String.eqb (url_scheme u) "http" || String.eqb (url_scheme u) "https") then
    Err (UnsupportedScheme (url_scheme u))
  else Ok (sha256 (login_preimage nonce (url_origin u))).
End defs.

Section proofs.
Context `{Urls, Hashes}.

Lemma derive_login_challenge_Ok nonce raw c :
  derive_login_challenge nonce raw = Ok c ↔
  ∃ u, url_parse raw = Ok u ∧ (url_scheme u = "http" ∨ url_scheme u = "https") ∧
    c = sha256 (login_preimage nonce (url_origin u)).
Proof.
  unfold derive_login_challenge. split.
  - destruct (url_parse raw) as [u|]; [|done]. cbn [map_err].
    destruct (String.eqb_spec (url_scheme u) "http"); [|destruct (String.eqb_spec (url_scheme u) "https"); [|done]];
      intros [= <-]; eauto.
  - intros (u & -> & Hs & ->). cbn [map_err]. by destruct Hs as [-> | ->].
Qed.
Lemma login_preimage_inj n n' o o' :
  length n = length n' → login_preimage n o = login_preimage n' o' → n = n' ∧ o = o'.
Proof.
  unfold login_preimage. intros Hl Heq%app_inv_head. apply app_inj_1 in Heq as [-> Ho]; [|done].
  split; [done|]. by apply as_bytes_inj.
Qed.
(** Two preimages with one digest: of one login, or a collision. *)
Lemma login_preimages_apart n n' o o' : length n = length n' →
  sha256 (login_preimage n o) = sha256 (login_preimage n' o') →
  n = n' ∧ o = o' ∨ collides sha256 (login_preimage n o) (login_preimage n' o').
Proof.
  intros Hl Heq. destruct (decide (login_preimage n o = login_preimage n' o')) as [Hp|Hp];
    [left|by right]. by apply login_preimage_inj.
Qed.
(** The hash input never is a JSON object, so it is no SDK signing input. *)
Lemma login_preimage_not_json n o : head (login_preimage n o) ≠ Some Byte.x7b.
Proof. done. Qed.
End proofs.

Section properties.
Context `{Urls, Hashes}.

(** A derived login challenge binds its nonce and its node. Two 32-byte
    nonces and node URLs with one challenge are the same nonce and the same
    origin, or the preimages of the two logins collide under SHA-256; and no
    preimage is a JSON object. *)
Theorem login_challenge_binds n n' raw raw' c :
  length n = 32 → length n' = 32 →
  derive_login_challenge n raw = Ok c → derive_login_challenge n' raw' = Ok c →
  ∃ u u', url_parse raw = Ok u ∧ url_parse raw' = Ok u' ∧
    head (login_preimage n (url_origin u)) ≠ Some Byte.x7b ∧
    (n = n' ∧ url_origin u = url_origin u' ∨
     collides sha256 (login_preimage n (url_origin u)) (login_preimage n' (url_origin u'))).
Proof.
  intros Hn Hn' (u & Hu & _ & ->)%derive_login_challenge_Ok
    (u' & Hu' & _ & Heq)%derive_login_challenge_Ok.
  exists u, u'. do 2 (split; [done|]). split; [apply login_preimage_not_json|].
  apply login_preimages_apart; [congruence|done].
Qed.
End properties.

Section witnesses.
Import Fixtures.Instances.

Lemma login_challenge_binds_witness :
  is_ok (derive_login_challenge (sample_nonce 1) "https://Node.example:443/a?b") = true ∧
  ∃ u u', url_parse "https://Node.example:443/a?b" = Ok u ∧
    url_parse "https://node.example" = Ok u' ∧
    head (login_preimage (sample_nonce 1) (url_origin u)) ≠ Some Byte.x7b ∧
    (sample_nonce 1 = sample_nonce 1 ∧ url_origin u = url_origin u' ∨
     collides sha256 (login_preimage (sample_nonce 1) (url_origin u))
       (login_preimage (sample_nonce 1) (url_origin u'))).
Proof.
  split; [vm_refl|].
  destruct (derive_login_challenge (sample_nonce 1) "https://Node.example:443/a?b")
    as [c|e] eqn:E; [|vm_compute in E; discriminate].
  apply (login_challenge_binds _ _ _ _ c); [reflexivity..|exact E|].
  rewrite <- E. vm_refl.
Defined.
End witnesses.
