(* ===== verification/HttpSigBase.v ===== *)
(** * RFC 9421 signature bases: src/http_sig/mod.rs and src/http_sig/base.rs

    The narrow profile: the constants, the request, the errors, and the text
    that is signed. Structured fields are the [sfv] crate, a class. *)

From S2P Require Import Prelude Crates Fixtures Errors Keys Did Suites Aqua Methods.

Section defs.
Context `{Ed25519, P256, K256, MlDsa, Base58, Base64, Hex, Hashes, Features, Sfv}.

(** ** src/http_sig/mod.rs *)

Definition SIGNATURE_LABEL : string := "sig1".
Definition TAG_AQUA_INTERNAL : string := "aqua-auth".
Definition TAG_WEB_BOT_AUTH : string := "web-bot-auth".
Definition MAX_VALIDITY : Duration := from_secs (24 * 60 * 60).
Definition DEFAULT_CLOCK_SKEW : Duration := from_secs 60.
Definition NONCE_BYTES : nat := 64.
Definition ALG_ED25519 : string := "ed25519".
Definition ALG_ECDSA_P256_SHA256 : string := "ecdsa-p256-sha256".
Definition ALG_EIP191_SECP256K1 : string := "eip191-secp256k1".

Record RequestParts : Type := {
  rp_method : string;
  rp_target_uri : string;
  rp_signature_agent : option string;
}.
Definition request_parts (method target_uri : string) : RequestParts :=
  {| rp_method := method; rp_target_uri := target_uri; rp_signature_agent := None |}.
Definition with_signature_agent (r : RequestParts) (value : string) : RequestParts :=
  {| rp_method := rp_method r; rp_target_uri := rp_target_uri r;
     rp_signature_agent := Some value |}.

Inductive SigProfile : Type :=
| AquaInternal
| WebBotAuth (jwk_thumbprint : string).
Record SignedHeaders : Type := { sh_signature_input : string; sh_signature : string }.

Inductive HttpSigError : Type :=
| InvalidTargetUri (uri : string)
| HsUnsupportedScheme (scheme : string)
| UnsupportedComponent (name : string)
| MissingComponent (name : string)
| DuplicateComponent (name : string)
| InvalidComponentValue (name reason : string)
| NonAsciiBase
| StructuredField (why : string)
| MalformedSignatureInput (why : string)
| MalformedSignature (why : string)
| ValidityTooLong (actual max : Z)
| ValidityZero
| InvalidWindow (created expires : Z)
| ProfileRequiresEd25519 (did : string)
| EmptyThumbprint
| TagMismatch (expected actual : string)
| AlgMismatch (did expected actual : string)
| CreatedInFuture (created now skew : Z)
| HsExpired (expires now : Z)
| NonceReplayed
| HsSign (why : string)
| HsCrypto (e : CryptoError).

Definition alg_for_did (did : string) : result string HttpSigError :=
  let? method := ok_or (find_did_method did) (HsCrypto (UnsupportedMethod did)) in
  let? label := map_err HsCrypto (dm_method_label method did) in
  if String.eqb label "Ed25519" then Ok ALG_ED25519
  else if String.eqb label "P-256" then Ok ALG_ECDSA_P256_SHA256
  else if String.eqb label "Ethereum" then Ok ALG_EIP191_SECP256K1
  else Err (HsCrypto (UnsupportedMethod label)).

(** ** src/http_sig/base.rs *)

Definition COMPONENT_AUTHORITY : string := "@authority".
Definition COMPONENT_SIGNATURE_AGENT : string := "signature-agent".
Definition COMPONENT_SIGNATURE_PARAMS : string := "@signature-params".
Definition ALLOWED_COMPONENTS : list string :=
  [COMPONENT_AUTHORITY; COMPONENT_SIGNATURE_AGENT].
Definition PARAM_ORDER : list string :=
  ["created"; "expires"; "keyid"; "alg"; "nonce"; "tag"].

Record SignatureParams : Type := {
  sp_covered : list string;
  sp_created : Z;
  sp_expires : Z;
  sp_keyid : string;
  sp_alg : string;
  sp_nonce : string;
  sp_tag : string;
}.

Definition covered_components (parts : RequestParts) : list string :=
  COMPONENT_AUTHORITY ::
  match rp_signature_agent parts with
  | Some _ => [COMPONENT_SIGNATURE_AGENT]
  | None => []
  end.

(** [v.contains(x)] on a vector of strings. *)
Definition str_mem (x : string) (l : list string) : bool := existsb (String.eqb x) l.

Definition default_port (scheme : string) : option Z :=
  if String.eqb scheme "http" then Some 80%Z
  else if String.eqb scheme "https" then Some 443%Z else None.
(** The authority up to the first path, query or fragment delimiter, without
    its user information. *)
Definition raw_authority (rest : string) : string :=
  rsplit_next "@" (hd EmptyString
    (split_on (λ c, existsb (Ascii.eqb c) ["/"; "?"; "#"]%char) rest)).
(** The host and the port text; [None] when the brackets are misplaced. *)
Definition split_host_port (authority : string) : option (string * option string) :=
  match rsplit_once "]" authority with
  | Some (before, tail) =>
      if starts_with "[" authority then
        let host := before +:+ "]" in
        match tail with
        | EmptyString => Some (host, None)
        | _ => match strip_prefix ":" tail with
               | Some p => Some (host, Some p)
               | None => None
               end
        end
      else None
  | None =>
      match split_once ":" authority with
      | Some (host, port) => Some (host, Some port)
      | None => Some (authority, None)
      end
  end.
Definition authority_from_uri (target_uri : string) : result string HttpSigError :=
  let? '(scheme, rest) := ok_or (split_once_str "://" target_uri)
    (InvalidTargetUri target_uri) in
  let scheme := to_lower scheme in
  let? default_port := ok_or (default_port scheme) (HsUnsupportedScheme scheme) in
  let authority := raw_authority rest in
  if str_is_empty authority then Err (InvalidTargetUri target_uri)
  else
  let? '(host, port) := ok_or (split_host_port authority) (InvalidTargetUri target_uri) in
  let host := to_lower host in
  if str_is_empty host || String.eqb host "[]" then Err (InvalidTargetUri target_uri)
  else
  match port with
  | None => Ok host
  | Some port =>
      let? port := ok_or (parse_u16 port) (InvalidTargetUri target_uri) in
      if (port =? default_port)%Z then Ok host else Ok (host +:+ ":" +:+ show_Z port)
  end.

Definition component_value (name : string) (parts : RequestParts)
  : result string HttpSigError :=
  if String.eqb name COMPONENT_AUTHORITY then authority_from_uri (rp_target_uri parts)
  else if String.eqb name COMPONENT_SIGNATURE_AGENT then
    let? raw := ok_or (rp_signature_agent parts) (MissingComponent name) in
    let value := trim raw in
    if str_is_empty value then Err (MissingComponent name)
    else if contains_any ["013"; "010"]%char value then
      Err (InvalidComponentValue name "value contains a line break")
    else Ok value
  else Err (UnsupportedComponent name).

Definition sf_key (name : string) : result string HttpSigError :=
  map_err StructuredField (sfv_key name).
Definition sf_string (value : string) : result string HttpSigError :=
  map_err StructuredField (sfv_string value).
Definition sf_integer (value : Z) : result Z HttpSigError :=
  map_err (λ e, StructuredField (show_Z value +:+ " is not a valid integer: " +:+ e))
    (sfv_integer value).

(** One [.parameter(sf_key(k)?, v?)]. *)
Definition int_parameter (name : string) (value : Z) : result (string * bare_item) HttpSigError :=
  let? k := sf_key name in let? v := sf_integer value in Ok (k, SfInteger v).
Definition string_parameter (name value : string) : result (string * bare_item) HttpSigError :=
  let? k := sf_key name in let? v := sf_string value in Ok (k, SfString v).
(** What [write_params_inner_list] writes. *)
Definition params_inner_list (params : SignatureParams) : result list_entry HttpSigError :=
  let? items := collect (λ name, let? s := sf_string name in
    Ok {| item_bare := SfString s; item_params := [] |}) (sp_covered params) in
  let? created := int_parameter "created" (sp_created params) in
  let? expires := int_parameter "expires" (sp_expires params) in
  let? keyid := string_parameter "keyid" (sp_keyid params) in
  let? alg := string_parameter "alg" (sp_alg params) in
  let? nonce := string_parameter "nonce" (sp_nonce params) in
  let? tag := string_parameter "tag" (sp_tag params) in
  Ok (EntryInnerList items [created; expires; keyid; alg; nonce; tag]).
Definition serialize_signature_params (params : SignatureParams) : result string HttpSigError :=
  let? l := params_inner_list params in
  ok_or (sfv_write_list [l]) (StructuredField "empty signature parameters").
Definition signature_input_header (label : string) (params : SignatureParams)
  : result string HttpSigError :=
  let? k := sf_key label in
  let? l := params_inner_list params in
  ok_or (sfv_write_dict [(k, l)]) (StructuredField "empty Signature-Input").
Definition signature_header (label : string) (signature : bytes) : result string HttpSigError :=
  let? k := sf_key label in
  ok_or (sfv_write_dict [(k, EntryItem {| item_bare := SfBytes signature; item_params := [] |})])
    (StructuredField "empty Signature").

(** One line per covered component, each followed by a line feed. *)
Definition component_line (name value : string) : string :=
  quoted name +:+ ": " +:+ value +:+ nl.
Fixpoint component_lines (parts : RequestParts) (seen covered : list string)
  : result string HttpSigError :=
  match covered with
  | [] => Ok EmptyString
  | name :: covered' =>
      if negb (str_mem name ALLOWED_COMPONENTS) then Err (UnsupportedComponent name)
      else if str_mem name seen then Err (DuplicateComponent name)
      else
      let? value := component_value name parts in
      let? rest := component_lines parts (name :: seen) covered' in
      Ok (component_line name value +:+ rest)
  end.
Definition build_signature_base (parts : RequestParts) (params : SignatureParams)
  : result string HttpSigError :=
  let? lines := component_lines parts [] (sp_covered params) in
  if negb (str_mem COMPONENT_AUTHORITY (sp_covered params)) then
    Err (MissingComponent COMPONENT_AUTHORITY)
  else
  let? ps := serialize_signature_params params in
  let out := lines +:+ quoted COMPONENT_SIGNATURE_PARAMS +:+ ": " +:+ ps in
  if negb (is_ascii out) then Err NonAsciiBase else Ok out.

Definition check_signature_agent_coverage (parts : RequestParts) (covered : list string)
  : result unit HttpSigError :=
  let present := match rp_signature_agent parts with Some _ => true | None => false end in
  let is_covered := str_mem COMPONENT_SIGNATURE_AGENT covered in
  match present, is_covered with
  | true, false => Err (MalformedSignatureInput
      "request carries a Signature-Agent header that the signature does not cover")
  | false, true => Err (MissingComponent COMPONENT_SIGNATURE_AGENT)
  | _, _ => Ok tt
  end.
End defs.

(** ** The parameters as a structured field *)

Section params_proofs.
Context `{Sfv, !SfvLaws}.

Definition params_entry (p : SignatureParams) : list_entry :=
  EntryInnerList (map (λ name, {| item_bare := SfString name; item_params := [] |}) (sp_covered p))
    [("created", SfInteger (sp_created p)); ("expires", SfInteger (sp_expires p));
     ("keyid", SfString (sp_keyid p)); ("alg", SfString (sp_alg p));
     ("nonce", SfString (sp_nonce p)); ("tag", SfString (sp_tag p))].
(** What the crate's types ask of the fields. *)
Definition params_writable (p : SignatureParams) : Prop :=
  Forall (λ n, printable n = true) (sp_covered p) ∧
  (- sf_integer_max ≤ sp_created p ≤ sf_integer_max)%Z ∧
  (- sf_integer_max ≤ sp_expires p ≤ sf_integer_max)%Z ∧
  printable (sp_keyid p) = true ∧ printable (sp_alg p) = true ∧
  printable (sp_nonce p) = true ∧ printable (sp_tag p) = true.

Lemma sf_string_Ok s s' : sf_string s = Ok s' ↔ s' = s ∧ printable s = true.
Proof.
  unfold sf_string, map_err. rewrite <- sfv_string_Ok. split.
  - destruct (sfv_string s) as [t|] eqn:E; [|done]. intros [= <-].
    pose proof (sfv_string_same _ _ E). by subst.
  - by intros [-> ->].
Qed.
Lemma sf_integer_Ok z z' :
  sf_integer z = Ok z' ↔ z' = z ∧ (- sf_integer_max ≤ z ≤ sf_integer_max)%Z.
Proof.
  unfold sf_integer, map_err. rewrite <- sfv_integer_Ok. split.
  - destruct (sfv_integer z) as [t|] eqn:E; [|done]. intros [= <-].
    pose proof (sfv_integer_same _ _ E). by subst.
  - by intros [-> ->].
Qed.
Lemma sf_key_lower c k : is_lower c = true →
  str_forallb (λ d, is_lower d || is_digit d) k = true →
  sf_key (String c k) = Ok (String c k).
Proof. intros. unfold sf_key. by rewrite sfv_key_Ok. Qed.
Lemma int_parameter_Ok c k z kv : is_lower c = true →
  str_forallb (λ d, is_lower d || is_digit d) k = true →
  int_parameter (String c k) z = Ok kv ↔
  kv = (String c k, SfInteger z) ∧ (- sf_integer_max ≤ z ≤ sf_integer_max)%Z.
Proof.
  intros Hc Hk. unfold int_parameter. rewrite sf_key_lower by done. split.
  - destruct (sf_integer z) as [z'|] eqn:E; [|done]. apply sf_integer_Ok in E as [-> ?].
    by intros [= <-].
  - intros [-> Hz]. by rewrite (proj2 (sf_integer_Ok z z)).
Qed.
Lemma string_parameter_Ok c k s kv : is_lower c = true →
  str_forallb (λ d, is_lower d || is_digit d) k = true →
  string_parameter (String c k) s = Ok kv ↔
  kv = (String c k, SfString s) ∧ printable s = true.
Proof.
  intros Hc Hk. unfold string_parameter. rewrite sf_key_lower by done. split.
  - destruct (sf_string s) as [s'|] eqn:E; [|done]. apply sf_string_Ok in E as [-> ?].
    by intros [= <-].
  - intros [-> Hz]. by rewrite (proj2 (sf_string_Ok s s)).
Qed.
Lemma int_parameter_eq c k z : is_lower c = true →
  str_forallb (λ d, is_lower d || is_digit d) k = true →
  (- sf_integer_max ≤ z ≤ sf_integer_max)%Z →
  int_parameter (String c k) z = Ok (String c k, SfInteger z).
Proof. intros. by apply int_parameter_Ok. Qed.
Lemma string_parameter_eq c k s : is_lower c = true →
  str_forallb (λ d, is_lower d || is_digit d) k = true → printable s = true →
  string_parameter (String c k) s = Ok (String c k, SfString s).
Proof. intros. by apply string_parameter_Ok. Qed.
Lemma covered_items_Ok l items :
  collect (λ name, let? s := sf_string name in
    Ok {| item_bare := SfString s; item_params := [] |}) l = Ok items ↔
  items = map (λ name, {| item_bare := SfString name; item_params := [] |}) l ∧
  Forall (λ n, printable n = true) l.
Proof.
  rewrite collect_Ok. revert items. induction l as [|n l IH]; intros items; cbn.
  - split; [inversion 1; by split|intros [-> _]; constructor].
  - split.
    + inversion 1 as [|? i ? its Hi His]; subst. apply IH in His as [-> ?].
      destruct (sf_string n) as [s|] eqn:E; [|done]. apply sf_string_Ok in E as [-> ?].
      injection Hi as <-. split; [done|]. by constructor.
    + intros [-> Hall]. inversion Hall; subst. constructor; [|by apply IH].
      by rewrite (proj2 (sf_string_Ok n n)).
Qed.
(** The serializer accepts exactly the writable parameters. *)
Lemma params_inner_list_Ok p l :
  params_inner_list p = Ok l ↔ l = params_entry p ∧ params_writable p.
Proof.
  unfold params_inner_list, params_writable, params_entry. split.
  - destruct (collect _ _) as [items|] eqn:Ec; [|done].
    apply covered_items_Ok in Ec as [-> Hc].
    destruct (int_parameter "created" _) eqn:E1; [|done].
    destruct (int_parameter "expires" _) eqn:E2; [|done].
    destruct (string_parameter "keyid" _) eqn:E3; [|done].
    destruct (string_parameter "alg" _) eqn:E4; [|done].
    destruct (string_parameter "nonce" _) eqn:E5; [|done].
    destruct (string_parameter "tag" _) eqn:E6; [|done].
    apply int_parameter_Ok in E1 as [-> ?], E2 as [-> ?]; [|done..].
    apply string_parameter_Ok in E3 as [-> ?], E4 as [-> ?], E5 as [-> ?], E6 as [-> ?];
      [|done..].
    by intros [= <-].
  - intros (-> & Hc & H1 & H2 & H3 & H4 & H5 & H6).
    rewrite (proj2 (covered_items_Ok _ _) (conj eq_refl Hc)).
    rewrite !int_parameter_eq, !string_parameter_eq by done. done.
Qed.
Lemma params_entry_ok p : params_writable p → entry_ok (params_entry p).
Proof.
  intros (Hc & H1 & H2 & H3 & H4 & H5 & H6). split.
  - apply Forall_map. eapply List.Forall_impl; [|exact Hc]. intros n Hn. split; [by apply sfv_string_Ok|].
    split; constructor.
  - split; [apply (bool_decide_eq_true_1 _); vm_compute; done|].
    repeat constructor; cbn; (by apply sfv_key_Ok || by apply sfv_integer_Ok || by apply sfv_string_Ok).
Qed.
Lemma params_entry_inj p q : params_entry p = params_entry q → p = q.
Proof.
  destruct p, q. unfold params_entry. cbn. intros [= Hc -> -> -> -> -> ->]. f_equal.
  revert Hc. generalize dependent sp_covered1. induction sp_covered0 as [|n l IH]; intros [|n' l'];
    cbn; try done. intros [= -> Hl]. f_equal. by apply IH.
Qed.
Lemma serialize_signature_params_Ok p t :
  serialize_signature_params p = Ok t ↔
  params_writable p ∧ sfv_write_list [params_entry p] = Some t.
Proof.
  unfold serialize_signature_params. split.
  - destruct (params_inner_list p) as [l|] eqn:E; [|done].
    apply params_inner_list_Ok in E as [-> Hw].
    destruct (sfv_write_list _); [|done]. by intros [= <-].
  - intros [Hw Ht]. rewrite (proj2 (params_inner_list_Ok _ _) (conj eq_refl Hw)). by rewrite Ht.
Qed.
Lemma signature_input_header_Ok c k p t : is_lower c = true →
  str_forallb (λ d, is_lower d || is_digit d) k = true →
  signature_input_header (String c k) p = Ok t ↔
  params_writable p ∧ sfv_write_dict [(String c k, params_entry p)] = Some t.
Proof.
  intros Hc Hk. unfold signature_input_header. rewrite sf_key_lower by done. split.
  - destruct (params_inner_list p) as [l|] eqn:E; [|done].
    apply params_inner_list_Ok in E as [-> Hw].
    destruct (sfv_write_dict _); [|done]. by intros [= <-].
  - intros [Hw Ht]. rewrite (proj2 (params_inner_list_Ok _ _) (conj eq_refl Hw)). by rewrite Ht.
Qed.
End params_proofs.

(** ** The signature base *)

Section base_proofs.
Context `{Sfv, !SfvLaws}.

Lemma str_mem_spec x l : str_mem x l = true ↔ x ∈ l.
Proof.
  unfold str_mem. rewrite existsb_exists. split.
  - intros (y & Hy & ->%String.eqb_eq). by apply list_elem_of_In.
  - intros Hx%list_elem_of_In. exists x. by rewrite String.eqb_refl.
Qed.
Lemma allowed_cases n : str_mem n ALLOWED_COMPONENTS = true →
  n = COMPONENT_AUTHORITY ∨ n = COMPONENT_SIGNATURE_AGENT.
Proof. rewrite str_mem_spec. unfold ALLOWED_COMPONENTS. set_solver. Qed.
Lemma component_lines_cons parts seen n c lines :
  component_lines parts seen (n :: c) = Ok lines ↔
  n ∈ ALLOWED_COMPONENTS ∧ n ∉ seen ∧ (∃ v rest, component_value n parts = Ok v ∧
    component_lines parts (n :: seen) c = Ok rest ∧ lines = component_line n v +:+ rest).
Proof.
  cbn [component_lines]. rewrite <- !str_mem_spec. split.
  - destruct (str_mem n ALLOWED_COMPONENTS); [|done]. cbn [negb].
    destruct (str_mem n seen); [done|].
    destruct (component_value n parts) as [v|]; [|done].
    destruct (component_lines parts (n :: seen) c) as [rest|]; [|done].
    intros [= <-]. eauto 10.
  - intros (-> & Hs & v & rest & -> & -> & ->). cbn [negb].
    by destruct (str_mem n seen).
Qed.
(** The only covered sets of this profile. *)
Lemma covered_shapes parts c lines :
  component_lines parts [] c = Ok lines → str_mem COMPONENT_AUTHORITY c = true →
  c = [COMPONENT_AUTHORITY] ∨
  c = [COMPONENT_AUTHORITY; COMPONENT_SIGNATURE_AGENT] ∨
  c = [COMPONENT_SIGNATURE_AGENT; COMPONENT_AUTHORITY].
Proof.
  intros Hl Hm. destruct c as [|n1 c]; [done|].
  apply component_lines_cons in Hl as (Ha1 & _ & v1 & l1 & _ & Hl & _).
  destruct c as [|n2 c].
  { apply str_mem_spec, list_elem_of_singleton in Hm as <-. by left. }
  apply component_lines_cons in Hl as (Ha2 & Hn2 & v2 & l2 & _ & Hl & _).
  destruct c as [|n3 c].
  2:{ apply component_lines_cons in Hl as (Ha3 & Hn3 & _).
      rewrite <- str_mem_spec in Ha1, Ha2, Ha3. apply allowed_cases in Ha1, Ha2, Ha3.
      exfalso. set_solver. }
  rewrite <- str_mem_spec in Ha1, Ha2. apply allowed_cases in Ha1, Ha2. set_solver.
Qed.
Lemma agent_value parts v : component_value COMPONENT_SIGNATURE_AGENT parts = Ok v →
  trim <$> rp_signature_agent parts = Some v.
Proof.
  unfold component_value.
  change (String.eqb COMPONENT_SIGNATURE_AGENT COMPONENT_AUTHORITY) with false. cbv iota.
  rewrite String.eqb_refl. destruct (rp_signature_agent parts) as [raw|]; [|done]. cbn [ok_or].
  destruct (str_is_empty _); [done|]. destruct (contains_any _ _); [done|].
  by intros [= <-].
Qed.
Lemma agent_value_one_line parts v :
  component_value COMPONENT_SIGNATURE_AGENT parts = Ok v → free_of "010"%char v = true.
Proof.
  unfold component_value. rewrite String.eqb_refl. cbn [String.eqb].
  change (String.eqb COMPONENT_SIGNATURE_AGENT COMPONENT_AUTHORITY) with false. cbv iota.
  destruct (rp_signature_agent parts) as [raw|]; [|done]. cbn [ok_or].
  destruct (str_is_empty (trim raw)); [done|].
  destruct (contains_any _ (trim raw)) eqn:E; [done|]. intros [= <-].
  unfold contains_any in E. apply negb_false_iff in E. unfold free_of.
  eapply str_forallb_impl; [|exact E]. intros c Hc. cbn in Hc.
  rewrite negb_orb, andb_true_iff in Hc. destruct Hc as [_ Hc]. rewrite orb_false_r in Hc.
  by rewrite Ascii.eqb_sym.
Qed.
Lemma printable_one_line t : printable t = true → free_of "010"%char t = true.
Proof.
  apply str_forallb_impl. intros c Hc. destruct (Ascii.eqb_spec "010"%char c) as [<-|]; done.
Qed.

Definition params_line (t : string) : string :=
  quoted COMPONENT_SIGNATURE_PARAMS +:+ ": " +:+ t.
Lemma build_signature_base_Ok parts p base :
  build_signature_base parts p = Ok base ↔
  ∃ lines t, component_lines parts [] (sp_covered p) = Ok lines ∧
    str_mem COMPONENT_AUTHORITY (sp_covered p) = true ∧
    serialize_signature_params p = Ok t ∧
    base = lines +:+ params_line t ∧ is_ascii base = true.
Proof.
  unfold build_signature_base, params_line. split.
  - destruct (component_lines parts [] (sp_covered p)) as [lines|]; [|done].
    destruct (str_mem _ (sp_covered p)) eqn:Em; [|done]. cbn [negb].
    destruct (serialize_signature_params p) as [t|]; [|done]. cbv zeta.
    destruct (is_ascii _) eqn:Ea; [|done]. cbn [negb]. intros [= <-]. eauto 10.
  - intros (lines & t & -> & -> & -> & -> & Ha). cbn [negb]. cbv zeta. by rewrite Ha.
Qed.
Lemma params_line_one_line p t : serialize_signature_params p = Ok t →
  free_of "010"%char (params_line t) = true.
Proof.
  intros [Hw Ht]%serialize_signature_params_Ok. unfold params_line. rewrite !free_of_app.
  apply printable_one_line. eapply sfv_write_list_printable; [|exact Ht].
  by apply params_entry_ok.
Qed.
(** A last line that holds no line feed is determined by the text. *)
Lemma last_line_inj a b p q :
  free_of "010"%char p = true → free_of "010"%char q = true →
  a +:+ nl +:+ p = b +:+ nl +:+ q → a = b ∧ p = q.
Proof.
  intros Hp Hq Heq. apply (f_equal (rsplit_once "010"%char)) in Heq.
  change (nl +:+ p) with (String "010" p) in Heq.
  change (nl +:+ q) with (String "010" q) in Heq.
  rewrite !rsplit_once_app in Heq by done. by simplify_eq.
Qed.
Lemma first_line_inj a b p q :
  free_of "010"%char a = true → free_of "010"%char b = true →
  a +:+ nl +:+ p = b +:+ nl +:+ q → a = b ∧ p = q.
Proof.
  intros Hp Hq Heq. apply (f_equal (split_once "010"%char)) in Heq.
  change (nl +:+ p) with (String "010" p) in Heq.
  change (nl +:+ q) with (String "010" q) in Heq.
  rewrite !split_once_app in Heq by done. by simplify_eq.
Qed.
Lemma serialize_inj p q t :
  serialize_signature_params p = Ok t → serialize_signature_params q = Ok t → p = q.
Proof.
  intros [Hp Ht]%serialize_signature_params_Ok [Hq Ht']%serialize_signature_params_Ok.
  apply params_entry_inj. eapply sfv_write_list_inj; eauto using params_entry_ok.
Qed.

(** The body without its last line feed, for each covered set. *)
Definition line_text (n v : string) : string := quoted n +:+ ": " +:+ v.
Lemma component_line_text n v : component_line n v = line_text n v +:+ nl.
Proof. unfold component_line, line_text. by rewrite !str_app_assoc. Qed.
Lemma component_lines_shape parts c lines :
  component_lines parts [] c = Ok lines → str_mem COMPONENT_AUTHORITY c = true →
  ∃ a, component_value COMPONENT_AUTHORITY parts = Ok a ∧
  ((c = [COMPONENT_AUTHORITY] ∧ lines = line_text COMPONENT_AUTHORITY a +:+ nl) ∨
   ∃ s, component_value COMPONENT_SIGNATURE_AGENT parts = Ok s ∧
    ((c = [COMPONENT_AUTHORITY; COMPONENT_SIGNATURE_AGENT] ∧
      lines = (line_text COMPONENT_AUTHORITY a +:+ nl +:+
        line_text COMPONENT_SIGNATURE_AGENT s) +:+ nl) ∨
     (c = [COMPONENT_SIGNATURE_AGENT; COMPONENT_AUTHORITY] ∧
      lines = (line_text COMPONENT_SIGNATURE_AGENT s +:+ nl +:+
        line_text COMPONENT_AUTHORITY a) +:+ nl))).
Proof.
  intros Hl Hm. destruct (covered_shapes _ _ _ Hl Hm) as [->|[->| ->]].
  - apply component_lines_cons in Hl as (_ & _ & a & r & Ha & [= <-] & ->).
    exists a. split; [done|]. left. split; [done|].
    by rewrite component_line_text, str_app_nil_r.
  - apply component_lines_cons in Hl as (_ & _ & a & r & Ha & Hl & ->).
    apply component_lines_cons in Hl as (_ & _ & s & r' & Hs & [= <-] & ->).
    exists a. split; [done|]. right. exists s. split; [done|]. left. split; [done|].
    by rewrite !component_line_text, str_app_nil_r, !str_app_assoc.
  - apply component_lines_cons in Hl as (_ & _ & s & r & Hs & Hl & ->).
    apply component_lines_cons in Hl as (_ & _ & a & r' & Ha & [= <-] & ->).
    exists a. split; [done|]. right. exists s. split; [done|]. right. split; [done|].
    by rewrite !component_line_text, str_app_nil_r, !str_app_assoc.
Qed.
Lemma line_text_inj n v w : line_text n v = line_text n w → v = w.
Proof. unfold line_text. by intros ?%str_app_inj_l%str_app_inj_l. Qed.
Lemma line_text_one_line n v : free_of "010"%char n = true → free_of "010"%char v = true →
  free_of "010"%char (line_text n v) = true.
Proof.
  intros Hn Hv. unfold line_text, quoted. rewrite !free_of_app, Hn, Hv. done.
Qed.
Lemma base_binds parts parts' p p' base :
  build_signature_base parts p = Ok base → build_signature_base parts' p' = Ok base →
  p = p' ∧
  component_value COMPONENT_AUTHORITY parts = component_value COMPONENT_AUTHORITY parts' ∧
  (COMPONENT_SIGNATURE_AGENT ∈ sp_covered p →
   component_value COMPONENT_SIGNATURE_AGENT parts =
   component_value COMPONENT_SIGNATURE_AGENT parts').
Proof.
  intros (l & t & Hl & Hm & Ht & -> & _)%build_signature_base_Ok
    (l' & t' & Hl' & Hm' & Ht' & Heq & _)%build_signature_base_Ok.
  pose proof (params_line_one_line _ _ Ht) as Hf. pose proof (params_line_one_line _ _ Ht') as Hf'.
  destruct (component_lines_shape _ _ _ Hl Hm) as (a & Ha & Hshape).
  destruct (component_lines_shape _ _ _ Hl' Hm') as (a' & Ha' & Hshape').
  assert (∃ x, l = x +:+ nl) as [x Hx]
    by (destruct Hshape as [[_ ->]|(s & _ & [[_ ->]|[_ ->]])]; eauto).
  assert (∃ x, l' = x +:+ nl) as [x' Hx']
    by (destruct Hshape' as [[_ ->]|(s & _ & [[_ ->]|[_ ->]])]; eauto).
  rewrite Hx, Hx', !str_app_assoc in Heq.
  apply last_line_inj in Heq as [Hxx Hpp]; [|done..].
  apply line_text_inj in Hpp. subst t'. pose proof (serialize_inj _ _ _ Ht Ht') as <-.
  split; [done|]. rewrite Hx in Hshape. rewrite Hx', <- Hxx in Hshape'.
  assert (∀ u v, u +:+ nl = v +:+ nl → u = v) as Hinj.
  { intros u v E. by apply (last_line_inj u v EmptyString EmptyString). }
  destruct Hshape as [[Hc E]|(s & Hs & [[Hc E]|[Hc E]])];
    destruct Hshape' as [[Hc' E']|(s' & Hs' & [[Hc' E']|[Hc' E']])];
    rewrite Hc in Hc'; try discriminate Hc'; rewrite E in E'; apply Hinj in E'.
  - apply line_text_inj in E'. subst a'. rewrite Ha, Ha'. split; [done|].
    rewrite Hc. by intros [?|[]%not_elem_of_nil]%elem_of_cons.
  - apply last_line_inj in E' as [->%line_text_inj ->%line_text_inj];
      [|by apply line_text_one_line; [|by eapply agent_value_one_line]..].
    split; congruence.
  - apply first_line_inj in E' as [->%line_text_inj ->%line_text_inj];
      [|by apply line_text_one_line; [|by eapply agent_value_one_line]..].
    split; congruence.
Qed.
End base_proofs.

(** ** The authority is a normal form *)

Section authority_proofs.

(** No path, query, fragment or user information is left. *)
Definition authority_clean (s : string) : Prop :=
  free_of "/" s = true ∧ free_of "?" s = true ∧ free_of "#" s = true ∧ free_of "@" s = true.
Lemma authority_clean_app a b :
  authority_clean (a +:+ b) ↔ authority_clean a ∧ authority_clean b.
Proof. unfold authority_clean. rewrite !free_of_app, !andb_true_iff. tauto. Qed.
Lemma split_on_head_free (p : ascii → bool) s :
  str_forallb (λ d, negb (p d)) (hd EmptyString (split_on p s)) = true.
Proof.
  induction s as [|c s IH]; [done|]. cbn. destruct (p c) eqn:E; [done|].
  pose proof (split_nonempty p s). destruct (split_on p s) as [|w ws]; [done|].
  cbn in *. by rewrite E, IH.
Qed.
Lemma rsplit_next_forallb p c s : str_forallb p s = true → str_forallb p (rsplit_next c s) = true.
Proof.
  unfold rsplit_next. destruct (rsplit_once c s) as [[a b]|] eqn:E; [|done].
  apply rsplit_once_Some in E as [-> _]. rewrite str_forallb_app. cbn.
  intros Hs. by bool_simpl.
Qed.
Lemma raw_authority_clean rest : authority_clean (raw_authority rest).
Proof.
  unfold raw_authority. set (p := λ c, existsb (Ascii.eqb c) ["/"; "?"; "#"]%char).
  pose proof (rsplit_next_forallb _ "@" _ (split_on_head_free p rest)) as Hf.
  pose proof (rsplit_next_free_of "@" (hd EmptyString (split_on p rest))) as Ha.
  set (a := rsplit_next "@" _) in *. clearbody a.
  assert (∀ c, p c = true → free_of c a = true) as Hp.
  { intros c Hc. unfold free_of. eapply str_forallb_impl; [|exact Hf].
    intros d Hd. destruct (Ascii.eqb_spec c d) as [<-|]; [|done]. by rewrite Hc in Hd. }
  repeat split; try done; by apply Hp.
Qed.
Lemma raw_authority_of_clean a : authority_clean a → raw_authority a = a.
Proof.
  intros (H1 & H2 & H3 & H4). unfold raw_authority. rewrite split_on_free.
  - by apply rsplit_next_free.
  - clear H4. unfold free_of in *. induction a as [|c a IH]; [done|].
    rewrite str_forallb_cons in *. bool_simpl. rewrite IH by done. cbn [existsb].
    rewrite (Ascii.eqb_sym c "/"), (Ascii.eqb_sym c "?"), (Ascii.eqb_sym c "#").
    by repeat match goal with Hx : Ascii.eqb _ c = false |- _ => rewrite Hx; clear Hx end.
Qed.
Lemma authority_clean_lower s : authority_clean s → authority_clean (to_lower s).
Proof. intros (? & ? & ? & ?). repeat split; by apply free_of_lower. Qed.
Lemma authority_clean_digits s : str_forallb is_digit s = true → authority_clean s.
Proof. intros. repeat split; by apply free_of_digits. Qed.

(** The two forms of a host. *)
Definition host_shape (host : string) : Prop :=
  (free_of "]" host = true ∧ free_of ":" host = true) ∨
  ∃ inner, host = "[" +:+ inner +:+ "]".
Lemma split_host_port_Some a host port : split_host_port a = Some (host, port) →
  host_shape host ∧ (∀ p, port = Some p → a = host +:+ ":" +:+ p) ∧ (port = None → a = host).
Proof.
  unfold split_host_port, host_shape. destruct (rsplit_once "]" a) as [[b t]|] eqn:E.
  - apply rsplit_once_Some in E as [-> Ht].
    destruct (starts_with "[" _) eqn:Es; [|done].
    assert (∃ inner, b +:+ "]" = "[" +:+ inner +:+ "]") as Hb.
    { destruct b as [|c b]; [done|]. apply starts_with_spec in Es as [r Hr].
      injection Hr as -> _. by exists b. }
    destruct t as [|c t].
    + intros [= <- <-]. split; [by right|]. split; [done|]. by intros _.
    + destruct (strip_prefix ":" _) as [p|] eqn:Ep; [|done]. intros [= <- <-].
      apply strip_prefix_Some in Ep. split; [by right|]. split; [|done].
      intros p' [= <-]. rewrite Ep, str_app_assoc. done.
  - assert (free_of "]" a = true) as Hf.
    { unfold rsplit_once in E. destruct (split_once "]" (String.rev a)) as [[??]|] eqn:E'; [done|].
      apply split_once_None in E'. unfold free_of in *. by rewrite str_forallb_rev in E'. }
    destruct (split_once ":" a) as [[h p]|] eqn:E2.
    + intros [= <- <-]. apply split_once_Some in E2 as [-> Hc].
      rewrite free_of_app in Hf. bool_simpl. split; [by left|]. split; [|done].
      by intros p' [= <-].
    + intros [= <- <-]. apply split_once_None in E2. split; [by left|]. done.
Qed.
Lemma host_shape_lower h : host_shape h → host_shape (to_lower h).
Proof.
  intros [[? ?]|[inner ->]]; [left|right].
  - split; by apply free_of_lower.
  - exists (to_lower inner). by rewrite !to_lower_app.
Qed.
Lemma split_host_port_shape h tail : host_shape h →
  free_of "]" tail = true →
  split_host_port (h +:+ tail) = match tail with
    | EmptyString => Some (h, None)
    | String c p => if Ascii.eqb ":" c then Some (h, Some p) else split_host_port (h +:+ tail)
    end.
Proof.
  intros Hh Ht. destruct tail as [|c p]; [|destruct (Ascii.eqb_spec ":" c) as [<-|]; [|done]].
  - rewrite str_app_nil_r. unfold split_host_port. destruct Hh as [[Hb Hc]|[inner ->]].
    + rewrite rsplit_once_None by done. by rewrite (proj2 (split_once_None _ _) Hc).
    + change ("[" +:+ inner +:+ "]") with (("[" +:+ inner) +:+ String "]" EmptyString).
      by rewrite rsplit_once_app.
  - unfold split_host_port. destruct Hh as [[Hb Hc]|[inner ->]].
    + rewrite rsplit_once_None by (by rewrite free_of_app, Hb, Ht).
      by rewrite split_once_app.
    + assert (("[" +:+ inner +:+ "]") +:+ String ":" p
        = ("[" +:+ inner) +:+ String "]" (String ":" p)) as -> by by rewrite !str_app_assoc.
      by rewrite rsplit_once_app.
Qed.

Lemma authority_from_uri_inv uri a : authority_from_uri uri = Ok a →
  ∃ s r scheme dp h port, split_once_str "://" uri = Some (s, r) ∧ scheme = to_lower s ∧
    default_port scheme = Some dp ∧
    host_shape h ∧ authority_clean h ∧ to_lower h = h ∧ str_is_empty h = false ∧ h ≠ "[]" ∧
    match port with
    | Some p => (0 ≤ p ≤ 65535)%Z ∧ p ≠ dp ∧ a = h +:+ ":" +:+ show_Z p
    | None => a = h
    end.
Proof.
  unfold authority_from_uri. destruct (split_once_str "://" uri) as [[s r]|]; [|done].
  cbn [ok_or]. destruct (default_port (to_lower s)) as [dp|] eqn:Ed; [|done]. cbn [ok_or].
  destruct (str_is_empty (raw_authority r)); [done|].
  destruct (split_host_port (raw_authority r)) as [[h port]|] eqn:Eh; [|done]. cbn [ok_or].
  apply split_host_port_Some in Eh as (Hs & Hp & Hn).
  pose proof (raw_authority_clean r) as Hc.
  assert (authority_clean h) as Hch.
  { destruct port as [p|]; [|by rewrite <- Hn].
    rewrite (Hp p eq_refl) in Hc. by apply authority_clean_app in Hc as [? _]. }
  destruct (str_is_empty (to_lower h)) eqn:Ee; [done|]. cbn [orb].
  destruct (String.eqb_spec (to_lower h) "[]") as [|Hb]; [done|]. intros Hr.
  exists s, r, (to_lower s), dp, (to_lower h).
  assert (∀ (P : option Z → Prop) o, P o → ∃ o, P o) as Hex by eauto.
  destruct port as [p|].
  - destruct (parse_u16 p) as [n|] eqn:En; [|done]. cbn [ok_or] in Hr.
    destruct (n =? dp)%Z eqn:Edp.
    + exists None. injection Hr as <-. split_and!; auto using host_shape_lower,
        authority_clean_lower, to_lower_idem.
    + exists (Some n). injection Hr as <-. bool_simpl. split_and!; auto using host_shape_lower,
        authority_clean_lower, to_lower_idem; by apply parse_u16_range in En as [??].
  - exists None. injection Hr as <-. split_and!; auto using host_shape_lower,
      authority_clean_lower, to_lower_idem.
Qed.
Lemma default_port_cases scheme dp : default_port scheme = Some dp →
  (scheme = "http" ∧ dp = 80%Z) ∨ (scheme = "https" ∧ dp = 443%Z).
Proof.
  unfold default_port. destruct (String.eqb_spec scheme "http"); [intros [= <-]; auto|].
  destruct (String.eqb_spec scheme "https"); [intros [= <-]; auto|done].
Qed.
Lemma authority_again s dp h port : default_port s = Some dp →
  host_shape h → authority_clean h → to_lower h = h → str_is_empty h = false → h ≠ "[]" →
  match port with Some p => (0 ≤ p ≤ 65535)%Z ∧ p ≠ dp | None => True end →
  let a := h +:+ match port with Some p => ":" +:+ show_Z p | None => EmptyString end in
  authority_clean a ∧ authority_from_uri (s +:+ "://" +:+ a) = Ok a.
Proof.
  intros Hd Hs Hc Hl He Hb Hp a.
  set (tail := match port with Some p => ":" +:+ show_Z p | None => EmptyString end) in *.
  assert (authority_clean tail ∧ free_of "]" tail = true) as [Hct Hft].
  { destruct port as [p|]; [|by repeat split].
    pose proof (show_Z_digits p ltac:(lia)) as Hdig. subst tail. split.
    - apply authority_clean_app. split; [by repeat split|by apply authority_clean_digits].
    - rewrite free_of_app. by apply free_of_digits. }
  assert (authority_clean a) as Hca by by apply authority_clean_app.
  split; [done|]. unfold authority_from_uri.
  assert (split_once_str "://" (s +:+ "://" +:+ a) = Some (s, a)) as ->
    by by apply default_port_cases in Hd as [[-> _]|[-> _]].
  cbn [ok_or].
  assert (to_lower s = s) as -> by by apply default_port_cases in Hd as [[-> _]|[-> _]].
  rewrite Hd. cbn [ok_or]. rewrite raw_authority_of_clean by done.
  assert (str_is_empty a = false) as -> by (subst a; by destruct h).
  subst a. rewrite split_host_port_shape by done.
  assert (String.eqb h "[]" = false) as Hb' by by apply String.eqb_neq.
  subst tail. destruct port as [p|].
  - change (":" +:+ show_Z p) with (String ":" (show_Z p)). cbn [Ascii.eqb Bool.eqb ok_or].
    rewrite Hl, He, Hb'. cbn [orb]. destruct Hp as [Hp Hne].
    rewrite parse_u16_show by done. cbn [ok_or].
    by rewrite (proj2 (Z.eqb_neq _ _) Hne).
  - cbn [ok_or]. rewrite Hl, He, Hb'. by rewrite str_app_nil_r.
Qed.
End authority_proofs.

(** ** What the base binds *)

Section properties.
Context `{Sfv, !SfvLaws}.

(** C21: the signature base determines what was signed. Two requests with one
    and the same base carry the same parameters (covered components, window,
    key, algorithm, nonce, tag), the same normalised authority and, when it is
    covered, the same [Signature-Agent] value: a signature over the base of one
    request is of no use for another. *)
Theorem signature_base_binds parts parts' p p' base :
  build_signature_base parts p = Ok base → build_signature_base parts' p' = Ok base →
  p = p' ∧ authority_from_uri (rp_target_uri parts) = authority_from_uri (rp_target_uri parts') ∧
  (COMPONENT_SIGNATURE_AGENT ∈ sp_covered p →
   trim <$> rp_signature_agent parts = trim <$> rp_signature_agent parts').
Proof.
  intros Hb Hb'. destruct (base_binds _ _ _ _ _ Hb Hb') as (<- & Ha & Hs).
  split; [done|]. split; [exact Ha|]. intros Hc. specialize (Hs Hc).
  apply build_signature_base_Ok in Hb as (l & t & Hl & Hm & _).
  destruct (component_lines_shape _ _ _ Hl Hm) as (a & _ & [[Hcov _]|(s & Hv & _)]).
  { rewrite Hcov in Hc. by apply elem_of_cons in Hc as [?|[]%not_elem_of_nil]. }
  rewrite Hv in Hs. symmetry in Hs.
  by apply agent_value in Hv as ->, Hs as ->.
Qed.
End properties.

(** [authority_from_uri] yields a normal form. Its result has no user
    information, path, query or fragment, and is the authority it computes for
    the URI made of itself: the default port is gone, the host is in lower
    case, a bracketed address keeps its brackets. *)
Theorem authority_normal_form uri a : authority_from_uri uri = Ok a →
  authority_clean a ∧ ∃ scheme, (scheme = "http" ∨ scheme = "https") ∧
    authority_from_uri (scheme +:+ "://" +:+ a) = Ok a.
Proof.
  intros (s & r & scheme & dp & h & port & _ & _ & Hd & Hs & Hc & Hl & He & Hb & Hp)
    %authority_from_uri_inv.
  assert (match port with Some p => (0 ≤ p ≤ 65535)%Z ∧ p ≠ dp | None => True end) as Hport
    by (destruct port; naive_solver).
  pose proof (authority_again scheme dp h port Hd Hs Hc Hl He Hb Hport) as [Hca Hag].
  assert (a = h +:+ match port with Some p => ":" +:+ show_Z p | None => EmptyString end) as ->
    by (destruct port; [by destruct Hp as (_ & _ & ->)|by rewrite str_app_nil_r]).
  split; [done|]. exists scheme. split; [|done].
  destruct (default_port_cases _ _ Hd) as [[-> _]|[-> _]]; auto.
Qed.

Section witnesses.
Import Fixtures.Instances.

Definition sample_parts : RequestParts :=
  with_signature_agent (request_parts "GET" "https://User:pw@Node.Example:443/v1?q#f")
    " agent.example ".
Definition sample_sig_params : SignatureParams := {|
  sp_covered := covered_components sample_parts; sp_created := 1700000000;
  sp_expires := 1700000300; sp_keyid := sample_key_did; sp_alg := ALG_ED25519;
  sp_nonce := "bm9uY2U"; sp_tag := TAG_AQUA_INTERNAL |}.
Definition sample_base : string :=
  match build_signature_base sample_parts sample_sig_params with Ok b => b | Err _ => "" end.
Lemma signature_base_binds_witness :
  authority_from_uri "https://User:pw@Node.Example:443/v1?q#f" =
  authority_from_uri "https://node.example/other".
Proof.
  refine (proj1 (proj2 (signature_base_binds sample_parts
    (with_signature_agent (request_parts "POST" "https://node.example/other") "agent.example")
    sample_sig_params sample_sig_params sample_base _ _))); vm_refl.
Defined.
Lemma authority_normal_form_witness : authority_clean "[::1]:8443" ∧
  ∃ scheme, (scheme = "http" ∨ scheme = "https") ∧
    authority_from_uri (scheme +:+ "://" +:+ "[::1]:8443") = Ok "[::1]:8443".
Proof. apply (authority_normal_form "HTTPS://u@[::1]:08443/x?y"). vm_refl. Defined.
End witnesses.
