(* ===== verification/HttpSigReplay.v ===== *)
(** * Single use of signature nonces: src/http_sig/replay.rs

    The guard as a map from nonces to expiry seconds, its operations as
    functions, and [guard_step], the same code with every access to the
    shared map as a step of its own, for calls that run concurrently. *)

From S2P Require Import Prelude Crates Errors Keys Did Suites Aqua Methods HttpSigBase.

Definition MAX_SEEN_NONCES : nat := N.to_nat 8192.

Record NonceReplayGuard : Type := {
  ng_seen : gmap string Z;
  ng_capacity : nat;
}.
Definition guard_with_capacity (capacity : nat) : NonceReplayGuard :=
  {| ng_seen := ∅; ng_capacity := Nat.max capacity 1 |}.
Definition new_guard : NonceReplayGuard := guard_with_capacity MAX_SEEN_NONCES.
Definition set_seen (g : NonceReplayGuard) (m : gmap string Z) : NonceReplayGuard :=
  {| ng_seen := m; ng_capacity := ng_capacity g |}.
Definition guard_len (g : NonceReplayGuard) : nat := size (ng_seen g).
Definition guard_is_empty (g : NonceReplayGuard) : bool := guard_len g =? 0.

Definition cleanup_expired_at (now : Z) (g : NonceReplayGuard) : NonceReplayGuard :=
  set_seen g (filter (λ ke, (now < ke.2)%Z) (ng_seen g)).
(** Least [expires], ties broken by the nonce. *)
Definition expires_before (a b : string * Z) : bool := stamp_ltb (a.2, a.1) (b.2, b.1).
Definition soonest (g : NonceReplayGuard) : option (string * Z) :=
  min_by expires_before (map_to_list (ng_seen g)).
Definition evict_soonest_expiring (g : NonceReplayGuard) : NonceReplayGuard :=
  match soonest g with
  | Some (nonce, _) => set_seen g (delete nonce (ng_seen g))
  | None => g
  end.
Definition guard_make_room (now : Z) (g : NonceReplayGuard) : NonceReplayGuard :=
  if ng_capacity g <=? guard_len g then
    let g := cleanup_expired_at now g in
    if ng_capacity g <=? guard_len g then evict_soonest_expiring g else g
  else g.
(** [seen.entry(nonce)]: a vacant slot is taken, an occupied one is a replay. *)
Definition guard_entry (nonce : string) (expires_at : Z) (g : NonceReplayGuard)
  : NonceReplayGuard * result unit HttpSigError :=
  match ng_seen g !! nonce with
  | Some _ => (g, Err NonceReplayed)
  | None => (set_seen g (<[nonce := expires_at]> (ng_seen g)), Ok tt)
  end.
Definition check_and_record_at (nonce : string) (expires_at now : Z) (g : NonceReplayGuard)
  : NonceReplayGuard * result unit HttpSigError :=
  match ng_seen g !! nonce with
  | Some _ => (g, Err NonceReplayed)
  | None => guard_entry nonce expires_at (guard_make_room now g)
  end.

(** ** The guard as a sequential object *)

Inductive GuardOp : Type :=
| OpCheck (nonce : string) (expires_at now : Z)
| OpPurge (now : Z).
Definition guard_op_now (op : GuardOp) : Z :=
  match op with OpCheck _ _ now | OpPurge now => now end.
Definition guard_op (g : NonceReplayGuard) (op : GuardOp)
  : NonceReplayGuard * option (string * result unit HttpSigError) :=
  match op with
  | OpCheck nonce e now =>
      let '(g', r) := check_and_record_at nonce e now g in (g', Some (nonce, r))
  | OpPurge now => (cleanup_expired_at now g, None)
  end.
Fixpoint guard_run (g : NonceReplayGuard) (ops : list GuardOp)
  : NonceReplayGuard * list (string * result unit HttpSigError) :=
  match ops with
  | [] => (g, [])
  | op :: ops' =>
      let '(g1, o) := guard_op g op in
      let '(g2, os) := guard_run g1 ops' in
      (g2, match o with Some x => x :: os | None => os end)
  end.
Definition op_checks (op : GuardOp) : nat :=
  match op with OpCheck _ _ _ => 1 | OpPurge _ => 0 end.

(** ** The guard shared by concurrent calls

    Each access to the [DashMap] is one step. [retain] and the search for the
    victim walk the shards one after the other, so a purge drops expired
    entries one at a time and an eviction may have picked any nonce. *)

Inductive CallAt : Type :=
| AtContains | AtLen | AtPurge | AtLenAgain | AtEvict | AtEntry
| Finished (r : result unit HttpSigError).
Record Call : Type := {
  cl_nonce : string; cl_expires : Z; cl_now : Z; cl_at : CallAt;
}.
Definition call (nonce : string) (expires_at now : Z) : Call :=
  {| cl_nonce := nonce; cl_expires := expires_at; cl_now := now; cl_at := AtContains |}.
Definition goto (c : Call) (at_ : CallAt) : Call :=
  {| cl_nonce := cl_nonce c; cl_expires := cl_expires c; cl_now := cl_now c; cl_at := at_ |}.

(** One step of one call: what it makes of the guard, and the nonce it drops. *)
Inductive call_step : NonceReplayGuard → Call → option string → NonceReplayGuard → Call → Prop :=
| StepContains g c : cl_at c = AtContains →
    call_step g c None g (goto c match ng_seen g !! cl_nonce c with
                                 | Some _ => Finished (Err NonceReplayed)
                                 | None => AtLen end)
| StepLen g c : cl_at c = AtLen →
    call_step g c None g (goto c (if ng_capacity g <=? guard_len g then AtPurge else AtEntry))
| StepPurgeOne g c k e : cl_at c = AtPurge → ng_seen g !! k = Some e → (e ≤ cl_now c)%Z →
    call_step g c (Some k) (set_seen g (delete k (ng_seen g))) c
| StepPurged g c : cl_at c = AtPurge → call_step g c None g (goto c AtLenAgain)
| StepLenAgain g c : cl_at c = AtLenAgain →
    call_step g c None g (goto c (if ng_capacity g <=? guard_len g then AtEvict else AtEntry))
| StepNoVictim g c : cl_at c = AtEvict → call_step g c None g (goto c AtEntry)
| StepEvict g c k : cl_at c = AtEvict → is_Some (ng_seen g !! k) →
    call_step g c (Some k) (set_seen g (delete k (ng_seen g))) (goto c AtEntry)
| StepEntry g c : cl_at c = AtEntry →
    call_step g c None (guard_entry (cl_nonce c) (cl_expires c) g).1
      (goto c (Finished (guard_entry (cl_nonce c) (cl_expires c) g).2)).

(** The guard and the calls made on it so far; anyone may also purge. *)
Inductive guard_step : NonceReplayGuard * list Call → option string →
  NonceReplayGuard * list Call → Prop :=
| StepStart g cs n e now : guard_step (g, cs) None (g, cs ++ [call n e now])
| StepCall g cs i c k g' c' : cs !! i = Some c → call_step g c k g' c' →
    guard_step (g, cs) k (g', <[i:=c']> cs)
| StepCleanup g cs k e now : ng_seen g !! k = Some e → (e ≤ now)%Z →
    guard_step (g, cs) (Some k) (set_seen g (delete k (ng_seen g)), cs).
Inductive guard_steps : NonceReplayGuard * list Call → list string →
  NonceReplayGuard * list Call → Prop :=
| StepsNone s : guard_steps s [] s
| StepsMore s k s' ks s'' : guard_step s k s' → guard_steps s' ks s'' →
    guard_steps s (match k with Some k => k :: ks | None => ks end) s''.

(** How many calls [nonce] was accepted by, how often it was dropped, and
    whether it is remembered. *)
Definition call_accepts (nonce : string) (c : Call) : nat :=
  match cl_at c with
  | Finished (Ok _) => if String.eqb (cl_nonce c) nonce then 1 else 0
  | _ => 0
  end.
Definition accepted (nonce : string) (cs : list Call) : nat :=
  list_sum (map (call_accepts nonce) cs).
Definition dropped (nonce : string) (ks : list string) : nat :=
  list_sum (map (λ k, if String.eqb k nonce then 1 else 0) ks).
Definition remembered (nonce : string) (g : NonceReplayGuard) : nat :=
  match ng_seen g !! nonce with Some _ => 1 | None => 0 end.

(** ** One call at a time *)

Lemma soonest_spec g n e : soonest g = Some (n, e) →
  ng_seen g !! n = Some e ∧
  ∀ n' e', ng_seen g !! n' = Some e' → n' ≠ n →
    (e < e' ∨ (e = e' ∧ String.ltb n n' = true))%Z.
Proof.
  intros Ho. split; [by apply elem_of_map_to_list, (min_by_elem expires_before)|].
  intros n' e' Hn' Hne.
  assert (expires_before (n', e') (n, e) = false) as Hb.
  { eapply min_by_least; [intros ? ? ?; apply stamp_ltb_trans|intros ? ?; apply stamp_ltb_asym
      |exact Ho|]. by apply elem_of_map_to_list. }
  apply stamp_ltb_false in Hb as [?|[? ?]]; cbn [fst snd] in *; [auto|right]. split; [done|].
  destruct (String.ltb n n') eqn:E; [done|]. by destruct Hne; apply str_ltb_tie.
Qed.
Lemma soonest_None g : soonest g = None → ng_seen g = ∅.
Proof.
  unfold soonest. rewrite <- map_to_list_empty_iff. intros Hn.
  destruct (map_to_list (ng_seen g)) as [|x l]; [done|].
  destruct (min_by_is_Some expires_before (x :: l)) as [y Hx]; [done|]. by rewrite Hx in Hn.
Qed.
Lemma guard_purge_lookup now g n e :
  ng_seen (cleanup_expired_at now g) !! n = Some e ↔ ng_seen g !! n = Some e ∧ (now < e)%Z.
Proof. unfold cleanup_expired_at. cbn. by rewrite map_lookup_filter_Some. Qed.
Lemma guard_purge_subseteq now g : ng_seen (cleanup_expired_at now g) ⊆ ng_seen g.
Proof. apply map_filter_subseteq. Qed.
Lemma guard_purge_len now g : guard_len (cleanup_expired_at now g) ≤ guard_len g.
Proof. apply map_subseteq_size, guard_purge_subseteq. Qed.
Lemma evict_soonest_subseteq g : ng_seen (evict_soonest_expiring g) ⊆ ng_seen g.
Proof. unfold evict_soonest_expiring. destruct (soonest g) as [[]|]; [apply delete_subseteq|done]. Qed.
Lemma evict_soonest_len g : guard_len (evict_soonest_expiring g) = guard_len g - 1.
Proof.
  unfold evict_soonest_expiring, guard_len. destruct (soonest g) as [[n e]|] eqn:E; cbn.
  - apply soonest_spec in E as [E _]. rewrite map_size_delete, E. lia.
  - apply soonest_None in E as ->. by rewrite map_size_empty.
Qed.
Lemma room_subseteq now g : ng_seen (guard_make_room now g) ⊆ ng_seen g.
Proof.
  unfold guard_make_room. destruct (_ <=? guard_len g); [|done].
  destruct (_ <=? _); [|apply guard_purge_subseteq].
  etrans; [apply evict_soonest_subseteq|apply guard_purge_subseteq].
Qed.
Lemma room_capacity now g : ng_capacity (guard_make_room now g) = ng_capacity g.
Proof. unfold guard_make_room, evict_soonest_expiring. repeat case_match; done. Qed.
Lemma room_len now g : 1 ≤ ng_capacity g → guard_len g ≤ ng_capacity g →
  S (guard_len (guard_make_room now g)) ≤ ng_capacity g.
Proof.
  intros Hc Hl. unfold guard_make_room. pose proof (guard_purge_len now g).
  destruct (_ <=? guard_len g) eqn:E1; bool_simpl; [|lia].
  destruct (ng_capacity (cleanup_expired_at now g) <=? _) eqn:E2; bool_simpl.
  - rewrite evict_soonest_len. lia.
  - cbn in *. lia.
Qed.
(** What making room costs. *)
Lemma room_dropped now g n e : ng_seen g !! n = Some e →
  ng_seen (guard_make_room now g) !! n = None →
  (e ≤ now)%Z ∨
  (now < e ∧ (ng_capacity g ≤ guard_len (cleanup_expired_at now g))%nat ∧
   ∀ n' e', ng_seen g !! n' = Some e' → now < e' → e ≤ e')%Z.
Proof.
  unfold guard_make_room. intros Hn Hg.
  destruct (_ <=? guard_len g); [|congruence].
  destruct (Z.le_gt_cases e now) as [|Hlive]; [by left|]. right.
  assert (ng_seen (cleanup_expired_at now g) !! n = Some e) as Hp by by apply guard_purge_lookup.
  destruct (_ <=? guard_len (cleanup_expired_at now g)) eqn:E2; [|congruence].
  unfold evict_soonest_expiring in Hg.
  destruct (soonest _) as [[k e0]|] eqn:Es; [|congruence]. cbn in Hg.
  apply soonest_spec in Es as [Hk Hmin].
  destruct (decide (k = n)) as [->|Hne]; [|rewrite lookup_delete_ne in Hg by done; cbn in Hp; congruence].
  assert (e0 = e) as -> by congruence. split; [done|].
  split; [by bool_simpl|]. intros n' e' Hn' Hlive'.
  destruct (decide (n' = n)) as [->|Hne']; [naive_solver lia|].
  assert (ng_seen (cleanup_expired_at now g) !! n' = Some e') as Hp' by by apply guard_purge_lookup.
  destruct (Hmin _ _ Hp' Hne'); lia.
Qed.
Lemma check_seen n e now g e0 : ng_seen g !! n = Some e0 →
  check_and_record_at n e now g = (g, Err NonceReplayed).
Proof. unfold check_and_record_at. by intros ->. Qed.
Lemma check_fresh n e now g : ng_seen g !! n = None →
  check_and_record_at n e now g =
  (set_seen (guard_make_room now g) (<[n := e]> (ng_seen (guard_make_room now g))), Ok tt).
Proof.
  unfold check_and_record_at, guard_entry. intros Hn. rewrite Hn.
  by rewrite (lookup_weaken_None _ _ _ Hn (room_subseteq now g)).
Qed.

(** ** What the guard promises *)

(** A remembered nonce stays while its life lasts and the guard has room. *)
Lemma guard_op_keeps g op n e : ng_seen g !! n = Some e → (guard_op_now op < e)%Z →
  guard_len g + op_checks op ≤ ng_capacity g →
  ng_seen (guard_op g op).1 !! n = Some e ∧
  ng_capacity (guard_op g op).1 = ng_capacity g ∧
  guard_len (guard_op g op).1 ≤ guard_len g + op_checks op.
Proof.
  intros Hn Hnow Hroom. destruct op as [k e' now|now]; cbn [guard_op guard_op_now op_checks] in *.
  - destruct (ng_seen g !! k) as [e0|] eqn:Ek.
    + rewrite (check_seen _ _ _ _ _ Ek). cbn. split_and!; [done..|lia].
    + rewrite check_fresh by done. cbn [fst set_seen ng_seen ng_capacity].
      assert (guard_make_room now g = g) as ->.
      { unfold guard_make_room. destruct (_ <=? guard_len g) eqn:E; bool_simpl; [lia|done]. }
      assert (k ≠ n) by congruence. rewrite lookup_insert_ne by done. split_and!; [done..|].
      unfold guard_len in *. cbn. pose proof (size_insert_le (ng_seen g) k e'). lia.
  - cbn [fst]. split_and!; [by apply guard_purge_lookup|done|]. pose proof (guard_purge_len now g). lia.
Qed.
Lemma guard_run_keeps g ops n e : ng_seen g !! n = Some e →
  Forall (λ op, guard_op_now op < e)%Z ops →
  guard_len g + list_sum (map op_checks ops) ≤ ng_capacity g →
  Forall (λ o, o.1 = n → o.2 = Err NonceReplayed) (guard_run g ops).2 ∧
  ng_seen (guard_run g ops).1 !! n = Some e.
Proof.
  revert g. induction ops as [|op ops IH]; intros g Hn Hops Hroom; [by split; [constructor|]|].
  inversion Hops as [|? ? Hop Hops']; subst.
  assert (list_sum (map op_checks (op :: ops)) =
    op_checks op + list_sum (map op_checks ops)) as Hs by done. rewrite Hs in Hroom.
  destruct (guard_op_keeps g op n e Hn Hop ltac:(lia)) as (Hn' & Hc & Hl).
  assert (∀ o, (guard_op g op).2 = Some o → o.1 = n → o.2 = Err NonceReplayed) as Ho.
  { destruct op as [k e' now|now]; [|done]. cbn [guard_op].
    destruct (check_and_record_at k e' now g) as [g' r] eqn:Ec. intros o [= <-]. cbn [fst snd].
    intros ->. rewrite (check_seen _ _ _ _ _ Hn) in Ec. by injection Ec as _ <-. }
  cbn [guard_run]. destruct (guard_op g op) as [g1 o] eqn:Eo. cbn [fst snd] in *.
  specialize (IH g1 Hn' Hops' ltac:(lia)). destruct (guard_run g1 ops) as [g2 os].
  cbn [fst snd] in *. destruct IH as [IH1 IH2]. split; [|done].
  destruct o as [o|]; [|done]. constructor; [by apply Ho|done].
Qed.

(** A nonce is honoured once. After a call accepted [nonce] until [expires],
    every later presentation of it is refused as a replay, as long as the
    clocks stay before [expires] and the guard is asked about no more nonces
    than it has room for. *)
Theorem guard_single_use g nonce expires now g1 ops :
  check_and_record_at nonce expires now g = (g1, Ok tt) →
  Forall (λ op, guard_op_now op < expires)%Z ops →
  guard_len g1 + list_sum (map op_checks ops) ≤ ng_capacity g1 →
  Forall (λ o, o.1 = nonce → o.2 = Err NonceReplayed) (guard_run g1 ops).2.
Proof.
  intros Hc Hops Hroom. apply (guard_run_keeps _ _ _ expires); [|done..].
  destruct (ng_seen g !! nonce) eqn:E; [by rewrite (check_seen _ _ _ _ _ E) in Hc|].
  rewrite check_fresh in Hc by done. injection Hc as <-. cbn. by rewrite lookup_insert_eq.
Qed.

(** C37: what the bounded guard gives up. A call on a guard within its capacity
    leaves it within its capacity; a nonce it forgets has expired, or the
    guard was full of live nonces and none of them expires earlier. *)
Theorem guard_bounded g nonce expires now :
  1 ≤ ng_capacity g → guard_len g ≤ ng_capacity g →
  let g' := (check_and_record_at nonce expires now g).1 in
  ng_capacity g' = ng_capacity g ∧ guard_len g' ≤ ng_capacity g ∧
  ∀ n e, ng_seen g !! n = Some e → ng_seen g' !! n = None →
    (e ≤ now)%Z ∨
    (now < e ∧ (ng_capacity g ≤ guard_len (cleanup_expired_at now g))%nat ∧
     ∀ n' e', ng_seen g !! n' = Some e' → now < e' → e ≤ e')%Z.
Proof.
  intros Hc Hl g'. subst g'. destruct (ng_seen g !! nonce) as [e0|] eqn:E.
  - rewrite (check_seen _ _ _ _ _ E). cbn. split_and!; [done..|congruence].
  - rewrite check_fresh by done. cbn [fst set_seen ng_seen ng_capacity].
    split; [by apply room_capacity|]. split.
    + pose proof (room_len now g Hc Hl). unfold guard_len in *. cbn.
      pose proof (size_insert_le (ng_seen (guard_make_room now g)) nonce expires). lia.
    + intros n e Hn Hd. apply (room_dropped now g n e Hn).
      by apply lookup_insert_None in Hd as [? _].
Qed.

(** ** Concurrent calls *)

Lemma remembered_delete n k g : is_Some (ng_seen g !! k) →
  remembered n (set_seen g (delete k (ng_seen g))) + (if String.eqb k n then 1 else 0)
    = remembered n g.
Proof.
  intros [e He]. unfold remembered. cbn. destruct (String.eqb_spec k n) as [->|Hne].
  - by rewrite lookup_delete_eq, He.
  - rewrite lookup_delete_ne by done. by destruct (ng_seen g !! n).
Qed.
Definition drop_count (n : string) (k : option string) : nat :=
  match k with Some k => if String.eqb k n then 1 else 0 | None => 0 end.
Lemma call_step_counts n g c k g' c' : call_step g c k g' c' →
  call_accepts n c' + remembered n g =
  call_accepts n c + remembered n g' + drop_count n k.
Proof.
  unfold call_accepts.
  induction 1 as [g c E|g c E|g c k e E Hk He|g c E|g c E|g c E|g c k E Hk|g c E];
    rewrite E; cbn [goto cl_at drop_count].
  - destruct (ng_seen g !! cl_nonce c); lia.
  - destruct (_ <=? _); lia.
  - rewrite <- (remembered_delete n k g) by eauto. lia.
  - lia.
  - destruct (_ <=? _); lia.
  - lia.
  - rewrite <- (remembered_delete n k g) by done. lia.
  - unfold guard_entry, remembered. destruct (ng_seen g !! cl_nonce c) eqn:El; cbn; [lia|].
    destruct (String.eqb_spec (cl_nonce c) n) as [<-|Hne].
    + rewrite lookup_insert_eq, El. lia.
    + rewrite lookup_insert_ne by done. lia.
Qed.
Lemma guard_step_counts n s k s' : guard_step s k s' →
  accepted n s'.2 + remembered n s.1 = accepted n s.2 + remembered n s'.1 + drop_count n k.
Proof.
  unfold accepted. induction 1 as [g cs m e now|g cs i c k g' c' Hi Hc|g cs k e now Hk He]; cbn [fst snd].
  - rewrite map_app, list_sum_app. cbn. lia.
  - pose proof (sum_insert (call_accepts n) cs i c c' Hi).
    pose proof (call_step_counts n _ _ _ _ _ Hc). lia.
  - cbn [drop_count]. rewrite <- (remembered_delete n k g) by eauto. lia.
Qed.

(** C23: the guard under concurrency. However the calls interleave, one access
    to the map at a time, the number of calls that accepted [nonce] is the
    number of times its entry went in: each acceptance beyond the first is
    paid for by a purge or an eviction that dropped it. In particular two
    concurrent presentations of a nonce the guard does not drop are never
    both accepted. *)
Theorem guard_concurrent_single_use nonce g cs ks g' cs' :
  guard_steps (g, cs) ks (g', cs') →
  accepted nonce cs' + remembered nonce g =
  accepted nonce cs + remembered nonce g' + dropped nonce ks.
Proof.
  intros Hs. change (accepted nonce (g', cs').2 + remembered nonce (g, cs).1 =
    accepted nonce (g, cs).2 + remembered nonce (g', cs').1 + dropped nonce ks).
  induction Hs as [s|s k s' ks s'' Hst Hs IH]; [unfold dropped; cbn; lia|].
  pose proof (guard_step_counts nonce _ _ _ Hst).
  destruct k as [k|]; cbn [drop_count] in *; [|lia].
  change (dropped nonce (k :: ks)) with
    ((if String.eqb k nonce then 1 else 0) + dropped nonce ks). lia.
Qed.

Lemma guard_steps_app s ks s' ks' s'' :
  guard_steps s ks s' → guard_steps s' ks' s'' → guard_steps s (ks ++ ks') s''.
Proof.
  induction 1 as [|s k s1 ks s2 Hst Hs IH]; [done|]. intros H2.
  pose proof (StepsMore _ _ _ _ _ Hst (IH H2)) as Hm. by destruct k.
Qed.
Lemma one_call g c k g' c' s : call_step g c k g' c' →
  (∃ ks, guard_steps (g', [c']) ks s) → ∃ ks, guard_steps (g, [c]) ks s.
Proof.
  intros Hc [ks Hs]. eexists. eapply StepsMore; [|exact Hs]. by apply (StepCall g [c] 0 c).
Qed.
(** The steps of [retain], up to the end of the walk. *)
Lemma purge_steps g c : cl_at c = AtPurge →
  ∃ ks, guard_steps (g, [c]) ks (cleanup_expired_at (cl_now c) g, [c]).
Proof.
  intros Hc. remember (guard_len g) as n eqn:Hn. revert g Hn.
  induction (lt_wf n) as [n _ IH]. intros g Hn.
  destruct (decide (map_Forall (λ _ e, (cl_now c < e)%Z) (ng_seen g))) as [Hall|Hex].
  - assert (cleanup_expired_at (cl_now c) g = g) as -> by
      (destruct g as [m cap]; unfold cleanup_expired_at, set_seen; cbn; f_equal;
       apply map_filter_id; intros k e Hk; by apply (Hall k e)).
    exists []. constructor.
  - apply map_not_Forall in Hex as (k & e & Hk & He); [|intros ? ?; apply _].
    set (g1 := set_seen g (delete k (ng_seen g))).
    assert (cleanup_expired_at (cl_now c) g1 = cleanup_expired_at (cl_now c) g) as Heq.
    { unfold cleanup_expired_at, set_seen, g1. cbn. f_equal. apply map_eq. intros j.
      apply option_eq. intros v. rewrite !map_lookup_filter_Some. cbn.
      rewrite lookup_delete_Some. split; [by intros [[_ ?] ?]|]. intros [Hj Hv].
      split; [|done]. split; [|done]. intros <-. rewrite Hk in Hj. injection Hj as <-. lia. }
    assert (guard_len g1 < n) as Hlt.
    { subst n. unfold g1, guard_len, set_seen. cbn. rewrite map_size_delete, Hk.
      assert (size (ng_seen g) ≠ 0); [|lia].
      intros Hs%map_size_empty_iff. by rewrite Hs, lookup_empty in Hk. }
    destruct (IH _ Hlt g1 eq_refl) as [ks Hks]. rewrite Heq in Hks.
    eapply one_call; [|by exists ks]. apply (StepPurgeOne g c k e); [done..|lia].
Qed.

(** The sequential function is a run of the steps. A call that nobody
    interrupts takes the guard where [check_and_record_at] takes it, with the
    same result: the concurrent model refines to the sequential one. *)
Theorem guard_atomic_run g nonce expires now :
  ∃ ks, guard_steps (g, [call nonce expires now]) ks
    ((check_and_record_at nonce expires now g).1,
     [goto (call nonce expires now) (Finished (check_and_record_at nonce expires now g).2)]).
Proof.
  set (c := call nonce expires now).
  eapply one_call; [by apply StepContains|]. cbn [cl_nonce c call]. unfold check_and_record_at.
  destruct (ng_seen g !! nonce) as [e0|]; [by exists []; constructor|].
  assert (∀ gx, ∃ ks, guard_steps (gx, [goto c AtEntry]) ks
    ((guard_entry nonce expires gx).1, [goto c (Finished (guard_entry nonce expires gx).2)]))
    as Hentry.
  { intros gx. eapply one_call; [by apply StepEntry|]. by exists []; constructor. }
  enough (∃ ks, guard_steps (g, [goto c AtLen]) ks (guard_make_room now g, [goto c AtEntry]))
    as [ks Hks].
  { destruct (Hentry (guard_make_room now g)) as [ks' Hks'].
    exists (ks ++ ks'). by eapply guard_steps_app. }
  eapply one_call; [by apply StepLen|]. unfold guard_make_room.
  destruct (_ <=? guard_len g); [|by exists []; constructor].
  destruct (purge_steps g (goto c AtPurge) eq_refl) as [ks1 H1]. cbn [cl_now goto c call] in H1.
  enough (∃ ks, guard_steps (cleanup_expired_at now g, [goto c AtPurge]) ks
    (if ng_capacity (cleanup_expired_at now g) <=? guard_len (cleanup_expired_at now g)
     then evict_soonest_expiring (cleanup_expired_at now g) else cleanup_expired_at now g,
     [goto c AtEntry])) as [ks Hks].
  { exists (ks1 ++ ks). by eapply guard_steps_app. }
  eapply one_call; [by apply StepPurged|]. eapply one_call; [by apply StepLenAgain|].
  destruct (_ <=? guard_len _); [|by exists []; constructor].
  unfold evict_soonest_expiring. destruct (soonest _) as [[k e]|] eqn:Es.
  - apply soonest_spec in Es as [Hk _].
    eapply one_call; [apply (StepEvict _ _ k); [done|by eexists]|]. by exists []; constructor.
  - eapply one_call; [by apply StepNoVictim|]. by exists []; constructor.
Qed.

(** A step that drops no nonce. *)
Lemma guard_quiet_step s s' ks s'' :
  guard_step s None s' → guard_steps s' ks s'' → guard_steps s ks s''.
Proof. apply StepsMore. Qed.

Section witnesses.

Lemma guard_single_use_witness :
  Forall (λ o, o.1 = "n" → o.2 = Err NonceReplayed)
    (guard_run (check_and_record_at "n" 300 0 (guard_with_capacity 3)).1
      [OpCheck "m" 200 100; OpPurge 250; OpCheck "n" 300 299]).2.
Proof.
  apply (guard_single_use (guard_with_capacity 3) "n" 300 0).
  - vm_refl.
  - repeat constructor.
  - vm_compute. lia.
Defined.
Definition full_guard : NonceReplayGuard :=
  (check_and_record_at "b" 400 0 (check_and_record_at "a" 300 0 (guard_with_capacity 2)).1).1.
Lemma guard_bounded_witness : guard_len (check_and_record_at "c" 500 0 full_guard).1 ≤ 2 ∧
  ng_seen (check_and_record_at "c" 500 0 full_guard).1 !! "a" = None.
Proof.
  split; [|vm_refl]. apply (guard_bounded full_guard "c" 500 0); vm_compute; lia.
Defined.
(** Two presentations of one nonce, both past [contains_key]. *)
Lemma guard_concurrent_single_use_witness :
  accepted "n" [goto (call "n" 300 0) (Finished (Ok tt)); goto (call "n" 300 0) AtEntry]
    = remembered "n" (set_seen new_guard {["n" := 300%Z]}).
Proof.
  assert (guard_steps (new_guard, []) []
    (set_seen new_guard {["n" := 300%Z]},
     [goto (call "n" 300 0) (Finished (Ok tt)); goto (call "n" 300 0) AtEntry])) as Hs.
  { set (c := call "n" 300 0).
    eapply guard_quiet_step; [apply (StepStart new_guard [] "n" 300 0)|].
    eapply guard_quiet_step; [apply (StepStart new_guard [c] "n" 300 0)|].
    eapply guard_quiet_step; [apply (StepCall _ _ 0 c); [done|by apply StepContains]|].
    eapply guard_quiet_step; [apply (StepCall _ _ 1 c); [done|by apply StepContains]|].
    eapply guard_quiet_step; [apply (StepCall _ _ 0 (goto c AtLen)); [done|by apply StepLen]|].
    eapply guard_quiet_step; [apply (StepCall _ _ 1 (goto c AtLen)); [done|by apply StepLen]|].
    eapply guard_quiet_step; [apply (StepCall _ _ 0 (goto c AtEntry)); [done|by apply StepEntry]|].
    apply StepsNone. }
  exact (guard_concurrent_single_use "n" _ _ _ _ _ Hs).
Defined.
(** Two nonces, both past the length check before either is entered: the
    guard ends with one more than its capacity. *)
Lemma guard_capacity_overshoot :
  ∃ g cs, guard_steps (guard_with_capacity 1, []) [] (g, cs) ∧
    ng_capacity g = 1 ∧ guard_len g = 2.
Proof.
  set (n := call "n" 300 0). set (m := call "m" 300 0). eexists _, _. split.
  - eapply guard_quiet_step; [apply (StepStart (guard_with_capacity 1) [] "n" 300 0)|].
    eapply guard_quiet_step; [apply (StepStart _ [n] "m" 300 0)|].
    eapply guard_quiet_step; [apply (StepCall _ _ 0 n); [done|by apply StepContains]|].
    eapply guard_quiet_step; [apply (StepCall _ _ 1 m); [done|by apply StepContains]|].
    eapply guard_quiet_step; [apply (StepCall _ _ 0 (goto n AtLen)); [done|by apply StepLen]|].
    eapply guard_quiet_step; [apply (StepCall _ _ 1 (goto m AtLen)); [done|by apply StepLen]|].
    eapply guard_quiet_step; [apply (StepCall _ _ 0 (goto n AtEntry)); [done|by apply StepEntry]|].
    eapply guard_quiet_step; [apply (StepCall _ _ 1 (goto m AtEntry)); [done|by apply StepEntry]|].
    apply StepsNone.
  - split; vm_refl.
Qed.
End witnesses.
