(* ===== verification/HttpSig.v ===== *)
(** * Signing and verifying requests: src/http_sig/sign.rs and
    src/http_sig/verify.rs

    The clock, the random nonce and the signing backend are arguments; the
    replay guard, shared by an [Arc], is threaded through the verification. *)

From S2P Require Import Prelude Crates Fixtures Errors Keys Did Suites Aqua Methods DidFormat Principal Signer HttpSigBase HttpSigReplay.

Section defs.
Context `{Ed25519, P256, K256, MlDsa, Base58, Base64, Hex, Hashes, Features, Sfv, World}.

(** ** src/http_sig/sign.rs *)

Definition validity_seconds (validity : Duration) : result Z HttpSigError :=
  let seconds := dur_secs validity in
  if (seconds =? 0)%Z then Err ValidityZero
  else if dur_gtb validity MAX_VALIDITY then
    Err (ValidityTooLong seconds (dur_secs MAX_VALIDITY))
  else Ok (as_i64 seconds).

Definition profile_parameters (profile : SigProfile) (did : string)
  : result (string * string * string) HttpSigError :=
  match profile with
  | AquaInternal =>
      let? alg := alg_for_did did in Ok (did, alg, TAG_AQUA_INTERNAL)
  | WebBotAuth jwk_thumbprint =>
      let? alg := alg_for_did did in
      if negb (String.eqb alg ALG_ED25519) then Err (ProfileRequiresEd25519 did)
      else
        let thumbprint := trim jwk_thumbprint in
        if str_is_empty thumbprint then Err EmptyThumbprint
        else Ok (thumbprint, ALG_ED25519, TAG_WEB_BOT_AUTH)
  end.

(** [generate_nonce] on the random bytes drawn. *)
Definition generate_nonce (random : bytes) : string := b64url_encode random.

Definition sign_parameters (signer : Signer) (parts : RequestParts) (profile : SigProfile)
    (validity : Duration) (created : Z) (random : bytes) : result SignatureParams HttpSigError :=
  let? window := validity_seconds validity in
  let did := signer_did signer in
  let? '(keyid, alg, tag) := profile_parameters profile did in
  Ok {| sp_covered := covered_components parts; sp_created := created;
        sp_expires := saturating_add_i64 created window; sp_keyid := keyid;
        sp_alg := alg; sp_nonce := generate_nonce random; sp_tag := tag |}.

(** [random] is what [rand] draws for the nonce. *)
Definition sign_request_at (signer : Signer) (parts : RequestParts) (profile : SigProfile)
    (validity : Duration) (created : Z) (random : bytes) (w : world)
  : world * result SignedHeaders HttpSigError :=
  match sign_parameters signer parts profile validity created random with
  | Err e => (w, Err e)
  | Ok params =>
      match build_signature_base parts params with
      | Err e => (w, Err e)
      | Ok base =>
          let '(w, signed) := sg_sign signer w base in
          (w,
           let? signature := map_err (λ e, HsSign (sign_error_display e)) signed in
           let? input := signature_input_header SIGNATURE_LABEL params in
           let? sig := signature_header SIGNATURE_LABEL signature in
           Ok {| sh_signature_input := input; sh_signature := sig |})
      end
  end.

(** ** src/http_sig/verify.rs *)

Record VerifyOptions : Type := {
  vo_expected_tag : string;
  vo_clock_skew : Duration;
  vo_replay_guard : option NonceReplayGuard;
}.
Definition verify_options (expected_tag : string) : VerifyOptions :=
  {| vo_expected_tag := expected_tag; vo_clock_skew := DEFAULT_CLOCK_SKEW;
     vo_replay_guard := None |}.
Definition with_replay_guard (o : VerifyOptions) (guard : NonceReplayGuard) : VerifyOptions :=
  {| vo_expected_tag := vo_expected_tag o; vo_clock_skew := vo_clock_skew o;
     vo_replay_guard := Some guard |}.
Definition with_clock_skew (o : VerifyOptions) (skew : Duration) : VerifyOptions :=
  {| vo_expected_tag := vo_expected_tag o; vo_clock_skew := skew;
     vo_replay_guard := vo_replay_guard o |}.
Definition aqua_internal : VerifyOptions := verify_options TAG_AQUA_INTERNAL.
Definition web_bot_auth : VerifyOptions := verify_options TAG_WEB_BOT_AUTH.

(** [params.get(name)] and [dict.get(label)]: both are ordered maps. *)
Definition assoc {A} (name : string) (l : list (string * A)) : option A :=
  snd <$> List.find (λ kv, String.eqb kv.1 name) l.
Definition integer_param (params : sf_params) (name : string) : result Z HttpSigError :=
  match assoc name params with
  | Some (SfInteger z) => Ok z
  | _ => Err (MalformedSignatureInput (name +:+ " must be an integer"))
  end.
Definition string_param (params : sf_params) (name : string) : result string HttpSigError :=
  match assoc name params with
  | Some (SfString s) => Ok s
  | _ => Err (MalformedSignatureInput (name +:+ " must be a string"))
  end.
(** [{:?}] of a list of parameter keys. *)
Definition debug_keys (l : list string) : string :=
  "[" +:+ String.concat ", " (debug_str <$> l) +:+ "]".
Definition covered_name (item : sf_item) : result string HttpSigError :=
  match item_params item with
  | _ :: _ => Err (MalformedSignatureInput
      "covered components in this profile carry no parameters")
  | [] =>
      match item_bare item with
      | SfString name =>
          if str_mem name ALLOWED_COMPONENTS then Ok name else Err (UnsupportedComponent name)
      | _ => Err (MalformedSignatureInput "covered component names must be strings")
      end
  end.
Definition parse_signature_input (header : string)
  : result (string * SignatureParams) HttpSigError :=
  let? dict := map_err MalformedSignatureInput (sfv_parse_dict header) in
  match dict with
  | [(label, entry)] =>
      match entry with
      | EntryItem _ =>
          Err (MalformedSignatureInput "signature parameters must be an inner list")
      | EntryInnerList items params =>
          let? covered := collect covered_name items in
          if negb (str_mem COMPONENT_AUTHORITY covered) then
            Err (MissingComponent COMPONENT_AUTHORITY)
          else
          let present := params.*1 in
          if negb (bool_decide (present = PARAM_ORDER)) then
            Err (MalformedSignatureInput ("expected parameters " +:+ debug_keys PARAM_ORDER
              +:+ " in that order, found " +:+ debug_keys present))
          else
          let? created := integer_param params "created" in
          let? expires := integer_param params "expires" in
          let? keyid := string_param params "keyid" in
          let? alg := string_param params "alg" in
          let? nonce := string_param params "nonce" in
          let? tag := string_param params "tag" in
          Ok (label, {| sp_covered := covered; sp_created := created; sp_expires := expires;
            sp_keyid := keyid; sp_alg := alg; sp_nonce := nonce; sp_tag := tag |})
      end
  | _ => Err (MalformedSignatureInput
      ("expected exactly one signature, found " +:+ show_nat (length dict)))
  end.
Definition parse_signature (header label : string) : result bytes HttpSigError :=
  let? dict := map_err MalformedSignature (sfv_parse_dict header) in
  match assoc label dict with
  | None => Err (MalformedSignature ("no signature under the label " +:+ label))
  | Some (EntryItem item) =>
      match item_bare item with
      | SfBytes b => Ok b
      | _ => Err (MalformedSignature "signature must be a byte sequence")
      end
  | Some (EntryInnerList _ _) => Err (MalformedSignature "signature must be a single item")
  end.

Definition check_tag (params : SignatureParams) (opts : VerifyOptions)
  : result unit HttpSigError :=
  if String.eqb (sp_tag params) (vo_expected_tag opts) then Ok tt
  else Err (TagMismatch (vo_expected_tag opts) (sp_tag params)).
Definition check_window (params : SignatureParams) (opts : VerifyOptions) (now : Z)
  : result unit HttpSigError :=
  if (sp_expires params <=? sp_created params)%Z then
    Err (InvalidWindow (sp_created params) (sp_expires params))
  else
  let window := (sp_expires params - sp_created params)%Z in
  let max := as_i64 (dur_secs MAX_VALIDITY) in
  if (max <? window)%Z then Err (ValidityTooLong (as_u64 window) (as_u64 max))
  else
  let skew := as_i64 (dur_secs (vo_clock_skew opts)) in
  if (saturating_add_i64 now skew <? sp_created params)%Z then
    Err (CreatedInFuture (sp_created params) now (as_u64 skew))
  else if (sp_expires params <=? now)%Z then Err (HsExpired (sp_expires params) now)
  else Ok tt.

(** The checks of [verify_request_at] up to the authentication, and what they
    establish: the parameters and the principal. *)
Definition verify_headers (parts : RequestParts) (signature_input signature : string)
    (opts : VerifyOptions) (now : Z) : result (SignatureParams * Principal) HttpSigError :=
  let? '(label, params) := parse_signature_input signature_input in
  let? signature_bytes := parse_signature signature label in
  let? _u := check_signature_agent_coverage parts (sp_covered params) in
  let? _u := check_tag params opts in
  let? _u := check_window params opts now in
  let? alg := alg_for_did (sp_keyid params) in
  if negb (String.eqb alg (sp_alg params)) then
    Err (AlgMismatch (sp_keyid params) alg (sp_alg params))
  else
  let? canonical := signature_input_header label params in
  if negb (String.eqb canonical (trim signature_input)) then
    Err (MalformedSignatureInput "Signature-Input is not in this profile's canonical form")
  else
  let? base := build_signature_base parts params in
  let? principal := map_err HsCrypto (authenticate (sp_keyid params) base signature_bytes) in
  Ok (params, principal).
(** The guard after the call, and the result. *)
Definition verify_request_at (parts : RequestParts) (signature_input signature : string)
    (opts : VerifyOptions) (now : Z)
  : option NonceReplayGuard * result Principal HttpSigError :=
  match verify_headers parts signature_input signature opts now with
  | Err e => (vo_replay_guard opts, Err e)
  | Ok (params, principal) =>
      match vo_replay_guard opts with
      | None => (None, Ok principal)
      | Some guard =>
          let '(guard, r) := check_and_record_at (sp_nonce params) (sp_expires params) now guard in
          (Some guard, let? _u := r in Ok principal)
      end
  end.
End defs.

(** ** The checks, one by one *)

Section window_proofs.

(** [sf_integer] values leave room in an [i64] for their difference. *)
Lemma sf_difference_i64 a b :
  (- sf_integer_max ≤ a ≤ sf_integer_max)%Z → (- sf_integer_max ≤ b ≤ sf_integer_max)%Z →
  (i64_min ≤ a - b ≤ i64_max)%Z.
Proof. unfold sf_integer_max, i64_min, i64_max. lia. Qed.
Lemma check_window_Ok p opts now :
  (i64_min ≤ now ≤ i64_max)%Z → (sp_created p ≤ sf_integer_max)%Z →
  (0 ≤ dur_secs (vo_clock_skew opts) ≤ i64_max)%Z →
  check_window p opts now = Ok tt ↔
  (sp_created p < sp_expires p ≤ sp_created p + 86400 ∧
   sp_created p ≤ now + dur_secs (vo_clock_skew opts) ∧ now < sp_expires p)%Z.
Proof.
  intros Hn Hc Hk. unfold check_window.
  change (as_i64 (dur_secs MAX_VALIDITY)) with 86400%Z.
  rewrite (as_i64_small (dur_secs (vo_clock_skew opts))) by (unfold i64_min, i64_max in *; lia).
  unfold saturating_add_i64.
  assert (sf_integer_max < i64_max)%Z as Hm by done.
  destruct (sp_expires p <=? sp_created p)%Z eqn:E1; bool_simpl; [split; [done|lia]|].
  destruct (86400 <? _)%Z eqn:E2; bool_simpl; [split; [done|lia]|].
  destruct (_ <? sp_created p)%Z eqn:E3; bool_simpl.
  - split; [done|]. unfold i64_min in *. lia.
  - destruct (sp_expires p <=? now)%Z eqn:E4; bool_simpl; [split; [done|lia]|].
    split; [|done]. intros _. unfold i64_min in *. lia.
Qed.
Lemma check_tag_Ok p opts : check_tag p opts = Ok tt ↔ sp_tag p = vo_expected_tag opts.
Proof. unfold check_tag. destruct (String.eqb_spec (sp_tag p) (vo_expected_tag opts)); by split. Qed.
Lemma agent_coverage_Ok parts c : check_signature_agent_coverage parts c = Ok tt ↔
  (is_Some (rp_signature_agent parts) ↔ COMPONENT_SIGNATURE_AGENT ∈ c).
Proof.
  rewrite <- str_mem_spec. unfold check_signature_agent_coverage.
  destruct (rp_signature_agent parts) as [s|], (str_mem _ c).
  - split; [intros _; split; [done|by eexists]|done].
  - split; [done|]. intros [Hl _]. by specialize (Hl ltac:(by eexists)).
  - split; [done|]. intros [_ Hr]. by destruct (Hr eq_refl).
  - split; [intros _; split; [by intros []|done]|done].
Qed.
Lemma covered_agent parts : check_signature_agent_coverage parts (covered_components parts) = Ok tt.
Proof.
  apply agent_coverage_Ok. unfold covered_components.
  destruct (rp_signature_agent parts) as [s|]; split.
  - intros _. apply elem_of_cons. right. by apply list_elem_of_singleton.
  - by eexists.
  - by intros [].
  - by intros [?|[]%not_elem_of_nil]%elem_of_cons.
Qed.
End window_proofs.

Section parse_proofs.
Context `{Sfv, !SfvLaws}.

Lemma covered_name_Ok i n : covered_name i = Ok n ↔
  i = {| item_bare := SfString n; item_params := [] |} ∧ n ∈ ALLOWED_COMPONENTS.
Proof.
  unfold covered_name. rewrite <- (str_mem_spec n). destruct i as [b [|]]; cbn [item_params item_bare]; [|by split; [|intros [[=] _]]].
  destruct b as [| s| |]; try by split; [|intros [[=] _]].
  destruct (str_mem s ALLOWED_COMPONENTS) eqn:E.
  - split; [intros [= <-]; done|by intros [[= ->] _]].
  - split; [done|]. intros [[= ->] ?]. congruence.
Qed.
Lemma covered_names_Ok items c : collect covered_name items = Ok c ↔
  items = map (λ n, {| item_bare := SfString n; item_params := [] |}) c ∧
  Forall (λ n, n ∈ ALLOWED_COMPONENTS) c.
Proof.
  rewrite collect_Ok. split.
  - induction 1 as [|i n its ns Hi _ [-> IH]]; [done|]. apply covered_name_Ok in Hi as [-> Hn].
    split; [done|by constructor].
  - intros [-> Hall]. induction Hall as [|n ns Hn _ IH]; constructor; [|done].
    by apply covered_name_Ok.
Qed.
Lemma integer_param_Ok ps n z : integer_param ps n = Ok z ↔ assoc n ps = Some (SfInteger z).
Proof.
  unfold integer_param. destruct (assoc n ps) as [[]|]; split; try done; by intros [= ->].
Qed.
Lemma string_param_Ok ps n s : string_param ps n = Ok s ↔ assoc n ps = Some (SfString s).
Proof.
  unfold string_param. destruct (assoc n ps) as [[]|]; split; try done; by intros [= ->].
Qed.
(** The parser accepts one member of exactly the profile's shape. *)
Lemma parse_signature_input_Ok h label p :
  parse_signature_input h = Ok (label, p) ↔
  sfv_parse_dict h = Ok [(label, params_entry p)] ∧
  Forall (λ n, n ∈ ALLOWED_COMPONENTS) (sp_covered p) ∧
  COMPONENT_AUTHORITY ∈ sp_covered p.
Proof.
  unfold parse_signature_input. rewrite <- (str_mem_spec COMPONENT_AUTHORITY). split.
  - destruct (sfv_parse_dict h) as [d|]; [|done]. cbn [map_err].
    destruct d as [|[l e] [|]]; [done| |done]. destruct e as [|items ps]; [done|].
    destruct (collect covered_name items) as [c|] eqn:Ec; [|done].
    apply covered_names_Ok in Ec as [-> Hc].
    destruct (str_mem COMPONENT_AUTHORITY c) eqn:Em; [|done]. cbn [negb].
    destruct (bool_decide_reflect (ps.*1 = PARAM_ORDER)) as [Hk|]; [|done]. cbn [negb].
    destruct ps as [|[k1 v1] [|[k2 v2] [|[k3 v3] [|[k4 v4] [|[k5 v5] [|[k6 v6] [|]]]]]]];
      try discriminate Hk. injection Hk as -> -> -> -> -> ->.
    unfold integer_param, string_param. cbn.
    destruct v1; [|done..]. destruct v2; [|done..]. destruct v3; [done| |done..].
    destruct v4; [done| |done..]. destruct v5; [done| |done..]. destruct v6; [done| |done..].
    by intros [= <- <-].
  - intros (-> & Hc & Hm). cbn [map_err]. unfold params_entry.
    rewrite (proj2 (covered_names_Ok _ (sp_covered p)) (conj eq_refl Hc)), Hm. cbn [negb fmap list_fmap fst].
    rewrite bool_decide_eq_true_2 by done. cbn. by destruct p.
Qed.
Lemma parsed_integers h label p : parse_signature_input h = Ok (label, p) →
  (- sf_integer_max ≤ sp_created p ≤ sf_integer_max)%Z ∧
  (- sf_integer_max ≤ sp_expires p ≤ sf_integer_max)%Z.
Proof.
  intros (Hd & _)%parse_signature_input_Ok. unfold params_entry in Hd.
  split; eapply (sfv_parse_integers _ _ label _ _ _ _ Hd);
    [by apply list_elem_of_singleton| |by apply list_elem_of_singleton|].
  - apply elem_of_cons. by left.
  - apply elem_of_cons. right. apply elem_of_cons. by left.
Qed.
(** What [signature_input_header] writes is read back. *)
Lemma signature_input_round_trip p t : signature_input_header SIGNATURE_LABEL p = Ok t →
  Forall (λ n, n ∈ ALLOWED_COMPONENTS) (sp_covered p) → COMPONENT_AUTHORITY ∈ sp_covered p →
  parse_signature_input t = Ok (SIGNATURE_LABEL, p) ∧ trim t = t.
Proof.
  intros [Hw Ht]%signature_input_header_Ok Hc Hm; [|done..].
  assert (sfv_key SIGNATURE_LABEL = Ok SIGNATURE_LABEL) as Hk by by apply sfv_key_Ok.
  destruct (sfv_dict_round_trip _ _ _ Hk (params_entry_ok p Hw) Ht) as (Hp & Htr & _).
  split; [|done]. by apply parse_signature_input_Ok.
Qed.
Lemma signature_round_trip b t : signature_header SIGNATURE_LABEL b = Ok t →
  parse_signature t SIGNATURE_LABEL = Ok b.
Proof.
  unfold signature_header. rewrite (sf_key_lower "s" "ig1") by done.
  destruct (sfv_write_dict _) as [t'|] eqn:Et; [|done]. intros [= <-].
  assert (sfv_key SIGNATURE_LABEL = Ok SIGNATURE_LABEL) as Hk by by apply sfv_key_Ok.
  assert (entry_ok (EntryItem {| item_bare := SfBytes b; item_params := [] |})) as He
    by (split; [done|split; constructor]).
  destruct (sfv_dict_round_trip _ _ _ Hk He Et) as (Hp & _).
  unfold parse_signature. by rewrite Hp.
Qed.
Lemma signature_header_total b : ∃ t, signature_header SIGNATURE_LABEL b = Ok t.
Proof.
  unfold signature_header. rewrite (sf_key_lower "s" "ig1") by done.
  assert (entry_ok (EntryItem {| item_bare := SfBytes b; item_params := [] |})) as He
    by (split; [done|split; constructor]).
  destruct (sfv_write_dict_Some "sig1" _ (sfv_key_Ok "s" "ig1" eq_refl eq_refl) He) as [t ->].
  by exists t.
Qed.
End parse_proofs.

(** ** Verification as a whole *)

Section verify_proofs.
Context `{Ed25519, P256, K256, MlDsa, Base58, Base64, Hex, Hashes, Features, Sfv, World}.

(** Every check passed, with what it checked. *)
Lemma verify_headers_Ok parts input sig opts now p pr :
  verify_headers parts input sig opts now = Ok (p, pr) ↔
  ∃ label sig_bytes base,
    parse_signature_input input = Ok (label, p) ∧
    parse_signature sig label = Ok sig_bytes ∧
    check_signature_agent_coverage parts (sp_covered p) = Ok tt ∧
    check_tag p opts = Ok tt ∧
    check_window p opts now = Ok tt ∧
    alg_for_did (sp_keyid p) = Ok (sp_alg p) ∧
    signature_input_header label p = Ok (trim input) ∧
    build_signature_base parts p = Ok base ∧
    authenticate (sp_keyid p) base sig_bytes = Ok pr.
Proof.
  unfold verify_headers. split.
  - destruct (parse_signature_input input) as [[l q]|] eqn:E1; [|done].
    destruct (parse_signature sig l) as [b|] eqn:E2; [|done].
    destruct (check_signature_agent_coverage _ _) as [[]|] eqn:E3; [|done].
    destruct (check_tag _ _) as [[]|] eqn:E4; [|done].
    destruct (check_window _ _ _) as [[]|] eqn:E5; [|done].
    destruct (alg_for_did _) as [a|] eqn:E6; [|done].
    destruct (String.eqb_spec a (sp_alg q)) as [->|]; [|done]. cbn [negb].
    destruct (signature_input_header _ _) as [c|] eqn:E7; [|done].
    destruct (String.eqb_spec c (trim input)) as [->|]; [|done]. cbn [negb].
    destruct (build_signature_base _ _) as [base|] eqn:E8; [|done].
    destruct (authenticate _ _ _) as [pr'|] eqn:E9; [|done]. cbn [map_err].
    intros [= <- <-]. eauto 15.
  - intros (l & b & base & -> & -> & -> & -> & -> & -> & -> & -> & Ha).
    rewrite !String.eqb_refl. cbn [negb]. by rewrite Ha.
Qed.
(** The guard is consulted last. *)
Lemma verify_request_Ok parts input sig opts now g' pr :
  verify_request_at parts input sig opts now = (g', Ok pr) ↔
  ∃ p, verify_headers parts input sig opts now = Ok (p, pr) ∧
    match vo_replay_guard opts with
    | None => g' = None
    | Some g => ng_seen g !! sp_nonce p = None ∧
        g' = Some (check_and_record_at (sp_nonce p) (sp_expires p) now g).1
    end.
Proof.
  unfold verify_request_at. split.
  - destruct (verify_headers _ _ _ _ _) as [[p q]|]; [|done].
    destruct (vo_replay_guard opts) as [g|]; [|intros [= <- <-]; by exists p].
    destruct (ng_seen g !! sp_nonce p) as [e|] eqn:E.
    + by rewrite (check_seen _ _ _ _ _ E).
    + rewrite check_fresh by done. intros [= <- <-]. exists p. do 2 (split; [done|]).
      by rewrite check_fresh.
  - intros (p & -> & Hg). destruct (vo_replay_guard opts) as [g|]; [|by subst].
    destruct Hg as [Hs ->]. by rewrite check_fresh.
Qed.
(** A refused request leaves the guard alone. *)
Lemma verify_request_Err parts input sig opts now g' e :
  verify_request_at parts input sig opts now = (g', Err e) → g' = vo_replay_guard opts.
Proof.
  unfold verify_request_at. destruct (verify_headers _ _ _ _ _) as [[p q]|]; [|by intros [= <- _]].
  destruct (vo_replay_guard opts) as [g|]; [|done].
  destruct (ng_seen g !! sp_nonce p) as [e0|] eqn:E.
  - rewrite (check_seen _ _ _ _ _ E). by intros [= <- _].
  - by rewrite check_fresh.
Qed.
Lemma with_guard_headers parts input sig opts g now :
  verify_headers parts input sig (with_replay_guard opts g) now =
  verify_headers parts input sig opts now.
Proof. done. Qed.

(** ** Signing *)

Lemma validity_seconds_Ok v n : (0 ≤ dur_secs v)%Z → (0 ≤ dur_nanos v)%Z →
  validity_seconds v = Ok n → n = dur_secs v ∧ (1 ≤ n ≤ 86400)%Z.
Proof.
  intros Hs Hn. unfold validity_seconds. destruct (dur_secs v =? 0)%Z eqn:E0; [done|].
  destruct (dur_gtb v MAX_VALIDITY) eqn:E1; [done|]. intros [= <-].
  unfold dur_gtb in E1. change (dur_secs MAX_VALIDITY) with 86400%Z in E1.
  bool_simpl. rewrite as_i64_small by (unfold i64_min, i64_max; lia). lia.
Qed.
Lemma covered_allowed parts : Forall (λ n, n ∈ ALLOWED_COMPONENTS) (covered_components parts) ∧
  COMPONENT_AUTHORITY ∈ covered_components parts.
Proof.
  unfold covered_components, ALLOWED_COMPONENTS.
  destruct (rp_signature_agent parts); split; apply (bool_decide_eq_true_1 _); vm_refl.
Qed.
Lemma sign_request_Ok signer parts profile v created nb w w' h :
  sign_request_at signer parts profile v created nb w = (w', Ok h) →
  ∃ p base s, sign_parameters signer parts profile v created nb = Ok p ∧
    build_signature_base parts p = Ok base ∧ sg_sign signer w base = (w', Ok s) ∧
    signature_input_header SIGNATURE_LABEL p = Ok (sh_signature_input h) ∧
    signature_header SIGNATURE_LABEL s = Ok (sh_signature h).
Proof.
  unfold sign_request_at. destruct (sign_parameters _ _ _ _ _ _) as [p|] eqn:Ep; [|by intros [=]].
  destruct (build_signature_base parts p) as [base|] eqn:Eb; [|by intros [=]].
  destruct (sg_sign signer w base) as [w1 [s|e]] eqn:Es; cbn [map_err]; [|by intros [=]].
  destruct (signature_input_header SIGNATURE_LABEL p) as [i|] eqn:Ei; [|by intros [=]].
  destruct (signature_header SIGNATURE_LABEL s) as [t|] eqn:Et; [|by intros [=]].
  intros [= <- <-]. exists p, base, s. done.
Qed.
Lemma sign_parameters_internal signer parts v created nb p :
  sign_parameters signer parts AquaInternal v created nb = Ok p →
  ∃ window alg, validity_seconds v = Ok window ∧ alg_for_did (signer_did signer) = Ok alg ∧
    p = {| sp_covered := covered_components parts; sp_created := created;
      sp_expires := saturating_add_i64 created window; sp_keyid := signer_did signer;
      sp_alg := alg; sp_nonce := generate_nonce nb; sp_tag := TAG_AQUA_INTERNAL |}.
Proof.
  unfold sign_parameters, profile_parameters. destruct (validity_seconds v) as [n|]; [|done].
  destruct (alg_for_did _) as [a|]; [|done]. intros [= <-]. eauto.
Qed.
End verify_proofs.

Section properties.
Context `{Ed25519, P256, K256, MlDsa, Base58, Base64, Hex, Hashes, Features, Sfv, World, !SfvLaws}.

(** C6: what a verified request signature means. The principal is the DID in
    [keyid], well-formed; its key verified the signature over the base rebuilt
    from the request as received and the declared parameters; these carry the
    expected tag and the algorithm of that DID, cover the authority and exactly
    then [Signature-Agent] when the request has it, and their window is open:
    at most a day long, not begun more than the skew ahead, not over. *)
Theorem verify_request_sound parts input sig opts now g' pr :
  (i64_min ≤ now ≤ i64_max)%Z → (0 ≤ dur_secs (vo_clock_skew opts) ≤ i64_max)%Z →
  verify_request_at parts input sig opts now = (g', Ok pr) →
  ∃ label p sig_bytes base,
    parse_signature_input input = Ok (label, p) ∧ parse_signature sig label = Ok sig_bytes ∧
    build_signature_base parts p = Ok base ∧
    pr = mk_principal (sp_keyid p) ∧ validate_did_well_formed (sp_keyid p) = Ok tt ∧
    verify_caip122_with_public_key (sp_keyid p) base sig_bytes None = Ok true ∧
    sp_tag p = vo_expected_tag opts ∧ alg_for_did (sp_keyid p) = Ok (sp_alg p) ∧
    COMPONENT_AUTHORITY ∈ sp_covered p ∧
    (is_Some (rp_signature_agent parts) ↔ COMPONENT_SIGNATURE_AGENT ∈ sp_covered p) ∧
    (sp_created p < sp_expires p ≤ sp_created p + 86400 ∧
     sp_created p ≤ now + dur_secs (vo_clock_skew opts) ∧ now < sp_expires p)%Z.
Proof.
  intros Hn Hk (p & (l & b & base & Hp & Hs & Hc & Ht & Hw & Ha & _ & Hb & Hau)%verify_headers_Ok & _)
    %verify_request_Ok.
  apply authenticate_spec in Hau as (-> & Hv & Hver). apply check_tag_Ok in Ht.
  apply agent_coverage_Ok in Hc. destruct (parsed_integers _ _ _ Hp) as [[_ ?] _].
  apply check_window_Ok in Hw; [|done..].
  pose proof (proj1 (parse_signature_input_Ok _ _ _) Hp) as (_ & _ & Hm).
  exists l, p, b, base. done.
Qed.

(** C14: signing and verifying agree. What [sign_request] emits under the
    internal profile for a signer whose signatures verify under its well-formed
    DID is accepted by [verify_request] on the same request while the window is
    open and, with a guard, while the nonce is fresh; the principal is the
    signer's DID. *)
Theorem sign_verify_round_trip signer parts v created nb w w' h opts now :
  validate_did_well_formed (signer_did signer) = Ok tt →
  (∀ w msg w1 s, sg_sign signer w msg = (w1, Ok s) →
    verify_caip122_with_public_key (signer_did signer) msg s None = Ok true) →
  sign_request_at signer parts AquaInternal v created nb w = (w', Ok h) →
  (0 ≤ dur_secs v)%Z → (0 ≤ dur_nanos v)%Z → vo_expected_tag opts = TAG_AQUA_INTERNAL →
  (i64_min ≤ now ≤ i64_max)%Z → (0 ≤ dur_secs (vo_clock_skew opts) ≤ i64_max)%Z →
  (created - dur_secs (vo_clock_skew opts) ≤ now < created + dur_secs v)%Z →
  match vo_replay_guard opts with
  | Some g => ng_seen g !! generate_nonce nb = None
  | None => True
  end →
  (verify_request_at parts (sh_signature_input h) (sh_signature h) opts now).2
    = Ok (mk_principal (signer_did signer)).
Proof.
  intros Hv Hsign (p & base & s & Hp & Hb & Hs & Hi & Ht)%sign_request_Ok Hv0 Hv1 Htag Hn Hk Hwin Hg.
  apply sign_parameters_internal in Hp as (window & alg & Hwd & Halg & Heq).
  pose proof (validity_seconds_Ok _ _ Hv0 Hv1 Hwd) as [-> Hwr].
  destruct (covered_allowed parts) as [Hc1 Hc2].
  assert (sp_covered p = covered_components parts) as Hcov by by subst p.
  destruct (signature_input_round_trip p _ Hi) as [Hpi Htrim]; [by rewrite Hcov..|].
  apply signature_input_header_Ok in Hi as Hw; [|done..].
  destruct Hw as [(_ & Hcr & Hex & _) _].
  assert (sp_expires p = created + dur_secs v)%Z as Hexp.
  { subst p. cbn [sp_expires sp_created] in *. unfold saturating_add_i64 in *.
    assert (sf_integer_max < i64_max)%Z by done. unfold i64_min, sf_integer_max in *. lia. }
  destruct (verify_request_at parts (sh_signature_input h) (sh_signature h) opts now) as [g' r] eqn:E.
  cbn [snd]. enough (∃ g', verify_request_at parts (sh_signature_input h) (sh_signature h) opts now
    = (g', Ok (mk_principal (signer_did signer)))) as [g1 E1] by congruence.
  clear E.
  assert (verify_headers parts (sh_signature_input h) (sh_signature h) opts now
    = Ok (p, mk_principal (signer_did signer))) as Hh.
  { apply verify_headers_Ok. exists SIGNATURE_LABEL, s, base. rewrite Htrim.
    split_and!; [done|by apply signature_round_trip|rewrite Hcov; apply covered_agent|
      apply check_tag_Ok; by subst p| |by subst p|done|done|].
    - apply check_window_Ok; [done|lia|done|]. rewrite Hexp. subst p. cbn [sp_created] in *. lia.
    - apply authenticate_spec. subst p. split_and!; [done..|]. by apply (Hsign _ _ _ _ Hs). }
  destruct (vo_replay_guard opts) as [g|] eqn:Eg; eexists; apply verify_request_Ok;
    rewrite Eg; exists p; (split; [exact Hh|]); [|done].
  subst p. split; [exact Hg|done].
Qed.

(** C22: a verified request does not verify twice. With a guard, once a
    [Signature-Input] was accepted, presenting it again, on any request, with
    any signature and at any time, is refused by the guard as the acceptance
    left it; and a refused request leaves the guard as it was, so that no
    unsigned traffic fills it or burns a nonce. *)
Theorem verify_replay_refused parts input sig opts g now g1 pr :
  verify_request_at parts input sig (with_replay_guard opts g) now = (Some g1, Ok pr) →
  (∀ parts' sig' now' r g2,
    verify_request_at parts' input sig' (with_replay_guard opts g1) now' = (g2, r) →
    g2 = Some g1 ∧ is_ok r = false) ∧
  (∀ parts' input' sig' now' g2 e,
    verify_request_at parts' input' sig' (with_replay_guard opts g1) now' = (g2, Err e) →
    g2 = Some g1).
Proof.
  intros (p & Hh & Hnone & Hg)%verify_request_Ok. cbn [with_replay_guard vo_replay_guard] in *.
  apply verify_headers_Ok in Hh as (l & b & base & Hp & _).
  assert (ng_seen g1 !! sp_nonce p = Some (sp_expires p)) as Hseen.
  { injection Hg as ->. rewrite check_fresh by done. cbn. apply lookup_insert_eq. }
  split.
  - intros parts' sig' now' r g2 Hr. destruct r as [pr'|e].
    + exfalso. apply verify_request_Ok in Hr as (p' & Hh' & Hn' & _).
      apply verify_headers_Ok in Hh' as (l' & b' & base' & Hp' & _).
      rewrite Hp in Hp'. injection Hp' as <- <-. cbn in Hn'. congruence.
    + split; [|done]. by apply verify_request_Err in Hr.
  - intros parts' input' sig' now' g2 e Hr. by apply verify_request_Err in Hr.
Qed.

(** What a request signature does not cover. Verification reads the
    request only through its authority and its [Signature-Agent]: a signature
    verifies alike for every method, path and query of one authority. *)
Theorem verify_ignores_method_and_path parts parts' input sig opts now :
  authority_from_uri (rp_target_uri parts) = authority_from_uri (rp_target_uri parts') →
  rp_signature_agent parts = rp_signature_agent parts' →
  verify_request_at parts input sig opts now = verify_request_at parts' input sig opts now.
Proof.
  intros Ha Hs. unfold verify_request_at, verify_headers, check_signature_agent_coverage.
  assert (∀ n, component_value n parts = component_value n parts') as Hv
    by (intros n; unfold component_value; by rewrite Ha, Hs).
  assert (∀ c seen, component_lines parts seen c = component_lines parts' seen c) as Hl.
  { induction c as [|n c IH]; intros seen; [done|]. cbn [component_lines]. by rewrite Hv, IH. }
  assert (∀ p, build_signature_base parts p = build_signature_base parts' p) as Hb
    by (intros p; unfold build_signature_base; by rewrite Hl).
  rewrite Hs. destruct (parse_signature_input input) as [[l p]|]; [|done]. by rewrite Hb.
Qed.
End properties.

Section witnesses.
Import Fixtures.Instances.

Definition http_signer : @Signer fx_world := FnSigner sample_key_did (λ m, Ok (sample_sign m)).
Definition http_random : bytes := replicate 64 Byte.x41.
Definition signed_headers : SignedHeaders :=
  match (sign_request_at http_signer sample_parts AquaInternal (from_secs 300) 1700000000
    http_random []).2 with Ok h => h | Err _ => {| sh_signature_input := ""; sh_signature := "" |} end.
Definition guard_after : NonceReplayGuard :=
  set_seen new_guard {[generate_nonce http_random := 1700000300%Z]}.
Lemma signed_headers_eq : sign_request_at http_signer sample_parts AquaInternal (from_secs 300)
  1700000000 http_random [] = ([], Ok signed_headers).
Proof. vm_refl. Qed.
Lemma verified_eq : verify_request_at sample_parts (sh_signature_input signed_headers)
  (sh_signature signed_headers) (with_replay_guard aqua_internal new_guard) 1700000100
  = (Some guard_after, Ok (mk_principal sample_key_did)).
Proof. vm_refl. Qed.

Lemma sign_verify_round_trip_witness :
  (verify_request_at sample_parts (sh_signature_input signed_headers)
    (sh_signature signed_headers) (with_replay_guard aqua_internal new_guard) 1700000100).2
  = Ok (mk_principal sample_key_did).
Proof.
  apply (sign_verify_round_trip http_signer sample_parts (from_secs 300) 1700000000 http_random
    [] [] signed_headers (with_replay_guard aqua_internal new_guard) 1700000100).
  - vm_refl.
  - intros w msg w1 s Hs. injection Hs as _ <-. apply sample_sign_verifies.
  - exact signed_headers_eq.
  - done.
  - done.
  - done.
  - done.
  - done.
  - done.
  - change (ng_seen new_guard !! generate_nonce http_random = None). vm_refl.
Defined.
Lemma verify_request_sound_witness : ∃ p : SignatureParams,
  mk_principal sample_key_did = mk_principal (sp_keyid p) ∧
  (sp_created p ≤ 1700000160 ∧ 1700000100 < sp_expires p)%Z.
Proof.
  destruct (verify_request_sound sample_parts (sh_signature_input signed_headers)
    (sh_signature signed_headers) (with_replay_guard aqua_internal new_guard) 1700000100
    (Some guard_after) (mk_principal sample_key_did) ltac:(done) ltac:(done) verified_eq)
    as (l & p & b & base & _ & _ & _ & Hp & _ & _ & _ & _ & _ & _ & _ & Hc & He).
  exists p. split; [exact Hp|]. split; [exact Hc|exact He].
Defined.
Lemma verify_replay_refused_witness :
  is_ok (verify_request_at sample_parts (sh_signature_input signed_headers) "sig1=:AA==:"
    (with_replay_guard aqua_internal guard_after) 1700000101).2 = false.
Proof.
  destruct (verify_request_at sample_parts (sh_signature_input signed_headers) "sig1=:AA==:"
    (with_replay_guard aqua_internal guard_after) 1700000101) as [g2 r] eqn:Hr.
  refine (proj2 (proj1 (verify_replay_refused sample_parts
    (sh_signature_input signed_headers) (sh_signature signed_headers) aqua_internal new_guard
    1700000100 guard_after (mk_principal sample_key_did) verified_eq) sample_parts
    "sig1=:AA==:" 1700000101%Z r g2 Hr)).
Defined.
Lemma verify_ignores_method_and_path_witness :
  (verify_request_at (with_signature_agent (request_parts "DELETE" "https://node.example/v9/x")
     " agent.example ") (sh_signature_input signed_headers) (sh_signature signed_headers)
     (with_replay_guard aqua_internal new_guard) 1700000100).2 = Ok (mk_principal sample_key_did).
Proof.
  refine (eq_trans (f_equal snd (eq_sym (verify_ignores_method_and_path sample_parts
    (with_signature_agent (request_parts "DELETE" "https://node.example/v9/x") " agent.example ")
    (sh_signature_input signed_headers) (sh_signature signed_headers)
    (with_replay_guard aqua_internal new_guard) 1700000100 _ _))) (f_equal snd verified_eq)).
  - vm_refl.
  - exact eq_refl.
Defined.
End witnesses.
