(* ===== verification/GuardCalls.v ===== *)
(** * Concurrent requests at one replay guard: src/http_sig/replay.rs, src/http_sig/verify.rs

    [check_and_record_at] and [verify_request_at] again, with every access to
    the guard's [DashMap] as a step of its own. Left alone they are the functions
    of HttpSigReplay.v and HttpSig.v; interleaved, a nonce is honoured once as
    long as the guard has room for every nonce it honoured ([recorded_once]).
    What a full guard gives up is [guard_concurrent_single_use]. *)

From S2P Require Import Prelude Interleave SharedMap Locks Crates Errors Keys Did Suites Aqua Methods DidFormat Principal Signer HttpSigBase HttpSigReplay HttpSig Fixtures.

(** The shards of the guard's map. *)
Class GuardShards := guard_shards : Shards.
#[local] Existing Instance guard_shards.

Section defs.
Context `{GS : GuardShards}.

Definition live_nonce (now expires_at : Z) : bool := (now <? expires_at)%Z.
Definition cleanup_nonces_call (now : Z) : Prog (shared Z) unit := dm_retain (live_nonce now).
(** [seen.entry(nonce)] holds the shard's lock over the test and the insertion. *)
Definition guard_entry_call (nonce : string) (expires_at : Z)
  : Prog (shared Z) (result unit HttpSigError) :=
  brief Exclusive (λ m, match m !! nonce with
                        | Some _ => (m, Err NonceReplayed)
                        | None => (<[nonce := expires_at]> m, Ok tt)
                        end).
(** [g] stands for the capacity, that no call changes; the map is shared. *)
Definition check_call (g : NonceReplayGuard) (nonce : string) (expires_at now : Z)
  : Prog (shared Z) (result unit HttpSigError) :=
  seen ← dm_contains_key nonce;
  if seen : bool then Ret (Err NonceReplayed)
  else
    _ ← room_for_one expires_before (ng_capacity g) (live_nonce now);
    guard_entry_call nonce expires_at.
End defs.

Section verify.
Context `{GS : GuardShards, Ed25519, P256, K256, MlDsa, Base58, Base64, Hex, Hashes, Features, Sfv, World}.

Lemma check_orderly g nonce e now : orderly (check_call g nonce e now).
Proof. unfold check_call, guard_entry_call. keep_order. by apply orderly_brief. Qed.
Definition verify_call (parts : RequestParts) (signature_input signature : string)
    (opts : VerifyOptions) (now : Z) : Prog (shared Z) (result Principal HttpSigError) :=
  match verify_headers parts signature_input signature opts now with
  | Err e => Ret (Err e)
  | Ok (params, principal) =>
      match vo_replay_guard opts with
      | None => Ret (Ok principal)
      | Some guard =>
          r ← check_call guard (sp_nonce params) (sp_expires params) now;
          Ret (let? _u := r in Ok principal)
      end
  end.
Lemma verify_orderly parts input sig opts now : orderly (verify_call parts input sig opts now).
Proof.
  unfold verify_call. destruct (verify_headers _ _ _ _ _) as [[p pr]|]; [|done].
  destruct (vo_replay_guard opts); [|done]. eapply guarded_bind; [apply check_orderly|done].
Qed.
(** The nonce a [Signature-Input] carries. *)
Definition presented_nonce (signature_input : string) : option string :=
  match parse_signature_input signature_input with
  | Ok (_, params) => Some (sp_nonce params)
  | Err _ => None
  end.
End verify.

(** ** Left alone *)

Section alone.
Context `{GS : GuardShards}.
Lemma expires_before_picks : picks_one expires_before.
Proof.
  split; [intros ? ? ?; apply stamp_ltb_trans|intros ? ?; apply stamp_ltb_asym|].
  intros [n e] [n' e'] Hab Hba. pose proof (stamp_ltb_tie _ _ Hab Hba). by simplify_eq/=.
Qed.
Lemma live_nonces_filter now (m : shared Z) :
  filter (λ kv, live_nonce now kv.2 = true) m = filter (λ ke, (now < ke.2)%Z) m.
Proof. apply map_filter_ext. intros n e _. cbn. unfold live_nonce. by rewrite Z.ltb_lt. Qed.
Lemma room_guard_room now g :
  room expires_before (ng_capacity g) (live_nonce now) (ng_seen g) = ng_seen (guard_make_room now g).
Proof.
  unfold room, guard_make_room, guard_len. destruct (_ <=? size (ng_seen g)); [|done].
  rewrite live_nonces_filter. cbn [cleanup_expired_at set_seen ng_seen ng_capacity].
  destruct (_ <=? size _); [|done]. unfold without_least, evict_soonest_expiring, soonest, least.
  cbn [cleanup_expired_at set_seen ng_seen]. by destruct (min_by _ _) as [[n e]|].
Qed.
Lemma check_alone g nonce e now Q :
  Q (ng_seen (check_and_record_at nonce e now g).1) (check_and_record_at nonce e now g).2 →
  alone (check_call g nonce e now) (ng_seen g) Q.
Proof.
  unfold check_and_record_at. intros HQ. apply alone_bind.
  cbn [dm_contains_key brief atomic alone fst snd].
  destruct (ng_seen g !! nonce); [done|].
  apply alone_bind, (alone_room _ _ expires_before_picks). rewrite room_guard_room.
  cbn [guard_entry_call brief atomic alone]. unfold guard_entry in HQ.
  by destruct (ng_seen (guard_make_room now g) !! nonce).
Qed.

Context `{Ed25519, P256, K256, MlDsa, Base58, Base64, Hex, Hashes, Features, Sfv, World}.
(** The map a verification leaves, whether or not it has a guard. *)
Definition seen_after (m : shared Z) (g : option NonceReplayGuard) : shared Z :=
  match g with Some g => ng_seen g | None => m end.
Lemma verify_alone parts input sig opts g now Q :
  Q (seen_after (ng_seen g)
       (verify_request_at parts input sig (with_replay_guard opts g) now).1)
    (verify_request_at parts input sig (with_replay_guard opts g) now).2 →
  alone (verify_call parts input sig (with_replay_guard opts g) now)
    (ng_seen g) Q.
Proof.
  unfold verify_call, verify_request_at. rewrite with_guard_headers.
  destruct (verify_headers _ _ _ _ _) as [[p pr]|e]; [|done].
  cbn [with_replay_guard vo_replay_guard]. intros HQ. apply alone_bind, check_alone.
  by destruct (check_and_record_at _ _ _ _).
Qed.
Lemma verify_guard_capacity parts input sig opts g now g' r :
  verify_request_at parts input sig (with_replay_guard opts g) now = (g', r) →
  ng_capacity (default g g') = ng_capacity g.
Proof.
  unfold verify_request_at. rewrite with_guard_headers.
  destruct (verify_headers _ _ _ _ _) as [[p pr]|e]; [|by intros [= <- _]].
  cbn [with_replay_guard vo_replay_guard].
  destruct (check_and_record_at _ _ _ _) as [g1 r1] eqn:Ec. intros [= <- _]. cbn.
  destruct (ng_seen g !! sp_nonce p) eqn:El; [rewrite (check_seen _ _ _ _ _ El) in Ec|
    rewrite check_fresh in Ec by done]; injection Ec as <- _; [done|apply room_capacity].
Qed.
End alone.

(** ** A nonce is recorded once

    A call's ghost value is what it knows: how many entries it has counted in
    the shards it has read, the nonce it recorded, or nothing any more, once it
    has read that the guard is full. *)

Inductive Note : Type := Counted (i n : nat) | Recorded (nonce : string) | Lost.
Abbreviation nothing := (Counted 0 0).
(** What a returned call is known to have done. *)
Definition noted (o : option string) : Note :=
  match o with Some nonce => Recorded nonce | None => nothing end.

Section recording.
Context `{GS : GuardShards} (cap : nat).
Implicit Types m : shared Z.

Inductive records m : Note → shared Z → Note → Prop :=
| NoteKept g : records m g m g
| NoteRead i n : records m (Counted i n) m (Counted (S i) (n + shard_len i m))
| NoteDropped i n : records m (Counted i n) m nothing
| NoteFull i n : cap ≤ n + shard_len i m → records m (Counted i n) m Lost
| NoteEntered nonce e : m !! nonce = None →
    records m nothing (<[nonce := e]> m) (Recorded nonce)
| NoteLost m' : records m Lost m' Lost.
(** A call under way has recorded nothing yet. *)
Definition unrecorded (g : Note) : Prop := ∀ nonce, g ≠ Recorded nonce.
Abbreviation recording := (paying unrecorded records).

Lemma lost_free {R} (p : Prog (shared Z) R) : recording p (λ _ g, g = Lost) Lost.
Proof. apply paying_free; [done|constructor]. Qed.
Lemma check_recording g nonce e now : ng_capacity g = cap →
  recording (check_call g nonce e now)
    (λ r g, g = Lost ∨ g = noted (match r with Ok _ => Some nonce | Err _ => None end)) nothing.
Proof.
  intros Hcap.
  assert (∀ p : Prog (shared Z) (result unit HttpSigError), recording p
    (λ r g, g = Lost ∨ g = noted (match r with Ok _ => Some nonce | Err _ => None end)) Lost)
    as Hlost by (intros p; eapply paying_mono; [apply lost_free|by left]).
  apply paying_brief; [done|constructor|]. intros m. exists nothing. split; [constructor|].
  cbn [fst snd]. destruct (m !! nonce); [by right|].
  apply paying_bind, (@paying_len Z guard_shards _ _ _ _ Counted); [constructor|done|by constructor|].
  intros i n m1 _. rewrite Hcap. destruct (cap <=? _) eqn:El; bool_simpl.
  - exists Lost. split; [by constructor|]. eapply paying_mono; [apply lost_free|].
    intros a ? ->. apply Hlost.
  - exists nothing. split; [constructor|]. split; [done|]. intros m3. exists nothing.
    split; [constructor|]. split; [done|]. intros m2. cbn [fst snd].
    destruct (m2 !! nonce) eqn:E2; cbn [fst snd paying].
    + exists nothing. split; [constructor|by right].
    + exists (Recorded nonce). split; [by constructor|by right].
Qed.

Context `{Ed25519, P256, K256, MlDsa, Base58, Base64, Hex, Hashes, Features, Sfv, World}.
Lemma verify_recording parts input sig opts g now :
  vo_replay_guard opts = Some g → ng_capacity g = cap →
  recording (verify_call parts input sig opts now)
    (λ r g, g = Lost ∨ g = noted (match r with Ok _ => presented_nonce input | Err _ => None end))
    nothing.
Proof.
  intros Hg Hcap. unfold verify_call.
  destruct (verify_headers _ _ _ _ _) as [[p pr]|e] eqn:Hv; [|by right].
  apply verify_headers_Ok in Hv as (l & b & base & Hp & _). rewrite Hg. apply paying_bind.
  eapply paying_mono; [by apply check_recording|]. unfold presented_nonce. rewrite Hp.
  intros r g' [-> | ->]; [by left|right]. by destruct r.
Qed.
End recording.

(** What an accepted request was checked against, whatever the guard does. *)
Section sound.
Context `{GS : GuardShards, Ed25519, P256, K256, MlDsa, Base58, Base64, Hex, Hashes, Features, Sfv, World}.
Lemma verify_keeps parts input sig opts now :
  keeps (λ _, True) (verify_call parts input sig opts now)
    (λ r, match r with
          | Ok pr => ∃ p, verify_headers parts input sig opts now = Ok (p, pr)
          | Err _ => True
          end).
Proof.
  unfold verify_call. destruct (verify_headers _ _ _ _ _) as [[p pr]|e]; [|done].
  destruct (vo_replay_guard opts) as [g|]; [|by exists p].
  apply keeps_bind. eapply keeps_mono; [by apply keeps_True|]. intros [[]|e] _; [by exists p|done].
Qed.
End sound.

(** ** Systems of calls that share a guard *)

Section systems.
Context `{GS : GuardShards}.
Context {S R : Type} (seen : S → shared Z) (honours : R → option string) (cap : nat).
Definition tracks {A} (p : Prog S A) (Q : A → Note → Prop) : Prop :=
  paying unrecorded (λ s g s' g', records cap (seen s) g (seen s') g') p Q nothing.
Definition honoured (r : R) (g : Note) : Prop := g = Lost ∨ g = noted (honours r).
Abbreviation tracked := (Forall2 (λ p g, paying unrecorded
  (λ s g s' g', records cap (seen s) g (seen s') g') p honoured g)).

Definition recorded_by (g : Note) : option string :=
  match g with Recorded nonce => Some nonce | _ => None end.
Definition recorded (gs : list Note) : list string := omap recorded_by gs.
(** Nothing was lost, the guard holds what the calls recorded, and no call has
    counted more entries than there are. *)
Definition sound_note (m : shared Z) (g : Note) : Prop :=
  match g with Counted i n => n ≤ below i m | Recorded _ => True | Lost => False end.
Definition faithful (s : S) (gs : list Note) : Prop :=
  Forall (sound_note (seen s)) gs ∧ NoDup (recorded gs) ∧
  ∀ k, is_Some (seen s !! k) ↔ k ∈ recorded gs.

Lemma recorded_cons g gs :
  recorded (g :: gs) = match recorded_by g with Some n => n :: recorded gs | None => recorded gs end.
Proof. done. Qed.
Lemma recorded_nothing gs i g g' : gs !! i = Some g → recorded_by g = None →
  recorded_by g' = None → recorded (<[i := g']> gs) = recorded gs.
Proof.
  revert i. induction gs as [|h gs IH]; intros [|i]; [done|done| |].
  - intros [= ->] Hg Hg'. change (<[0 := g']> (g :: gs)) with (g' :: gs).
    by rewrite !recorded_cons, Hg, Hg'.
  - intros Hi Hg Hg'. change (<[Datatypes.S i := g']> (h :: gs)) with (h :: <[i := g']> gs).
    by rewrite !recorded_cons, IH.
Qed.
Lemma recorded_insert gs i g n : gs !! i = Some g → recorded_by g = None →
  recorded (<[i := Recorded n]> gs) ≡ₚ n :: recorded gs.
Proof.
  revert i. induction gs as [|h gs IH]; intros [|i]; [done|done| |].
  - intros [= ->] Hg. change (<[0 := Recorded n]> (g :: gs)) with (Recorded n :: gs).
    by rewrite !recorded_cons, Hg.
  - intros Hi Hg. change (<[Datatypes.S i := Recorded n]> (h :: gs)) with
      (h :: <[i := Recorded n]> gs). rewrite !recorded_cons.
    destruct (recorded_by h); rewrite (IH i Hi Hg); [by apply Permutation_swap|done].
Qed.
Lemma faithful_size s gs : faithful s gs → size (seen s) = length (recorded gs).
Proof.
  intros (_ & Hnd & Hk). rewrite <- (size_dom (D := gset string)).
  rewrite <- (size_list_to_set (C := gset string) _ Hnd). f_equal. apply set_eq. intros k.
  by rewrite elem_of_dom, elem_of_list_to_set.
Qed.
(** What the finished calls honoured is what was recorded. *)
Lemma recorded_results ps gs : tracked ps gs →
  length (recorded gs) ≤ length (omap honours (results ps)) ∧
  (Forall (λ g, g ≠ Lost) gs → omap honours (results ps) = recorded gs).
Proof.
  induction 1 as [|p g ps gs Hp Hps [IHl IH]]; [done|]. rewrite recorded_cons, results_cons.
  assert (finished p = None → unrecorded g) as Hun by (destruct p; [done|by destruct Hp..]).
  destruct (finished p) as [r|] eqn:Ef.
  - destruct p; try done. injection Ef as <-. cbn [paying omap list_omap] in *.
    destruct Hp as [-> | ->]; cbn [recorded_by].
    + split; [destruct (honours r0); cbn; lia|]. by intros [Hno _]%Forall_cons; destruct Hno.
    + destruct (honours r0); cbn; (split; [lia|]); intros [_ ?]%Forall_cons; by rewrite IH.
  - destruct g as [i n|n|]; [|by destruct (Hun eq_refl n)|]; cbn [recorded_by];
      (split; [done|]); intros [_ ?]%Forall_cons; by apply IH.
Qed.
Lemma sound_note_insert m k e g : sound_note m g → sound_note (<[k := e]> m) g.
Proof.
  destruct g as [i n|n|]; cbn; [|done..]. unfold below.
  pose proof (filter_insert (λ k, shard k < i) m k e). cbn in *. lia.
Qed.
Lemma faithful_step s gs i g s' g' : faithful s gs → gs !! i = Some g →
  length (recorded (<[i := g']> gs)) < cap →
  records cap (seen s) g (seen s') g' → faithful s' (<[i := g']> gs).
Proof.
  intros Hf Hi Hroom Hr. pose proof (faithful_size _ _ Hf) as Hsize.
  destruct Hf as (Hall & Hnd & Hk). pose proof (Forall_lookup_1 _ _ _ _ Hall Hi) as Hg.
  remember (seen s') as m' eqn:Em.
  destruct Hr as [g|j n|j n|j n Hfull|nonce e Hn|m']; [..|done].
  - rewrite list_insert_id by done. unfold faithful. by rewrite <- Em.
  - unfold faithful. rewrite <- Em, (recorded_nothing _ _ _ _ Hi) by done.
    split; [|done]. apply Forall_insert; [done|]. cbn in Hg |- *. rewrite below_split. lia.
  - unfold faithful. rewrite <- Em, (recorded_nothing _ _ _ _ Hi) by done.
    split; [|done]. apply Forall_insert; [done|]. cbn. lia.
  - exfalso. rewrite (recorded_nothing _ _ _ _ Hi) in Hroom by done. cbn in Hg.
    pose proof (below_le (Datatypes.S j) (seen s)) as Hb. rewrite below_split in Hb. lia.
  - unfold faithful. rewrite <- Em. split; [|rewrite (recorded_insert _ _ _ _ Hi) by done; split].
    + apply Forall_insert; [|done]. revert Hall. apply List.Forall_impl. intros x. apply sound_note_insert.
    + apply list.NoDup_cons. split; [|done]. rewrite <- Hk, Hn. by intros [].
    + intros k. rewrite (recorded_insert _ _ _ _ Hi), elem_of_cons, <- Hk by done.
      rewrite lookup_insert_is_Some. destruct (decide (nonce = k)); naive_solver.
Qed.

(** Whatever the interleaving: as long as fewer nonces are honoured than the
    guard has room for, no nonce is honoured twice. *)
Lemma recorded_once (calls : Prog S R → Prop) s0 s ps :
  (∀ p, calls p → tracks p honoured) → seen s0 = ∅ → sys_run calls (s0, []) (s, ps) →
  length (omap honours (results ps)) < cap → NoDup (omap honours (results ps)).
Proof.
  intros Hcalls Hs0 Hrun Hroom.
  set (ok := λ c : config S R, length (omap honours (results c.2)) < cap).
  assert (rtc (λ c c', sys_step calls c c' ∧ ok c') (s0, []) (s, ps)) as Hrun'.
  { apply (sys_run_ok calls ok); [|done..]. intros c c' Hst%results_step Hok.
    apply (sublist_omap_length honours) in Hst. unfold ok in *. lia. }
  destruct (sys_invariant unrecorded _ calls honoured nothing ok faithful s0 [] [] s ps Hcalls)
    as (gs & (Hall & Hnd & _) & Ht); [| |exact Hrun'| |constructor|].
  - intros s1 gs (Hall & Hnd & Hk). unfold faithful, recorded in *.
    rewrite omap_app, app_nil_r. split; [|done]. apply Forall_app. split; [done|].
    apply List.Forall_cons; [cbn; lia|constructor].
  - intros s1 gs i g s2 g' ps2 Hf Hi Hr Ht Hok. eapply faithful_step; [exact Hf|exact Hi| |exact Hr].
    apply recorded_results in Ht as [? _]. unfold ok in Hok. cbn [snd] in Hok. lia.
  - split; [constructor|]. split; [constructor|]. intros k. rewrite Hs0, lookup_empty.
    split; [by intros []|by intros ?%not_elem_of_nil].
  - rewrite (proj2 (recorded_results _ _ Ht)); [done|].
    revert Hall. apply List.Forall_impl. by intros [].
Qed.
End systems.
