(* ===== verification/WebauthnPolicy.v ===== *)
(** * Relying-party policy: src/webauthn_policy.rs

    RP IDs and origins are validated and normalised as they are added; the
    verifier looks entries up by the RP ID hash. *)

From S2P Require Import Prelude Crates Fixtures.

Section defs.
Context `{Urls, Hashes}.

Inductive PolicyError : Type :=
| InvalidRpId (rp_id reason : string)
| InvalidOrigin (origin reason : string)
| OriginOutsideRpId (origin rp_id : string)
| NoOrigins (rp_id : string)
| DuplicateRpId (rp_id : string)
| NoRp.

Record RpEntry : Type := {
  rp_id : string;
  rp_id_hash : bytes;
  rp_origins : list string;
}.
Definition allows_origin (e : RpEntry) (origin : string) : bool :=
  existsb (λ o, String.eqb o origin) (rp_origins e).

Record AssertionPolicy : Type := { ap_entries : list RpEntry; ap_require_uv : bool }.
Definition entry_for_rp_id_hash (p : AssertionPolicy) (h : bytes) : option RpEntry :=
  List.find (λ e, bytes_eqb (rp_id_hash e) h) (ap_entries p).

(** ** The grammar *)

Definition hostname_char (c : ascii) : bool :=
  is_alnum c || Ascii.eqb c "." || Ascii.eqb c "-".
Definition is_plain_hostname (host : string) : bool :=
  negb (str_is_empty host) && str_forallb hostname_char host.
Definition host_within_rp_id (host rp_id : string) : bool :=
  let host := to_lower (trim_end_matches "." host) in
  String.eqb host rp_id || ends_with ("." +:+ rp_id) host.

(** [parse::<IpAddr>()] of a plain hostname: it holds no colon, so only an IPv4
    address can parse. An octet has no leading zero. *)
Definition ipv4_octet (s : string) : bool :=
  match s with
  | EmptyString => false
  | String c EmptyString => is_digit c
  | String c _ =>
      negb (Ascii.eqb c "0") && (String.length s <=? 3)
      && match digits_value 0 s with Some v => (v <=? 255)%Z | None => false end
  end.
Definition is_ip (host : string) : bool :=
  let octets := split "." host in (length octets =? 4) && forallb ipv4_octet octets.

Definition validate_rp_id (raw : string) : result string PolicyError :=
  let r := to_lower (trim_end_matches "." (trim raw)) in
  if negb (is_plain_hostname r) then Err (InvalidRpId raw
    "must be a bare ASCII domain (no scheme, port, path, user info or wildcard)")
  else if starts_with "." r || existsb str_is_empty (split "." r) then
    Err (InvalidRpId raw "empty DNS label")
  else if is_ip r then Err (InvalidRpId raw "IP literals are not allowed")
  else if free_of "." r && negb (String.eqb r "localhost") then
    Err (InvalidRpId raw "single-label RP IDs other than localhost are refused")
  else Ok r.

Definition is_local (host : string) : bool :=
  String.eqb host "localhost" || ends_with ".localhost" host.
(** The origin in the browser's form and its lowercase host. *)
Definition normalise_origin (raw : string) : result (string * string) PolicyError :=
  let trimmed := trim_end_matches "/" (trim raw) in
  let? u := map_err (InvalidOrigin raw) (url_parse trimmed) in
  if negb (str_is_empty (url_username u)) ||
     match url_password u with Some _ => true | None => false end then
    Err (InvalidOrigin raw "user info is not part of an origin")
  else if negb (str_is_empty (url_path u) || String.eqb (url_path u) "/") ||
     match url_query u with Some _ => true | None => false end ||
     match url_fragment u with Some _ => true | None => false end then
    Err (InvalidOrigin raw "must be scheme://host[:port] only")
  else
  let? host := ok_or (url_host_str u) (InvalidOrigin raw "no host") in
  let host := to_lower host in
  if negb (is_plain_hostname host) then Err (InvalidOrigin raw
    "host must be a plain hostname (no wildcards or IP literals in brackets)")
  else
  let scheme := url_scheme u in
  if String.eqb scheme "https" || (String.eqb scheme "http" && is_local host) then
    Ok (url_origin u, host)
  else Err (InvalidOrigin raw
    ("scheme " +:+ scheme +:+ " not allowed (https, or http on localhost)")).

(** ** The builder *)

Record AssertionPolicyBuilder : Type := { pb_entries : list RpEntry; pb_require_uv : bool }.
Definition builder : AssertionPolicyBuilder := {| pb_entries := []; pb_require_uv := true |}.

Definition push_new (origin : string) (normalised : list string) : list string :=
  if existsb (String.eqb origin) normalised then normalised else normalised ++ [origin].
Fixpoint add_origins (rp_id : string) (origins normalised : list string)
  : result (list string) PolicyError :=
  match origins with
  | [] => Ok normalised
  | raw :: rest =>
      let? '(origin, host) := normalise_origin raw in
      if negb (host_within_rp_id host rp_id) then Err (OriginOutsideRpId origin rp_id)
      else add_origins rp_id rest (push_new origin normalised)
  end.
Fixpoint add_related (related normalised : list string) : result (list string) PolicyError :=
  match related with
  | [] => Ok normalised
  | raw :: rest =>
      let? '(origin, host) := normalise_origin raw in
      if is_ip host then
        Err (InvalidOrigin raw "IP literals are not allowed as related origins")
      else add_related rest (push_new origin normalised)
  end.
Definition add_rp (b : AssertionPolicyBuilder) (raw_rp_id : string)
    (origins related_origins : list string) : result AssertionPolicyBuilder PolicyError :=
  let? id := validate_rp_id raw_rp_id in
  if existsb (λ e, String.eqb (rp_id e) id) (pb_entries b) then Err (DuplicateRpId id)
  else if (length origins =? 0) && (length related_origins =? 0) then Err (NoOrigins id)
  else
  let? normalised := add_origins id origins [] in
  let? normalised := add_related related_origins normalised in
  Ok {| pb_entries := pb_entries b ++
          [{| rp_id := id; rp_id_hash := sha256 (as_bytes id); rp_origins := normalised |}];
        pb_require_uv := pb_require_uv b |}.
Definition rp (b : AssertionPolicyBuilder) (id : string) (origins : list string)
  : result AssertionPolicyBuilder PolicyError := add_rp b id origins [].
Definition rp_with_related_origins := add_rp.
Definition set_require_uv (b : AssertionPolicyBuilder) (on : bool) : AssertionPolicyBuilder :=
  {| pb_entries := pb_entries b; pb_require_uv := on |}.
Definition build (b : AssertionPolicyBuilder) : result AssertionPolicy PolicyError :=
  match pb_entries b with
  | [] => Err NoRp
  | _ => Ok {| ap_entries := pb_entries b; ap_require_uv := pb_require_uv b |}
  end.

(** ** What a policy built this way holds *)

(** What one call of the builder configures. *)
Record RpConfig : Type := {
  rc_id : string; rc_origins : list string; rc_related : list string }.
(** The builders reachable through the public methods, with the calls that made
    them. *)
Inductive built : list RpConfig → AssertionPolicyBuilder → Prop :=
| BuiltNew : built [] builder
| BuiltRp cs b c b' : built cs b →
    rp_with_related_origins b (rc_id c) (rc_origins c) (rc_related c) = Ok b' →
    built (cs ++ [c]) b'
| BuiltUv cs b on : built cs b → built cs (set_require_uv b on).

(** The grammar of a configured origin: what it becomes, and its host. *)
Definition browser_origin (raw origin host : string) : Prop :=
  ∃ u h, url_parse (trim_end_matches "/" (trim raw)) = Ok u ∧ origin = url_origin u ∧
    url_host_str u = Some h ∧ host = to_lower h ∧
    url_username u = "" ∧ url_password u = None ∧ (url_path u = "" ∨ url_path u = "/") ∧
    url_query u = None ∧ url_fragment u = None ∧ is_plain_hostname host = true ∧
    (url_scheme u = "https" ∨
     url_scheme u = "http" ∧ (host = "localhost" ∨ ∃ sub, host = sub +:+ ".localhost")).
(** An ordinary origin sits within the RP ID; a related one is no address. *)
Definition ordinary (id raw origin : string) : Prop :=
  ∃ host, browser_origin raw origin host ∧
    let h := to_lower (trim_end_matches "." host) in h = id ∨ ∃ sub, h = sub +:+ ("." +:+ id).
Definition related (raw origin : string) : Prop :=
  ∃ host, browser_origin raw origin host ∧ is_ip host = false.
Definition entry_for (c : RpConfig) (e : RpEntry) : Prop :=
  validate_rp_id (rc_id c) = Ok (rp_id e) ∧ validate_rp_id (rp_id e) = Ok (rp_id e) ∧
  rp_id_hash e = sha256 (as_bytes (rp_id e)) ∧
  rp_origins e ≠ [] ∧ NoDup (rp_origins e) ∧
  Forall (λ raw, ∃ o, ordinary (rp_id e) raw o ∧ (o ∈ rp_origins e)) (rc_origins c) ∧
  Forall (λ raw, ∃ o, related raw o ∧ (o ∈ rp_origins e)) (rc_related c) ∧
  Forall (λ o, (∃ raw, (raw ∈ rc_origins c) ∧ ordinary (rp_id e) raw o) ∨
               (∃ raw, (raw ∈ rc_related c) ∧ related raw o)) (rp_origins e).
End defs.

Section proofs.
Context `{Urls, Hashes}.

(** ** RP IDs *)

Lemma hostname_graphic s : str_forallb hostname_char s = true → str_forallb graphic s = true.
Proof. apply str_forallb_impl. intros c. by destruct c as [[] [] [] [] [] [] [] []]. Qed.
Lemma validate_rp_id_Ok raw r : validate_rp_id raw = Ok r ↔
  r = to_lower (trim_end_matches "." (trim raw)) ∧ is_plain_hostname r = true ∧
  starts_with "." r = false ∧ existsb str_is_empty (split "." r) = false ∧
  is_ip r = false ∧ (free_of "." r = true → r = "localhost").
Proof.
  unfold validate_rp_id. generalize (to_lower (trim_end_matches "." (trim raw))). intros t.
  destruct (is_plain_hostname t) eqn:E1; cbn [negb]; [|split; [done|by intros (-> & ? & _); congruence]].
  destruct (starts_with "." t) eqn:E2; cbn [orb]; [split; [done|intros (-> & _ & ? & _); congruence]|].
  destruct (existsb str_is_empty (split "." t)) eqn:E3;
    [split; [done|intros (-> & _ & _ & ? & _); congruence]|].
  destruct (is_ip t) eqn:E4; [split; [done|intros (-> & _ & _ & _ & ? & _); congruence]|].
  destruct (free_of "." t) eqn:E5; cbn [andb].
  - destruct (String.eqb_spec t "localhost") as [Hl|Hl]; cbn [negb].
    + split; [intros [= <-]; done|by intros (-> & _)].
    + split; [done|]. intros (-> & _ & _ & _ & _ & Hr). by destruct Hl; apply Hr.
  - split; [intros [= <-]; by rewrite E1, E2, E3, E4, E5|by intros (-> & _)].
Qed.
(** An RP ID is in normal form. *)
Lemma validate_rp_id_normal raw r : validate_rp_id raw = Ok r → validate_rp_id r = Ok r.
Proof.
  rewrite !validate_rp_id_Ok. intros (Hr & Hp & Hrest). split; [|done].
  unfold is_plain_hostname in Hp. apply andb_true_iff in Hp as [_ Hp].
  rewrite (trim_graphic r) by by apply hostname_graphic.
  destruct Hrest as (_ & Hs & _). rewrite trim_end_matches_free by by apply split_rev_head.
  by rewrite Hr, to_lower_idem.
Qed.

(** ** Origins *)

Lemma push_new_elem o l x : x ∈ push_new o l ↔ x = o ∨ (x ∈ l).
Proof.
  unfold push_new. destruct (existsb (String.eqb o) l) eqn:E.
  - apply existsb_exists in E as (y & Hy%list_elem_of_In & ->%String.eqb_eq). naive_solver.
  - rewrite elem_of_app, list_elem_of_singleton. tauto.
Qed.
Lemma push_new_NoDup o l : NoDup l → NoDup (push_new o l).
Proof.
  unfold push_new. destruct (existsb (String.eqb o) l) eqn:E; [done|]. intros Hl.
  apply list.NoDup_app. split; [done|]. split; [|apply NoDup_singleton].
  intros x Hx ->%list_elem_of_singleton. apply not_true_iff_false in E. apply E, existsb_exists.
  exists o. by rewrite String.eqb_refl, <- list_elem_of_In.
Qed.
Lemma push_new_nonempty o l : push_new o l ≠ [].
Proof. intros Hn. assert (o ∈ push_new o l) as Hin by (apply push_new_elem; auto). rewrite Hn in Hin. by apply not_elem_of_nil in Hin. Qed.

(** The grammar, read off the checks. *)
Lemma is_empty_spec s : str_is_empty s = true ↔ s = "".
Proof. by destruct s. Qed.
Lemma is_local_spec host :
  is_local host = true ↔ host = "localhost" ∨ ∃ sub, host = sub +:+ ".localhost".
Proof. unfold is_local. by rewrite orb_true_iff, String.eqb_eq, ends_with_spec. Qed.
Lemma normalise_origin_Ok raw origin host :
  normalise_origin raw = Ok (origin, host) → browser_origin raw origin host.
Proof.
  unfold normalise_origin. destruct (url_parse _) as [u|] eqn:Eu; [|done]. cbn [map_err].
  destruct (str_is_empty (url_username u)) eqn:E1; [|done].
  destruct (url_password u) eqn:E2; [done|]. cbn [negb orb].
  destruct (str_is_empty (url_path u) || String.eqb (url_path u) "/") eqn:E3; [|done].
  destruct (url_query u) eqn:E4; [done|]. destruct (url_fragment u) eqn:E5; [done|]. cbn [negb orb].
  destruct (url_host_str u) as [h|] eqn:Eh; [|done]. cbn [ok_or].
  destruct (is_plain_hostname (to_lower h)) eqn:E6; [|done]. cbn [negb].
  destruct (String.eqb (url_scheme u) "https" || _) eqn:E7; [|done]. intros [= <- <-].
  exists u, h. apply is_empty_spec in E1. apply orb_true_iff in E3, E7.
  split_and!; try done.
  - destruct E3 as [?%is_empty_spec|?%String.eqb_eq]; auto.
  - destruct E7 as [?%String.eqb_eq|[?%String.eqb_eq ?%is_local_spec]%andb_true_iff]; auto.
Qed.
Lemma host_within_spec host id : host_within_rp_id host id = true ↔
  let h := to_lower (trim_end_matches "." host) in h = id ∨ ∃ sub, h = sub +:+ ("." +:+ id).
Proof. unfold host_within_rp_id. by rewrite orb_true_iff, String.eqb_eq, ends_with_spec. Qed.

(** What either loop makes of the list it is given, one configured origin at a
    time: [ok] is the rule of that loop. *)
Definition loop_adds (ok : string → string → Prop) (raws l l' : list string) : Prop :=
  (NoDup l → NoDup l') ∧ (l ⊆ l') ∧ Forall (λ raw, ∃ o, ok raw o ∧ (o ∈ l')) raws ∧
  ∀ o, o ∈ l' → (o ∈ l) ∨ ∃ raw, (raw ∈ raws) ∧ ok raw o.
Lemma loop_adds_nil ok l : loop_adds ok [] l l.
Proof. split_and!; [done..|constructor|by left]. Qed.
Lemma loop_adds_cons ok raw raws o l l' : ok raw o → loop_adds ok raws (push_new o l) l' →
  loop_adds ok (raw :: raws) l l'.
Proof.
  intros Hok (Hd & Hsub & Hall & Hin). split_and!.
  - intros Hl. by apply Hd, push_new_NoDup.
  - intros x Hx. apply Hsub, push_new_elem. by right.
  - apply List.Forall_cons; [|done]. exists o. split; [done|]. apply Hsub, push_new_elem. by left.
  - intros x Hx. destruct (Hin x Hx) as [[->|Hl]%push_new_elem|(r & Hr & Ho)]; [right| by left|right].
    + exists raw. split; [apply elem_of_cons; by left|done].
    + exists r. split; [apply elem_of_cons; by right|done].
Qed.
Lemma add_origins_adds id origins l l' : add_origins id origins l = Ok l' →
  loop_adds (ordinary id) origins l l'.
Proof.
  revert l. induction origins as [|raw rest IH]; intros l; cbn [add_origins].
  { intros [= <-]. apply loop_adds_nil. }
  destruct (normalise_origin raw) as [[o host]|] eqn:En; [|done].
  destruct (host_within_rp_id host id) eqn:Eh; [|done]. cbn [negb]. intros Ha.
  apply (loop_adds_cons _ _ _ o), IH, Ha. exists host.
  split; [by apply normalise_origin_Ok|by apply host_within_spec].
Qed.
Lemma add_related_adds raws l l' : add_related raws l = Ok l' → loop_adds related raws l l'.
Proof.
  revert l. induction raws as [|raw rest IH]; intros l; cbn [add_related].
  { intros [= <-]. apply loop_adds_nil. }
  destruct (normalise_origin raw) as [[o host]|] eqn:En; [|done].
  destruct (is_ip host) eqn:Eh; [done|]. intros Ha.
  apply (loop_adds_cons _ _ _ o), IH, Ha. exists host. split; [by apply normalise_origin_Ok|done].
Qed.
Lemma add_rp_Ok b c b' : add_rp b (rc_id c) (rc_origins c) (rc_related c) = Ok b' →
  ∃ e, pb_entries b' = pb_entries b ++ [e] ∧ (rp_id e ∉ map rp_id (pb_entries b)) ∧ entry_for c e.
Proof.
  destruct c as [raw origins rel]. cbn [rc_id rc_origins rc_related].
  unfold add_rp. destruct (validate_rp_id raw) as [id|] eqn:Ev; [|done].
  destruct (existsb _ (pb_entries b)) eqn:Ed; [done|].
  destruct ((_ =? 0) && _) eqn:En; [done|].
  destruct (add_origins id origins []) as [l|] eqn:Eo; [|done].
  destruct (add_related rel l) as [l'|] eqn:Er; [|done]. intros [= <-].
  eexists. split; [reflexivity|]. unfold entry_for. cbn [rp_id rp_id_hash rp_origins rc_id rc_origins rc_related].
  apply add_origins_adds in Eo as (Hd & _ & Hall & Hin).
  apply add_related_adds in Er as (Hd' & Hsub & Hall' & Hin').
  split.
  { intros (e & He & Hel)%list_elem_of_In%in_map_iff. apply not_true_iff_false in Ed. apply Ed.
    apply existsb_exists. exists e. split; [done|]. by apply String.eqb_eq. }
  assert (Forall (λ raw, ∃ o, ordinary id raw o ∧ (o ∈ l')) origins) as Hord.
  { revert Hall. apply Forall_impl. intros x (o & Ho & Hl). exists o. auto. }
  split_and!; [done|by eapply validate_rp_id_normal|done| |apply Hd', Hd; constructor|done|done|].
  - intros ->. destruct origins as [|x os].
    + destruct rel as [|x rs]; [done|]. apply List.Forall_inv in Hall' as (o & _ & Ho).
      by apply not_elem_of_nil in Ho.
    + apply List.Forall_inv in Hord as (o & _ & Ho). by apply not_elem_of_nil in Ho.
  - apply list.Forall_forall. intros o Ho. destruct (Hin' o Ho) as [Hl|?]; [left|by right].
    by destruct (Hin o Hl) as [?%not_elem_of_nil|].
Qed.
Lemma build_Ok b p : build b = Ok p → ap_entries p = pb_entries b ∧ pb_entries b ≠ [].
Proof. unfold build. destruct (pb_entries b); [done|]. by intros [= <-]. Qed.
Lemma built_entries cs b : built cs b →
  NoDup (map rp_id (pb_entries b)) ∧ Forall2 entry_for cs (pb_entries b).
Proof.
  induction 1 as [|cs b c b' _ [Hd Hall] Ha|cs b on _ IH]; [by split; constructor| |done].
  apply add_rp_Ok in Ha as (e & -> & Hnin & He). split.
  - rewrite map_app. apply list.NoDup_app. split; [done|]. split; [|apply NoDup_singleton].
    intros x Hx ->%list_elem_of_singleton. by apply Hnin.
  - apply Forall2_app; [done|]. by constructor.
Qed.
End proofs.

Section properties.
Context `{Urls, Hashes}.

(** C29: every policy the builder can make is well formed. It lists at least one
    RP and no RP ID twice. It has one entry for each call that configured one:
    its RP ID in normal form with its SHA-256; at least one origin, none of
    them twice; every ordinary origin of the call, which sits within the RP ID,
    every related origin, which is from no address, all in the browser's form
    under the grammar; and no other. *)
Theorem policy_well_formed cs b p : built cs b → build b = Ok p →
  ap_entries p ≠ [] ∧ NoDup (map rp_id (ap_entries p)) ∧ Forall2 entry_for cs (ap_entries p).
Proof.
  intros Hb [-> Hne]%build_Ok. split; [done|]. by apply built_entries.
Qed.

(** Looking an RP up by the hash in the authenticator data finds the RP ID
    that hash belongs to. Of a built policy, the entry found for the digest of
    [id] is the entry of [id], or its RP ID collides with [id]; and no entry
    found means that [id] is not served. *)
Theorem policy_lookup_by_hash cs b p id : built cs b → build b = Ok p →
  match entry_for_rp_id_hash p (sha256 (as_bytes id)) with
  | Some e => (e ∈ ap_entries p) ∧ (rp_id e = id ∨ collides sha256 (as_bytes (rp_id e)) (as_bytes id))
  | None => id ∉ map rp_id (ap_entries p)
  end.
Proof.
  intros Hb [Hp _]%build_Ok. destruct (built_entries _ b Hb) as [_ Hcs]. rewrite <- Hp in Hcs.
  assert (∀ e, e ∈ ap_entries p → rp_id_hash e = sha256 (as_bytes (rp_id e))) as Hall.
  { intros e (i & Hi)%list_elem_of_lookup. by destruct (Forall2_lookup_r _ _ _ _ _ Hcs Hi) as (c & _ & _ & _ & Hh & _). } unfold entry_for_rp_id_hash.
  destruct (List.find _ _) as [e|] eqn:E.
  - apply List.find_some in E as [Hin%list_elem_of_In Heq%bytes_eqb_eq]. split; [done|].
    rewrite (Hall e Hin) in Heq.
    destruct (decide (rp_id e = id)) as [|Hne]; [by left|right].
    split; [|done]. by intros ?%as_bytes_inj.
  - intros (e & He & Hin)%list_elem_of_In%in_map_iff.
    pose proof (List.find_none _ _ E e Hin) as Hn. cbn beta in Hn.
    apply list_elem_of_In in Hin. by rewrite (Hall e Hin), He, bytes_eqb_refl in Hn.
Qed.
End properties.

Section witnesses.
Import Fixtures.Instances.

Definition sample_config : RpConfig := {| rc_id := " Example.ORG. ";
  rc_origins := ["https://login.example.org"; "https://example.org/"; "https://example.org:443"];
  rc_related := ["https://other.example"] |}.
Definition sample_builder : AssertionPolicyBuilder :=
  match rp_with_related_origins builder (rc_id sample_config) (rc_origins sample_config)
    (rc_related sample_config) with
  | Ok b => b | Err _ => builder end.
Definition sample_policy : AssertionPolicy :=
  match build sample_builder with Ok p => p | Err _ => {| ap_entries := []; ap_require_uv := true |} end.
Lemma sample_built : built [sample_config] sample_builder.
Proof. apply (BuiltRp [] builder sample_config); [apply BuiltNew|vm_refl]. Qed.
Lemma policy_well_formed_witness :
  map rp_id (ap_entries sample_policy) = ["example.org"] ∧ ap_entries sample_policy ≠ [] ∧
  NoDup (map rp_id (ap_entries sample_policy)) ∧
  Forall2 entry_for [sample_config] (ap_entries sample_policy).
Proof.
  split; [vm_refl|].
  apply (policy_well_formed [sample_config] sample_builder); [exact sample_built|vm_refl].
Defined.
Lemma policy_lookup_by_hash_witness :
  match entry_for_rp_id_hash sample_policy (sha256 (as_bytes "example.org")) with
  | Some e => (e ∈ ap_entries sample_policy) ∧ (rp_id e = "example.org" ∨
      collides sha256 (as_bytes (rp_id e)) (as_bytes "example.org"))
  | None => "example.org" ∉ map rp_id (ap_entries sample_policy)
  end.
Proof.
  apply (policy_lookup_by_hash [sample_config] sample_builder sample_policy "example.org");
    [exact sample_built|vm_refl].
Defined.
End witnesses.
