(* ===== verification/Webauthn.v ===== *)
(** * Passkey assertions under a stored key: src/webauthn.rs *)

From S2P Require Import Prelude Crates Fixtures Errors.

Section defs.
Context `{P256, Base64, Hashes, Json}.

Definition FLAG_UP : N := 1.
Definition FLAG_UV : N := 4.
Definition FLAG_BE : N := 8.
Definition FLAG_BS : N := 16.

Record AuthenticatorData : Type := { ad_rp_id_hash : bytes; ad_flags : byte }.
Definition parse_authenticator_data (b : bytes) : result AuthenticatorData string :=
  if length b <? 37 then Err ("authenticatorData too short: " +:+ show_nat (length b)
    +:+ " bytes, need at least 37")
  else Ok {| ad_rp_id_hash := take 32 b; ad_flags := default Byte.x00 (b !! 32) |}.
Definition signed_payload (authenticator_data client_data_json : bytes) : bytes :=
  authenticator_data ++ sha256 client_data_json.

(** [value.get(name).and_then(as_str)] of a parsed value. *)
Definition json_get_str (v : json) (name : string) : option string :=
  match v with
  | JObject members =>
      match snd <$> List.find (λ kv, String.eqb kv.1 name) members with
      | Some (JString s) => Some s
      | _ => None
      end
  | _ => None
  end.

Record WebAuthnAssertionParams : Type := {
  wp_credential_public_key : bytes;
  wp_authenticator_data : bytes;
  wp_client_data_json : bytes;
  wp_signature : bytes;
  wp_expected_challenge : bytes;
  wp_expected_origin : string;
  wp_expected_rp_id : string;
}.

(** A member of clientDataJSON that must be a string. *)
Definition client_member (v : json) (name : string) : result string CryptoError :=
  ok_or (json_get_str v name)
    (InvalidSignature ("clientDataJSON missing '" +:+ name +:+ "' field")).

(** Steps 4 to 7: what clientDataJSON must say. *)
Definition check_client_data (params : WebAuthnAssertionParams) : result unit CryptoError :=
  let? client_data := map_err (λ e, InvalidSignature ("invalid clientDataJSON: " +:+ e))
    (json_value (wp_client_data_json params)) in
  let? cd_type := client_member client_data "type" in
  if negb (String.eqb cd_type "webauthn.get") then Err (InvalidSignature
    ("clientDataJSON type mismatch: expected 'webauthn.get', got '" +:+ cd_type +:+ "'"))
  else
  let? cd_challenge := client_member client_data "challenge" in
  let? decoded := map_err (λ e, InvalidSignature ("invalid base64url challenge: " +:+ e))
    (b64url_decode_no_pad cd_challenge) in
  if negb (bytes_eqb decoded (wp_expected_challenge params)) then
    Err (InvalidSignature "challenge mismatch")
  else
  let? cd_origin := client_member client_data "origin" in
  if negb (String.eqb cd_origin (wp_expected_origin params)) then Err (InvalidSignature
    ("origin mismatch: expected '" +:+ wp_expected_origin params +:+ "', got '"
     +:+ cd_origin +:+ "'"))
  else Ok tt.

(** Step 9: the signature under the stored key. *)
Definition check_assertion_signature (params : WebAuthnAssertionParams) : result bool CryptoError :=
  let payload := signed_payload (wp_authenticator_data params) (wp_client_data_json params) in
  if negb (length (wp_signature params) =? 64) then Err (InvalidSignature
    ("signature must be 64 bytes (r||s), got " +:+ show_nat (length (wp_signature params))))
  else
  let? point := map_err (λ e, InvalidSignature ("invalid public key encoding: " +:+ e))
    (p256_point_from_bytes (wp_credential_public_key params)) in
  let? key := map_err (λ e, InvalidSignature ("invalid P-256 public key: " +:+ e))
    (p256_key_from_point point) in
  let? signature := map_err (λ e, InvalidSignature ("invalid signature encoding: " +:+ e))
    (p256_sig_from_slice (wp_signature params)) in
  Ok (p256_verify key payload signature).

Definition verify_webauthn_assertion (params : WebAuthnAssertionParams)
  : result bool CryptoError :=
  let? auth_data := map_err InvalidSignature
    (parse_authenticator_data (wp_authenticator_data params)) in
  if negb (bytes_eqb (ad_rp_id_hash auth_data) (sha256 (as_bytes (wp_expected_rp_id params)))) then
    Err (InvalidSignature "rpIdHash mismatch: authenticatorData does not match expected rpId")
  else if negb (has_flag (ad_flags auth_data) FLAG_UP) then
    Err (InvalidSignature "User Present flag not set in authenticatorData")
  else
  let? _u := check_client_data params in check_assertion_signature params.
End defs.

Section proofs.
Context `{P256, Base64, Hashes, Json}.

Lemma parse_authenticator_data_Ok b ad : parse_authenticator_data b = Ok ad ↔
  37 ≤ length b ∧ ad_rp_id_hash ad = take 32 b ∧ b !! 32 = Some (ad_flags ad).
Proof.
  unfold parse_authenticator_data. destruct (length b <? 37) eqn:E; bool_simpl.
  - split; [done|lia].
  - destruct (lookup_lt_is_Some_2 b 32) as [x Hx]; [lia|]. rewrite Hx. cbn [default]. split.
    + intros [= <-]. done.
    + destruct ad. cbn. intros (_ & -> & [= ->]). done.
Qed.
Lemma client_member_Ok v n s : client_member v n = Ok s ↔ json_get_str v n = Some s.
Proof. unfold client_member, ok_or. destruct (json_get_str v n); split; congruence. Qed.
(** What clientDataJSON says when it is accepted. *)
Lemma check_client_data_Ok params : check_client_data params = Ok tt ↔
  ∃ v c, json_value (wp_client_data_json params) = Ok v ∧
    json_get_str v "type" = Some "webauthn.get" ∧
    json_get_str v "challenge" = Some c ∧
    b64url_decode_no_pad c = Ok (wp_expected_challenge params) ∧
    json_get_str v "origin" = Some (wp_expected_origin params).
Proof.
  unfold check_client_data. split.
  - destruct (json_value _) as [v|]; [|done]. cbn [map_err].
    destruct (client_member v "type") as [t|] eqn:Et; [|done]. apply client_member_Ok in Et.
    destruct (String.eqb_spec t "webauthn.get") as [->|]; [|done]. cbn [negb].
    destruct (client_member v "challenge") as [c|] eqn:Ec; [|done]. apply client_member_Ok in Ec.
    destruct (b64url_decode_no_pad c) as [d|] eqn:Ed; [|done]. cbn [map_err].
    destruct (bytes_eqb d (wp_expected_challenge params)) eqn:Eb; [|done].
    apply bytes_eqb_eq in Eb as ->. cbn [negb].
    destruct (client_member v "origin") as [o|] eqn:Eo; [|done]. apply client_member_Ok in Eo.
    destruct (String.eqb_spec o (wp_expected_origin params)) as [->|]; [|done]. eauto 10.
  - intros (v & c & -> & Ht & Hc & Hd & Ho). cbn [map_err].
    apply client_member_Ok in Ht, Hc, Ho. rewrite Ht, String.eqb_refl, Hc. cbn [negb].
    rewrite Hd. cbn [map_err]. rewrite bytes_eqb_refl, Ho, String.eqb_refl. done.
Qed.
Lemma check_assertion_signature_Ok params r : check_assertion_signature params = Ok r ↔
  length (wp_signature params) = 64 ∧ ∃ point key s,
    p256_point_from_bytes (wp_credential_public_key params) = Ok point ∧
    p256_key_from_point point = Ok key ∧ p256_sig_from_slice (wp_signature params) = Ok s ∧
    r = p256_verify key
      (signed_payload (wp_authenticator_data params) (wp_client_data_json params)) s.
Proof.
  unfold check_assertion_signature. destruct (Nat.eqb_spec (length (wp_signature params)) 64);
    cbn [negb]; [|split; [done|by intros [? _]]].
  split.
  - destruct (p256_point_from_bytes _) as [pt|]; [|done]. cbn [map_err].
    destruct (p256_key_from_point pt) as [k|] eqn:Ek; [|done]. cbn [map_err].
    destruct (p256_sig_from_slice _) as [s|]; [|done]. cbn [map_err]. intros [= <-].
    split; [done|]. eauto 10.
  - intros (_ & pt & k & s & -> & Hk & -> & ->). cbn [map_err]. by rewrite Hk.
Qed.
End proofs.

Section properties.
Context `{P256, Base64, Hashes, Json}.

(** C26: what a verified assertion under a stored key means, and no less is
    asked. [Ok true] is returned exactly when the authenticator data is for the
    expected RP ID with the user present, clientDataJSON is a [webauthn.get] of
    the expected challenge on the expected origin, and the stored key verifies
    the signature over both. *)
Theorem webauthn_assertion_verified params :
  verify_webauthn_assertion params = Ok true ↔
  (∃ flags, 37 ≤ length (wp_authenticator_data params) ∧
    take 32 (wp_authenticator_data params) = sha256 (as_bytes (wp_expected_rp_id params)) ∧
    wp_authenticator_data params !! 32 = Some flags ∧ has_flag flags FLAG_UP = true) ∧
  (∃ v c, json_value (wp_client_data_json params) = Ok v ∧
    json_get_str v "type" = Some "webauthn.get" ∧
    json_get_str v "challenge" = Some c ∧
    b64url_decode_no_pad c = Ok (wp_expected_challenge params) ∧
    json_get_str v "origin" = Some (wp_expected_origin params)) ∧
  length (wp_signature params) = 64 ∧ ∃ point key s,
    p256_point_from_bytes (wp_credential_public_key params) = Ok point ∧
    p256_key_from_point point = Ok key ∧ p256_sig_from_slice (wp_signature params) = Ok s ∧
    p256_verify key
      (wp_authenticator_data params ++ sha256 (wp_client_data_json params)) s = true.
Proof.
  unfold verify_webauthn_assertion. rewrite <- check_client_data_Ok. split.
  - destruct (parse_authenticator_data _) as [ad|] eqn:Ea; [|done].
    apply parse_authenticator_data_Ok in Ea as (Hl & Hh & Hf). cbn [map_err].
    destruct (bytes_eqb _ _) eqn:Eb; [|done]. apply bytes_eqb_eq in Eb. cbn [negb].
    destruct (has_flag _ _) eqn:Eu; [|done]. cbn [negb].
    destruct (check_client_data params) as [[]|]; [|done].
    intros (Hs & pt & k & s & ? & ? & ? & Hv)%check_assertion_signature_Ok.
    split; [exists (ad_flags ad); split_and!; [done|congruence|done..]|]. split; [done|].
    split; [done|]. by exists pt, k, s.
  - intros ((f & Hl & Hh & Hf & Hu) & Hc & Hs & pt & k & s & Hp & Hk & Hsig & Hv).
    assert (parse_authenticator_data (wp_authenticator_data params)
      = Ok {| ad_rp_id_hash := take 32 (wp_authenticator_data params); ad_flags := f |}) as ->
      by by apply parse_authenticator_data_Ok.
    cbn [map_err ad_rp_id_hash ad_flags]. rewrite Hh, bytes_eqb_refl, Hu, Hc. cbn [negb].
    apply check_assertion_signature_Ok. split; [done|]. exists pt, k, s. unfold signed_payload. by rewrite Hv.
Qed.
End properties.
