(* ===== verification/WebauthnRecover.v ===== *)
(** * Store-free passkey assertions: src/webauthn_recover.rs

    Everything about an assertion that needs no public key is checked, then the
    two keys its signature verifies under are recovered. *)

From S2P Require Import Prelude Crates Fixtures Errors Keys LoginChallenge WebauthnPolicy Webauthn.

Section defs.
Context `{P256, Base58, Base64, Hashes, Urls, Json}.

Record AssertionResponseJson : Type := {
  ar_authenticator_data : string;
  ar_client_data_json : string;
  ar_signature : string;
  ar_user_handle : option string;
}.
Record AssertionJson : Type := {
  aj_id : string;
  aj_raw_id : string;
  aj_type : string;
  aj_response : AssertionResponseJson;
  aj_client_extension_results : json;
}.
(** The derived serializers and readers of the two. [extensions] is another
    name of [clientExtensionResults], which is kept as a value. *)
Definition assertion_response_to_json (r : AssertionResponseJson) : json :=
  JObject [("authenticatorData", JString (ar_authenticator_data r));
    ("clientDataJSON", JString (ar_client_data_json r)); ("signature", JString (ar_signature r));
    ("userHandle", match ar_user_handle r with Some h => JString h | None => JNull end)].
Definition assertion_to_json (a : AssertionJson) : json :=
  JObject [("id", JString (aj_id a)); ("rawId", JString (aj_raw_id a));
    ("type", JString (aj_type a)); ("response", assertion_response_to_json (aj_response a));
    ("clientExtensionResults", aj_client_extension_results a)].
Definition assertion_response_of_json (v : json) : option AssertionResponseJson :=
  match v with
  | JObject ms =>
      ad ← one_string "authenticatorData" ms; cdj ← one_string "clientDataJSON" ms;
      sig ← one_string "signature" ms; handle ← optional_string "userHandle" ms;
      Some {| ar_authenticator_data := ad; ar_client_data_json := cdj; ar_signature := sig;
              ar_user_handle := handle |}
  | JArray (JString ad :: JString cdj :: JString sig :: rest) =>
      handle ← optional_text rest;
      Some {| ar_authenticator_data := ad; ar_client_data_json := cdj; ar_signature := sig;
              ar_user_handle := handle |}
  | _ => None
  end.
Definition extension_values (ms : list (string * json)) : list json :=
  map snd (List.filter (λ kv, String.eqb kv.1 "clientExtensionResults"
                              || String.eqb kv.1 "extensions") ms).
Definition empty_object : json := JObject [].
Definition read_extensions (vs : list json) : option json :=
  match vs with [] => Some empty_object | [v] => Some (as_value v) | _ => None end.
Definition assertion_of_json (v : json) : option AssertionJson :=
  match v with
  | JObject ms =>
      id ← one_string "id" ms; raw_id ← one_string "rawId" ms; type_ ← one_string "type" ms;
      response ← one_value "response" ms; response ← assertion_response_of_json response;
      extensions ← read_extensions (extension_values ms);
      Some {| aj_id := id; aj_raw_id := raw_id; aj_type := type_; aj_response := response;
              aj_client_extension_results := extensions |}
  | JArray (JString id :: JString raw_id :: JString type_ :: response :: rest) =>
      response ← assertion_response_of_json response;
      extensions ← read_extensions rest;
      Some {| aj_id := id; aj_raw_id := raw_id; aj_type := type_; aj_response := response;
              aj_client_extension_results := extensions |}
  | _ => None
  end.

Inductive ExpectedChallenge : Type :=
| Exact (want : bytes)
| DerivedLogin (nonce : bytes) (node_url : string).

Record RecoveredAssertion : Type := {
  ra_rp_id : string;
  ra_origin : string;
  ra_user_verified : bool;
  ra_backup_eligible : bool;
  ra_backup_state : bool;
  ra_credential_id : bytes;
  ra_user_handle : option bytes;
  ra_candidates : p256_key * p256_key;
}.
Definition did_key_of (vk : p256_key) : string := p256_did_key_from_pubkey (p256_compressed vk).
Definition candidate_dids (r : RecoveredAssertion) : string * string :=
  (did_key_of (ra_candidates r).1, did_key_of (ra_candidates r).2).

Inductive AssertionError : Type :=
| Malformed (why : string)
| RpIdNotAllowed
| OriginNotAllowed
| CrossOrigin
| TopOriginPresent
| WrongType
| ChallengeMismatch
| UserPresenceMissing
| UserVerificationMissing
| BadSignature
| InvalidNodeUrl (e : LoginChallengeError).

(** ** clientDataJSON, as its derived reader reads it *)

Record ClientData : Type := {
  cd_type : string;
  cd_challenge : string;
  cd_origin : string;
  cd_cross_origin : option bool;
  cd_top_origin : bool;
}.
(** The members read so far: a known member given twice is refused, an unknown
    one is skipped. *)
Record ClientDataFields : Type := {
  cf_type : option string;
  cf_challenge : option string;
  cf_origin : option string;
  cf_cross_origin : option (option bool);
  cf_top_origin : option bool;
}.
Definition no_fields : ClientDataFields :=
  {| cf_type := None; cf_challenge := None; cf_origin := None;
     cf_cross_origin := None; cf_top_origin := None |}.
Definition read_string (v : json) : option string :=
  match v with JString s => Some s | _ => None end.
Definition read_opt_bool (v : json) : option (option bool) :=
  match v with JNull => Some None | JBool b => Some (Some b) | _ => None end.
(** A field must be vacant. *)
Definition once {A} (slot : option A) (a : option A) : option A :=
  match slot with None => a | Some _ => None end.
Definition read_member (f : ClientDataFields) (name : string) (v : json)
  : option ClientDataFields :=
  if String.eqb name "type" then
    s ← once (cf_type f) (read_string v);
    Some {| cf_type := Some s; cf_challenge := cf_challenge f; cf_origin := cf_origin f;
            cf_cross_origin := cf_cross_origin f; cf_top_origin := cf_top_origin f |}
  else if String.eqb name "challenge" then
    s ← once (cf_challenge f) (read_string v);
    Some {| cf_type := cf_type f; cf_challenge := Some s; cf_origin := cf_origin f;
            cf_cross_origin := cf_cross_origin f; cf_top_origin := cf_top_origin f |}
  else if String.eqb name "origin" then
    s ← once (cf_origin f) (read_string v);
    Some {| cf_type := cf_type f; cf_challenge := cf_challenge f; cf_origin := Some s;
            cf_cross_origin := cf_cross_origin f; cf_top_origin := cf_top_origin f |}
  else if String.eqb name "crossOrigin" then
    b ← once (cf_cross_origin f) (read_opt_bool v);
    Some {| cf_type := cf_type f; cf_challenge := cf_challenge f; cf_origin := cf_origin f;
            cf_cross_origin := Some b; cf_top_origin := cf_top_origin f |}
  else if String.eqb name "topOrigin" then
    b ← once (cf_top_origin f) (Some true);
    Some {| cf_type := cf_type f; cf_challenge := cf_challenge f; cf_origin := cf_origin f;
            cf_cross_origin := cf_cross_origin f; cf_top_origin := Some b |}
  else Some f.
Fixpoint read_members (f : ClientDataFields) (members : list (string * json))
  : option ClientDataFields :=
  match members with
  | [] => Some f
  | (name, v) :: rest => f ← read_member f name v; read_members f rest
  end.
Definition finish_fields (f : ClientDataFields) : option ClientData :=
  t ← cf_type f; c ← cf_challenge f; o ← cf_origin f;
  Some {| cd_type := t; cd_challenge := c; cd_origin := o;
          cd_cross_origin := default None (cf_cross_origin f);
          cd_top_origin := default false (cf_top_origin f) |}.
(** A derived reader also takes an array of the members in order. *)
Definition read_client_data (v : json) : option ClientData :=
  match v with
  | JObject members => f ← read_members no_fields members; finish_fields f
  | JArray (t :: c :: o :: more) =>
      t ← read_string t; c ← read_string c; o ← read_string o;
      match more with
      | [] => Some {| cd_type := t; cd_challenge := c; cd_origin := o;
                      cd_cross_origin := None; cd_top_origin := false |}
      | x :: more =>
          x ← read_opt_bool x;
          match more with
          | [] => Some {| cd_type := t; cd_challenge := c; cd_origin := o;
                          cd_cross_origin := x; cd_top_origin := false |}
          | [_] => Some {| cd_type := t; cd_challenge := c; cd_origin := o;
                           cd_cross_origin := x; cd_top_origin := true |}
          | _ => None
          end
      end
  | _ => None
  end.
Definition client_data_from_slice (b : bytes) : result ClientData string :=
  let? v := json_document b in ok_or (read_client_data v) (json_error b).

(** ** The verifier *)

Definition decode (member value : string) : result bytes AssertionError :=
  map_err (λ e, Malformed (member +:+ ": " +:+ e)) (b64url_decode_any_pad value).
(** The binary members, decoded. *)
Record Decoded : Type := {
  de_credential_id : bytes;
  de_auth_data : bytes;
  de_client_data_json : bytes;
  de_signature : bytes;
  de_user_handle : option bytes;
}.
Definition decode_members (a : AssertionJson) : result Decoded AssertionError :=
  if negb (String.eqb (aj_type a) "public-key") then Err (Malformed
    ("credential type " +:+ debug_str (aj_type a) +:+ " is not public-key"))
  else
  let? credential_id := decode "rawId" (aj_raw_id a) in
  let? id := decode "id" (aj_id a) in
  if negb (bytes_eqb id credential_id) then Err (Malformed "id does not match rawId")
  else
  let r := aj_response a in
  let? auth_data := decode "authenticatorData" (ar_authenticator_data r) in
  let? client_data_json := decode "clientDataJSON" (ar_client_data_json r) in
  let? signature := decode "signature" (ar_signature r) in
  let? user_handle := match ar_user_handle r with
    | None => Ok None
    | Some h => map_ok Some (decode "userHandle" h)
    end in
  Ok {| de_credential_id := credential_id; de_auth_data := auth_data;
        de_client_data_json := client_data_json; de_signature := signature;
        de_user_handle := user_handle |}.
Definition expected_bytes (expected : ExpectedChallenge) : result bytes AssertionError :=
  match expected with
  | Exact want => Ok want
  | DerivedLogin nonce node_url => map_err InvalidNodeUrl (derive_login_challenge nonce node_url)
  end.
(** The ceremony checks, none of which needs the public key. *)
Definition check_ceremony (client : ClientData) (auth_data : AuthenticatorData)
    (expected : ExpectedChallenge) (policy : AssertionPolicy)
  : result (RpEntry * bool) AssertionError :=
  if negb (String.eqb (cd_type client) "webauthn.get") then Err WrongType
  else
  let? challenge := map_err (λ e, Malformed ("clientDataJSON challenge: " +:+ e))
    (b64url_decode_any_pad (cd_challenge client)) in
  let? want := expected_bytes expected in
  if negb (bytes_eqb challenge want) then Err ChallengeMismatch
  else
  let? entry := ok_or (entry_for_rp_id_hash policy (ad_rp_id_hash auth_data)) RpIdNotAllowed in
  if negb (allows_origin entry (cd_origin client)) then Err OriginNotAllowed
  else if bool_decide (cd_cross_origin client = Some true) then Err CrossOrigin
  else if cd_top_origin client then Err TopOriginPresent
  else if negb (has_flag (ad_flags auth_data) FLAG_UP) then Err UserPresenceMissing
  else
  let user_verified := has_flag (ad_flags auth_data) FLAG_UV in
  if ap_require_uv policy && negb user_verified then Err UserVerificationMissing
  else Ok (entry, user_verified).
(** Both parities of the point, of the low-[s] form of the signature. *)
Definition recover_candidates (signature payload : bytes)
  : result (p256_key * p256_key) AssertionError :=
  let? sig := map_err (λ _, BadSignature) (p256_sig_from_der signature) in
  let sig := default sig (p256_normalize_s sig) in
  let z := sha256 payload in
  let? even := map_err (λ _, BadSignature) (p256_recover z sig false) in
  let? odd := map_err (λ _, BadSignature) (p256_recover z sig true) in
  Ok (even, odd).
Definition verify_and_recover (a : AssertionJson) (expected : ExpectedChallenge)
    (policy : AssertionPolicy) : result RecoveredAssertion AssertionError :=
  let? d := decode_members a in
  let? auth_data := map_err Malformed (parse_authenticator_data (de_auth_data d)) in
  let? client := map_err (λ e, Malformed ("clientDataJSON: " +:+ e))
    (client_data_from_slice (de_client_data_json d)) in
  let? '(entry, user_verified) := check_ceremony client auth_data expected policy in
  let? candidates := recover_candidates (de_signature d)
    (signed_payload (de_auth_data d) (de_client_data_json d)) in
  Ok {| ra_rp_id := rp_id entry; ra_origin := cd_origin client;
        ra_user_verified := user_verified;
        ra_backup_eligible := has_flag (ad_flags auth_data) FLAG_BE;
        ra_backup_state := has_flag (ad_flags auth_data) FLAG_BS;
        ra_credential_id := de_credential_id d; ra_user_handle := de_user_handle d;
        ra_candidates := candidates |}.
End defs.

(** ** The derived reader against a specification by member *)

Section client_data_proofs.

(** Filling one slot from the values given for its member. *)
Fixpoint fill {A} (rd : json → option A) (slot : option A) (vs : list json) : option (option A) :=
  match vs with
  | [] => Some slot
  | v :: vs => a ← once slot (rd v); fill rd (Some a) vs
  end.
Lemma fill_Some {A} (rd : json → option A) vs s : fill rd None vs = Some s ↔
  (vs = [] ∧ s = None) ∨ ∃ v a, vs = [v] ∧ rd v = Some a ∧ s = Some a.
Proof.
  destruct vs as [|v [|w vs]]; cbn.
  - naive_solver.
  - destruct (rd v) as [a|] eqn:E; cbn; naive_solver.
  - destruct (rd v) as [a|]; cbn; naive_solver.
Qed.
Lemma read_members_fill f ms :
  read_members f ms =
  (t ← fill read_string (cf_type f) (members_named "type" ms);
   c ← fill read_string (cf_challenge f) (members_named "challenge" ms);
   o ← fill read_string (cf_origin f) (members_named "origin" ms);
   x ← fill read_opt_bool (cf_cross_origin f) (members_named "crossOrigin" ms);
   p ← fill (λ _, Some true) (cf_top_origin f) (members_named "topOrigin" ms);
   Some {| cf_type := t; cf_challenge := c; cf_origin := o;
           cf_cross_origin := x; cf_top_origin := p |}).
Proof.
  revert f. induction ms as [|[n v] ms IH]; intros f; [by destruct f|].
  cbn [read_members]. unfold read_member, members_named. cbn [List.filter fst].
  destruct (String.eqb_spec n "type") as [->|]; [|
  destruct (String.eqb_spec n "challenge") as [->|]; [|
  destruct (String.eqb_spec n "origin") as [->|]; [|
  destruct (String.eqb_spec n "crossOrigin") as [->|]; [|
  destruct (String.eqb_spec n "topOrigin") as [->|]]]]];
    cbn [String.eqb Ascii.eqb Bool.eqb map snd]; cbn [fill];
    try (destruct (once _ _); cbn [mbind option_bind]; [by rewrite IH|]);
    try (cbn [mbind option_bind]; by rewrite IH).
  all: repeat (match goal with |- context [fill ?r ?s ?v] => destruct (fill r s v) end;
    cbn [mbind option_bind]; try done).
  all: done.
Qed.
(** ClientDataJSON is read without ambiguity. The derived reader accepts an
    object exactly when [type], [challenge] and [origin] are each given once,
    as strings, and [crossOrigin] and [topOrigin] at most once, whatever other
    members there are; no second spelling of a member is silently dropped. *)
Theorem client_data_members_once ms cd : read_client_data (JObject ms) = Some cd ↔
  members_named "type" ms = [JString (cd_type cd)] ∧
  members_named "challenge" ms = [JString (cd_challenge cd)] ∧
  members_named "origin" ms = [JString (cd_origin cd)] ∧
  ((members_named "crossOrigin" ms = [] ∧ cd_cross_origin cd = None) ∨
   ∃ v, members_named "crossOrigin" ms = [v] ∧ read_opt_bool v = Some (cd_cross_origin cd)) ∧
  ((members_named "topOrigin" ms = [] ∧ cd_top_origin cd = false) ∨
   ∃ v, members_named "topOrigin" ms = [v] ∧ cd_top_origin cd = true).
Proof.
  assert (∀ vs t, fill read_string None vs = Some (Some t) ↔ vs = [JString t]) as Hstr.
  { intros vs t. rewrite fill_Some. split; [|intros ->; right; by exists (JString t), t].
    intros [[_ [=]]|(v & a & -> & Ha & [= <-])]. destruct v; try discriminate Ha.
    by injection Ha as ->. }
  unfold read_client_data. rewrite read_members_fill. cbn [no_fields cf_type cf_challenge cf_origin
    cf_cross_origin cf_top_origin]. rewrite <- !Hstr. split.
  - destruct (fill read_string None (members_named "type" ms)) as [t|]; [|done]. cbn [mbind option_bind].
    destruct (fill read_string None (members_named "challenge" ms)) as [c|]; [|done]. cbn [mbind option_bind].
    destruct (fill read_string None (members_named "origin" ms)) as [o|]; [|done]. cbn [mbind option_bind].
    destruct (fill read_opt_bool None _) as [x|] eqn:Ex; [|done]. cbn [mbind option_bind].
    destruct (fill (λ _, Some true) None _) as [p|] eqn:Ep; [|done]. cbn [mbind option_bind].
    unfold finish_fields. cbn [cf_type cf_challenge cf_origin cf_cross_origin cf_top_origin].
    destruct t as [t|]; [|done]. destruct c as [c|]; [|done]. destruct o as [o|]; [|done].
    intros [= <-]. cbn [cd_type cd_challenge cd_origin cd_cross_origin cd_top_origin].
    split_and!; [done..| |].
    + apply fill_Some in Ex as [[-> ->]|(v & a & -> & Ha & ->)]; [by left|right; eauto].
    + apply fill_Some in Ep as [[-> ->]|(v & a & -> & Ha & ->)]; [by left|].
      right. exists v. by destruct a.
  - intros (-> & -> & -> & Hx & Hp). cbn [mbind option_bind].
    assert (∃ x, fill read_opt_bool None (members_named "crossOrigin" ms) = Some x ∧
      default None x = cd_cross_origin cd) as (x & -> & Hx').
    { destruct Hx as [[-> Hx]|(v & -> & Hx)]; [by exists None|].
      exists (Some (cd_cross_origin cd)). cbn. by rewrite Hx. }
    assert (∃ p, fill (λ _, Some true) None (members_named "topOrigin" ms) = Some p ∧
      default false p = cd_top_origin cd) as (p & -> & Hp').
    { destruct Hp as [[-> Hp]|(v & -> & Hp)]; [by exists None|by exists (Some true)]. }
    cbn. rewrite Hx', Hp'. by destruct cd.
Qed.
End client_data_proofs.

(** An assertion is read back as it was written. *)
Lemma assertion_json a :
  as_value (aj_client_extension_results a) = aj_client_extension_results a →
  assertion_of_json (assertion_to_json a) = Some a.
Proof.
  destruct a as [id raw ty [ad cd sg [h|]] ext]; cbn [aj_client_extension_results];
    intros He; unfold assertion_of_json, assertion_to_json; cbn -[as_value];
    cbn [read_extensions mbind option_bind]; by rewrite He.
Qed.

(** ** The checks and the recovery *)

Section proofs.
Context `{P256, Base58, Base64, Hashes, Urls, Json}.

Lemma check_ceremony_Ok client ad expected policy e uv :
  check_ceremony client ad expected policy = Ok (e, uv) ↔
  cd_type client = "webauthn.get" ∧
  (∃ want, expected_bytes expected = Ok want ∧
    b64url_decode_any_pad (cd_challenge client) = Ok want) ∧
  entry_for_rp_id_hash policy (ad_rp_id_hash ad) = Some e ∧
  allows_origin e (cd_origin client) = true ∧
  cd_cross_origin client ≠ Some true ∧ cd_top_origin client = false ∧
  has_flag (ad_flags ad) FLAG_UP = true ∧
  uv = has_flag (ad_flags ad) FLAG_UV ∧ (ap_require_uv policy = true → uv = true).
Proof.
  unfold check_ceremony. split.
  - destruct (String.eqb_spec (cd_type client) "webauthn.get") as [|]; [|done]. cbn [negb].
    destruct (b64url_decode_any_pad _) as [c|]; [|done]. cbn [map_err].
    destruct (expected_bytes expected) as [want|]; [|done].
    destruct (bytes_eqb c want) eqn:Eb; [|done]. apply bytes_eqb_eq in Eb as ->. cbn [negb].
    destruct (entry_for_rp_id_hash _ _) as [e'|]; [|done]. cbn [ok_or].
    destruct (allows_origin e' _) eqn:Eo; [|done]. cbn [negb].
    destruct (bool_decide_reflect (cd_cross_origin client = Some true)); [done|].
    destruct (cd_top_origin client); [done|].
    destruct (has_flag (ad_flags ad) FLAG_UP); [|done]. cbn [negb].
    destruct (ap_require_uv policy && _) eqn:Eu; [done|]. intros [= <- <-].
    split_and!; try done; [by exists want|]. intros Hr. rewrite Hr in Eu. cbn in Eu.
    by apply negb_false_iff in Eu.
  - intros (-> & (want & -> & ->) & -> & Ho & Hx & -> & -> & -> & Hu).
    rewrite String.eqb_refl. cbn [negb map_err ok_or]. rewrite bytes_eqb_refl, Ho. cbn [negb].
    rewrite bool_decide_eq_false_2 by done.
    destruct (ap_require_uv policy); [by rewrite Hu|done].
Qed.
Lemma recover_candidates_Ok sig payload k k' : recover_candidates sig payload = Ok (k, k') ↔
  ∃ s, p256_sig_from_der sig = Ok s ∧
    p256_recover (sha256 payload) (default s (p256_normalize_s s)) false = Ok k ∧
    p256_recover (sha256 payload) (default s (p256_normalize_s s)) true = Ok k'.
Proof.
  unfold recover_candidates. split.
  - destruct (p256_sig_from_der sig) as [s|]; [|done]. cbn [map_err].
    destruct (p256_recover _ _ false) as [e|] eqn:Ee; [|done]. cbn [map_err].
    destruct (p256_recover _ _ true) as [o|] eqn:Eo; [|done]. intros [= <- <-]. eauto.
  - intros (s & -> & He & Ho). cbn [map_err]. by rewrite He, Ho.
Qed.
Lemma verify_and_recover_Ok a expected policy r :
  verify_and_recover a expected policy = Ok r ↔
  ∃ d ad client e,
    decode_members a = Ok d ∧ parse_authenticator_data (de_auth_data d) = Ok ad ∧
    client_data_from_slice (de_client_data_json d) = Ok client ∧
    check_ceremony client ad expected policy = Ok (e, ra_user_verified r) ∧
    recover_candidates (de_signature d)
      (signed_payload (de_auth_data d) (de_client_data_json d)) = Ok (ra_candidates r) ∧
    ra_rp_id r = rp_id e ∧ ra_origin r = cd_origin client ∧
    ra_backup_eligible r = has_flag (ad_flags ad) FLAG_BE ∧
    ra_backup_state r = has_flag (ad_flags ad) FLAG_BS ∧
    ra_credential_id r = de_credential_id d ∧ ra_user_handle r = de_user_handle d.
Proof.
  unfold verify_and_recover. split.
  - destruct (decode_members a) as [d|]; [|done].
    destruct (parse_authenticator_data _) as [ad|] eqn:Ea; [|done]. cbn [map_err].
    destruct (client_data_from_slice _) as [cl|] eqn:Ec; [|done]. cbn [map_err].
    destruct (check_ceremony cl ad expected policy) as [[e uv]|] eqn:Ee; [|done].
    destruct (recover_candidates _ _) as [ks|] eqn:Ek; [|done]. intros [= <-].
    exists d, ad, cl, e. done.
  - intros (d & ad & cl & e & -> & Ha & Hc & He & Hk & ? & ? & ? & ? & ? & ?).
    rewrite Ha. cbn [map_err]. rewrite Hc. cbn [map_err]. rewrite He, Hk.
    destruct r. cbn in *. by subst.
Qed.
(** Both candidates verify the signature the assertion carries, and they are
    two. *)
Lemma candidates_verify `{!P256RecoverLaws} sig payload k k' :
  recover_candidates sig payload = Ok (k, k') →
  k ≠ k' ∧ ∃ s, p256_sig_from_der sig = Ok s ∧
    p256_verify k payload s = true ∧ p256_verify k' payload s = true.
Proof.
  intros (s & Hs & He & Ho)%recover_candidates_Ok.
  split; [by eapply p256_recover_distinct|]. exists s. split; [done|].
  apply p256_recover_verifies in He, Ho.
  destruct (p256_normalize_s s) as [s'|] eqn:En; cbn [default] in *; [|done].
  by rewrite !(p256_normalize_verify _ _ _ _ En) in *.
Qed.
End proofs.

Section properties.
Context `{P256, Base58, Base64, Hashes, Urls, Json, !P256RecoverLaws}.

(** C7: what a recovered assertion means. It is a [webauthn.get] of the
    expected challenge, made for an RP of the policy on an origin listed for
    it, not from a cross-origin frame and with no top origin, with the user
    present and, where the policy asks for it, verified; and the two candidate
    keys are distinct and both verify the signature over its authenticator
    data and client data. *)
Theorem recovered_assertion_sound a expected policy r :
  verify_and_recover a expected policy = Ok r →
  ∃ d cd e flags s, decode_members a = Ok d ∧
    client_data_from_slice (de_client_data_json d) = Ok cd ∧
    cd_type cd = "webauthn.get" ∧
    (∃ want, expected_bytes expected = Ok want ∧ b64url_decode_any_pad (cd_challenge cd) = Ok want) ∧
    (e ∈ ap_entries policy) ∧ take 32 (de_auth_data d) = rp_id_hash e ∧ ra_rp_id r = rp_id e ∧
    ra_origin r = cd_origin cd ∧ (ra_origin r ∈ rp_origins e) ∧
    cd_cross_origin cd ≠ Some true ∧ cd_top_origin cd = false ∧
    de_auth_data d !! 32 = Some flags ∧ has_flag flags FLAG_UP = true ∧
    ra_user_verified r = has_flag flags FLAG_UV ∧
    (ap_require_uv policy = true → ra_user_verified r = true) ∧
    p256_sig_from_der (de_signature d) = Ok s ∧ (ra_candidates r).1 ≠ (ra_candidates r).2 ∧
    let payload := de_auth_data d ++ sha256 (de_client_data_json d) in
    p256_verify (ra_candidates r).1 payload s = true ∧
    p256_verify (ra_candidates r).2 payload s = true.
Proof.
  intros (d & ad & cd & e & Hd & Ha & Hc & Hcer & Hk & Hid & Ho & _)%verify_and_recover_Ok.
  apply parse_authenticator_data_Ok in Ha as (_ & Hh & Hf).
  apply check_ceremony_Ok in Hcer as (Ht & Hw & He & Hall & Hx & Htop & Hup & Huv & Hreq).
  destruct (ra_candidates r) as [k k'] eqn:Ek.
  apply candidates_verify in Hk as (Hne & s & Hs & Hv & Hv').
  unfold entry_for_rp_id_hash in He.
  apply List.find_some in He as [Hin%list_elem_of_In Heq%bytes_eqb_eq].
  unfold allows_origin in Hall.
  apply existsb_exists in Hall as (o & Hoin%list_elem_of_In & ->%String.eqb_eq).
  exists d, cd, e, (ad_flags ad), s. rewrite Ho, Heq, Hh. by split_and!.
Qed.

(** C31: a passkey login is for one nonce and one node. If a node accepts an
    assertion as the login for [nonce] at [url], and any node accepts it as the
    login for [nonce'] at [url'], the nonces are the same and the URLs have one
    origin, or the two texts a login hashes (the tag, its nonce, its origin)
    are different and collide under SHA-256. *)
Theorem recovered_login_bound a nonce url nonce' url' policy policy' r r' :
  length nonce = 32 → length nonce' = 32 →
  verify_and_recover a (DerivedLogin nonce url) policy = Ok r →
  verify_and_recover a (DerivedLogin nonce' url') policy' = Ok r' →
  ∃ u u', url_parse url = Ok u ∧ url_parse url' = Ok u' ∧
    (nonce = nonce' ∧ url_origin u = url_origin u' ∨
     collides sha256
       (as_bytes "aqua-auth/webauthn-login/v1" ++ nonce ++ as_bytes (url_origin u))
       (as_bytes "aqua-auth/webauthn-login/v1" ++ nonce' ++ as_bytes (url_origin u'))).
Proof.
  intros Hl Hl' (d & ad & cd & e & Hd & _ & Hc & Hcer & _)%verify_and_recover_Ok
    (d' & ad' & cd' & e' & Hd' & _ & Hc' & Hcer' & _)%verify_and_recover_Ok.
  rewrite Hd in Hd'. injection Hd' as <-. rewrite Hc in Hc'. injection Hc' as <-.
  apply check_ceremony_Ok in Hcer as (_ & (w & Hw & Hch) & _).
  apply check_ceremony_Ok in Hcer' as (_ & (w' & Hw' & Hch') & _).
  rewrite Hch in Hch'. injection Hch' as <-. cbn [expected_bytes] in *.
  destruct (derive_login_challenge nonce url) as [c|] eqn:E; [|done]. injection Hw as ->.
  destruct (derive_login_challenge nonce' url') as [c'|] eqn:E'; [|done]. injection Hw' as ->.
  apply derive_login_challenge_Ok in E as (u & Hu & _ & ->).
  apply derive_login_challenge_Ok in E' as (u' & Hu' & _ & Heq).
  exists u, u'. do 2 (split; [done|]). apply login_preimages_apart; [congruence|done].
Qed.
End properties.

(** ** A sample assertion *)

Section witnesses.
Import Fixtures.Instances.

Definition assertion_with (challenge x : bytes) : AssertionJson := {|
  aj_id := b64url_encode [Byte.x01; Byte.x02];
  aj_raw_id := b64url_encode [Byte.x01; Byte.x02] +:+ "==";
  aj_type := "public-key";
  aj_response := {|
    ar_authenticator_data := b64url_encode
      (sha256 (as_bytes "example.org") ++ [Byte.x1d; Byte.x00; Byte.x00; Byte.x00; Byte.x07]);
    ar_client_data_json := b64url_encode
      (as_bytes ("webauthn.get " +:+ b64url_encode challenge +:+ " https://login.example.org"));
    ar_signature := b64url_encode (Byte.x30 :: x ++ replicate 32 Byte.x07);
    ar_user_handle := None |};
  aj_client_extension_results := JObject [] |}.
Definition sample_x : bytes := replicate 32 Byte.x11.
Definition sample_challenge : bytes :=
  match derive_login_challenge (sample_nonce 7) "https://node.example/app" with Ok c => c | Err _ => [] end.
Definition sample_assertion : AssertionJson := assertion_with sample_challenge sample_x.
Definition recovered_login : RecoveredAssertion :=
  match verify_and_recover sample_assertion (DerivedLogin (sample_nonce 7) "https://node.example/app")
    sample_policy with
  | Ok r => r
  | Err _ => {| ra_rp_id := ""; ra_origin := ""; ra_user_verified := false;
      ra_backup_eligible := false; ra_backup_state := false; ra_credential_id := [];
      ra_user_handle := None;
      ra_candidates := ({| key_bytes := replicate 33 Byte.x00; key_len := eq_refl |},
                        {| key_bytes := replicate 33 Byte.x00; key_len := eq_refl |}) |}
  end.
Lemma recovered_login_eq : verify_and_recover sample_assertion
  (DerivedLogin (sample_nonce 7) "https://node.example/app") sample_policy = Ok recovered_login.
Proof. vm_refl. Qed.
Lemma recovered_assertion_sound_witness : ∃ e,
  (e ∈ ap_entries sample_policy) ∧ ra_rp_id recovered_login = rp_id e ∧
  (ra_origin recovered_login ∈ rp_origins e).
Proof.
  destruct (recovered_assertion_sound sample_assertion
    (DerivedLogin (sample_nonce 7) "https://node.example/app") sample_policy recovered_login
    recovered_login_eq) as (d & cd & e & f & s & _ & _ & _ & _ & Hin & _ & Hid & _ & Ho & _).
  exact (ex_intro _ e (conj Hin (conj Hid Ho))).
Defined.
Lemma recovered_login_bound_witness :
  ∃ u u', url_parse "https://node.example/app" = Ok u ∧
    url_parse "https://NODE.example:443" = Ok u' ∧
    (sample_nonce 7 = sample_nonce 7 ∧ url_origin u = url_origin u' ∨
     collides sha256
       (as_bytes "aqua-auth/webauthn-login/v1" ++ sample_nonce 7 ++ as_bytes (url_origin u))
       (as_bytes "aqua-auth/webauthn-login/v1" ++ sample_nonce 7 ++ as_bytes (url_origin u'))).
Proof.
  apply (recovered_login_bound sample_assertion (sample_nonce 7) "https://node.example/app"
    (sample_nonce 7) "https://NODE.example:443" sample_policy sample_policy
    recovered_login recovered_login); [vm_refl|vm_refl|exact recovered_login_eq|vm_refl].
Defined.
End witnesses.
