(* ===== verification/WebauthnSelect.v ===== *)
(** * Candidate selection: src/webauthn_select.rs

    Which of the two keys a verified assertion recovers made the signature: a
    hint, a known principal, or the key two assertions share. *)

From S2P Require Import Prelude Crates Fixtures Errors Keys Did Suites Aqua Methods DidFormat Principal LoginChallenge WebauthnPolicy Webauthn WebauthnRecover.

Record DidHint : Type := { dh_did : string }.
#[export] Instance DidHint_eq_dec : EqDecision DidHint.
Proof. solve_decision. Defined.

Inductive SelectedBy : Type := ByHint | ByKnownPrincipal | ByIntersection.
Inductive SelectionError : Type := CredentialMismatch | NoCommonCandidate | Ambiguous.
Record PendingRecovery : Type := {
  pr_candidates : DidHint * DidHint;
  pr_credential_id : bytes;
}.
Inductive Selection : Type :=
| Selected (principal : Principal) (by_ : SelectedBy)
| NeedSecondAssertion (p : PendingRecovery).

(** The index of the single [true]: [false] is the first place. *)
Definition the_only (flags : bool * bool) : option bool :=
  match flags with
  | (true, false) => Some false
  | (false, true) => Some true
  | _ => None
  end.
Definition pick {A} (i : bool) (p : A * A) : A := if i then p.2 else p.1.
Definition both {A B} (f : A → B) (p : A * A) : B * B := (f p.1, f p.2).

Section defs.
Context `{P256, Ed25519, Base58, Base64, Hashes, Urls, Json}.

Definition parse_hint (s : string) : option DidHint :=
  match p256_pubkey_from_did_key s with
  | Err _ => None
  | Ok point =>
      if String.eqb (p256_did_key_from_pubkey point) s then Some {| dh_did := s |} else None
  end.
Definition hint_from_spki_der (spki : bytes) : result DidHint CryptoError :=
  let? key := map_err (λ e, InvalidDid ("not a P-256 SubjectPublicKeyInfo: " +:+ e))
    (p256_key_from_spki spki) in
  Ok {| dh_did := p256_did_key_from_pubkey (p256_compressed key) |}.
(** [TryFrom<String>], which is also how a hint is deserialised. *)
Definition hint_try_from (s : string) : result DidHint CryptoError :=
  ok_or (parse_hint s) (InvalidDid ("not a canonical P-256 did:key: " +:+ s)).

Definition hinted (hints : list DidHint) (did : string) : bool :=
  existsb (λ h, String.eqb (dh_did h) did) hints.
Definition select (r : RecoveredAssertion) (hints : list DidHint) (known : bool * bool)
  : Selection :=
  let dids := candidate_dids r in
  match the_only (both (hinted hints) dids) with
  | Some i => Selected (from_proven_did_key (pick i dids)) ByHint
  | None =>
      match the_only known with
      | Some i => Selected (from_proven_did_key (pick i dids)) ByKnownPrincipal
      | None => NeedSecondAssertion {|
          pr_candidates := both (λ d, {| dh_did := d |}) dids;
          pr_credential_id := ra_credential_id r |}
      end
  end.
(** The candidates the second assertion also recovers, in order. *)
Definition common_candidates (p : PendingRecovery) (second : RecoveredAssertion)
  : list DidHint :=
  List.filter (λ c, String.eqb (candidate_dids second).1 (dh_did c)
                    || String.eqb (candidate_dids second).2 (dh_did c))
    [(pr_candidates p).1; (pr_candidates p).2].
Definition resolve (p : PendingRecovery) (second : RecoveredAssertion)
  : result Principal SelectionError :=
  if negb (bytes_eqb (ra_credential_id second) (pr_credential_id p)) then Err CredentialMismatch
  else
  match common_candidates p second with
  | [one] => Ok (from_proven_did_key (dh_did one))
  | [] => Err NoCommonCandidate
  | _ => Err Ambiguous
  end.

(** ** The pending state as JSON *)

Definition serialize_bytes (b : bytes) : json := JString (b64url_encode b).
Definition deserialize_bytes (v : json) : option bytes :=
  match v with
  | JString s => match b64url_decode_any_pad s with Ok b => Some b | Err _ => None end
  | _ => None
  end.
Definition pending_to_json (p : PendingRecovery) : json :=
  JObject [("candidates", JArray [JString (dh_did (pr_candidates p).1);
                                  JString (dh_did (pr_candidates p).2)]);
           ("credential_id", serialize_bytes (pr_credential_id p))].
Definition read_hint (v : json) : option DidHint :=
  match v with
  | JString s => match hint_try_from s with Ok h => Some h | Err _ => None end
  | _ => None
  end.
Definition read_hints (v : json) : option (DidHint * DidHint) :=
  match v with
  | JArray [a; b] => h ← read_hint a; h' ← read_hint b; Some (h, h')
  | _ => None
  end.
Definition pending_of_json (v : json) : option PendingRecovery :=
  match v with
  | JObject members =>
      cs ← fill read_hints None (members_named "candidates" members);
      id ← fill deserialize_bytes None (members_named "credential_id" members);
      cs ← cs; id ← id; Some {| pr_candidates := cs; pr_credential_id := id |}
  | JArray [cs; id] =>
      cs ← read_hints cs; id ← deserialize_bytes id;
      Some {| pr_candidates := cs; pr_credential_id := id |}
  | _ => None
  end.
End defs.

Section proofs.
Context `{P256, Ed25519, Base58, Base64, Hashes, Urls, Json, !P256Laws, !Base58Laws, !Base64Laws}.

(** ** Candidates and hints *)

Lemma did_key_of_decodes k : p256_pubkey_from_did_key (did_key_of k) = Ok (p256_compressed k).
Proof.
  apply p256_did_key_inverse.
  split_and!; [done|apply p256_compressed_length|apply p256_compressed_valid].
Qed.
Lemma did_key_of_inj k k' : did_key_of k = did_key_of k' → k = k'.
Proof. intros ?%encode_did_key_inj. by apply p256_compressed_inj. Qed.
Lemma parse_hint_Some s h : parse_hint s = Some h ↔
  h = {| dh_did := s |} ∧ ∃ raw, s = p256_did_key_from_pubkey raw ∧ length raw = 33 ∧
    p256_sec1_valid raw = true.
Proof.
  unfold parse_hint. destruct (p256_pubkey_from_did_key s) as [raw|e] eqn:E.
  - apply p256_did_key_inverse in E as (-> & Hl & Hv). rewrite String.eqb_refl. split.
    + intros [= <-]. eauto.
    + by intros [-> _].
  - split; [done|]. intros [_ (raw & Hs & Hl & Hv)].
    assert (p256_pubkey_from_did_key s = Ok raw) by by apply p256_did_key_inverse.
    congruence.
Qed.
Lemma parse_hint_did_key k : parse_hint (did_key_of k) = Some {| dh_did := did_key_of k |}.
Proof.
  apply parse_hint_Some. split; [done|]. exists (p256_compressed k).
  split_and!; [done|apply p256_compressed_length|apply p256_compressed_valid].
Qed.
Lemma hint_try_from_did_key k : hint_try_from (did_key_of k) = Ok {| dh_did := did_key_of k |}.
Proof. unfold hint_try_from. by rewrite parse_hint_did_key. Qed.
Lemma hinted_spec hints d : hinted hints d = true ↔ {| dh_did := d |} ∈ hints.
Proof.
  unfold hinted. rewrite existsb_exists. split.
  - intros ([d'] & Hin%list_elem_of_In & Heq%String.eqb_eq). cbn in Heq. by subst.
  - intros Hin%list_elem_of_In. exists {| dh_did := d |}. by rewrite String.eqb_refl.
Qed.
Lemma the_only_Some f i : the_only f = Some i ↔ pick i f = true ∧ pick (negb i) f = false.
Proof. destruct f as [[] []], i; cbn; naive_solver. Qed.
Lemma pick_both {A B} (f : A → B) i p : pick i (both f p) = f (pick i p).
Proof. by destruct i. Qed.
Lemma candidate_did i r : pick i (candidate_dids r) = did_key_of (pick i (ra_candidates r)).
Proof. by destruct i. Qed.

(** ** Selection, in full *)

Lemma select_cases r hints known :
  match select r hints known with
  | Selected p ByHint => ∃ i, p = from_proven_did_key (pick i (candidate_dids r)) ∧
      hinted hints (pick i (candidate_dids r)) = true ∧
      hinted hints (pick (negb i) (candidate_dids r)) = false
  | Selected p ByKnownPrincipal => ∃ i, p = from_proven_did_key (pick i (candidate_dids r)) ∧
      the_only (both (hinted hints) (candidate_dids r)) = None ∧
      pick i known = true ∧ pick (negb i) known = false
  | Selected _ ByIntersection => False
  | NeedSecondAssertion p =>
      the_only (both (hinted hints) (candidate_dids r)) = None ∧ the_only known = None ∧
      pr_candidates p = both (λ d, {| dh_did := d |}) (candidate_dids r) ∧
      pr_credential_id p = ra_credential_id r
  end.
Proof.
  unfold select. destruct (the_only (both _ _)) as [i|] eqn:Eh.
  - apply the_only_Some in Eh. rewrite !pick_both in Eh. by exists i.
  - destruct (the_only known) as [i|] eqn:Ek; [|done].
    apply the_only_Some in Ek. by exists i.
Qed.
Lemma select_candidate r hints known p by_ : select r hints known = Selected p by_ →
  ∃ i, p = from_proven_did_key (did_key_of (pick i (ra_candidates r))).
Proof.
  intros Hs. pose proof (select_cases r hints known) as Hc. rewrite Hs in Hc.
  destruct by_; [| |done]; destruct Hc as (i & -> & _); exists i; by rewrite candidate_did.
Qed.
Lemma resolve_Ok p second pr : resolve p second = Ok pr ↔
  ra_credential_id second = pr_credential_id p ∧
  ∃ one, common_candidates p second = [one] ∧ pr = from_proven_did_key (dh_did one).
Proof.
  unfold resolve. destruct (bytes_eqb _ _) eqn:E; cbn [negb].
  - apply bytes_eqb_eq in E.
    destruct (common_candidates p second) as [|one [|two rest]]; [naive_solver| |naive_solver].
    split; [intros [= <-]; eauto|by intros (_ & one' & [= <-] & ->)].
  - split; [done|]. intros [He _]. by rewrite He, bytes_eqb_refl in E.
Qed.
Lemma common_candidate p second one : one ∈ common_candidates p second →
  (one = (pr_candidates p).1 ∨ one = (pr_candidates p).2) ∧
  ∃ j, dh_did one = did_key_of (pick j (ra_candidates second)).
Proof.
  unfold common_candidates. intros [Hin Hc]%list_elem_of_In%List.filter_In. split.
  - destruct Hin as [<-|[<-|[]]]; auto.
  - apply orb_true_iff in Hc as [Hc|Hc]; apply String.eqb_eq in Hc; rewrite <- Hc;
      [by exists false|by exists true].
Qed.
Lemma resolve_candidate p second pr : resolve p second = Ok pr →
  ∃ j, pr = from_proven_did_key (did_key_of (pick j (ra_candidates second))).
Proof.
  intros (_ & one & Hone & ->)%resolve_Ok.
  destruct (common_candidate p second one) as (_ & j & ->); [by rewrite Hone; left|by exists j].
Qed.
End proofs.

Section properties.
Context `{P256, Ed25519, K256, MlDsa, Base58, Base64, Hex, Hashes, Features, Urls, Json}.
Context `{!P256Laws, !P256RecoverLaws, !Base58Laws, !Base64Laws}.

(** C17: a hint only selects among the keys the signature already names. Which
    principal [select] logs in depends on the hints only through which of the
    two candidates they name: any other hint, however tossed in, changes
    nothing; and whatever it selects is the [did:key] of a candidate. *)
Theorem hints_only_select r hints hints' known :
  (∀ i, {| dh_did := pick i (candidate_dids r) |} ∈ hints ↔
        {| dh_did := pick i (candidate_dids r) |} ∈ hints') →
  select r hints known = select r hints' known ∧
  ∀ p by_, select r hints known = Selected p by_ →
    ∃ i, principal_did p = did_key_of (pick i (ra_candidates r)).
Proof.
  intros Hh. split.
  - assert (both (hinted hints) (candidate_dids r) = both (hinted hints') (candidate_dids r)) as Hb.
    { unfold both. f_equal; apply eq_true_iff_eq; rewrite !hinted_spec;
        [apply (Hh false)|apply (Hh true)]. }
    unfold select. by rewrite Hb.
  - intros p by_ Hs. destruct (select_candidate _ _ _ _ _ Hs) as [i ->]. by exists i.
Qed.

(** A hint is a canonical spelling, and comparing spellings compares keys.
    [DidHint::parse] accepts exactly the [did:key] of a valid compressed P-256
    point, so that its comparison with the re-encoding refuses nothing the
    decoder accepted. *)
Theorem hint_canonical s h : parse_hint s = Some h ↔
  h = {| dh_did := s |} ∧ ∃ raw, s = p256_did_key_from_pubkey raw ∧ length raw = 33 ∧
    p256_sec1_valid raw = true.
Proof. apply parse_hint_Some. Qed.

(** The pending state survives its serialisation. What [select] hands out
    for the second prompt reads back as itself. *)
Theorem pending_round_trip r hints known p :
  select r hints known = NeedSecondAssertion p → pending_of_json (pending_to_json p) = Some p.
Proof.
  intros Hs. pose proof (select_cases r hints known) as Hc. rewrite Hs in Hc.
  destruct Hc as (_ & _ & Hp & Hid). destruct p as [[h h'] id]. cbn in Hp, Hid.
  injection Hp as -> ->. subst id. unfold pending_of_json, pending_to_json. cbn -[hint_try_from].
  unfold candidate_dids. cbn [fst snd]. rewrite !hint_try_from_did_key. cbn.
  by rewrite b64url_any_pad_encode.
Qed.

(** C16: a login in two prompts. When the first assertion leaves two candidates
    and the second, by the same credential, resolves them, the principal is the
    [did:key] of one key that verifies both signatures, and that key is the
    only one the two assertions have in common. *)
Theorem two_prompt_login a1 c1 p1 r1 hints known pend a2 c2 p2 r2 principal :
  verify_and_recover a1 c1 p1 = Ok r1 → select r1 hints known = NeedSecondAssertion pend →
  verify_and_recover a2 c2 p2 = Ok r2 → resolve pend r2 = Ok principal →
  ra_credential_id r1 = ra_credential_id r2 ∧
  ∃ i j, let k := pick i (ra_candidates r1) in
    principal_did principal = did_key_of k ∧ k = pick j (ra_candidates r2) ∧
    pick (negb i) (ra_candidates r1) ≠ pick (negb j) (ra_candidates r2) ∧
    ∃ d1 d2 s1 s2, decode_members a1 = Ok d1 ∧ decode_members a2 = Ok d2 ∧
      p256_sig_from_der (de_signature d1) = Ok s1 ∧ p256_sig_from_der (de_signature d2) = Ok s2 ∧
      p256_verify k (signed_payload (de_auth_data d1) (de_client_data_json d1)) s1 = true ∧
      p256_verify k (signed_payload (de_auth_data d2) (de_client_data_json d2)) s2 = true.
Proof.
  intros (d1 & _ & _ & _ & Hd1 & _ & _ & _ & Hk1 & _)%verify_and_recover_Ok Hs
    (d2 & _ & _ & _ & Hd2 & _ & _ & _ & Hk2 & _)%verify_and_recover_Ok
    (Hid & one & Hone & ->)%resolve_Ok.
  pose proof (select_cases r1 hints known) as Hc. rewrite Hs in Hc.
  destruct Hc as (_ & _ & Hpc & Hpid). split; [congruence|].
  destruct (common_candidate pend r2 one) as (Hin & j & Hj); [by rewrite Hone; left|].
  assert (∃ i, dh_did one = did_key_of (pick i (ra_candidates r1))) as [i Hi].
  { rewrite Hpc in Hin. destruct Hin as [->| ->]; [by exists false|by exists true]. }
  exists i, j. cbn zeta. cbn [principal_did from_proven_did_key]. split; [done|].
  assert (pick i (ra_candidates r1) = pick j (ra_candidates r2)) as Hij
    by (apply did_key_of_inj; congruence).
  split; [done|].
  destruct (ra_candidates r1) as [e1 o1] eqn:E1, (ra_candidates r2) as [e2 o2] eqn:E2.
  destruct (candidates_verify _ _ _ _ Hk1) as (Hne1 & s1 & Hs1 & Hv1 & Hv1').
  destruct (candidates_verify _ _ _ _ Hk2) as (Hne2 & s2 & Hs2 & Hv2 & Hv2').
  split.
  - intros Hother. assert (length (common_candidates pend r2) = 2) as Hl; [|by rewrite Hone in Hl].
    unfold common_candidates, candidate_dids. rewrite Hpc. unfold candidate_dids.
    rewrite E1, E2. cbn [both fst snd dh_did List.filter].
    destruct i, j; cbn [pick negb fst snd] in *; subst;
      rewrite ?String.eqb_refl, ?orb_true_r; cbn [orb]; done.
  - exists d1, d2, s1, s2. split_and!; [done..| |].
    + by destruct i.
    + rewrite Hij. by destruct j.
Qed.

(** The ways the program makes a [Principal]. *)
Inductive principal_made : Principal → Prop :=
| MadeTrusted did p : from_trusted_did did = Ok p → principal_made p
| MadeAuthenticated did msg s pk p :
    authenticate_with_public_key did msg s pk = Ok p → principal_made p
| MadeSelected r hints known p by_ : select r hints known = Selected p by_ → principal_made p
| MadeResolved pend second p : resolve pend second = Ok p → principal_made p.

Lemma principal_made_well_formed p : principal_made p →
  validate_did_well_formed (principal_did p) = Ok tt.
Proof.
  assert (∀ k, validate_did_well_formed (did_key_of k) = Ok tt) as Hk
    by (intros k; apply p256_did_key_well_formed, p256_compressed_length).
  intros [did q Ht|did msg s pk q Ha|r hints known q by_ Hs|pend second q Hr].
  - unfold from_trusted_did in Ht.
    destruct (validate_did_well_formed did) as [[]|] eqn:E; [|done]. by injection Ht as <-.
  - by apply authenticate_spec in Ha as (-> & Hv & _).
  - apply select_candidate in Hs as [i ->]. apply Hk.
  - apply resolve_candidate in Hr as [j ->]. apply Hk.
Qed.

(** C20: every [Principal] of the program holds a well-formed DID, whichever way
    it was made, and its accessors cannot fail: [method_label] answers with one
    of the four labels of the registry, [canonical_subject] with the DID. *)
Theorem principal_well_formed p : principal_made p →
  validate_did_well_formed (principal_did p) = Ok tt ∧
  (∃ label, principal_method_label p = Ok label ∧
    label ∈ ["Ethereum"; "Ed25519"; "P-256"; "ML-DSA-87"]) ∧
  canonical_subject p = Ok (principal_did p).
Proof.
  intros Hp%principal_made_well_formed. split; [done|]. by apply principal_accessors.
Qed.
End properties.

Section witnesses.
Import Fixtures.Instances.

Definition first_pending : PendingRecovery := {|
  pr_candidates := both (λ d, {| dh_did := d |}) (candidate_dids recovered_login);
  pr_credential_id := [Byte.x01; Byte.x02] |}.
Definition second_assertion : AssertionJson := assertion_with [Byte.x2a] sample_x.
Definition second_login : RecoveredAssertion :=
  match verify_and_recover second_assertion (Exact [Byte.x2a]) sample_policy with
  | Ok r => r | Err _ => recovered_login end.
Definition sample_passkey : string := did_key_of (ra_candidates recovered_login).1.
Lemma two_prompt_login_witness : ∃ i : bool,
  sample_passkey = did_key_of (pick i (ra_candidates recovered_login)).
Proof.
  destruct (two_prompt_login sample_assertion
    (DerivedLogin (sample_nonce 7) "https://node.example/app") sample_policy recovered_login
    [] (false, false) first_pending second_assertion (Exact [Byte.x2a]) sample_policy second_login
    (mk_principal sample_passkey)) as (_ & i & j & Hk & _).
  - exact recovered_login_eq.
  - vm_refl.
  - vm_refl.
  - vm_refl.
  - exact (ex_intro _ i Hk).
Defined.
Lemma pending_round_trip_witness : pending_of_json (pending_to_json first_pending) = Some first_pending.
Proof. apply (pending_round_trip recovered_login [] (false, false) first_pending). vm_refl. Defined.
(** A stranger's hint does not change what the known principal decides. *)
Lemma hints_only_select_witness :
  select recovered_login [{| dh_did := sample_key_did |}] (true, false) =
  select recovered_login [] (true, false).
Proof.
  apply (hints_only_select recovered_login [{| dh_did := sample_key_did |}] [] (true, false)).
  intros i. split; [|by intros ?%not_elem_of_nil].
  intros Hin%list_elem_of_singleton%(f_equal dh_did). exfalso.
  assert (String.eqb (pick i (candidate_dids recovered_login)) sample_key_did = false) as Hne
    by (destruct i; vm_refl).
  apply (f_equal (λ d, String.eqb d sample_key_did)) in Hin. cbn [dh_did] in Hin.
  rewrite Hne, String.eqb_refl in Hin. discriminate Hin.
Defined.
Lemma principal_well_formed_witness :
  principal_method_label (mk_principal sample_passkey) = Ok "P-256" ∧
  canonical_subject (mk_principal sample_passkey) = Ok sample_passkey.
Proof.
  split; [vm_refl|]. apply (principal_well_formed (mk_principal sample_passkey)).
  apply (MadeSelected recovered_login [{| dh_did := sample_passkey |}] (false, false)
    (mk_principal sample_passkey) ByHint). vm_refl.
Defined.
End witnesses.
