(* ===== verification/WebauthnHint.v ===== *)
(** * The DID hint cookie: src/webauthn_hint.rs *)

From S2P Require Import Prelude Crates Fixtures Errors Keys Did Suites Aqua Methods DidFormat Principal LoginChallenge WebauthnPolicy Webauthn WebauthnRecover WebauthnSelect.

Definition HINT_COOKIE_NAME : string := "aqua_did_hint".
Definition HINT_MAX_AGE_SECS : Z := 34560000.

Record HintCookieConfig : Type := {
  hc_domain : option string;
  hc_secure : bool;
  hc_max_age_secs : Z;
}.
Definition for_rp_id (rp_id : string) : HintCookieConfig :=
  {| hc_domain := if String.eqb rp_id "localhost" then None else Some rp_id;
     hc_secure := true; hc_max_age_secs := HINT_MAX_AGE_SECS |}.
Definition cookie_header (c : HintCookieConfig) (value : string) (max_age_secs : Z) : string :=
  HINT_COOKIE_NAME +:+ "=" +:+ value
  +:+ match hc_domain c with Some domain => "; Domain=" +:+ domain | None => EmptyString end
  +:+ "; Path=/; Max-Age=" +:+ show_Z max_age_secs
  +:+ (if hc_secure c then "; Secure" else EmptyString)
  +:+ "; SameSite=Lax".
Definition hint_set_cookie (p : Principal) (c : HintCookieConfig) : string :=
  cookie_header c (principal_did p) (hc_max_age_secs c).
Definition hint_clear_cookie (c : HintCookieConfig) : string := cookie_header c "" 0.

Section defs.
Context `{P256, Ed25519, Base58}.

(** Quotes around a value are dropped when both are there. *)
Definition unquote (value : string) : string :=
  default value (v ← strip_prefix quote value; strip_suffix quote v).
Definition hint_of_pair (pair : string) : option DidHint :=
  '(name, value) ← split_once "=" pair;
  if String.eqb (trim name) HINT_COOKIE_NAME then parse_hint (unquote (trim value)) else None.
Definition hints_from_cookie_header (cookie_header : string) : list DidHint :=
  omap hint_of_pair (split ";" cookie_header).

(** ** What a browser sends back *)

(** A [Cookie] header: [name=value] pairs joined by a semicolon and a space. *)
Definition cookie_pair (c : string * string) : string := c.1 +:+ "=" +:+ c.2.
Fixpoint later_pairs (cs : list (string * string)) : string :=
  match cs with
  | [] => EmptyString
  | c :: cs => ";" +:+ " " +:+ cookie_pair c +:+ later_pairs cs
  end.
Definition cookies (cs : list (string * string)) : string :=
  match cs with [] => EmptyString | c :: cs => cookie_pair c +:+ later_pairs cs end.
(** Names and values as RFC 6265 has them: visible characters without a
    semicolon, no [=] in a name, no white space. *)
Definition cookie_ok (c : string * string) : Prop :=
  str_forallb graphic c.1 = true ∧ str_forallb graphic c.2 = true ∧
  free_of ";" c.1 = true ∧ free_of ";" c.2 = true ∧ free_of "=" c.1 = true.
Definition hint_of_cookie (c : string * string) : option DidHint :=
  if String.eqb c.1 HINT_COOKIE_NAME then parse_hint (unquote c.2) else None.
End defs.

Section proofs.
Context `{P256, Ed25519, Base58}.

Lemma hint_of_cookie_pair c : cookie_ok c → hint_of_pair (cookie_pair c) = hint_of_cookie c.
Proof.
  intros (Hn & Hv & _ & _ & He). unfold hint_of_pair, cookie_pair, hint_of_cookie.
  change ("=" +:+ c.2) with (String "=" c.2). rewrite split_once_app by done.
  cbn [mbind option_bind]. by rewrite !trim_graphic.
Qed.
Lemma hint_of_later_pair c : cookie_ok c → hint_of_pair (" " +:+ cookie_pair c) = hint_of_cookie c.
Proof.
  intros (Hn & Hv & _ & _ & He). unfold hint_of_pair, cookie_pair, hint_of_cookie.
  change (" " +:+ c.1 +:+ "=" +:+ c.2) with ((" " +:+ c.1) +:+ String "=" c.2).
  rewrite split_once_app by (rewrite free_of_app; exact He).
  cbn [mbind option_bind]. by rewrite trim_space_graphic, trim_graphic.
Qed.
Lemma cookie_pair_free c : cookie_ok c → free_of ";" (cookie_pair c) = true.
Proof. intros (_ & _ & Hn & Hv & _). unfold cookie_pair. by rewrite !free_of_app, Hn, Hv. Qed.
Lemma split_pairs x cs : free_of ";" x = true → Forall cookie_ok cs →
  split ";" (x +:+ later_pairs cs) = x :: map (λ c, " " +:+ cookie_pair c) cs.
Proof.
  intros Hx Hcs. revert x Hx. induction Hcs as [|c cs Hc _ IH]; intros x Hx; cbn [later_pairs map].
  - rewrite str_app_nil_r. by apply split_free.
  - change (";" +:+ ?r) with (String ";" r). rewrite split_app by done. f_equal.
    rewrite <- str_app_assoc. apply IH. rewrite free_of_app. by apply cookie_pair_free.
Qed.
Lemma hints_of_cookies cs : Forall cookie_ok cs →
  hints_from_cookie_header (cookies cs) = omap hint_of_cookie cs.
Proof.
  intros Hcs. unfold hints_from_cookie_header. destruct Hcs as [|c cs Hc Hcs]; [done|].
  cbn [cookies]. rewrite split_pairs by (done || by apply cookie_pair_free).
  cbn [omap list_omap]. rewrite hint_of_cookie_pair by done.
  assert (omap hint_of_pair (map (λ c, " " +:+ cookie_pair c) cs) = omap hint_of_cookie cs) as Hm.
  { clear Hc c. induction Hcs as [|c cs Hc _ IH]; [done|]. cbn [map omap list_omap].
    rewrite hint_of_later_pair by done. by case_match; rewrite IH. }
  by rewrite Hm.
Qed.
(** A [did:key] is written with letters, digits and colons. *)
Lemma did_key_chars `{!Base58Laws} raw : let did := p256_did_key_from_pubkey raw in
  str_forallb graphic did = true ∧ free_of ";" did = true ∧ unquote did = did.
Proof.
  cbn zeta. unfold p256_did_key_from_pubkey, encode_did_key.
  pose proof (bs58_encode_alnum (P256_PREFIX ++ raw)) as Ha.
  split_and!.
  - rewrite str_forallb_app. cbn [andb]. eapply str_forallb_impl; [apply alnum_graphic|exact Ha].
  - rewrite free_of_app. by apply free_of_alnum.
  - unfold unquote. by destruct (strip_prefix quote _) eqn:E.
Qed.
End proofs.

Section properties.
Context `{P256, Ed25519, Base58, !Base58Laws}.

(** C32: the hint cookie comes back. The [Set-Cookie] value for a passkey
    principal names the cookie and its DID up to the first semicolon; when a
    browser returns that pair among any other cookies, in one header, the hint
    is read back in its place among the hints of the others; and the value that
    deletes the cookie is no hint. *)
Theorem hint_cookie_round_trip p cfg h before after :
  parse_hint (principal_did p) = Some h → Forall cookie_ok before → Forall cookie_ok after →
  let mine := (HINT_COOKIE_NAME, principal_did p) in
  (∃ attributes, split_once ";" (hint_set_cookie p cfg) = Some (cookie_pair mine, attributes)) ∧
  hints_from_cookie_header (cookies (before ++ mine :: after)) =
    omap hint_of_cookie before ++ h :: omap hint_of_cookie after ∧
  split_once ";" (hint_clear_cookie cfg) ≠ None ∧ hint_of_cookie (HINT_COOKIE_NAME, "") = None.
Proof.
  intros Hp Hb Ha mine. pose proof (proj1 (parse_hint_Some _ _) Hp) as (-> & raw & Hr & _).
  destruct (did_key_chars raw) as (Hg & Hf & Hu). rewrite <- Hr in Hg, Hf, Hu.
  assert (cookie_ok mine) as Hm by (split_and!; done).
  assert (∀ v a, ∃ r, cookie_header cfg v a = (HINT_COOKIE_NAME +:+ "=" +:+ v) +:+ String ";" r)
    as Hhead.
  { intros v a. unfold cookie_header.
    destruct (hc_domain cfg) as [dom|]; eexists; rewrite !str_app_assoc;
      do 3 f_equal; reflexivity. }
  split_and!.
  - destruct (Hhead (principal_did p) (hc_max_age_secs cfg)) as [r Hr'].
    exists r. unfold hint_set_cookie. rewrite Hr'. apply split_once_app.
    by apply (cookie_pair_free mine).
  - rewrite hints_of_cookies by (apply Forall_app; split; [done|by constructor]).
    rewrite omap_app. f_equal. cbn [omap list_omap]. unfold hint_of_cookie at 1.
    cbn [mine fst snd]. rewrite String.eqb_refl, Hu, Hp. done.
  - destruct (Hhead "" 0%Z) as [r Hr']. unfold hint_clear_cookie. rewrite Hr'.
    rewrite split_once_app; done.
  - unfold hint_of_cookie. cbn [fst snd]. rewrite String.eqb_refl.
    destruct (parse_hint (unquote "")) as [h'|] eqn:E; [|done].
    apply parse_hint_Some in E as (_ & raw' & E & _). discriminate E.
Qed.
End properties.

Section witnesses.
Import Fixtures.Instances.

Definition passkey_principal : Principal := mk_principal sample_passkey.
Lemma hint_cookie_round_trip_witness :
  hints_from_cookie_header
    (cookies [("sid", "42"); (HINT_COOKIE_NAME, sample_key_did); (HINT_COOKIE_NAME, sample_passkey)])
  = [{| dh_did := sample_passkey |}].
Proof.
  refine (eq_trans (proj1 (proj2 (hint_cookie_round_trip passkey_principal (for_rp_id "example.org")
    {| dh_did := sample_passkey |} [("sid", "42"); (HINT_COOKIE_NAME, sample_key_did)] []
    _ _ _))) _).
  - vm_refl.
  - repeat constructor; vm_refl.
  - constructor.
  - vm_refl.
Defined.
End witnesses.
