(* ===== verification/WebauthnOptions.v ===== *)
(** * Passkey options: src/webauthn_options.rs

    The options are plain data; the random [user.id] is an argument. *)

From S2P Require Import Prelude Crates Fixtures.

Definition PASSKEY_USER_NAME : string := "inblock.io".
Definition COSE_ES256 : Z := -7.
Definition PUBLIC_KEY : string := "public-key".
Definition REQUIRED : string := "required".

Record RelyingPartyJson : Type := { rpj_id : string; rpj_name : string }.
Record UserEntityJson : Type := { ue_id : string; ue_name : string; ue_display_name : string }.
Record CredentialParameterJson : Type := { cp_type : string; cp_alg : Z }.
Record AuthenticatorSelectionJson : Type := {
  as_resident_key : string; as_require_resident_key : bool; as_user_verification : string }.
Record CreationExtensionsJson : Type := { ce_cred_props : bool }.
Record PublicKeyCreationOptionsJson : Type := {
  pc_rp : RelyingPartyJson;
  pc_user : UserEntityJson;
  pc_challenge : string;
  pc_pub_key_cred_params : list CredentialParameterJson;
  pc_authenticator_selection : AuthenticatorSelectionJson;
  pc_attestation : string;
  pc_extensions : CreationExtensionsJson;
}.
Record CreationOptionsJson : Type := { co_public_key : PublicKeyCreationOptionsJson }.
Record CredentialDescriptorJson : Type := { cdj_type : string; cdj_id : string }.
Record PublicKeyRequestOptionsJson : Type := {
  pq_challenge : string;
  pq_rp_id : string;
  pq_allow_credentials : list CredentialDescriptorJson;
  pq_user_verification : string;
}.
Record RequestOptionsJson : Type := { ro_public_key : PublicKeyRequestOptionsJson }.

Section defs.
Context `{Base64}.

Definition creation_options (rp_id rp_name user_name : string) (challenge user_id : bytes)
  : CreationOptionsJson :=
  {| co_public_key := {|
      pc_rp := {| rpj_id := rp_id; rpj_name := rp_name |};
      pc_user := {| ue_id := b64url_encode user_id; ue_name := user_name;
                    ue_display_name := user_name |};
      pc_challenge := b64url_encode challenge;
      pc_pub_key_cred_params := [{| cp_type := PUBLIC_KEY; cp_alg := COSE_ES256 |}];
      pc_authenticator_selection := {| as_resident_key := REQUIRED;
        as_require_resident_key := true; as_user_verification := REQUIRED |};
      pc_attestation := "none";
      pc_extensions := {| ce_cred_props := true |} |} |}.
Definition request_options (rp_id : string) (challenge : bytes) (allow : list bytes)
  : RequestOptionsJson :=
  {| ro_public_key := {|
      pq_challenge := b64url_encode challenge;
      pq_rp_id := rp_id;
      pq_allow_credentials :=
        map (λ id, {| cdj_type := PUBLIC_KEY; cdj_id := b64url_encode id |}) allow;
      pq_user_verification := REQUIRED |} |}.

(** ** The JSON the derived serializers write *)

Definition parameter_to_json (c : CredentialParameterJson) : json :=
  JObject [("type", JString (cp_type c)); ("alg", JNumber (show_Z (cp_alg c)))].
Definition descriptor_to_json (c : CredentialDescriptorJson) : json :=
  JObject [("type", JString (cdj_type c)); ("id", JString (cdj_id c))].
Definition creation_options_to_json (o : CreationOptionsJson) : json :=
  let p := co_public_key o in
  JObject [("publicKey", JObject [
    ("rp", JObject [("id", JString (rpj_id (pc_rp p))); ("name", JString (rpj_name (pc_rp p)))]);
    ("user", JObject [("id", JString (ue_id (pc_user p))); ("name", JString (ue_name (pc_user p)));
                      ("displayName", JString (ue_display_name (pc_user p)))]);
    ("challenge", JString (pc_challenge p));
    ("pubKeyCredParams", JArray (map parameter_to_json (pc_pub_key_cred_params p)));
    ("authenticatorSelection", JObject [
       ("residentKey", JString (as_resident_key (pc_authenticator_selection p)));
       ("requireResidentKey", JBool (as_require_resident_key (pc_authenticator_selection p)));
       ("userVerification", JString (as_user_verification (pc_authenticator_selection p)))]);
    ("attestation", JString (pc_attestation p));
    ("extensions", JObject [("credProps", JBool (ce_cred_props (pc_extensions p)))])])].
(** An empty [allowCredentials] is left out. *)
Definition request_options_to_json (o : RequestOptionsJson) : json :=
  let p := ro_public_key o in
  JObject [("publicKey", JObject (
    [("challenge", JString (pq_challenge p)); ("rpId", JString (pq_rp_id p))]
    ++ match pq_allow_credentials p with
       | [] => []
       | cs => [("allowCredentials", JArray (map descriptor_to_json cs))]
       end
    ++ [("userVerification", JString (pq_user_verification p))]))].

(** ** The derived readers *)

Definition read_text (v : json) : option string := match v with JString s => Some s | _ => None end.
Definition read_bool (v : json) : option bool := match v with JBool b => Some b | _ => None end.
Definition read_all {A} (read : json → option A) (v : json) : option (list A) :=
  match v with JArray l => mapM read l | _ => None end.
(** The fields of a struct, handed to its reader in order. *)
Definition struct2 {A} (a b : string) (f : json → json → option A) (v : json) : option A :=
  match fields_of [a; b] v with Some [x; y] => f x y | _ => None end.
Definition struct3 {A} (a b c : string) (f : json → json → json → option A) (v : json) : option A :=
  match fields_of [a; b; c] v with Some [x; y; z] => f x y z | _ => None end.
Definition struct1 {A} (a : string) (f : json → option A) (v : json) : option A :=
  match fields_of [a] v with Some [x] => f x | _ => None end.

Definition relying_party_of_json : json → option RelyingPartyJson :=
  struct2 "id" "name" (λ id name, id ← read_text id; name ← read_text name;
    Some {| rpj_id := id; rpj_name := name |}).
Definition user_entity_of_json : json → option UserEntityJson :=
  struct3 "id" "name" "displayName" (λ id name display_name,
    id ← read_text id; name ← read_text name; display_name ← read_text display_name;
    Some {| ue_id := id; ue_name := name; ue_display_name := display_name |}).
Definition parameter_of_json : json → option CredentialParameterJson :=
  struct2 "type" "alg" (λ t alg, t ← read_text t; alg ← as_i64_value alg;
    Some {| cp_type := t; cp_alg := alg |}).
Definition selection_of_json : json → option AuthenticatorSelectionJson :=
  struct3 "residentKey" "requireResidentKey" "userVerification" (λ key require uv,
    key ← read_text key; require ← read_bool require; uv ← read_text uv;
    Some {| as_resident_key := key; as_require_resident_key := require;
            as_user_verification := uv |}).
Definition creation_extensions_of_json : json → option CreationExtensionsJson :=
  struct1 "credProps" (λ b, b ← read_bool b; Some {| ce_cred_props := b |}).
Definition public_key_creation_of_json (v : json) : option PublicKeyCreationOptionsJson :=
  match fields_of ["rp"; "user"; "challenge"; "pubKeyCredParams"; "authenticatorSelection";
    "attestation"; "extensions"] v with
  | Some [rp; user; challenge; params; selection; attestation; extensions] =>
      rp ← relying_party_of_json rp; user ← user_entity_of_json user;
      challenge ← read_text challenge; params ← read_all parameter_of_json params;
      selection ← selection_of_json selection; attestation ← read_text attestation;
      extensions ← creation_extensions_of_json extensions;
      Some {| pc_rp := rp; pc_user := user; pc_challenge := challenge;
              pc_pub_key_cred_params := params; pc_authenticator_selection := selection;
              pc_attestation := attestation; pc_extensions := extensions |}
  | _ => None
  end.
Definition creation_options_of_json : json → option CreationOptionsJson :=
  struct1 "publicKey" (λ v, p ← public_key_creation_of_json v; Some {| co_public_key := p |}).

Definition descriptor_of_json : json → option CredentialDescriptorJson :=
  struct2 "type" "id" (λ t id, t ← read_text t; id ← read_text id;
    Some {| cdj_type := t; cdj_id := id |}).
(** [allowCredentials] may be absent from an object. *)
Definition public_key_request_of_json (v : json) : option PublicKeyRequestOptionsJson :=
  let names := ["challenge"; "rpId"; "allowCredentials"; "userVerification"] in
  let v := match v with
    | JObject ms => match members_named "allowCredentials" ms with
        | [] => JObject (("allowCredentials", JArray []) :: ms)
        | _ => v
        end
    | _ => v
    end in
  match fields_of names v with
  | Some [challenge; rp_id; allow; uv] =>
      challenge ← read_text challenge; rp_id ← read_text rp_id;
      allow ← read_all descriptor_of_json allow; uv ← read_text uv;
      Some {| pq_challenge := challenge; pq_rp_id := rp_id; pq_allow_credentials := allow;
              pq_user_verification := uv |}
  | _ => None
  end.
Definition request_options_of_json : json → option RequestOptionsJson :=
  struct1 "publicKey" (λ v, p ← public_key_request_of_json v; Some {| ro_public_key := p |}).
End defs.

(** ** What is written is read back *)

Lemma read_all_map {A} (read : json → option A) (write : A → json) (ok : A → Prop) l :
  (∀ a, ok a → read (write a) = Some a) → Forall ok l →
  read_all read (JArray (map write l)) = Some l.
Proof.
  intros Hr Hl. cbn. induction Hl as [|a l Ha Hl IH]; [done|].
  cbn [map mapM]. rewrite Hr by done. cbn [mbind option_bind]. by rewrite IH.
Qed.
Lemma parameter_json c : (i64_min ≤ cp_alg c ≤ i64_max)%Z →
  parameter_of_json (parameter_to_json c) = Some c.
Proof.
  intros Hc. destruct c as [t alg]. unfold parameter_of_json, struct2. cbn -[as_i64_value].
  by rewrite as_i64_number.
Qed.
Lemma creation_options_json o :
  Forall (λ c, i64_min ≤ cp_alg c ≤ i64_max)%Z (pc_pub_key_cred_params (co_public_key o)) →
  creation_options_of_json (creation_options_to_json o) = Some o.
Proof.
  intros Hp. destruct o as [[[ri rn] [ui un ud] ch ps [rk rr uv] att [cp]]].
  pose proof (read_all_map _ _ _ _ parameter_json Hp) as Hr. revert Hr.
  unfold creation_options_to_json. cbn [co_public_key pc_pub_key_cred_params].
  generalize (map parameter_to_json ps). intros js Hr.
  unfold creation_options_of_json, struct1, public_key_creation_of_json.
  cbn -[read_all]. by rewrite Hr.
Qed.
Lemma request_options_json o :
  request_options_of_json (request_options_to_json o) = Some o.
Proof.
  destruct o as [[ch rp allow uv]].
  unfold request_options_of_json, struct1, public_key_request_of_json.
  assert (read_all descriptor_of_json (JArray (map descriptor_to_json allow)) = Some allow) as Ha.
  { apply (read_all_map _ _ (λ _, True)); [by intros [t i] _|by apply Forall_true]. }
  destruct allow as [|c allow]; [done|]. revert Ha.
  unfold request_options_to_json. cbn [ro_public_key pq_allow_credentials].
  generalize (map descriptor_to_json (c :: allow)). intros js Ha.
  cbn -[read_all]. by rewrite Ha.
Qed.
