(* ===== verification/WebauthnStore.v ===== *)
(** * The credential store: src/webauthn_store.rs

    The trait is a class of fallible operations, its documented contract a
    class of laws over the map a store stands for; the in-memory store is that
    map. A lock guard is never held across a panic, so the poisoned lock of the
    code has no counterpart here. *)

From S2P Require Import Prelude.

Definition CredentialId : Type := bytes.
Record StoredCredential : Type := {
  sc_did : string;
  sc_credential_id : CredentialId;
  sc_public_key : bytes;
  sc_sign_count : Z;
  sc_transports : list string;
  sc_label : option string;
  sc_created_at : Z;
}.
Record NewCredential : Type := {
  nc_did : string;
  nc_credential_id : CredentialId;
  nc_public_key : bytes;
  nc_sign_count : Z;
  nc_transports : list string;
  nc_label : option string;
}.
Inductive WebauthnStoreError : Type := StoreNotFound | StoreBackend (why : string).
Abbreviation credentials := (gmap bytes StoredCredential).

(** [created_at] is stamped by the store. *)
Definition stored (c : NewCredential) (now : Z) : StoredCredential :=
  {| sc_did := nc_did c; sc_credential_id := nc_credential_id c;
     sc_public_key := nc_public_key c; sc_sign_count := nc_sign_count c;
     sc_transports := nc_transports c; sc_label := nc_label c; sc_created_at := now |}.
Definition set_sign_count (c : StoredCredential) (n : Z) : StoredCredential :=
  {| sc_did := sc_did c; sc_credential_id := sc_credential_id c;
     sc_public_key := sc_public_key c; sc_sign_count := n;
     sc_transports := sc_transports c; sc_label := sc_label c;
     sc_created_at := sc_created_at c |}.

(** ** The trait *)

Class WebauthnCredentialBackend := {
  cred_store : Type;
  cb_insert : cred_store → NewCredential → Z → cred_store * result unit WebauthnStoreError;
  cb_list_for_did : cred_store → string → result (list StoredCredential) WebauthnStoreError;
  cb_get_by_id : cred_store → CredentialId → result (option StoredCredential) WebauthnStoreError;
  cb_update_sign_count : cred_store → CredentialId → Z → cred_store * result unit WebauthnStoreError;
  cb_delete : cred_store → string → CredentialId → cred_store * result bool WebauthnStoreError;
}.
(** Its documented contract, which is about the calls that succeed: an insert
    replaces the row of its id; a lookup or a list shows the rows; a count never
    goes backwards; a delete needs the DID. What a failed call may have changed
    is left open, as the trait leaves it. *)
Class WebauthnCredentialLaws `{WebauthnCredentialBackend} := {
  cb_view : cred_store → credentials;
  cb_insert_spec s c now s' : cb_insert s c now = (s', Ok tt) →
    cb_view s' = <[nc_credential_id c := stored c now]> (cb_view s);
  cb_list_spec s did l : cb_list_for_did s did = Ok l →
    l ≡ₚ filter (λ c, sc_did c = did) (map_to_list (cb_view s)).*2;
  cb_get_spec s id o : cb_get_by_id s id = Ok o → o = cb_view s !! id;
  cb_update_spec s id n s' : cb_update_sign_count s id n = (s', Ok tt) →
    ∃ c, cb_view s !! id = Some c ∧
      cb_view s' = <[id := set_sign_count c (Z.max (sc_sign_count c) n)]> (cb_view s);
  cb_delete_spec s did id s' removed : cb_delete s did id = (s', Ok removed) →
    cb_view s' = (if removed then delete id (cb_view s) else cb_view s) ∧
    (removed = true ↔ ∃ c, cb_view s !! id = Some c ∧ sc_did c = did);
}.

(** ** [InMemoryWebauthnStore] *)

Definition mem_cred_insert (m : credentials) (cred : NewCredential) (now : Z)
  : credentials * result unit WebauthnStoreError :=
  (<[nc_credential_id cred := stored cred now]> m, Ok tt).
Definition mem_list_for_did (m : credentials) (did : string)
  : result (list StoredCredential) WebauthnStoreError :=
  Ok (filter (λ c, sc_did c = did) (map_to_list m).*2).
Definition mem_get_by_id (m : credentials) (id : CredentialId)
  : result (option StoredCredential) WebauthnStoreError := Ok (m !! id).
Definition mem_update_sign_count (m : credentials) (id : CredentialId) (new_count : Z)
  : credentials * result unit WebauthnStoreError :=
  match m !! id with
  | None => (m, Err StoreNotFound)
  | Some cred =>
      (if (sc_sign_count cred <? new_count)%Z
       then <[id := set_sign_count cred new_count]> m else m, Ok tt)
  end.
Definition mem_delete (m : credentials) (did : string) (id : CredentialId)
  : credentials * result bool WebauthnStoreError :=
  match m !! id with
  | Some c => if String.eqb (sc_did c) did then (delete id m, Ok true) else (m, Ok false)
  | None => (m, Ok false)
  end.
Definition InMemoryWebauthnStore : WebauthnCredentialBackend := {|
  cred_store := credentials;
  cb_insert := mem_cred_insert;
  cb_list_for_did := mem_list_for_did;
  cb_get_by_id := mem_get_by_id;
  cb_update_sign_count := mem_update_sign_count;
  cb_delete := mem_delete;
|}.
Definition new_webauthn_store : credentials := ∅.

Lemma set_sign_count_same c : set_sign_count c (sc_sign_count c) = c.
Proof. by destruct c. Qed.
Lemma mem_update_row m id n c : m !! id = Some c →
  mem_update_sign_count m id n
    = (<[id := set_sign_count c (Z.max (sc_sign_count c) n)]> m, Ok tt).
Proof.
  intros Hc. unfold mem_update_sign_count. rewrite Hc. destruct (_ <? n)%Z eqn:E; bool_simpl.
  - by rewrite Z.max_r by lia.
  - rewrite Z.max_l, set_sign_count_same by lia. by rewrite insert_id.
Qed.
#[export] Instance in_memory_webauthn_laws : @WebauthnCredentialLaws InMemoryWebauthnStore.
Proof.
  refine {| cb_view := (λ m, m) : @cred_store InMemoryWebauthnStore → credentials |}; cbn.
  - by intros s c now s' [= <-].
  - by intros s did l [= <-].
  - by intros s id o [= <-].
  - intros s id n s' Hu. destruct (s !! id) as [c|] eqn:E.
    + rewrite (mem_update_row _ _ _ c E) in Hu. injection Hu as <-. by exists c.
    + unfold mem_update_sign_count in Hu. by rewrite E in Hu.
  - intros s did id s' removed. unfold mem_delete. destruct (s !! id) as [c|] eqn:E.
    + destruct (String.eqb_spec (sc_did c) did); intros [= <- <-]; split; try done; split;
        naive_solver.
    + intros [= <- <-]. split; [done|]. split; [done|]. by intros (c & [=] & _).
Defined.

(** ** Calls in a row *)

Inductive CredOp : Type :=
| CredInsert (c : NewCredential) (now : Z)
| CredList (did : string)
| CredGet (id : CredentialId)
| CredUpdate (id : CredentialId) (new_count : Z)
| CredDelete (did : string) (id : CredentialId).
Definition mem_step (m : credentials) (op : CredOp) : credentials :=
  match op with
  | CredInsert c now => (mem_cred_insert m c now).1
  | CredList _ | CredGet _ => m
  | CredUpdate id n => (mem_update_sign_count m id n).1
  | CredDelete did id => (mem_delete m did id).1
  end.
Definition mem_run : credentials → list CredOp → credentials := foldl mem_step.
Definition inserts_id (id : CredentialId) (op : CredOp) : bool :=
  match op with CredInsert c _ => bool_decide (nc_credential_id c = id) | _ => false end.

(** What a call may make of the row of a credential it does not insert. *)
Definition same_but_count (c c' : StoredCredential) : Prop :=
  c' = set_sign_count c (sc_sign_count c') ∧ (sc_sign_count c ≤ sc_sign_count c')%Z.
Lemma same_but_count_refl c : same_but_count c c.
Proof. split; [by rewrite set_sign_count_same|done]. Qed.
Lemma same_but_count_trans c c' c'' :
  same_but_count c c' → same_but_count c' c'' → same_but_count c c''.
Proof. intros [H1 ?] [H2 ?]. split; [|lia]. rewrite H2, H1. by destruct c. Qed.

Section proofs.
Implicit Types m : credentials.

Lemma mem_step_row m op id c : m !! id = Some c → inserts_id id op = false →
  (op ≠ CredDelete (sc_did c) id ∧ ∃ c', mem_step m op !! id = Some c' ∧ same_but_count c c' ∧
    ∀ n, op = CredUpdate id n → (n ≤ sc_sign_count c')%Z) ∨
  (op = CredDelete (sc_did c) id ∧ mem_step m op !! id = None).
Proof.
  intros Hc Hi. pose proof (same_but_count_refl c).
  destruct op as [n now|did|i|i n|did i]; cbn [mem_step inserts_id] in *;
    [|by left; split; [|exists c]|by left; split; [|exists c]| |].
  - left. split; [done|]. apply bool_decide_eq_false in Hi. exists c.
    cbn [mem_cred_insert fst]. by rewrite lookup_insert_ne.
  - left. split; [done|].
    destruct (decide (i = id)) as [->|Hne].
    + rewrite (mem_update_row _ _ _ _ Hc). cbn [fst]. rewrite lookup_insert_eq.
      eexists. split; [done|]. split; [split; [done|cbn; lia]|]. intros n' [= <-]. cbn. lia.
    + exists c. split; [|split; [done|congruence]]. destruct (m !! i) as [c1|] eqn:E.
      * rewrite (mem_update_row _ _ _ _ E). cbn [fst]. by rewrite lookup_insert_ne.
      * unfold mem_update_sign_count. by rewrite E.
  - unfold mem_delete.
    destruct (decide (i = id)) as [->|Hne].
    + rewrite Hc. destruct (String.eqb_spec (sc_did c) did) as [<-|Hd]; cbn [fst].
      * right. split; [done|]. apply lookup_delete_eq.
      * left. split; [congruence|]. by exists c.
    + left. split; [congruence|]. exists c. split; [|done].
      destruct (m !! i) as [c1|]; [destruct (String.eqb _ _)|]; cbn [fst]; try done.
      by rewrite lookup_delete_ne.
Qed.
Lemma mem_step_absent m op id : m !! id = None → inserts_id id op = false →
  mem_step m op !! id = None.
Proof.
  intros Hn Hop. destruct op as [n now|did|i|i n|did i]; cbn [mem_step inserts_id] in *; try done.
  - apply bool_decide_eq_false in Hop.
    cbn [mem_cred_insert fst]. by rewrite lookup_insert_ne.
  - destruct (m !! i) as [c1|] eqn:E.
    + rewrite (mem_update_row _ _ _ _ E). cbn [fst]. rewrite lookup_insert_ne; [done|congruence].
    + unfold mem_update_sign_count. by rewrite E.
  - unfold mem_delete.
    destruct (m !! i) as [c1|]; [destruct (String.eqb _ _)|]; cbn [fst]; try done.
    apply lookup_delete_None. by right.
Qed.
Lemma mem_run_absent ops id m : Forall (λ op, inserts_id id op = false) ops →
  m !! id = None → mem_run m ops !! id = None.
Proof.
  intros Hops. revert m. induction Hops as [|op ops Hop _ IH]; intros m Hn; [done|].
  cbn [mem_run foldl]. apply IH. by apply mem_step_absent.
Qed.

(** C28: what protects a credential of the in-memory store. Whatever calls
    follow that do not insert its id again: if none of them deletes it under
    the DID it belongs to, it is still there with nothing but its sign count
    changed, which is no lower than it was and no lower than any update asked
    for; if one does, it is gone. *)
Theorem credential_protected m ops id c :
  m !! id = Some c → Forall (λ op, inserts_id id op = false) ops →
  (CredDelete (sc_did c) id ∉ ops ∧
    ∃ c', mem_run m ops !! id = Some c' ∧ same_but_count c c' ∧
      ∀ n, CredUpdate id n ∈ ops → (n ≤ sc_sign_count c')%Z) ∨
  (CredDelete (sc_did c) id ∈ ops ∧ mem_run m ops !! id = None).
Proof.
  intros Hc Hops. revert m c Hc. induction Hops as [|op ops Hop Hops IH]; intros m c Hc.
  { left. split; [apply not_elem_of_nil|]. exists c. split; [done|].
    split; [apply same_but_count_refl|]. by intros n ?%not_elem_of_nil. }
  cbn [mem_run foldl].
  destruct (mem_step_row m op id c Hc Hop) as [(Hne & c' & Hc' & Hs & Hn)|[-> Hgone]].
  - assert (sc_did c' = sc_did c) as Hd by (destruct Hs as [-> _]; done).
    destruct (IH _ _ Hc') as [(Hno & c'' & Hc'' & Hs' & Hn')|[Hin Hgone]];
      [rewrite Hd in Hno; left|rewrite Hd in Hin; right].
    + split; [by intros [Heq|?]%elem_of_cons; [apply Hne|]|]. exists c''. split; [done|].
      split; [by eapply same_but_count_trans|].
      intros n [<-|Hin]%elem_of_cons; [|by apply Hn'].
      etrans; [by apply Hn|]. by destruct Hs'.
    + split; [apply elem_of_cons; by right|done].
  - right. split; [apply elem_of_cons; by left|]. by apply mem_run_absent.
Qed.
End proofs.

Section witnesses.

Definition sample_credential : NewCredential :=
  {| nc_did := "did:key:zA"; nc_credential_id := [Byte.x01]; nc_public_key := [];
     nc_sign_count := 5; nc_transports := []; nc_label := None |}.
Definition one_credential : credentials :=
  (mem_cred_insert new_webauthn_store sample_credential 100).1.
Definition later_calls : list CredOp :=
  [CredUpdate [Byte.x01] 9; CredUpdate [Byte.x01] 3; CredDelete "did:key:zB" [Byte.x01]].
Lemma credential_protected_witness :
  ∃ c', mem_run one_credential later_calls !! [Byte.x01] = Some c' ∧
    same_but_count (stored sample_credential 100) c' ∧ (9 ≤ sc_sign_count c')%Z.
Proof.
  destruct (credential_protected one_credential later_calls [Byte.x01]
    (stored sample_credential 100)) as [(_ & c' & Hc & Hs & Hn)|[_ Hgone]].
  - vm_refl.
  - repeat constructor.
  - exists c'. split; [exact Hc|]. split; [exact Hs|]. apply Hn. apply list_elem_of_here.
  - exfalso. vm_compute in Hgone. discriminate Hgone.
Defined.
End witnesses.
