(* ===== verification/WebauthnCeremony.v ===== *)
(** * Passkey registration and login over webauthn-rs: src/webauthn_ceremony.rs

    [webauthn_rs] and [uuid] are a class; the ceremony adds the relying-party
    setup, the user handle, the DID a new credential is bound to and the row to
    store. The random challenge and user id are arguments. *)

From S2P Require Import Prelude Crates Fixtures Errors Keys Did Suites Aqua Methods DidFormat WebauthnStore.

(** The public key of a credential: the EC2 case of [COSEKeyType], and the
    text the others are formatted as. *)
Inductive CoseKey : Type :=
| CoseEc2 (p256_curve : bool) (curve_debug : string) (x y : bytes)
| CoseOther (debug : string).
Class WebauthnRs `{Urls} := {
  wa_builder : Type;
  webauthn : Type;
  uuid : Type;
  passkey : Type;
  reg_state : Type;
  auth_state : Type;
  attestation : Type;
  assertion : Type;
  creation_challenge : Type;
  request_challenge : Type;
  wa_new : string → url → result wa_builder string;
  wa_rp_name : wa_builder → string → wa_builder;
  wa_append_allowed_origin : wa_builder → url → wa_builder;
  wa_build : wa_builder → result webauthn string;
  uuid_from_slice : bytes → result uuid string;
  (** [start_*]: the last argument is the randomness drawn inside. *)
  wa_start_registration : webauthn → uuid → string → string → option (list bytes) → bytes →
    result (creation_challenge * reg_state) string;
  wa_finish_registration : webauthn → attestation → reg_state → result passkey string;
  wa_start_authentication : webauthn → list passkey → bytes →
    result (request_challenge * auth_state) string;
  (** The credential id and the counter of the result. *)
  wa_finish_authentication : webauthn → assertion → auth_state → result (bytes * Z) string;
  wa_cred_id : passkey → bytes;
  wa_public_key : passkey → CoseKey;
  (** [serde_json::to_vec] and [from_slice]. *)
  passkey_to_vec : passkey → result bytes string;
  passkey_from_slice : bytes → result passkey string;
}.
Class WebauthnRsLaws `{WebauthnRs} : Prop := {
  passkey_round_trip p b : passkey_to_vec p = Ok b → passkey_from_slice b = Ok p;
  uuid_from_16 b : length b = 16 → ∃ u, uuid_from_slice b = Ok u;
}.

Inductive CeremonyError : Type :=
| CeremonyWebauthn (why : string)
| CeremonyBadRequest (why : string)
| CeremonyInternal (why : string).
(** The trait [WebauthnConfig], with its default lifetimes. *)
Record WebauthnConfig : Type := {
  wc_rp_id : string;
  wc_rp_name : string;
  wc_allowed_origins : list string;
  wc_challenge_ttl_register : Z;
  wc_challenge_ttl_login : Z;
  wc_challenge_ttl_sign : Z;
}.
Definition default_config (rp_id rp_name : string) (origins : list string) : WebauthnConfig :=
  {| wc_rp_id := rp_id; wc_rp_name := rp_name; wc_allowed_origins := origins;
     wc_challenge_ttl_register := 300; wc_challenge_ttl_login := 300;
     wc_challenge_ttl_sign := 60 |}.
Inductive RegisterMode : Type :=
| Anonymous
| SecondFactor (did : string) (existing_credential_ids : list bytes).
Record FinishedRegistration : Type := {
  fr_credential : NewCredential;
  fr_did : string;
  fr_credential_id_hex : string;
}.
Record FinishedLogin : Type := { fl_credential_id : CredentialId; fl_counter : Z }.

Section defs.
Context `{Ed25519, P256, Base58, Hex, Hashes, Urls, !WebauthnRs}.

Record StartedRegistration : Type := {
  sr_options : creation_challenge;
  sr_state : reg_state;
  sr_intended_did : option string;
}.

Definition parse_origin (o : string) : result url CeremonyError :=
  map_err (λ e, CeremonyInternal ("invalid origin " +:+ o +:+ ": " +:+ e)) (url_parse o).
Definition build_webauthn (config : WebauthnConfig) : result webauthn CeremonyError :=
  let? origins := collect parse_origin (wc_allowed_origins config) in
  match origins with
  | [] => Err (CeremonyInternal "allowed_origins must be non-empty")
  | first :: rest =>
      let? builder := map_err (λ e, CeremonyInternal ("webauthn builder: " +:+ e))
        (wa_new (wc_rp_id config) first) in
      let builder := wa_rp_name builder (wc_rp_name config) in
      map_err (λ e, CeremonyInternal ("webauthn build: " +:+ e))
        (wa_build (foldl wa_append_allowed_origin builder rest))
  end.

Definition user_handle_for (did : string) : bytes := sha3_256 (as_bytes did).
Definition did_key_from_p256_compressed (pubkey : bytes) : string :=
  p256_did_key_from_pubkey pubkey.
(** [bytes.last().is_some_and(|b| b & 1 == 1)]. *)
Definition last_is_odd (b : bytes) : bool :=
  match list.last b with Some x => has_flag x 1 | None => false end.
Definition p256_compressed_from_passkey (p : passkey) : result bytes CeremonyError :=
  match wa_public_key p with
  | CoseEc2 p256_curve curve x y =>
      if negb p256_curve then Err (CeremonyBadRequest
        ("credential uses unsupported curve " +:+ curve +:+ " (expected P-256)"))
      else if negb (length x =? 32) then Err (CeremonyInternal
        ("P-256 x-coordinate must be 32 bytes, got " +:+ show_nat (length x)))
      else Ok ((if last_is_odd y then Byte.x03 else Byte.x02) :: x)
  | CoseOther other => Err (CeremonyBadRequest
      ("credential key type " +:+ other +:+ " is not P-256 EC2"))
  end.
Definition p256_compressed_from_passkey_blob (blob : bytes) : result bytes CeremonyError :=
  let? p := map_err (λ e, CeremonyInternal ("deserialize Passkey blob: " +:+ e))
    (passkey_from_slice blob) in
  p256_compressed_from_passkey p.
Definition passkey_from_blob (blob : bytes) : option passkey :=
  match passkey_from_slice blob with Ok p => Some p | Err _ => None end.

(** What a registration is started for: the user, the name, the credentials to
    exclude and the DID it will bind to. *)
Definition register_user (mode : RegisterMode) (new_v4 : uuid)
  : result (uuid * string * option (list bytes) * option string) CeremonyError :=
  match mode with
  | SecondFactor did existing =>
      let? user := map_err (λ e, CeremonyInternal ("uuid from did: " +:+ e))
        (uuid_from_slice (take 16 (user_handle_for did))) in
      Ok (user, did, match existing with [] => None | _ => Some existing end, Some did)
  | Anonymous => Ok (new_v4, "aqua passkey", None, None)
  end.
Definition register_start (w : webauthn) (mode : RegisterMode) (new_v4 : uuid) (entropy : bytes)
  : result StartedRegistration CeremonyError :=
  let? '(user, username, exclude, intended_did) := register_user mode new_v4 in
  let? '(options, state) :=
    map_err (λ e, CeremonyBadRequest ("start_passkey_registration: " +:+ e))
      (wa_start_registration w user username username exclude entropy) in
  Ok {| sr_options := options; sr_state := state; sr_intended_did := intended_did |}.

(** The DID a finished registration is bound to. *)
Definition bound_did (intended_did completing_did : option string) (public_key : bytes)
  : result string CeremonyError :=
  match intended_did with
  | Some intended =>
      if bool_decide (completing_did = Some intended) then Ok intended
      else Err (CeremonyBadRequest "challenge does not belong to the completing caller")
  | None =>
      let? pubkey := p256_compressed_from_passkey_blob public_key in
      Ok (did_key_from_p256_compressed pubkey)
  end.
Definition register_finish (w : webauthn) (att : attestation) (state : reg_state)
    (intended_did completing_did : option string) (label : option string)
  : result FinishedRegistration CeremonyError :=
  let? p := map_err (λ e, CeremonyBadRequest ("finish_passkey_registration: " +:+ e))
    (wa_finish_registration w att state) in
  let credential_id := wa_cred_id p in
  let? public_key := map_err (λ e, CeremonyInternal ("serialize passkey: " +:+ e))
    (passkey_to_vec p) in
  let? did := bound_did intended_did completing_did public_key in
  Ok {| fr_credential := {| nc_did := did; nc_credential_id := credential_id;
          nc_public_key := public_key; nc_sign_count := 0; nc_transports := [];
          nc_label := label |};
        fr_did := did; fr_credential_id_hex := hex_encode credential_id |}.

Definition login_start (w : webauthn) (passkeys : list passkey) (entropy : bytes)
  : result (request_challenge * auth_state) CeremonyError :=
  map_err (λ e, CeremonyBadRequest ("start_passkey_authentication: " +:+ e))
    (wa_start_authentication w passkeys entropy).
Definition login_finish (w : webauthn) (a : assertion) (state : auth_state)
  : result FinishedLogin CeremonyError :=
  let? '(id, counter) := map_err (λ e, CeremonyBadRequest
    ("finish_passkey_authentication: " +:+ e)) (wa_finish_authentication w a state) in
  Ok {| fl_credential_id := id; fl_counter := counter |}.
End defs.

Section proofs.
Context `{Ed25519, P256, K256, MlDsa, Base58, Base64, Hex, Hashes, Features, Urls, !WebauthnRs}.

Lemma p256_compressed_Ok p b : p256_compressed_from_passkey p = Ok b ↔
  ∃ curve x y, wa_public_key p = CoseEc2 true curve x y ∧ length x = 32 ∧
    b = (if last_is_odd y then Byte.x03 else Byte.x02) :: x.
Proof.
  unfold p256_compressed_from_passkey. destruct (wa_public_key p) as [[] c x y|o]; cbn [negb].
  - destruct (Nat.eqb_spec (length x) 32); cbn [negb]; split; naive_solver.
  - split; naive_solver.
  - split; naive_solver.
Qed.
Lemma bound_did_second intended completing pk did :
  bound_did (Some intended) completing pk = Ok did ↔ completing = Some intended ∧ did = intended.
Proof. unfold bound_did. case_bool_decide; split; naive_solver. Qed.

Context `{!WebauthnRsLaws, !HashesLaws, !Base58Laws}.

Lemma bound_did_anonymous p pk completing did : passkey_to_vec p = Ok pk →
  bound_did None completing pk = Ok did ↔
  ∃ b, p256_compressed_from_passkey p = Ok b ∧ did = p256_did_key_from_pubkey b.
Proof.
  intros Hp%passkey_round_trip. unfold bound_did, p256_compressed_from_passkey_blob.
  rewrite Hp. cbn [map_err]. destruct (p256_compressed_from_passkey p); split; naive_solver.
Qed.
(** A second factor is always started under a user handle. *)
Lemma register_user_total mode v4 : ∃ r, register_user mode v4 = Ok r.
Proof.
  destruct mode as [|did ids]; cbn; [eauto|].
  destruct (uuid_from_16 (take 16 (user_handle_for did))) as [u ->]; [|by eexists].
  rewrite length_take. unfold user_handle_for. by rewrite sha3_256_length.
Qed.
End proofs.

Section properties.
Context `{Ed25519, P256, K256, MlDsa, Base58, Base64, Hex, Hashes, Features, Urls, !WebauthnRs}.
Context `{!WebauthnRsLaws, !HashesLaws, !Base58Laws}.

(** C27: what a finished registration binds. Registration ends in a credential
    exactly when webauthn-rs accepts the attestation and the new key can be
    stored, and either the challenge was opened for the DID that completes it,
    or it was opened for none and the key is a P-256 key, whose own [did:key]
    the credential then gets, well-formed whatever the bytes; the row to store
    holds that DID, the id and the key webauthn-rs verified, and a count of
    zero. *)
Theorem registration_binds w att state intended completing label fin :
  register_finish w att state intended completing label = Ok fin ↔
  ∃ p blob did, wa_finish_registration w att state = Ok p ∧ passkey_to_vec p = Ok blob ∧
    match intended with
    | Some d => completing = Some d ∧ did = d
    | None => ∃ curve x y, wa_public_key p = CoseEc2 true curve x y ∧ length x = 32 ∧
        did = p256_did_key_from_pubkey ((if last_is_odd y then Byte.x03 else Byte.x02) :: x) ∧
        validate_did_well_formed did = Ok tt
    end ∧
    fin = {| fr_credential := {| nc_did := did; nc_credential_id := wa_cred_id p;
               nc_public_key := blob; nc_sign_count := 0; nc_transports := [];
               nc_label := label |};
             fr_did := did; fr_credential_id_hex := hex_encode (wa_cred_id p) |}.
Proof.
  unfold register_finish. split.
  - destruct (wa_finish_registration w att state) as [p|]; [|done]. cbn [map_err].
    destruct (passkey_to_vec p) as [blob|] eqn:Eb; [|done]. cbn [map_err].
    destruct (bound_did intended completing blob) as [did|] eqn:Ed; [|done]. intros [= <-].
    exists p, blob, did. do 2 (split; [done|]). split; [|done]. destruct intended as [d|].
    + by apply bound_did_second in Ed.
    + apply (bound_did_anonymous _ _ _ _ Eb) in Ed as (b & Hb & ->).
      apply p256_compressed_Ok in Hb as (c & x & y & Hk & Hx & ->). exists c, x, y.
      do 3 (split; [done|]). apply p256_did_key_well_formed. cbn. by rewrite Hx.
  - intros (p & blob & did & -> & Hb & Hd & ->). cbn [map_err]. rewrite Hb. cbn [map_err].
    assert (bound_did intended completing blob = Ok did) as ->; [|done].
    destruct intended as [d|].
    + by apply bound_did_second.
    + destruct Hd as (c & x & y & Hk & Hx & Hdid & _). apply (bound_did_anonymous p); [done|].
      eexists. split; [|exact Hdid]. apply p256_compressed_Ok. eauto 10.
Qed.
End properties.

Section witnesses.
Import Fixtures.Instances.

(** Two passkeys exist, of which one is a P-256 one. *)
Definition fx_webauthn_rs : WebauthnRs := {|
  wa_builder := unit; webauthn := unit; uuid := bytes; passkey := bool; reg_state := unit;
  auth_state := unit; attestation := bool; assertion := unit; creation_challenge := bytes;
  request_challenge := bytes;
  wa_new := λ _ _, Ok tt; wa_rp_name := λ b _, b; wa_append_allowed_origin := λ b _, b;
  wa_build := λ _, Ok tt; uuid_from_slice := Ok;
  wa_start_registration := λ _ _ _ _ _ e, Ok (e, tt);
  wa_finish_registration := λ _ a _, Ok a;
  wa_start_authentication := λ _ _ e, Ok (e, tt);
  wa_finish_authentication := λ _ _ _, Ok ([Byte.x01], 7%Z);
  wa_cred_id := λ p, [if p then Byte.x01 else Byte.x00];
  wa_public_key := λ p,
    if p then CoseEc2 true "SECP256R1" (replicate 32 Byte.x11) [Byte.x03] else CoseOther "RSA";
  passkey_to_vec := λ p, Ok [if p then Byte.x01 else Byte.x00];
  passkey_from_slice := λ b, match b with
    | [Byte.x00] => Ok false | [Byte.x01] => Ok true | _ => Err "expected value" end;
|}.
#[local] Existing Instance fx_webauthn_rs.
Lemma fx_webauthn_laws : WebauthnRsLaws.
Proof. split; [by intros [] b [= <-]|]. intros b _. by exists b. Qed.
#[local] Existing Instance fx_webauthn_laws.
Definition rp_setup : webauthn := tt.
Definition good_attestation : attestation := true.
Definition opened : reg_state := tt.
Definition new_passkey : passkey := true.
Definition registered_did : string :=
  p256_did_key_from_pubkey (Byte.x03 :: replicate 32 Byte.x11).
Lemma registration_binds_witness :
  register_finish rp_setup good_attestation opened None None (Some "laptop") = Ok {|
    fr_credential := {| nc_did := registered_did; nc_credential_id := [Byte.x01];
      nc_public_key := [Byte.x01]; nc_sign_count := 0; nc_transports := [];
      nc_label := Some "laptop" |};
    fr_did := registered_did; fr_credential_id_hex := "01" |}.
Proof.
  apply (registration_binds rp_setup good_attestation opened None None (Some "laptop")).
  exists new_passkey, [Byte.x01], registered_did. split; [reflexivity|]. split; [reflexivity|].
  split; [|vm_refl]. exists "SECP256R1", (replicate 32 Byte.x11), [Byte.x03].
  split; [reflexivity|]. split; [reflexivity|]. split; [reflexivity|].
  apply p256_did_key_well_formed. reflexivity.
Defined.
End witnesses.
