(* ===== verification/Directory.v ===== *)
(** * Key advertisement: the crate aqua-auth-directory

    The registry of advertised keys (lib.rs), the RFC 7638 thumbprint
    (thumbprint.rs) and the two well-known documents (render.rs). A document
    body is the JSON value the derived serializers walk; [serde_json] turns it
    into text. *)

From S2P Require Import Prelude Crates Fixtures Errors Keys.

Definition CRV_ED25519 : string := "Ed25519".
Definition WELL_KNOWN_HTTP_MESSAGE_SIGNATURES : string :=
  "/.well-known/http-message-signatures-directory".
Definition WELL_KNOWN_AQUA_IDENTITY : string := "/.well-known/aqua-identity".
Definition MEDIA_TYPE_DIRECTORY : string :=
  "application/http-message-signatures-directory+json".
Definition MEDIA_TYPE_JSON : string := "application/json".
Definition MIN_CACHE_SECONDS : Z := 60.

Inductive DirectoryError : Type :=
| InvalidWindow (nbf exp : Z)
| UnsupportedDid (why : string)
| Serialization (why : string).
Record AdvertisedKey : Type := { ak_did : string; ak_nbf : Z; ak_exp : Z }.
Record KeyRegistry : Type := { kr_keys : list AdvertisedKey }.
Definition new_registry : KeyRegistry := {| kr_keys := [] |}.

Record DirectoryDocument : Type := {
  doc_path : string;
  doc_content_type : string;
  doc_cache_control : string;
  doc_body : string;
}.
Record Jwk : Type := {
  jwk_kty : string; jwk_crv : string; jwk_kid : string; jwk_x : string;
  jwk_use : string; jwk_nbf : Z; jwk_exp : Z }.
Record AquaKey : Type := { aqk_did : string; aqk_thumbprint : string; aqk_nbf : Z; aqk_exp : Z }.
Record AquaIdentity : Type := { ai_version : Z; ai_dids : list string; ai_keys : list AquaKey }.

Definition is_active_at (k : AdvertisedKey) (now : Z) : bool :=
  (ak_nbf k <=? now)%Z && (now <? ak_exp k)%Z.
Definition active (r : KeyRegistry) (now : Z) : list AdvertisedKey :=
  List.filter (λ k, is_active_at k now) (kr_keys r).

(** [iter().min()]. *)
Fixpoint least (l : list Z) : option Z :=
  match l with
  | [] => None
  | x :: l => Some (match least l with Some m => Z.min x m | None => x end)
  end.
Definition cache_seconds (keys : list AdvertisedKey) (now : Z) : Z :=
  Z.max (default 0%Z (least (map (λ k, saturating_sub_u64 (ak_exp k) now) keys))) MIN_CACHE_SECONDS.

(** The members the derived serializers write, in their order. *)
Definition jwk_to_json (k : Jwk) : json :=
  JObject [("kty", JString (jwk_kty k)); ("crv", JString (jwk_crv k));
    ("kid", JString (jwk_kid k)); ("x", JString (jwk_x k)); ("use", JString (jwk_use k));
    ("nbf", JNumber (show_Z (jwk_nbf k))); ("exp", JNumber (show_Z (jwk_exp k)))].
Definition jwks_to_json (keys : list Jwk) : json :=
  JObject [("keys", JArray (map jwk_to_json keys))].
Definition aqua_key_to_json (k : AquaKey) : json :=
  JObject [("did", JString (aqk_did k)); ("thumbprint", JString (aqk_thumbprint k));
    ("nbf", JNumber (show_Z (aqk_nbf k))); ("exp", JNumber (show_Z (aqk_exp k)))].
Definition aqua_identity_to_json (i : AquaIdentity) : json :=
  JObject [("version", JNumber (show_Z (ai_version i)));
    ("dids", JArray (map JString (ai_dids i)));
    ("keys", JArray (map aqua_key_to_json (ai_keys i)))].

Section defs.
Context `{Ed25519, P256, Base58, Base64, Hashes, JsonWrite}.

Definition canonical_okp_jwk (crv x_b64url : string) : string :=
  "{" +:+ quoted "crv" +:+ ":" +:+ quoted crv +:+ "," +:+ quoted "kty" +:+ ":" +:+ quoted "OKP"
  +:+ "," +:+ quoted "x" +:+ ":" +:+ quoted x_b64url +:+ "}".
Definition okp_thumbprint (crv x_b64url : string) : string :=
  b64url_encode (sha256 (as_bytes (canonical_okp_jwk crv x_b64url))).

Definition x_b64url (k : AdvertisedKey) : result string DirectoryError :=
  let? raw := map_err (λ e, UnsupportedDid (crypto_error_display e))
    (ed25519_pubkey_from_did_key (ak_did k)) in
  Ok (b64url_encode raw).
Definition thumbprint (k : AdvertisedKey) : result string DirectoryError :=
  let? x := x_b64url k in Ok (okp_thumbprint CRV_ED25519 x).

(** The registry after the call, and its result. *)
Definition add (r : KeyRegistry) (key : AdvertisedKey)
  : KeyRegistry * result unit DirectoryError :=
  if (ak_exp key <=? ak_nbf key)%Z then (r, Err (InvalidWindow (ak_nbf key) (ak_exp key)))
  else
    match map_err (λ e, UnsupportedDid (crypto_error_display e))
      (ed25519_pubkey_from_did_key (ak_did key)) with
    | Err e => (r, Err e)
    | Ok _ => ({| kr_keys := kr_keys r ++ [key] |}, Ok tt)
    end.

Definition serialize (v : json) : result string DirectoryError :=
  map_err Serialization (json_to_string v).
Definition jwk_of (k : AdvertisedKey) : result Jwk DirectoryError :=
  let? x := x_b64url k in
  Ok {| jwk_kty := "OKP"; jwk_crv := CRV_ED25519; jwk_kid := okp_thumbprint CRV_ED25519 x;
        jwk_x := x; jwk_use := "sig"; jwk_nbf := ak_nbf k; jwk_exp := ak_exp k |}.
Definition aqua_key_of (k : AdvertisedKey) : result AquaKey DirectoryError :=
  let? t := thumbprint k in
  Ok {| aqk_did := ak_did k; aqk_thumbprint := t; aqk_nbf := ak_nbf k; aqk_exp := ak_exp k |}.
Definition render_jwks (registry : KeyRegistry) (now : Z)
  : result DirectoryDocument DirectoryError :=
  let live := active registry now in
  let? keys := collect jwk_of live in
  let? body := serialize (jwks_to_json keys) in
  Ok {| doc_path := WELL_KNOWN_HTTP_MESSAGE_SIGNATURES;
        doc_content_type := MEDIA_TYPE_DIRECTORY;
        doc_cache_control := "max-age=" +:+ show_Z (cache_seconds live now);
        doc_body := body |}.
Definition render_aqua_identity (registry : KeyRegistry) (now : Z)
  : result DirectoryDocument DirectoryError :=
  let live := active registry now in
  let? keys := collect aqua_key_of live in
  let? body := serialize (aqua_identity_to_json
    {| ai_version := 1; ai_dids := map ak_did live; ai_keys := keys |}) in
  Ok {| doc_path := WELL_KNOWN_AQUA_IDENTITY; doc_content_type := MEDIA_TYPE_JSON;
        doc_cache_control := "max-age=" +:+ show_Z (cache_seconds live now);
        doc_body := body |}.

(** A registry filled through [add], refused keys included. *)
Definition add_all (r : KeyRegistry) (keys : list AdvertisedKey) : KeyRegistry :=
  foldl (λ r k, (add r k).1) r keys.
(** What [add] lets in. *)
Definition advertisable (k : AdvertisedKey) : Prop :=
  (ak_nbf k < ak_exp k)%Z ∧ ∃ raw, ed25519_pubkey_from_did_key (ak_did k) = Ok raw.
End defs.

Section proofs.
Context `{Ed25519, P256, Base58, Base64, Hashes, JsonWrite}.

Lemma least_le l m x : least l = Some m → x ∈ l → (m ≤ x)%Z.
Proof.
  revert m. induction l as [|y l IH]; intros m Hm Hx; [by apply not_elem_of_nil in Hx|].
  cbn in Hm. injection Hm as <-.
  apply elem_of_cons in Hx as [->|Hx]; [destruct (least l); lia|].
  destruct (least l) as [m'|] eqn:E; [specialize (IH m' eq_refl Hx); lia|].
  destruct l; [by apply not_elem_of_nil in Hx|done].
Qed.
(** The cache never outlives a live key, but for the floor. *)
Lemma cache_seconds_spec keys now :
  (60 ≤ cache_seconds keys now)%Z ∧
  ∀ k, k ∈ keys → (now < ak_exp k)%Z →
    cache_seconds keys now = 60%Z ∨ (now + cache_seconds keys now ≤ ak_exp k)%Z.
Proof.
  unfold cache_seconds, saturating_sub_u64, MIN_CACHE_SECONDS. split; [lia|]. intros k Hk Hexp.
  destruct (least _) as [m|] eqn:E; cbn [default from_option]; unfold id; [|by left].
  assert (m ≤ Z.max 0 (ak_exp k - now))%Z.
  { apply (least_le _ _ _ E). apply list_elem_of_In, in_map_iff. exists k.
    split; [done|]. by apply list_elem_of_In. }
  destruct (decide (m ≤ 60)%Z); [left|right]; lia.
Qed.
Lemma is_active_at_spec k now : is_active_at k now = true ↔ (ak_nbf k ≤ now < ak_exp k)%Z.
Proof. unfold is_active_at. rewrite andb_true_iff, Z.leb_le, Z.ltb_lt. done. Qed.
Lemma add_spec r k : add r k =
  if decide (ak_nbf k < ak_exp k)%Z then
    match ed25519_pubkey_from_did_key (ak_did k) with
    | Ok _ => ({| kr_keys := kr_keys r ++ [k] |}, Ok tt)
    | Err e => (r, Err (UnsupportedDid (crypto_error_display e)))
    end
  else (r, Err (InvalidWindow (ak_nbf k) (ak_exp k))).
Proof.
  unfold add. destruct (_ <=? _)%Z eqn:E; bool_simpl; case_decide; try lia; [done|].
  by destruct (ed25519_pubkey_from_did_key (ak_did k)).
Qed.
Lemma add_elem r a k :
  k ∈ kr_keys (add r a).1 ↔ k ∈ kr_keys r ∨ (k = a ∧ advertisable a).
Proof.
  rewrite add_spec. unfold advertisable. case_decide as Hw.
  - destruct (ed25519_pubkey_from_did_key (ak_did a)) as [raw|e]; cbn [fst kr_keys].
    + rewrite elem_of_app, list_elem_of_singleton. split; [|tauto].
      intros [?|?]; [by left|right]. eauto.
    + split; [by left|]. by intros [?|(_ & _ & raw & [=])].
  - split; [by left|]. by intros [?|(_ & ? & _)].
Qed.
Lemma add_all_elem keys r k : k ∈ kr_keys (add_all r keys) ↔
  k ∈ kr_keys r ∨ (k ∈ keys ∧ advertisable k).
Proof.
  revert r. induction keys as [|a keys IH]; intros r; cbn.
  { split; [by left|]. by intros [?|[[]%not_elem_of_nil _]]. }
  unfold add_all in IH. rewrite IH, add_elem, elem_of_cons. split.
  - intros [[?|[-> ?]]|[? ?]]; auto.
  - intros [?|[[->|?] ?]]; auto.
Qed.

Context `{!Base64Laws, !Base58Laws}.

(** What one live key contributes to the two documents. *)
Definition same_key (j : Jwk) (a : AquaKey) : Prop :=
  jwk_kid j = aqk_thumbprint a ∧ jwk_nbf j = aqk_nbf a ∧ jwk_exp j = aqk_exp a ∧
  ∃ raw, b64url_decode_no_pad (jwk_x j) = Ok raw ∧ length raw = 32 ∧
    aqk_did a = ed25519_did_key_from_pubkey raw ∧
    jwk_kid j = okp_thumbprint (jwk_crv j) (jwk_x j).
Lemma views_of_key k : advertisable k →
  ∃ j a, jwk_of k = Ok j ∧ aqua_key_of k = Ok a ∧ aqk_did a = ak_did k ∧ same_key j a.
Proof.
  intros [_ [raw Hr]]. unfold jwk_of, aqua_key_of, thumbprint, x_b64url. rewrite Hr. cbn [map_err].
  eexists _, _. split; [done|]. split; [done|]. split; [done|].
  unfold same_key. cbn. do 3 (split; [done|]). exists raw.
  split; [apply b64url_no_pad_encode|]. by apply ed25519_did_key_inverse in Hr as (-> & ? & _).
Qed.
Lemma collect_views keys : Forall advertisable keys →
  ∃ js ks, collect jwk_of keys = Ok js ∧ collect aqua_key_of keys = Ok ks ∧
    map aqk_did ks = map ak_did keys ∧ Forall2 same_key js ks.
Proof.
  induction 1 as [|k keys Hk _ (js & ks & Hj & Ha & Hd & Hs)]; [by exists [], []|].
  destruct (views_of_key k Hk) as (j & a & Hj1 & Ha1 & Hd1 & Hs1).
  exists (j :: js), (a :: ks). cbn. rewrite Hj1, Ha1, Hj, Ha, Hd1, Hd.
  do 3 (split; [done|]). by constructor.
Qed.
Lemma serialized v (mk : string → DirectoryDocument) :
  (∀ b, doc_body (mk b) = b) → ∀ x, x = (let? b := serialize v in Ok (mk b)) →
  (∀ d, x = Ok d → json_to_string v = Ok (doc_body d)) ∧
  (∀ e, x = Err e → ∃ w why, json_to_string w = Err why ∧ e = Serialization why).
Proof.
  intros Hmk x ->. unfold serialize. destruct (json_to_string v) as [b|why] eqn:E; cbn [map_err].
  - split; [|done]. intros d [= <-]. by rewrite Hmk.
  - split; [done|]. intros e [= <-]. eauto.
Qed.
End proofs.

Section properties.
Context `{Ed25519, P256, Base58, Base64, Hashes, JsonWrite, !Base64Laws, !Base58Laws}.

(** The two directory documents tell the same truth. Of a registry filled
    through [add], the live keys are exactly the advertisable ones offered
    whose half-open window holds now; rendering either view of them can only
    fail in the serializer; the two views list the same keys under the same
    thumbprints and windows, the JWK's [x] being the key of the DID; and no
    listed key expires before the cache does, unless the cache is at its floor
    of a minute. *)
Theorem directory_views_agree offered now :
  let r := add_all new_registry offered in
  (∀ k, k ∈ active r now ↔
    k ∈ offered ∧ advertisable k ∧ (ak_nbf k ≤ now < ak_exp k)%Z) ∧
  (∃ js ks, Forall2 same_key js ks ∧ map aqk_did ks = map ak_did (active r now) ∧
    (∀ d, render_jwks r now = Ok d → json_to_string (jwks_to_json js) = Ok (doc_body d)) ∧
    (∀ d, render_aqua_identity r now = Ok d → json_to_string (aqua_identity_to_json
      {| ai_version := 1; ai_dids := map aqk_did ks; ai_keys := ks |}) = Ok (doc_body d)) ∧
    (∀ e, render_jwks r now = Err e ∨ render_aqua_identity r now = Err e →
      ∃ v why, json_to_string v = Err why ∧ e = Serialization why)) ∧
  (60 ≤ cache_seconds (active r now) now)%Z ∧
  ∀ k, k ∈ active r now → cache_seconds (active r now) now = 60%Z ∨
    (now + cache_seconds (active r now) now ≤ ak_exp k)%Z.
Proof.
  intros r.
  assert (∀ k, k ∈ active r now ↔
    k ∈ offered ∧ advertisable k ∧ (ak_nbf k ≤ now < ak_exp k)%Z) as Hactive.
  { intros k. unfold active, r. rewrite list_elem_of_In, filter_In, <- list_elem_of_In.
    rewrite add_all_elem, is_active_at_spec. cbn.
    split; [intros [[[]%not_elem_of_nil|[? ?]] ?]; done|]. naive_solver. }
  split; [done|]. split.
  - destruct (collect_views (active r now)) as (js & ks & Hj & Ha & Hd & Hs).
    { apply list.Forall_forall. by intros k (_ & ? & _)%Hactive. }
    exists js, ks. split; [done|]. split; [done|].
    unfold render_jwks, render_aqua_identity. rewrite Hj, Ha, Hd.
    edestruct (serialized (jwks_to_json js)) as [Hj1 Hj2]; [|done|].
    2: edestruct serialized as [Ha1 Ha2]; [|done|]; [|split; [exact Hj1|]; split; [exact Ha1|]];
      [|intros e [?|?]; eauto]. all: done.
  - destruct (cache_seconds_spec (active r now) now) as [? Hc]. split; [done|].
    intros k Hk. apply (Hc k Hk). apply Hactive in Hk. lia.
Qed.
End properties.

Section witnesses.
Import Fixtures.Instances.

(** A key, and one whose window is empty. *)
Definition offered_keys : list AdvertisedKey :=
  [{| ak_did := sample_key_did; ak_nbf := 100; ak_exp := 10000 |};
   {| ak_did := sample_key_did; ak_nbf := 100; ak_exp := 100 |}].
Lemma directory_views_agree_witness :
  let r := add_all new_registry offered_keys in
  (60 ≤ cache_seconds (active r 1000) 1000)%Z ∧
  ∃ js ks, Forall2 same_key js ks ∧ map aqk_did ks = map ak_did (active r 1000) ∧
    map aqk_did ks = [sample_key_did].
Proof.
  destruct (directory_views_agree offered_keys 1000) as (_ & (js & ks & Hs & Hd & _) & Hc & _).
  cbn zeta. split; [exact Hc|]. exists js, ks. split; [exact Hs|]. split; [exact Hd|].
  rewrite Hd. vm_refl.
Defined.
End witnesses.
