(* ===== verification/LocalKey.v ===== *)
(** * Signers over a key of this process: src/local_key.rs

    The signing half of the curve crates is a class of its own; its laws are
    that a verifying key is a well-formed public key and that a key's own
    signatures, read in the encoding they were written in, verify under it. The
    verifiers of this program try another encoding first, DER: [read_back] is
    what they make of a signature. *)

From S2P Require Import Prelude Crates Fixtures Errors Keys Did Suites Aqua Methods DidFormat Principal Signer.

(** ** [SigningKey] of [ed25519_dalek] and [p256], and reading a file *)

Class SigningKeys `{Ed25519, P256, World} := {
  ed_signing : Type;
  p256_signing : Type;
  ed_from_pkcs8_pem : string → result ed_signing string;
  p256_from_pkcs8_pem : string → result p256_signing string;
  (** [verifying_key().to_bytes()] and [verifying_key()]. *)
  ed_public_bytes : ed_signing → bytes;
  p256_verifying : p256_signing → p256_key;
  (** [sign(..).to_bytes()], 64 bytes each. *)
  ed_sign : ed_signing → bytes → bytes;
  p256_sign : p256_signing → bytes → bytes;
  (** [std::fs::read_to_string]. *)
  read_to_string : world → string → result string string;
}.
Class SigningKeysLaws `{SigningKeys} : Prop := {
  ed_public_strict k : length (ed_public_bytes k) = 32 ∧
    ∃ vk, strict_key_spec (ed_public_bytes k) vk ∧
    ∀ m, length (ed_sign k m) = 64 ∧ ∃ s, ed_sig_from_slice (ed_sign k m) = Ok s ∧
      ed_verify_strict vk m s = true;
  p256_public_point k : ∃ point, p256_point_from_bytes (p256_compressed (p256_verifying k)) = Ok point ∧
    p256_key_from_point point = Ok (p256_verifying k);
  (** [from_slice] reads back what [to_bytes] wrote. *)
  p256_sign_verifies k m : ∃ s, p256_sig_from_slice (p256_sign k m) = Ok s ∧
    p256_verify (p256_verifying k) m s = true;
}.

Inductive LocalKeyError : Type :=
| Io (path source : string)
| Pkcs8 (curve detail : string).

Definition local_key_error_display (e : LocalKeyError) : string :=
  match e with
  | Io path source => "read key file " +:+ path +:+ ": " +:+ source
  | Pkcs8 curve detail => "not a PKCS#8 " +:+ curve +:+ " private key: " +:+ detail
  end.

Section defs.
Context `{Ed25519, P256, Base58, World, !SigningKeys}.

Inductive Key : Type := KEd25519 (k : ed_signing) | KP256 (k : p256_signing).
Record LocalKeySigner : Type := { lk_key : Key; lk_did : string }.

(** Whether a verifier accepts what a key signs: it reads a P-256 signature as
    DER if it can. *)
Definition read_back (key : Key) (m : string) : bool :=
  match key with
  | KEd25519 _ => true
  | KP256 k =>
      match p256_sig_from_der (p256_sign k (as_bytes m)) with
      | Ok s => p256_verify (p256_verifying k) (as_bytes m) s
      | Err _ => true
      end
  end.

Definition ed25519_from_pem (pem : string) : result LocalKeySigner LocalKeyError :=
  let? key := map_err (Pkcs8 "Ed25519") (ed_from_pkcs8_pem pem) in
  Ok {| lk_key := KEd25519 key; lk_did := ed25519_did_key_from_pubkey (ed_public_bytes key) |}.
Definition p256_from_pem (pem : string) : result LocalKeySigner LocalKeyError :=
  let? key := map_err (Pkcs8 "P-256") (p256_from_pkcs8_pem pem) in
  Ok {| lk_key := KP256 key;
        lk_did := p256_did_key_from_pubkey (p256_compressed (p256_verifying key)) |}.
Definition read_pem (w : world) (path : string) : result string LocalKeyError :=
  map_err (Io path) (read_to_string w path).
Definition ed25519_from_pem_file (w : world) (path : string)
  : result LocalKeySigner LocalKeyError :=
  let? pem := read_pem w path in ed25519_from_pem pem.
Definition p256_from_pem_file (w : world) (path : string)
  : result LocalKeySigner LocalKeyError :=
  let? pem := read_pem w path in p256_from_pem pem.

(** Formatting shows the DID and the curve only. *)
Definition local_key_debug (s : LocalKeySigner) : string :=
  "LocalKeySigner { did: " +:+ debug_str (lk_did s) +:+ ", curve: "
  +:+ quoted (match lk_key s with KEd25519 _ => "Ed25519" | KP256 _ => "P-256" end)
  +:+ ", key: " +:+ quoted "<redacted>" +:+ " }".

Definition local_sign (s : LocalKeySigner) (message : string) : bytes :=
  match lk_key s with
  | KEd25519 k => ed_sign k (as_bytes message)
  | KP256 k => p256_sign k (as_bytes message)
  end.
(** [impl Signer]: signing neither waits nor fails, and no public key is sent. *)
Definition local_signer (s : LocalKeySigner) : Signer :=
  {| signer_did := lk_did s; sg_sign := λ w message, (w, Ok (local_sign s message));
     sg_public_key := None |}.

(** The signer a key makes. *)
Definition key_signer (k : Key) : LocalKeySigner :=
  {| lk_key := k;
     lk_did := match k with
       | KEd25519 k => ed25519_did_key_from_pubkey (ed_public_bytes k)
       | KP256 k => p256_did_key_from_pubkey (p256_compressed (p256_verifying k))
       end |}.
(** The signers the loaders make. *)
Definition loaded (s : LocalKeySigner) : Prop :=
  (∃ pem, ed25519_from_pem pem = Ok s) ∨ (∃ pem, p256_from_pem pem = Ok s).
End defs.

Section proofs.
Context `{Ed25519, P256, K256, MlDsa, Base58, Base64, Hex, Hashes, Features, World, !SigningKeys}.

Lemma loaded_cases s : loaded s → ∃ k, s = key_signer k.
Proof.
  intros [[pem Hp]|[pem Hp]].
  - unfold ed25519_from_pem in Hp. destruct (ed_from_pkcs8_pem pem) as [k|]; [|done].
    injection Hp as <-. by exists (KEd25519 k).
  - unfold p256_from_pem in Hp. destruct (p256_from_pkcs8_pem pem) as [k|]; [|done].
    injection Hp as <-. by exists (KP256 k).
Qed.
(** A loaded file is a loaded key; a failed one says which path. *)
Lemma from_file_cases w path s :
  ed25519_from_pem_file w path = Ok s ∨ p256_from_pem_file w path = Ok s → loaded s.
Proof.
  unfold ed25519_from_pem_file, p256_from_pem_file, read_pem.
  destruct (read_to_string w path) as [pem|]; cbn [map_err]; intros [?|?]; try done;
    [left|right]; eauto.
Qed.

Context `{!Base58Laws, !P256Laws, !SigningKeysLaws}.

(** The two verification entry points, on a [did:key]. *)
Lemma did_key_multibase z k : decode_multibase_key z = Ok k →
  (match k with KeyEd25519 raw => length raw = 32 | KeyP256 raw => length raw = 33 end) →
  validate_did_well_formed ("did:key:" +:+ ("z" +:+ z)) = Ok tt ∧
  (∀ m s pk, verify_caip122_with_public_key ("did:key:" +:+ ("z" +:+ z)) m s pk
    = verify_with_key k m s).
Proof.
  intros Hd Hl. unfold validate_did_well_formed, verify_caip122_with_public_key.
  rewrite find_did_method_key. cbn [ok_or dm_method_name KeyMethod String.eqb Ascii.eqb Bool.eqb].
  assert (strip_prefix "did:key:z" ("did:key:" +:+ ("z" +:+ z)) = Some z) as Hz
    by exact (strip_prefix_app "did:key:z" z).
  split.
  - rewrite Hz. cbn [ok_or]. unfold validate_multibase_key_body. rewrite Hd.
    unfold ED25519_PUBKEY_BYTES, P256_COMPRESSED_PUBKEY_BYTES.
    by destruct k; rewrite Hl.
  - intros m s pk. change (dm_verify_with_public_key KeyMethod ?d m s pk) with (key_verify d m s).
    unfold key_verify, key_z_body. rewrite Hz. cbn [ok_or]. by rewrite Hd.
Qed.
(** A P-256 signature read back by a verifier. *)
Lemma p256_read_back k m : ∃ s, p256_sig_any (p256_sign k (as_bytes m)) = Ok s ∧
  p256_verify (p256_verifying k) (as_bytes m) s = read_back (KP256 k) m.
Proof.
  unfold p256_sig_any. cbn [read_back].
  destruct (p256_sig_from_der _) as [s|e]; [by exists s|apply p256_sign_verifies].
Qed.
Lemma key_did_decodes key : let s := key_signer key in
  ∃ z k, lk_did s = "did:key:" +:+ ("z" +:+ z) ∧ decode_multibase_key z = Ok k ∧
    (match k with KeyEd25519 raw => length raw = 32 | KeyP256 raw => length raw = 33 end) ∧
    ∀ m, verify_with_key k m (local_sign s m) = Ok (read_back key m).
Proof.
  destruct key as [k|k]; cbn [lk_did key_signer].
  - destruct (ed_public_strict k) as (Hl & vk & Hs & Hsign).
    exists (bs58_encode (ED25519_PREFIX ++ ed_public_bytes k)), (KeyEd25519 (ed_public_bytes k)).
    apply strict_verifying_key_Ok in Hs as Hk.
    split; [done|]. split; [by eapply decode_multibase_ed25519|]. split; [done|].
    intros m. cbn [verify_with_key local_sign lk_key key_signer]. rewrite Hl. cbn [Nat.eqb negb]. rewrite Hk.
    destruct (Hsign (as_bytes m)) as (Hl64 & s & Hsl & Hv).
    unfold local_sign. cbn [lk_key key_signer]. rewrite Hl64. cbn [Nat.eqb negb]. rewrite Hsl.
    cbn [map_err]. by rewrite Hv.
  - exists (bs58_encode (P256_PREFIX ++ p256_compressed (p256_verifying k))),
      (KeyP256 (p256_compressed (p256_verifying k))).
    split; [done|]. split; [apply decode_multibase_p256|]. split; [apply p256_compressed_length|].
    intros m. destruct (p256_public_point k) as (pt & Hpt & Hk).
    destruct (p256_read_back k m) as (s & Hs & Hv).
    cbn [verify_with_key]. unfold local_sign. cbn [lk_key key_signer]. rewrite Hpt. cbn [map_err].
    rewrite Hk. cbn [map_err]. rewrite Hs. cbn [map_err]. by rewrite Hv.
Qed.
Lemma loaded_did_decodes s : loaded s →
  ∃ z k, lk_did s = "did:key:" +:+ ("z" +:+ z) ∧ decode_multibase_key z = Ok k ∧
    (match k with KeyEd25519 raw => length raw = 32 | KeyP256 raw => length raw = 33 end) ∧
    ∀ m, verify_with_key k m (local_sign s m) = Ok (read_back (lk_key s) m).
Proof. intros [k ->]%loaded_cases. apply key_did_decodes. Qed.
(** What verifying, for the DID a key advertises, makes of what the key signs. *)
Lemma key_signer_verifies k m pk :
  validate_did_well_formed (lk_did (key_signer k)) = Ok tt ∧
  verify_caip122_with_public_key (lk_did (key_signer k)) m (local_sign (key_signer k) m) pk
    = Ok (read_back k m).
Proof.
  destruct (key_did_decodes k) as (z & key & Hd & Hk & Hl & Hv). cbv zeta in *. rewrite Hd.
  destruct (did_key_multibase z key Hk Hl) as [? Heq]. split; [done|]. by rewrite Heq.
Qed.
Lemma loaded_verifies s m pk : loaded s →
  validate_did_well_formed (lk_did s) = Ok tt ∧
  verify_caip122_with_public_key (lk_did s) m (local_sign s m) pk = Ok (read_back (lk_key s) m).
Proof. intros [k ->]%loaded_cases. apply key_signer_verifies. Qed.
End proofs.

(** ** Concrete signing keys *)

Section toy.
Import Fixtures.Instances.

Record toy_ed_signing : Type := {
  es_public : bytes;
  es_ok : is_ok (strict_verifying_key es_public) = true;
}.
Record toy_p256_signing : Type := {
  ps_x : bytes;
  ps_ok : (length (Byte.x02 :: ps_x) =? 33) = true;
}.
Definition toy_p256_public (k : toy_p256_signing) : toy_key :=
  {| key_bytes := Byte.x02 :: ps_x k; key_len := ps_ok k |}.
Lemma sample_ed_ok : is_ok (strict_verifying_key sample_ed_key) = true.
Proof. vm_refl. Qed.
Definition sample_ed_signing : toy_ed_signing := {| es_public := sample_ed_key; es_ok := sample_ed_ok |}.
Lemma sample_p256_ok : (length (Byte.x02 :: replicate 32 Byte.x11) =? 33) = true.
Proof. vm_refl. Qed.
Definition sample_p256_signing : toy_p256_signing :=
  {| ps_x := replicate 32 Byte.x11; ps_ok := sample_p256_ok |}.
(** Two known PEM texts, one known file. *)
Definition fx_signing_keys `{World} : @SigningKeys fx_ed25519 fx_p256 _ := {|
  ed_signing := toy_ed_signing; p256_signing := toy_p256_signing;
  ed_from_pkcs8_pem := λ pem, if String.eqb pem "ed25519" then Ok sample_ed_signing else Err "bad PEM";
  p256_from_pkcs8_pem := λ pem, if String.eqb pem "p256" then Ok sample_p256_signing else Err "bad PEM";
  ed_public_bytes := es_public; p256_verifying := toy_p256_public;
  ed_sign := λ k m, toy_sign 4 (es_public k) m;
  p256_sign := λ k m, ps_x k ++ toy_hash 9 m;
  read_to_string := λ _ path, if String.eqb path "agent.pem" then Ok "ed25519" else Err "not found";
|}.
Lemma toy_strict_key b vk : strict_verifying_key b = Ok vk → length b = 32 ∧ vk = b.
Proof.
  intros (p & _ & _ & Hk & _)%strict_verifying_key_Ok. cbn in Hk. unfold sized in Hk.
  destruct (Nat.eqb_spec (length b) 32); [|done]. by injection Hk as <-.
Qed.
Lemma fx_signing_laws `{World} : @SigningKeysLaws _ _ _ fx_signing_keys.
Proof.
  split; cbn -[Nat.eqb strict_key_spec toy_hash].
  - intros [b Hb]. cbn [es_public]. destruct (strict_verifying_key b) as [vk|] eqn:E; [|done].
    pose proof (toy_strict_key _ _ E) as [Hl ->]. split; [done|]. exists b.
    split; [by apply strict_verifying_key_Ok|]. intros m. split; [apply toy_sign_length|].
    exists (toy_sign 4 b m). unfold sized. rewrite toy_sign_length.
    split; [done|]. apply bytes_eqb_refl.
  - intros [x Hx]. exists (Byte.x02 :: x). cbn [key_bytes ps_x].
    split; [unfold toy_point; by rewrite Hx|]. unfold toy_key_of.
    destruct (decide _) as [Hd|Hn]; [|by destruct Hn]. f_equal. by apply toy_key_eq.
  - intros [x Hx] m. cbn [ps_x ps_ok]. exists (x ++ toy_hash 9 m).
    assert (length x = 32) as Hl by (apply Nat.eqb_eq in Hx; cbn in Hx; lia).
    assert (length (x ++ toy_hash 9 m) = 64) as Hl2
      by (rewrite length_app, Hl; unfold toy_hash; by rewrite length_map, length_seq).
    split.
    + cbn [p256_sig_from_slice fx_p256]. unfold sized. by rewrite Hl2.
    + unfold recovers_to, toy_recover. rewrite take_app_length' by done.
      unfold toy_key_of. destruct (decide _) as [Hd|Hn]; [|by destruct Hn].
      cbn [key_bytes]. by rewrite bytes_eqb_refl.
Qed.
End toy.

Section properties.
Context `{Ed25519, P256, K256, MlDsa, Base58, Base64, Hex, Hashes, Features, World, !SigningKeys}.
Context `{!Base58Laws, !P256Laws, !SigningKeysLaws}.

(** C30: the DID a local signer advertises is the identity of its key. Loaded
    from a PEM text or file of either curve, its [did:key] is well-formed and is
    the one the bytes of its public key spell. Whatever message it signs,
    signing succeeds without touching the outside world, and the verification
    entry point turns the signature into the principal of that DID; except that
    the [r || s] of a P-256 key which happens to be a DER signature too is taken
    for that other signature, and refused unless that one verifies. *)
Theorem local_signer_authenticates w path s message :
  ed25519_from_pem_file w path = Ok s ∨ p256_from_pem_file w path = Ok s →
  validate_did_well_formed (signer_did (local_signer s)) = Ok tt ∧
  lk_did s = match lk_key s with
    | KEd25519 k => ed25519_did_key_from_pubkey (ed_public_bytes k)
    | KP256 k => p256_did_key_from_pubkey (p256_compressed (p256_verifying k))
    end ∧
  ∃ sig, sg_sign (local_signer s) w message = (w, Ok sig) ∧
    let accepted := match lk_key s with
      | KEd25519 _ => true
      | KP256 k => match p256_sig_from_der sig with
          | Ok other => p256_verify (p256_verifying k) (as_bytes message) other
          | Err _ => true
          end
      end in
    authenticate_with_public_key (signer_did (local_signer s)) message sig
      (sg_public_key (local_signer s)) =
      if accepted then Ok (mk_principal (lk_did s))
      else Err (InvalidSignature "CAIP-122 signature did not verify for this DID").
Proof.
  intros Hs%from_file_cases. pose proof (loaded_verifies s message None Hs) as [Hw Hv].
  split; [done|]. split; [by apply loaded_cases in Hs as [k ->]|].
  exists (local_sign s message). split; [done|].
  assert (∀ b : bool, read_back (lk_key s) message = b →
    authenticate_with_public_key (lk_did s) message (local_sign s message) None =
    if b then Ok (mk_principal (lk_did s))
    else Err (InvalidSignature "CAIP-122 signature did not verify for this DID")) as Hb.
  { intros [] Hb; rewrite Hb in Hv; [by apply authenticate_spec|]. apply authenticate_error. auto. }
  apply Hb. unfold local_sign. by destruct (lk_key s).
Qed.
End properties.

Section witnesses.
Import Fixtures.Instances.
#[local] Existing Instances fx_signing_keys fx_signing_laws.

Definition agent : LocalKeySigner := {|
  lk_key := KEd25519 (sample_ed_signing : @ed_signing _ _ _ fx_signing_keys);
  lk_did := sample_key_did |}.
Lemma agent_did : ed25519_did_key_from_pubkey sample_ed_key = sample_key_did.
Proof. vm_refl. Qed.
Lemma agent_loaded : @ed25519_from_pem_file _ _ _ fx_world fx_signing_keys [] "agent.pem" = Ok agent.
Proof. unfold agent. rewrite <- agent_did. done. Qed.
Definition no_world : @world fx_world := [].
Lemma local_signer_authenticates_witness :
  validate_did_well_formed sample_key_did = Ok tt ∧
  ∃ sig, sg_sign (local_signer agent) no_world "hello" = (no_world, Ok sig) ∧
    authenticate_with_public_key sample_key_did "hello" sig None = Ok (mk_principal sample_key_did).
Proof.
  destruct (local_signer_authenticates no_world "agent.pem" agent "hello" (or_introl agent_loaded))
    as (Hv & _ & sig & Hs & Ha).
  split; [exact Hv|]. exists sig. split; [exact Hs|exact Ha].
Defined.
End witnesses.
