(* ===== verification/TestSigners.v ===== *)
(** * In-memory signers, one per DID spelling: aqua-auth-testkit/src/signers.rs

    Keys come from the operating system's generator, which is part of the
    outside world. The curve crates' signing halves are the class of
    [LocalKey], extended here by key generation, secp256k1 and ML-DSA-87. *)

From S2P Require Import Prelude Crates Fixtures Errors Keys Did Suites Aqua Methods DidFormat Principal Signer LocalKey.

Class KeyGeneration `{SigningKeys, K256, MlDsa} := {
  (** [OsRng.fill_bytes] of a buffer of [n] bytes. *)
  os_fill_bytes : world → nat → world * bytes;
  ed_generate : world → world * ed_signing;
  p256_random : world → world * p256_signing;
  k256_signing : Type;
  k256_random : world → world * k256_signing;
  k256_verifying : k256_signing → k256_key;
  k256_sign_prehash_recoverable : k256_signing → bytes → result (k256_sig * k256_recid) string;
  k256_sig_to_bytes : k256_sig → bytes;
  (** [u8::from(recovery_id)]. *)
  k256_recid_byte : k256_recid → N;
  mldsa_signing : Type;
  mldsa_new : bytes → mldsa_signing;
  (** [verifying_key(..).encode()] and [sign(..).encode()]. *)
  mldsa_public : mldsa_signing → bytes;
  mldsa_sign : mldsa_signing → bytes → bytes;
}.
(** A recovery id is below four and the signature it comes with recovers the
    key; an encoded ML-DSA-87 key and signature have the lengths of FIPS 204,
    the signature's hint is one HintBitPack writes, and it verifies. *)
Class KeyGenerationLaws `{KeyGeneration} : Prop := {
  os_fill_length w n : length (os_fill_bytes w n).2 = n;
  k256_sign_recovers k h s r : k256_sign_prehash_recoverable k h = Ok (s, r) →
    length (k256_sig_to_bytes s) = 64 ∧ k256_sig_from_slice (k256_sig_to_bytes s) = Ok s ∧
    (k256_recid_byte r < 4)%N ∧ k256_recid_from_byte (Z.of_N (k256_recid_byte r)) = Some r ∧
    k256_recover h s r = Ok (k256_verifying k);
  mldsa_public_length k : length (mldsa_public k) = ML_DSA_87_PUBLIC_KEY_BYTES;
  mldsa_sign_verifies k m :
    length (mldsa_sign k m) = ML_DSA_87_SIGNATURE_BYTES ∧
    is_Some (hint_bit_unpack (drop HINT_OFFSET (mldsa_sign k m))) ∧
    ∃ s, mldsa_sig_decode (mldsa_sign k m) = Some s ∧
      mldsa_verify_with_context (mldsa_vk_decode (mldsa_public k)) m [] s = true;
}.

Section defs.
Context `{KeyGeneration, Base58, Base64, Hex, Hashes}.

Definition ED25519_MULTICODEC : bytes := [Byte.xed; Byte.x01].
Definition P256_MULTICODEC : bytes := [Byte.x80; Byte.x24].
Inductive Spelling : Type := DidKey | DidPkh.

(** ** Ed25519 *)

Record Ed25519Local : Type := { el_key : ed_signing; el_did : string }.
Definition ed25519_spelled (key : ed_signing) (spelling : Spelling) : Ed25519Local :=
  let raw := ed_public_bytes key in
  {| el_key := key;
     el_did := match spelling with
       | DidKey => "did:key:z" +:+ bs58_encode (ED25519_MULTICODEC ++ raw)
       | DidPkh => "did:pkh:ed25519:0x" +:+ hex_encode raw
       end |}.
Definition ed25519_generate (spelling : Spelling) (w : world) : world * Ed25519Local :=
  let '(w, key) := ed_generate w in (w, ed25519_spelled key spelling).
Definition ed25519_local_signer (s : Ed25519Local) : Signer :=
  {| signer_did := el_did s;
     sg_sign := λ w message, (w, Ok (ed_sign (el_key s) (as_bytes message)));
     sg_public_key := None |}.

(** ** P-256 *)

Record P256Local : Type := { pl_key : p256_signing; pl_did : string }.
Definition p256_spelled (key : p256_signing) (spelling : Spelling) : P256Local :=
  let compressed := p256_compressed (p256_verifying key) in
  {| pl_key := key;
     pl_did := match spelling with
       | DidKey => "did:key:z" +:+ bs58_encode (P256_MULTICODEC ++ compressed)
       | DidPkh => "did:pkh:p256:0x" +:+ hex_encode compressed
       end |}.
Definition p256_generate (spelling : Spelling) (w : world) : world * P256Local :=
  let '(w, key) := p256_random w in (w, p256_spelled key spelling).
Definition p256_local_signer (s : P256Local) : Signer :=
  {| signer_did := pl_did s;
     sg_sign := λ w message, (w, Ok (p256_sign (pl_key s) (as_bytes message)));
     sg_public_key := None |}.

(** ** secp256k1, by EIP-191 [personal_sign] *)

Record Eip155Local : Type := { xl_key : k256_signing; xl_did : string }.
Definition eip155_of (key : k256_signing) : Eip155Local :=
  let address := address_from_verifying_key (k256_verifying key) in
  {| xl_key := key; xl_did := "did:pkh:eip155:1:0x" +:+ eip55_checksum address |}.
Definition eip155_generate (w : world) : world * Eip155Local :=
  let '(w, key) := k256_random w in (w, eip155_of key).
Definition eip155_sign (s : Eip155Local) (message : string) : result bytes SignError :=
  let prefix := String "025"%char ("Ethereum Signed Message:" +:+ nl
    +:+ show_nat (String.length message)) in
  let prehash := keccak256 (as_bytes prefix ++ as_bytes message) in
  let? '(signature, recovery_id) := k256_sign_prehash_recoverable (xl_key s) prehash in
  Ok (k256_sig_to_bytes signature ++ [byte_of (k256_recid_byte recovery_id + 27)]).
Definition eip155_local_signer (s : Eip155Local) : Signer :=
  {| signer_did := xl_did s; sg_sign := λ w message, (w, eip155_sign s message);
     sg_public_key := None |}.

(** ** ML-DSA-87 *)

Record MlDsa87Local : Type := {
  ml_key : mldsa_signing; ml_public_key : bytes; ml_did : string }.
Definition mldsa_of (key : mldsa_signing) : MlDsa87Local :=
  let public_key := mldsa_public key in
  {| ml_key := key; ml_public_key := public_key; ml_did := aqua_did_from_pubkey public_key |}.
Definition mldsa_generate (w : world) : world * MlDsa87Local :=
  let '(w, seed) := os_fill_bytes w 32 in (w, mldsa_of (mldsa_new seed)).
Definition mldsa_local_signer (s : MlDsa87Local) : Signer :=
  {| signer_did := ml_did s;
     sg_sign := λ w message, (w, Ok (mldsa_sign (ml_key s) (as_bytes message)));
     sg_public_key := Some (ml_public_key s) |}.

(** ** The six spellings *)

Definition boxed {A} (signer : A → Signer) (x : world * A) : world * Signer :=
  let '(w, a) := x in (w, signer a).
Definition ed25519_did_key (w : world) : world * Signer :=
  boxed ed25519_local_signer (ed25519_generate DidKey w).
Definition ed25519_did_pkh (w : world) : world * Signer :=
  boxed ed25519_local_signer (ed25519_generate DidPkh w).
Definition p256_did_key (w : world) : world * Signer :=
  boxed p256_local_signer (p256_generate DidKey w).
Definition p256_did_pkh (w : world) : world * Signer :=
  boxed p256_local_signer (p256_generate DidPkh w).
Definition eip155 (w : world) : world * Signer := boxed eip155_local_signer (eip155_generate w).
Definition did_aqua_signer (w : world) : world * Signer :=
  boxed mldsa_local_signer (mldsa_generate w).

(** What each of them is a signer of. *)
Inductive SpelledKey : Type :=
| SpelledEd25519 (k : ed_signing) (s : Spelling)
| SpelledP256 (k : p256_signing) (s : Spelling)
| SpelledEip155 (k : k256_signing)
| SpelledAqua (k : mldsa_signing).
Definition spelled_signer (x : SpelledKey) : Signer :=
  match x with
  | SpelledEd25519 k s => ed25519_local_signer (ed25519_spelled k s)
  | SpelledP256 k s => p256_local_signer (p256_spelled k s)
  | SpelledEip155 k => eip155_local_signer (eip155_of k)
  | SpelledAqua k => mldsa_local_signer (mldsa_of k)
  end.
Definition is_aqua (x : SpelledKey) : bool :=
  match x with SpelledAqua _ => true | _ => false end.
End defs.

Section proofs.
Context `{KeyGeneration, Base58, Base64, Hex, Hashes, Features}.

(** A [did:pkh] identity is verified by the suite of its namespace. *)
Lemma pkh_identity ns rest did cs : did = "did:pkh:" +:+ ns +:+ ":" +:+ rest →
  free_of ":"%char ns = true → find_cipher_suite ns = Some cs →
  validate_did_well_formed did = (let? _a := pkh_parser ns did in Ok tt) ∧
  ∀ m s pk, verify_caip122_with_public_key did m s pk = cs_verify cs did m s.
Proof.
  intros Hd Hns Hcs.
  assert (find_did_method did = Some PkhMethod) as Hm by (rewrite Hd; apply find_did_method_pkh).
  assert (split_namespace did = Ok (ns, rest)) as Hsp by by apply split_namespace_Ok.
  unfold validate_did_well_formed, verify_caip122_with_public_key. rewrite Hm. split.
  - cbn [ok_or dm_method_name PkhMethod]. rewrite String.eqb_refl.
    by apply (validate_pkh_parser did ns cs), Hcs; apply (parse_did_namespace_split _ _ _ Hsp).
  - intros m s pk. cbn [ok_or]. change (dm_verify_with_public_key PkhMethod did m s pk)
      with (pkh_verify did m s). unfold pkh_verify, pkh_suite. by rewrite Hsp, Hcs.
Qed.

Context `{!Base58Laws, !HexLaws, !P256Laws, !HashesLaws, !Base64Laws, !SigningKeysLaws,
  !KeyGenerationLaws}.

Lemma ed_pkh_verifies k m pk :
  let did := el_did (ed25519_spelled k DidPkh) in
  validate_did_well_formed did = Ok tt ∧
  verify_caip122_with_public_key did m (ed_sign k (as_bytes m)) pk = Ok true.
Proof.
  cbn [el_did ed25519_spelled]. destruct (ed_public_strict k) as (Hl & vk & Hs & Hsign).
  destruct (pkh_identity "ed25519" ("0x" +:+ hex_encode (ed_public_bytes k))
    ("did:pkh:ed25519:0x" +:+ hex_encode (ed_public_bytes k)) Ed25519Suite) as [-> Hv]; [done..|].
  apply strict_verifying_key_Ok in Hs.
  assert (pubkey_from_ed25519_did ("did:pkh:ed25519:0x" +:+ hex_encode (ed_public_bytes k))
    = Ok (ed_public_bytes k)) as Hp.
  { apply pubkey_from_ed25519_did_Ok. exists (hex_encode (ed_public_bytes k)), vk.
    by rewrite hex_decode_encode. }
  unfold pkh_parser. cbn [String.eqb Ascii.eqb Bool.eqb]. rewrite Hp. split; [done|].
  rewrite Hv. cbn [cs_verify Ed25519Suite]. unfold ed25519_verify. rewrite Hp, Hs.
  destruct (Hsign (as_bytes m)) as (-> & s & -> & Hver). cbn. by rewrite Hver.
Qed.
Lemma p256_pkh_verifies k m pk :
  let did := pl_did (p256_spelled k DidPkh) in
  validate_did_well_formed did = Ok tt ∧
  verify_caip122_with_public_key did m (p256_sign k (as_bytes m)) pk = Ok (read_back (KP256 k) m).
Proof.
  cbn [pl_did p256_spelled]. set (c := p256_compressed (p256_verifying k)).
  destruct (pkh_identity "p256" ("0x" +:+ hex_encode c) ("did:pkh:p256:0x" +:+ hex_encode c)
    P256Suite) as [-> Hv]; [done..|].
  assert (pubkey_from_p256_did ("did:pkh:p256:0x" +:+ hex_encode c) = Ok c) as Hp.
  { apply pubkey_from_p256_did_Ok. exists (hex_encode c). rewrite hex_decode_encode.
    split_and!; [done..|apply p256_compressed_length]. }
  unfold pkh_parser. cbn [String.eqb Ascii.eqb Bool.eqb]. rewrite Hp. split; [done|].
  rewrite Hv. cbn [cs_verify P256Suite]. unfold p256_suite_verify. rewrite Hp.
  unfold c. destruct (p256_public_point k) as (pt & -> & Hk). cbn [map_err]. rewrite Hk. cbn [map_err].
  destruct (p256_read_back k m) as (s & -> & Hver). cbn [map_err]. by rewrite Hver.
Qed.
Lemma address_length k : length (address_from_verifying_key k) = 20.
Proof. unfold address_from_verifying_key. by rewrite length_drop, keccak256_length. Qed.
Lemma eip155_identity k : let a := address_from_verifying_key (k256_verifying k) in
  let did := xl_did (eip155_of k) in
  address_from_did did = Ok a ∧ validate_did_well_formed did = Ok tt ∧
  ∀ m s pk, verify_caip122_with_public_key did m s pk = eip155_verify did m s.
Proof.
  cbn [xl_did eip155_of]. set (a := address_from_verifying_key (k256_verifying k)).
  destruct (pkh_identity "eip155" ("1:0x" +:+ eip55_checksum a)
    ("did:pkh:eip155:1:0x" +:+ eip55_checksum a) Eip155Suite) as [-> Hv]; [done..|].
  assert (address_from_did ("did:pkh:eip155:1:0x" +:+ eip55_checksum a) = Ok a) as Hp.
  { apply (address_from_did_any_chain "1"); [|apply eip55_checksum_decode|apply address_length].
    apply free_of_alnum; [done|apply eip55_checksum_alnum]. }
  unfold pkh_parser. rewrite String.eqb_refl, Hp. split_and!; [done..|exact Hv].
Qed.
Lemma eip155_verifies k m sig pk : eip155_sign (eip155_of k) m = Ok sig →
  verify_caip122_with_public_key (xl_did (eip155_of k)) m sig pk = Ok true.
Proof.
  intros Hsig. destruct (eip155_identity k) as (Hp & _ & ->). unfold eip155_verify. rewrite Hp.
  unfold eip155_sign in Hsig. cbn [xl_key eip155_of] in Hsig.
  destruct (k256_sign_prehash_recoverable k _) as [[s r]|] eqn:Es; [|done]. injection Hsig as <-.
  apply k256_sign_recovers in Es as (Hl & Hsl & Hr & Hr' & Es).
  rewrite length_app, Hl. cbn [length Nat.add Nat.eqb]. rewrite lookup_app_r, Hl by lia.
  cbn [Nat.sub lookup list_lookup]. rewrite byte_N_of by lia.
  replace (Z.of_N (k256_recid_byte r + 27) - 27)%Z with (Z.of_N (k256_recid_byte r)) by lia.
  destruct (_ <? 27)%Z eqn:E; bool_simpl; [lia|]. rewrite Hr'. cbn [ok_or].
  rewrite take_app_length', Hsl by done.
  cbn [map_err]. unfold eip191_prehash, eip191_prefix. rewrite Es. cbn [map_err].
  by rewrite bytes_eqb_refl.
Qed.
Lemma aqua_verifies k m : did_aqua = true →
  let did := aqua_did_from_pubkey (mldsa_public k) in
  validate_did_well_formed did = Ok tt ∧
  verify_caip122_with_public_key did m (mldsa_sign k (as_bytes m)) (Some (mldsa_public k)) = Ok true.
Proof.
  intros Haq. cbn. set (did := aqua_did_from_pubkey (mldsa_public k)).
  assert (find_did_method did = Some AquaMethod) as Hm.
  { etrans; [apply (find_did_method_aqua ("z" +:+ bs58_encode (aqua_multihash (mldsa_public k))))|].
    by rewrite Haq. }
  unfold validate_did_well_formed, verify_caip122_with_public_key. rewrite Hm.
  cbn [ok_or dm_method_name AquaMethod]. rewrite Haq.
  cbn [String.eqb Ascii.eqb Bool.eqb andb]. unfold did at 1. rewrite multihash_from_minted.
  split; [done|].
  change (dm_verify_with_public_key AquaMethod did m ?s ?p) with (aqua_verify_with_public_key did m s p).
  unfold aqua_verify_with_public_key. cbn [ok_or].
  rewrite (proj2 (aqua_did_binds_spec did (mldsa_public k)) eq_refl). cbn [negb].
  destruct (mldsa_sign_verifies k (as_bytes m)) as (Hl & Hh & s & Hd & Hv).
  apply (hint_gate_spec _ Hl) in Hh. unfold mldsa_verify.
  rewrite mldsa_public_length, Hl, Hh. rewrite !Nat.eqb_refl. cbn [negb map_err]. by rewrite Hd, Hv.
Qed.
(** Under any spelling, the DID a signer names is well-formed. *)
Lemma spelled_well_formed x : (is_aqua x = true → did_aqua = true) →
  validate_did_well_formed (signer_did (spelled_signer x)) = Ok tt.
Proof.
  intros Haq. destruct x as [k []|k []|k|k].
  - by apply (key_signer_verifies (KEd25519 k) "" None).
  - by apply (ed_pkh_verifies k "" None).
  - by apply (key_signer_verifies (KP256 k) "" None).
  - by apply (p256_pkh_verifies k "" None).
  - by apply eip155_identity.
  - by apply (aqua_verifies k ""), Haq.
Qed.
(** Under any spelling, what a signer signs verifies for the DID it names. *)
Definition spelled_read_back (x : SpelledKey) (m : string) : bool :=
  match x with SpelledP256 k _ => read_back (KP256 k) m | _ => true end.
Lemma spelled_verifies x w m w' sig : (is_aqua x = true → did_aqua = true) →
  spelled_read_back x m = true →
  sg_sign (spelled_signer x) w m = (w', Ok sig) →
  w' = w ∧ verify_caip122_with_public_key (signer_did (spelled_signer x)) m sig
    (sg_public_key (spelled_signer x)) = Ok true.
Proof.
  intros Haq Hrb Hs. destruct x as [k []|k []|k|k]; cbn [spelled_read_back spelled_signer sg_sign signer_did sg_public_key
    ed25519_local_signer p256_local_signer eip155_local_signer mldsa_local_signer
    el_key pl_key ed25519_spelled p256_spelled ml_key mldsa_of ml_public_key ml_did] in *.
  - injection Hs as <- <-. split; [done|]. by apply (key_signer_verifies (KEd25519 k) m None).
  - injection Hs as <- <-. split; [done|]. by apply ed_pkh_verifies.
  - injection Hs as <- <-. split; [done|]. rewrite <- Hrb. by apply (key_signer_verifies (KP256 k) m None).
  - injection Hs as <- <-. split; [done|]. rewrite <- Hrb. by apply p256_pkh_verifies.
  - injection Hs as <- Hs. split; [done|]. by apply eip155_verifies.
  - injection Hs as <- <-. split; [done|]. by apply aqua_verifies, Haq.
Qed.
End proofs.

(** ** Concrete generators, over a given source of bytes *)

Section toy.
Import Fixtures.Instances.

Definition toy_ed_of (b : bytes) : toy_ed_signing :=
  match decide (is_ok (strict_verifying_key b) = true) with
  | left p => {| es_public := b; es_ok := p |}
  | right _ => sample_ed_signing
  end.
Definition toy_p256_of (b : bytes) : toy_p256_signing :=
  match decide ((length (Byte.x02 :: b) =? 33) = true) with
  | left p => {| ps_x := b; ps_ok := p |}
  | right _ => sample_p256_signing
  end.
Definition toy_mldsa_public (seed : bytes) : bytes :=
  take ML_DSA_87_PUBLIC_KEY_BYTES (seed ++ replicate ML_DSA_87_PUBLIC_KEY_BYTES Byte.x00).
Definition toy_mldsa_sign (seed m : bytes) : bytes :=
  toy_sign 8 (take 8 (toy_mldsa_public seed)) m ++ replicate 4563 Byte.x00.
Definition fx_key_generation {W : World} (fill : @world W → nat → @world W * bytes)
  : @KeyGeneration _ _ W fx_signing_keys fx_k256 fx_mldsa := {|
  os_fill_bytes := fill;
  ed_generate := λ w, let '(w, b) := fill w 32 in (w, toy_ed_of b : @ed_signing _ _ W fx_signing_keys);
  p256_random := λ w, let '(w, b) := fill w 32 in
    (w, toy_p256_of b : @p256_signing _ _ W fx_signing_keys);
  k256_signing := toy_p256_signing;
  k256_random := λ w, let '(w, b) := fill w 32 in (w, toy_p256_of b);
  k256_verifying := λ k, ps_x k : @k256_key fx_k256;
  k256_sign_prehash_recoverable := λ k h, Ok (ps_x k ++ toy_hash 9 h, 0%Z);
  k256_sig_to_bytes := λ s, s : bytes;
  k256_recid_byte := λ r, Z.to_N r;
  mldsa_signing := bytes; mldsa_new := λ seed, seed;
  mldsa_public := toy_mldsa_public; mldsa_sign := toy_mldsa_sign;
|}.
Lemma toy_hint_ok seed m : is_Some (hint_bit_unpack (drop HINT_OFFSET (toy_mldsa_sign seed m))).
Proof.
  replace (drop HINT_OFFSET (toy_mldsa_sign seed m)) with (replicate 83 Byte.x00); [by eexists|].
  unfold toy_mldsa_sign, HINT_OFFSET, ML_DSA_87_SIGNATURE_BYTES, OMEGA, K.
  rewrite drop_app_ge by (rewrite toy_sign_length; lia).
  rewrite toy_sign_length, drop_replicate. done.
Qed.
Lemma fx_key_generation_laws {W : World} (fill : @world W → nat → @world W * bytes) :
  (∀ w n, length (fill w n).2 = n) →
  @KeyGenerationLaws _ _ W fx_signing_keys fx_k256 fx_mldsa (fx_key_generation fill).
Proof.
  intros Hfill. split.
  - exact Hfill.
  - intros [x Hx] h s r [= <- <-]. cbn [ps_x ps_ok k256_sig_to_bytes k256_verifying fx_key_generation].
    apply Nat.eqb_eq in Hx as Hl. cbn [length] in Hl. injection Hl as Hl.
    assert (length (x ++ toy_hash 9 h) = 64) as Hl64
      by (rewrite length_app, Hl; unfold toy_hash; by rewrite length_map, length_seq).
    cbn -[toy_hash]. unfold sized. rewrite Hl64. split_and!; try done. f_equal. by apply take_app_length'.
  - intros k. cbn [mldsa_public fx_key_generation]. unfold toy_mldsa_public.
    rewrite length_take, length_app, length_replicate. lia.
  - intros k m. cbn [mldsa_sign mldsa_public fx_key_generation]. split_and!.
    + unfold toy_mldsa_sign. by rewrite length_app, toy_sign_length, length_replicate.
    + apply toy_hint_ok.
    + eexists. split; [done|]. cbn -[toy_mldsa_sign toy_mldsa_public toy_sign].
      unfold toy_mldsa_sign. rewrite take_app_length' by (by rewrite toy_sign_length).
      apply bytes_eqb_refl.
Qed.
End toy.

Section properties.
Context `{KeyGeneration, Base58, Base64, Hex, Hashes, Features}.
Context `{!Base58Laws, !HexLaws, !P256Laws, !HashesLaws, !Base64Laws, !SigningKeysLaws,
  !KeyGenerationLaws}.

(** Every spelling the program supports authenticates its own key. Under
    any of the six (an Ed25519 or P-256 key as [did:key] or [did:pkh], an
    Ethereum address, a [did:aqua]), the DID a signer advertises is
    well-formed and a signature it returns turns into the principal of that
    DID, [did:aqua] where its feature is compiled in, a P-256 [r || s] where it
    does not read as DER; only secp256k1 signing can fail; and the two spellings
    of one key are two principals. *)
Theorem every_spelling_authenticates x w message :
  (is_aqua x = true → did_aqua = true) → spelled_read_back x message = true →
  let s := spelled_signer x in
  (∀ w' sig, sg_sign s w message = (w', Ok sig) → w' = w ∧
    validate_did_well_formed (signer_did s) = Ok tt ∧
    authenticate_with_public_key (signer_did s) message sig (sg_public_key s)
      = Ok (mk_principal (signer_did s))) ∧
  (∀ w' e, sg_sign s w message = (w', Err e) → ∃ k, x = SpelledEip155 k) ∧
  (∀ k, el_did (ed25519_spelled k DidKey) ≠ el_did (ed25519_spelled k DidPkh)) ∧
  (∀ k, pl_did (p256_spelled k DidKey) ≠ pl_did (p256_spelled k DidPkh)).
Proof.
  intros Haq Hrb s. split_and!; [|by destruct x; eauto|done|done].
  intros w' sig [-> Hv]%(spelled_verifies x w message w' sig Haq Hrb).
  pose proof (spelled_well_formed x Haq) as Hw. split_and!; [done..|]. by apply authenticate_spec.
Qed.
End properties.

Section witnesses.
Import Fixtures.Instances.
Definition zero_fill (w : world) (n : nat) : world * bytes := (w, replicate n Byte.x11).
Lemma zero_fill_length w n : length (zero_fill w n).2 = n.
Proof. apply length_replicate. Qed.
Definition fill_keys : @KeyGeneration _ _ fx_world fx_signing_keys fx_k256 fx_mldsa :=
  fx_key_generation zero_fill.
Lemma fill_laws : @KeyGenerationLaws _ _ _ _ _ _ fill_keys.
Proof. apply fx_key_generation_laws, zero_fill_length. Qed.
#[local] Existing Instances fx_signing_keys fx_signing_laws fill_keys fill_laws.
Definition aqua_seed : @mldsa_signing _ _ _ _ _ _ fill_keys := replicate 32 Byte.x2a.
Definition aqua_key : SpelledKey := SpelledAqua aqua_seed.
Definition spelling_world : world := [].
Lemma every_spelling_authenticates_witness : ∃ sig,
  sg_sign (spelled_signer aqua_key) spelling_world "hello" = (spelling_world, Ok sig) ∧
  authenticate_with_public_key (signer_did (spelled_signer aqua_key)) "hello" sig
    (sg_public_key (spelled_signer aqua_key))
    = Ok (mk_principal (signer_did (spelled_signer aqua_key))).
Proof.
  assert (is_aqua aqua_key = true → @did_aqua fx_features = true) as Haq by done.
  destruct (every_spelling_authenticates aqua_key spelling_world "hello" Haq eq_refl) as [Hs _].
  exists (mldsa_sign aqua_seed (as_bytes "hello")).
  split; [reflexivity|]. exact (proj2 (proj2 (Hs spelling_world _ eq_refl))).
Defined.
End witnesses.
