(* ===== verification/WebauthnTestkit.v ===== *)
(** * A software passkey: src/webauthn_testkit.rs

    [SoftPasskey] plays browser and authenticator. Its keys come from a seeded
    generator; the generator and the curve's signing half are the class
    [SoftKeys]. *)

From S2P Require Import Prelude Crates Fixtures Errors Keys Did Suites Aqua Methods DidFormat Principal LoginChallenge WebauthnPolicy Webauthn WebauthnRecover WebauthnSelect LocalKey.

(** ** [rand::StdRng] and the signing half of [p256] *)

Class SoftKeys `{P256} := {
  std_rng : Type;
  seed_from_u64 : Z → std_rng;
  fill_bytes : std_rng → nat → std_rng * bytes;
  signing_key : Type;
  signing_random : std_rng → std_rng * signing_key;
  signing_public : signing_key → p256_key;
  signing_sign : signing_key → bytes → p256_sig;
  (** Whether the [x] coordinate behind [r] reaches the group order, so that
      [r] does not name it: about once in 2^128 signatures. *)
  signing_wraps : signing_key → bytes → bool;
  (** [from_scalars(r, -s)], which is never refused. *)
  p256_negate_s : p256_sig → p256_sig;
  p256_sig_to_der : p256_sig → bytes;
  (** The coordinates of the uncompressed point. *)
  p256_x : p256_key → bytes;
  p256_y : p256_key → bytes;
  p256_to_spki : p256_key → bytes;
}.
(** DER and SubjectPublicKeyInfo are read back; the negation of a low signature
    is the high form of it; the low form recovers the signer's key at one
    parity, and some key at the other. *)
Class SoftKeysLaws `{SoftKeys, Hashes} : Prop := {
  fill_bytes_length g n : length (fill_bytes g n).2 = n;
  spki_read k : p256_key_from_spki (p256_to_spki k) = Ok k;
  coordinates_length k : length (p256_x k) = 32 ∧ length (p256_y k) = 32;
  sign_low k m : let s := signing_sign k m in let low := default s (p256_normalize_s s) in
    p256_normalize_s low = None ∧ p256_normalize_s (p256_negate_s low) = Some low ∧
    p256_sig_from_der (p256_sig_to_der low) = Ok low ∧
    p256_sig_from_der (p256_sig_to_der (p256_negate_s low)) = Ok (p256_negate_s low);
  sign_recovers k m : signing_wraps k m = false →
    let s := signing_sign k m in let low := default s (p256_normalize_s s) in
    ∃ odd other, p256_recover (sha256 m) low odd = Ok (signing_public k) ∧
      p256_recover (sha256 m) low (negb odd) = Ok other;
}.

Section defs.
Context `{P256, Ed25519, Base58, Base64, Hashes, Urls, Json, JsonWrite, !SoftKeys}.

Definition FLAG_AT : N := 0x40.
Definition COSE_ES256 : Z := -7.

Record SoftPasskey : Type := {
  sp_key : signing_key;
  sp_credential_id : bytes;
  sp_rp_id : string;
  sp_user_handle : option bytes;
}.
Record AssertOpts : Type := {
  ao_challenge : bytes;
  ao_origin : string;
  ao_flags : byte;
  ao_cross_origin : option bool;
  ao_rp_id_override : option string;
  ao_type : string;
  ao_high_s : bool;
}.
Definition assert_opts (challenge : bytes) (origin : string) : AssertOpts :=
  {| ao_challenge := challenge; ao_origin := origin;
     ao_flags := byte_of (N.lor FLAG_UP FLAG_UV); ao_cross_origin := Some false;
     ao_rp_id_override := None; ao_type := "webauthn.get"; ao_high_s := false |}.

(** The key, the credential ID and the user handle, drawn in that order. *)
Definition new_seeded (seed : Z) (rp : string) : SoftPasskey :=
  let rng := seed_from_u64 seed in
  let '(rng, key) := signing_random rng in
  let '(rng, credential_id) := fill_bytes rng 16 in
  let '(_, user_handle) := fill_bytes rng 32 in
  {| sp_key := key; sp_credential_id := credential_id; sp_rp_id := rp;
     sp_user_handle := Some user_handle |}.
Definition soft_did (p : SoftPasskey) : string := did_key_of (signing_public (sp_key p)).
Definition spki_der (p : SoftPasskey) : bytes := p256_to_spki (signing_public (sp_key p)).

(** [SHA-256(rp_id) || flags || signCount 0 || attested]. *)
Definition soft_authenticator_data (rp : string) (flags : byte) (attested : bytes) : bytes :=
  sha256 (as_bytes rp) ++ [flags] ++ replicate 4 Byte.x00 ++ attested.
(** A string serialises, whatever it holds. *)
Definition json_str (s : string) : string :=
  match json_to_string (JString s) with Ok t => t | Err _ => EmptyString end.
Definition soft_client_data_json (type_ : string) (challenge : bytes) (origin : string)
    (cross_origin : option bool) : bytes :=
  as_bytes ("{" +:+ quoted "type" +:+ ":" +:+ json_str type_
    +:+ "," +:+ quoted "challenge" +:+ ":" +:+ quoted (b64url_encode challenge)
    +:+ "," +:+ quoted "origin" +:+ ":" +:+ json_str origin
    +:+ match cross_origin with
        | Some c => "," +:+ quoted "crossOrigin" +:+ ":" +:+ (if c then "true" else "false")
        | None => EmptyString
        end +:+ "}").

Definition assert_raw (p : SoftPasskey) (authenticator_data client_data_json : bytes)
    (high_s : bool) : AssertionJson :=
  let low := signing_sign (sp_key p) (signed_payload authenticator_data client_data_json) in
  let low := default low (p256_normalize_s low) in
  let signature := if high_s then p256_negate_s low else low in
  {| aj_id := b64url_encode (sp_credential_id p);
     aj_raw_id := b64url_encode (sp_credential_id p);
     aj_type := "public-key";
     aj_response := {| ar_authenticator_data := b64url_encode authenticator_data;
       ar_client_data_json := b64url_encode client_data_json;
       ar_signature := b64url_encode (p256_sig_to_der signature);
       ar_user_handle := b64url_encode <$> sp_user_handle p |};
     aj_client_extension_results := JObject [] |}.
(** The bytes [assert] signs over. *)
Definition opts_rp_id (p : SoftPasskey) (o : AssertOpts) : string :=
  default (sp_rp_id p) (ao_rp_id_override o).
Definition opts_authenticator_data (p : SoftPasskey) (o : AssertOpts) : bytes :=
  soft_authenticator_data (opts_rp_id p o) (ao_flags o) [].
Definition opts_client_data (o : AssertOpts) : bytes :=
  soft_client_data_json (ao_type o) (ao_challenge o) (ao_origin o) (ao_cross_origin o).
Definition soft_assert (p : SoftPasskey) (o : AssertOpts) : AssertionJson :=
  assert_raw p (opts_authenticator_data p o) (opts_client_data o) (ao_high_s o).

(** ** Registration: CBOR by hand, panicking where the source's [expect]s do *)

Definition u8 (n : nat) : byte := byte_of (N.of_nat n).
(** [to_be_bytes] of a [u16]. *)
Definition be16 (n : nat) : bytes :=
  [byte_of (N.of_nat n / 256); byte_of (N.of_nat n mod 256)].
Definition cbor_text (out : bytes) (s : string) : run bytes :=
  if String.length s <? 24 then
    Returned (out ++ byte_of (N.lor 0x60 (N.of_nat (String.length s))) :: as_bytes s)
  else Panicked.
Definition cbor_bytes (out b : bytes) : run bytes :=
  let n := length b in
  if n <? 24 then Returned (out ++ byte_of (N.lor 0x40 (N.of_nat n)) :: b)
  else if n <? 256 then Returned (out ++ [Byte.x58; u8 n] ++ b)
  else if n <? 256 * 256 then Returned (out ++ Byte.x59 :: be16 n ++ b)
  else Panicked.
(** The attested credential data: no AAGUID, the ID, the key as a COSE_Key. *)
Definition attested_credential (p : SoftPasskey) : run bytes :=
  let id := sp_credential_id p in
  let key := signing_public (sp_key p) in
  if 1023 <? length id then Panicked
  else
  let head := replicate 16 Byte.x00 ++ be16 (length id) ++ id
    ++ [Byte.xa5; Byte.x01; Byte.x02; Byte.x03; Byte.x26; Byte.x20; Byte.x01; Byte.x21] in
  run_bind (cbor_bytes head (p256_x key)) (λ out,
  cbor_bytes (out ++ [Byte.x22]) (p256_y key)).
Definition attestation_object (authenticator_data : bytes) : run bytes :=
  run_bind (cbor_text [Byte.xa3] "fmt") (λ out,
  run_bind (cbor_text out "none") (λ out,
  run_bind (cbor_text out "attStmt") (λ out,
  run_bind (cbor_text (out ++ [Byte.xa0]) "authData") (λ out,
  cbor_bytes out authenticator_data)))).
Definition attestation_none (p : SoftPasskey) (challenge : bytes) (origin : string) : run json :=
  run_bind (attested_credential p) (λ attested,
  let authenticator_data := soft_authenticator_data (sp_rp_id p)
    (byte_of (N.lor (N.lor FLAG_UP FLAG_UV) FLAG_AT)) attested in
  run_bind (attestation_object authenticator_data) (λ object,
  let client_data := soft_client_data_json "webauthn.create" challenge origin (Some false) in
  Returned (json_object
    [("id", JString (b64url_encode (sp_credential_id p)));
     ("rawId", JString (b64url_encode (sp_credential_id p)));
     ("type", JString "public-key");
     ("authenticatorAttachment", JString "platform");
     ("response", json_object
       [("clientDataJSON", JString (b64url_encode client_data));
        ("authenticatorData", JString (b64url_encode authenticator_data));
        ("transports", JArray [JString "internal"]);
        ("publicKey", JString (b64url_encode (spki_der p)));
        ("publicKeyAlgorithm", JNumber (show_Z COSE_ES256));
        ("attestationObject", JString (b64url_encode object))]);
     ("clientExtensionResults",
       json_object [("credProps", json_object [("rk", JBool true)])])]))).
End defs.

Section proofs.
Context `{P256, Ed25519, Base58, Base64, Hashes, Urls, Json, JsonWrite, !SoftKeys}.
Context `{!Base64Laws, !HashesLaws, !JsonTextLaws, !SoftKeysLaws}.

(** ** clientDataJSON reads back *)

Definition client_members (type_ : string) (challenge : bytes) (origin : string)
    (cross_origin : option bool) : list (string * json) :=
  [("type", JString type_); ("challenge", JString (b64url_encode challenge));
   ("origin", JString origin)]
  ++ match cross_origin with Some c => [("crossOrigin", JBool c)] | None => [] end.
Lemma json_str_text s : json_to_string (JString s) = Ok (json_str s).
Proof. unfold json_str. by destruct (json_text_string s) as [t ->]. Qed.
Lemma b64url_plain b : plain (b64url_encode b) = true.
Proof.
  eapply str_forallb_impl; [|apply b64url_encode_chars].
  intros [[] [] [] [] [] [] [] []]; vm_compute; congruence.
Qed.
Lemma client_data_text t c o x : ∃ s, json_to_string (JObject (client_members t c o x)) = Ok s ∧
  soft_client_data_json t c o x = as_bytes s.
Proof.
  eexists. split.
  - apply (json_text_object _ ([quoted "type" +:+ ":" +:+ json_str t;
      quoted "challenge" +:+ ":" +:+ quoted (b64url_encode c);
      quoted "origin" +:+ ":" +:+ json_str o]
      ++ match x with Some b => [quoted "crossOrigin" +:+ ":" +:+ (if b then "true" else "false")]
         | None => [] end)).
    assert (∀ n, plain n = true → json_to_string (JString n) = Ok (quoted n)) as Hp
      by apply json_text_plain.
    unfold client_members. cbn [app]. repeat apply List.Forall2_cons.
    + eexists _, _. split_and!; [by apply Hp|apply json_str_text|done].
    + eexists _, _. split_and!; [by apply Hp|apply Hp, b64url_plain|done].
    + eexists _, _. split_and!; [by apply Hp|apply json_str_text|done].
    + destruct x as [b|]; [|constructor]. apply List.Forall2_cons; [|constructor].
      eexists _, _. split_and!; [by apply Hp|apply json_text_bool|done].
  - unfold soft_client_data_json. f_equal. destruct x; cbn [app String.concat];
      rewrite ?str_app_assoc; repeat f_equal.
Qed.
Lemma client_data_read t c o x : client_data_from_slice (soft_client_data_json t c o x)
  = Ok {| cd_type := t; cd_challenge := b64url_encode c; cd_origin := o;
          cd_cross_origin := x; cd_top_origin := false |}.
Proof.
  destruct (client_data_text t c o x) as (s & Hs & ->).
  assert (NoDup (client_members t c o x).*1) as Hnd.
  { destruct x; cbn; apply (bool_decide_unpack _); vm_compute; done. }
  destruct (json_text_read _ _ Hnd ltac:(by destruct x) Hs) as [Hd _].
  unfold client_data_from_slice. rewrite Hd. by destruct x.
Qed.
Lemma authenticator_data_read rp flags att :
  parse_authenticator_data (soft_authenticator_data rp flags att)
    = Ok {| ad_rp_id_hash := sha256 (as_bytes rp); ad_flags := flags |}.
Proof.
  pose proof (sha256_length (as_bytes rp)) as Hl.
  apply parse_authenticator_data_Ok. unfold soft_authenticator_data. split_and!.
  - rewrite length_app, Hl. cbn. lia.
  - cbn [ad_rp_id_hash]. by rewrite take_app_length'.
  - cbn [ad_flags]. rewrite lookup_app_r by lia. by rewrite Hl.
Qed.

(** ** The verifier reads what the passkey writes *)

Definition form_of (s : p256_sig) (high_s : bool) : p256_sig :=
  let low := default s (p256_normalize_s s) in if high_s then p256_negate_s low else low.
Lemma assert_raw_decodes p ad cd high_s : decode_members (assert_raw p ad cd high_s) =
  Ok {| de_credential_id := sp_credential_id p; de_auth_data := ad; de_client_data_json := cd;
        de_signature := p256_sig_to_der (form_of (signing_sign (sp_key p) (signed_payload ad cd)) high_s);
        de_user_handle := sp_user_handle p |}.
Proof.
  unfold decode_members, assert_raw. cbn [aj_type aj_raw_id aj_id aj_response].
  rewrite String.eqb_refl. cbn [negb ar_authenticator_data ar_client_data_json ar_signature ar_user_handle].
  unfold decode. rewrite !b64url_any_pad_encode. cbn [map_err]. rewrite bytes_eqb_refl. cbn [negb].
  destruct (sp_user_handle p) as [h|]; cbn; [|done]. by rewrite b64url_any_pad_encode.
Qed.
(** Either form of the signature recovers the same two keys, the passkey's
    among them. *)
Lemma either_form_recovers k m : signing_wraps k m = false →
  ∃ ks i, pick i ks = signing_public k ∧
    ∀ high_s, recover_candidates (p256_sig_to_der (form_of (signing_sign k m) high_s)) m = Ok ks.
Proof.
  intros Hw. destruct (sign_recovers k m Hw) as (odd & other & Hk & Ho).
  destruct (sign_low k m) as (Hlow & Hhigh & Hd & Hd'). cbv zeta in *.
  set (low := default (signing_sign k m) (p256_normalize_s (signing_sign k m))) in *.
  exists (if odd then (other, signing_public k) else (signing_public k, other)), odd.
  split; [by destruct odd|]. intros high_s.
  destruct odd; cbn [negb] in *; apply recover_candidates_Ok;
    exists (form_of (signing_sign k m) high_s); unfold form_of; fold low;
    (destruct high_s; [rewrite Hhigh, Hd'|rewrite Hlow, Hd]); done.
Qed.

(** What the passkey's assertion says, as the verifier reads it. *)
Definition opts_client (o : AssertOpts) : ClientData :=
  {| cd_type := ao_type o; cd_challenge := b64url_encode (ao_challenge o);
     cd_origin := ao_origin o; cd_cross_origin := ao_cross_origin o; cd_top_origin := false |}.
Definition opts_auth (p : SoftPasskey) (o : AssertOpts) : AuthenticatorData :=
  {| ad_rp_id_hash := sha256 (as_bytes (opts_rp_id p o)); ad_flags := ao_flags o |}.
Definition opts_payload (p : SoftPasskey) (o : AssertOpts) : bytes :=
  signed_payload (opts_authenticator_data p o) (opts_client_data o).
Definition opts_high_s (o : AssertOpts) (high_s : bool) : AssertOpts :=
  {| ao_challenge := ao_challenge o; ao_origin := ao_origin o; ao_flags := ao_flags o;
     ao_cross_origin := ao_cross_origin o; ao_rp_id_override := ao_rp_id_override o;
     ao_type := ao_type o; ao_high_s := high_s |}.
(** The verdict on it: the ceremony checks alone, whichever form the signature
    has. *)
Lemma soft_assert_verdict p o expected policy : signing_wraps (sp_key p) (opts_payload p o) = false →
  ∃ ks i, pick i ks = signing_public (sp_key p) ∧ ∀ high_s,
    verify_and_recover (soft_assert p (opts_high_s o high_s)) expected policy =
      let? '(entry, uv) := check_ceremony (opts_client o) (opts_auth p o) expected policy in
      Ok {| ra_rp_id := rp_id entry; ra_origin := ao_origin o; ra_user_verified := uv;
            ra_backup_eligible := has_flag (ao_flags o) FLAG_BE;
            ra_backup_state := has_flag (ao_flags o) FLAG_BS;
            ra_credential_id := sp_credential_id p; ra_user_handle := sp_user_handle p;
            ra_candidates := ks |}.
Proof.
  intros Hw. destruct (either_form_recovers _ _ Hw) as (ks & i & Hi & Hks).
  exists ks, i. split; [done|]. intros high_s. unfold verify_and_recover, soft_assert.
  rewrite assert_raw_decodes. cbn [de_auth_data de_client_data_json de_signature de_credential_id
    de_user_handle ao_high_s opts_high_s].
  change (opts_authenticator_data p (opts_high_s o high_s)) with (opts_authenticator_data p o).
  change (opts_client_data (opts_high_s o high_s)) with (opts_client_data o).
  fold (opts_payload p o). unfold opts_authenticator_data at 1. rewrite authenticator_data_read.
  unfold opts_client_data at 1. rewrite client_data_read. cbn [map_err].
  fold (opts_client o) (opts_auth p o). unfold opts_payload in Hks.
  destruct (check_ceremony _ _ expected policy) as [[entry uv]|]; [|done].
  unfold opts_payload. by rewrite Hks.
Qed.
Lemma spki_hint p : hint_from_spki_der (spki_der p) = Ok {| dh_did := soft_did p |}.
Proof. unfold hint_from_spki_der, spki_der. by rewrite spki_read. Qed.
(** A hint with the passkey's own key selects it. *)
Lemma own_hint_selects `{!P256Laws, !Base58Laws} p r i known : pick i (ra_candidates r) = signing_public (sp_key p) →
  pick (negb i) (ra_candidates r) ≠ signing_public (sp_key p) →
  select r [{| dh_did := soft_did p |}] known = Selected (from_proven_did_key (soft_did p)) ByHint.
Proof.
  intros Hi Hn. unfold select.
  assert (the_only (both (hinted [{| dh_did := soft_did p |}]) (candidate_dids r)) = Some i) as ->.
  { apply the_only_Some. rewrite !pick_both, !candidate_did, Hi.
    unfold hinted. cbn [existsb dh_did]. fold (soft_did p). rewrite String.eqb_refl. split; [done|].
    rewrite orb_false_r. apply String.eqb_neq. intros Heq. apply Hn, did_key_of_inj.
    by rewrite <- Heq. }
  by rewrite candidate_did, Hi.
Qed.
End proofs.

(** ** Registration *)

Section registration.
Context `{P256, Ed25519, Base58, Base64, Hashes, Urls, Json, JsonWrite, !SoftKeys}.
Context `{!HashesLaws, !SoftKeysLaws}.

(** The attested credential data, byte by byte. *)
Definition attested_layout (p : SoftPasskey) : bytes :=
  replicate 16 Byte.x00 ++ be16 (length (sp_credential_id p)) ++ sp_credential_id p
  ++ [Byte.xa5; Byte.x01; Byte.x02; Byte.x03; Byte.x26; Byte.x20; Byte.x01; Byte.x21; Byte.x58; Byte.x20]
  ++ p256_x (signing_public (sp_key p)) ++ [Byte.x22; Byte.x58; Byte.x20]
  ++ p256_y (signing_public (sp_key p)).
Lemma cbor_bytes_32 out b : length b = 32 →
  cbor_bytes out b = Returned (out ++ [Byte.x58; Byte.x20] ++ b).
Proof. intros Hb. unfold cbor_bytes. by rewrite Hb. Qed.
Lemma attested_credential_spec p : attested_credential p =
  if 1023 <? length (sp_credential_id p) then Panicked else Returned (attested_layout p).
Proof.
  unfold attested_credential. destruct (coordinates_length (signing_public (sp_key p))) as [Hx Hy].
  destruct (1023 <? _); [done|]. rewrite cbor_bytes_32 by done. cbn [run_bind].
  rewrite cbor_bytes_32 by done. unfold attested_layout. by rewrite <- !app_assoc.
Qed.
Lemma attested_length p : length (attested_layout p) = 95 + length (sp_credential_id p).
Proof.
  destruct (coordinates_length (signing_public (sp_key p))) as [Hx Hy].
  unfold attested_layout. rewrite !length_app, Hx, Hy. cbn. lia.
Qed.
Lemma attestation_object_spec ad : 24 ≤ length ad < 256 * 256 →
  attestation_object ad = Returned (Byte.xa3 :: Byte.x63 :: as_bytes "fmt"
    ++ Byte.x64 :: as_bytes "none" ++ Byte.x67 :: as_bytes "attStmt" ++ Byte.xa0 :: Byte.x68
    :: as_bytes "authData"
    ++ (if length ad <? 256 then [Byte.x58; u8 (length ad)] else Byte.x59 :: be16 (length ad)) ++ ad).
Proof.
  intros Hl. unfold attestation_object, cbor_bytes.
  destruct (length ad <? 24) eqn:E; bool_simpl; [lia|].
  destruct (length ad <? 256) eqn:E2; bool_simpl; [done|].
  destruct (length ad <? 256 * 256) eqn:E3; bool_simpl; [done|lia].
Qed.
(** A registration comes out exactly for the credential IDs WebAuthn allows. *)
Lemma attestation_returns p challenge origin :
  (∃ v, attestation_none p challenge origin = Returned v) ↔ length (sp_credential_id p) ≤ 1023.
Proof.
  unfold attestation_none. rewrite attested_credential_spec.
  destruct (1023 <? length (sp_credential_id p)) eqn:E; bool_simpl; cbn [run_bind].
  - split; [by intros [v [=]]|lia].
  - split; [done|]. intros _. rewrite attestation_object_spec; [by eexists|].
    unfold soft_authenticator_data.
    rewrite !length_app, sha256_length, attested_length, length_replicate. cbn [length]. lia.
Qed.
(** A registration carries no assertion: nothing in it is signed. *)
Lemma attestation_seeded seed rp challenge origin :
  ∃ v, attestation_none (new_seeded seed rp) challenge origin = Returned v.
Proof.
  apply attestation_returns. unfold new_seeded.
  destruct (signing_random _) as [g key].
  pose proof (fill_bytes_length g 16) as Hl. destruct (fill_bytes g 16) as [g' id].
  destruct (fill_bytes g' 32) as [g'' uh]. cbn in *. lia.
Qed.
End registration.

Section properties.
Context `{P256, Ed25519, Base58, Base64, Hashes, Urls, Json, JsonWrite, !SoftKeys}.
Context `{!Base64Laws, !Base58Laws, !HashesLaws, !JsonTextLaws, !P256Laws, !P256RecoverLaws,
  !SoftKeysLaws}.

(** A software passkey and the verifier agree, knob by knob. An assertion
    shaped by any options verifies exactly when its type is [webauthn.get], it
    answers the expected challenge, its RP ID is one of the policy with that
    origin listed, it is not cross-origin, and it says user present and, where
    the policy asks, verified; high or low [s] makes no difference. What is
    recovered carries the passkey's credential ID and user handle, and with a
    hint made of its public key the login selects the passkey's own DID. *)
Theorem soft_passkey_login p o expected policy known high_s :
  signing_wraps (sp_key p) (opts_payload p o) = false →
  let verdict := verify_and_recover (soft_assert p (opts_high_s o high_s)) expected policy in
  ((∃ r, verdict = Ok r) ↔
    ao_type o = "webauthn.get" ∧ expected_bytes expected = Ok (ao_challenge o) ∧
    (∃ e, entry_for_rp_id_hash policy (sha256 (as_bytes (opts_rp_id p o))) = Some e ∧
      allows_origin e (ao_origin o) = true) ∧
    ao_cross_origin o ≠ Some true ∧ has_flag (ao_flags o) FLAG_UP = true ∧
    (ap_require_uv policy = true → has_flag (ao_flags o) FLAG_UV = true)) ∧
  ∀ r, verdict = Ok r →
    ra_credential_id r = sp_credential_id p ∧ ra_user_handle r = sp_user_handle p ∧
    ra_user_verified r = has_flag (ao_flags o) FLAG_UV ∧
    ∃ hint, hint_from_spki_der (spki_der p) = Ok hint ∧
      select r [hint] known = Selected (from_proven_did_key (soft_did p)) ByHint.
Proof.
  intros Hw verdict. destruct (soft_assert_verdict p o expected policy Hw) as (ks & i & Hi & Hv).
  subst verdict. pose proof (Hv high_s) as Hr. rewrite Hr. split; [split|].
  - intros [r Hok]. destruct (check_ceremony _ _ expected policy) as [[e uv]|] eqn:E; [|done].
    apply check_ceremony_Ok in E as (Ht & (want & Hwant & Hc) & He & Ho & Hx & _ & Hup & -> & Huv).
    cbn [cd_challenge opts_client] in Hc. rewrite b64url_any_pad_encode in Hc. injection Hc as <-.
    split_and!; try done. by exists e.
  - intros (Ht & Hwant & (e & He & Ho) & Hx & Hup & Huv). eexists.
    assert (check_ceremony (opts_client o) (opts_auth p o) expected policy
      = Ok (e, has_flag (ao_flags o) FLAG_UV)) as ->; [|done].
    apply check_ceremony_Ok. split_and!; try done. exists (ao_challenge o). split; [done|].
    apply b64url_any_pad_encode.
  - intros r Hok. destruct (check_ceremony _ _ expected policy) as [[e uv]|] eqn:E; [|done].
    apply check_ceremony_Ok in E as (_ & _ & _ & _ & _ & _ & _ & -> & _). injection Hok as <-.
    split_and!; try done. eexists. split; [apply spki_hint|].
    apply (own_hint_selects p _ i); cbn [ra_candidates]; [done|].
    apply verify_and_recover_Ok in Hr as (d & _ & _ & _ & _ & _ & _ & _ & Hk & _).
    cbn [ra_candidates] in Hk. destruct ks as [k k'].
    apply candidates_verify in Hk as [Hne _]. destruct i; cbn in *; congruence.
Qed.
End properties.

Section witnesses.
Import Fixtures.Instances.

(** The generator is the seed, counted up; a key is its [x] coordinate. *)
Definition fx_soft_keys : @SoftKeys fx_p256 := {|
  std_rng := N;
  seed_from_u64 := Z.to_N;
  fill_bytes := λ g n, ((g + 1)%N, replicate n (byte_of (g mod 256)));
  signing_key := toy_p256_signing;
  signing_random := λ g, ((g + 1)%N, sample_p256_signing);
  signing_public := (toy_p256_public : toy_p256_signing → @p256_key fx_p256);
  signing_sign := λ k m, ps_x k ++ toy_hash 9 m;
  signing_wraps := λ _ _, false;
  p256_negate_s := toy_negate;
  p256_sig_to_der := λ s, match sized 64 s with Ok _ => Byte.x30 :: s | Err _ => s end;
  p256_x := λ k, take 32 (key_bytes k);
  p256_y := λ k, replicate 32 Byte.x05;
  p256_to_spki := λ k, key_bytes k;
|}.
#[local] Existing Instance fx_soft_keys.
Lemma toy_last_length f s : length (toy_last f s) = length s.
Proof.
  destruct (toy_last_cases s) as [Hs|(a & b & -> & Ha)]; [by rewrite toy_last_short|].
  rewrite toy_last_app by done. by rewrite !length_app, length_map.
Qed.
Lemma toy_negate_high s : length s = 64 → toy_low s = s → toy_low (toy_negate s) ≠ toy_negate s.
Proof.
  destruct (toy_last_cases s) as [Hs|(a & b & -> & Ha)]; [lia|].
  rewrite length_app, Ha. intros Hb Hl. destruct b as [|x [|]]; cbn in Hb; try lia.
  unfold toy_low, toy_negate in *. rewrite toy_last_app in Hl by done. apply app_inv_head in Hl.
  cbn [map] in Hl. injection Hl as Hl. rewrite (toy_last_app _ a [x]) by done. cbn [map].
  rewrite toy_last_app by done. intros Heq%app_inv_head. cbn [map] in Heq. injection Heq as Heq.
  revert Hl Heq. destruct x; vm_compute; congruence.
Qed.
Lemma toy_der s : length s = 64 →
  p256_sig_from_der (p256_sig_to_der (s : @p256_sig fx_p256)) = Ok (s : @p256_sig fx_p256).
Proof. intros Hl. cbn. unfold sized. rewrite Hl. cbn. by rewrite Hl. Qed.
Lemma fx_soft_laws : @SoftKeysLaws _ fx_soft_keys fx_hashes.
Proof.
  assert (∀ k m, length (ps_x k ++ toy_hash 9 m) = 64) as Hl.
  { intros [x Hx] m. apply Nat.eqb_eq in Hx as Hxl. injection Hxl as Hxl.
    cbn [ps_x]. rewrite length_app, Hxl. unfold toy_hash. by rewrite length_map, length_seq. }
  assert (∀ k m, default (ps_x k ++ toy_hash 9 m) (p256_normalize_s (ps_x k ++ toy_hash 9 m : @p256_sig fx_p256))
    = toy_low (ps_x k ++ toy_hash 9 m)) as Hd.
  { intros k m. cbn -[toy_low]. destruct (bytes_eqb _ _) eqn:E; [|done].
    by apply bytes_eqb_eq in E. }
  split.
  - intros g n. apply length_replicate.
  - intros k. cbn. unfold toy_key_of. destruct (decide _) as [Hk|[]]; [|apply key_len].
    f_equal. by apply toy_key_eq.
  - intros [b Hb]. cbn. apply Nat.eqb_eq in Hb. rewrite length_take, Hb. split; [lia|done].
  - intros k m s low. subst low. unfold s. cbn [signing_sign fx_soft_keys]. rewrite Hd.
    set (low := toy_low _).
    assert (length low = 64) as Hll by (unfold low, toy_low; by rewrite toy_last_length).
    assert (toy_low low = low) as Hlow by apply toy_low_idemp.
    split_and!.
    + cbn -[toy_low]. rewrite Hlow. by rewrite bytes_eqb_refl.
    + cbn -[toy_low toy_negate]. destruct (bytes_eqb _ _) eqn:E.
      * apply bytes_eqb_eq in E. by destruct (toy_negate_high low).
      * by rewrite toy_low_negate, Hlow.
    + by apply toy_der.
    + apply toy_der. change (length (toy_negate low) = 64). unfold toy_negate. by rewrite toy_last_length.
  - intros k m _ s low. exists false. subst low. unfold s. cbn [signing_sign fx_soft_keys]. rewrite Hd.
    set (h := sha256 m). set (g := ps_x k ++ toy_hash 9 m).
    assert (∃ other, toy_recover h g true = Ok other) as [other Ho].
    { unfold toy_recover, toy_key_of. destruct (decide _) as [Hk|[]]; [by eexists|].
      cbn [length]. unfold toy_hash. by rewrite length_map, length_seq. }
    exists other. change (toy_recover h (toy_low g) false = Ok (toy_p256_public k) ∧
      toy_recover h (toy_low g) true = Ok other). rewrite !toy_recover_low. split; [|done].
    unfold toy_recover, g. destruct k as [x Hx]. cbn [ps_x].
    rewrite take_app_length' by (apply Nat.eqb_eq in Hx as Hxl; cbn in Hxl; lia).
    unfold toy_key_of. destruct (decide _) as [Hk|[]]; [|exact Hx]. f_equal. by apply toy_key_eq.
Qed.
#[local] Existing Instance fx_soft_laws.
Definition my_passkey : SoftPasskey := new_seeded 1 "example.org".
Definition my_opts : AssertOpts := assert_opts sample_challenge "https://login.example.org".
Lemma soft_passkey_login_witness :
  (∃ r, verify_and_recover (soft_assert my_passkey (opts_high_s my_opts true))
    (DerivedLogin (sample_nonce 7) "https://node.example/app") sample_policy = Ok r) ∧
  signing_wraps (sp_key my_passkey) (opts_payload my_passkey my_opts) = false.
Proof.
  split; [|reflexivity].
  apply (proj1 (soft_passkey_login my_passkey my_opts
    (DerivedLogin (sample_nonce 7) "https://node.example/app") sample_policy (false, false) true
    eq_refl)).
  split; [reflexivity|]. split; [vm_refl|]. split; [|split; [discriminate|split; [vm_refl|intros _; vm_refl]]].
  destruct (entry_for_rp_id_hash sample_policy (sha256 (as_bytes (opts_rp_id my_passkey my_opts))))
    as [e|] eqn:E; [exists e; split; [reflexivity|]|].
  - revert E. vm_compute. intros [= <-]. reflexivity.
  - vm_compute in E. discriminate.
Defined.
End witnesses.
