(* ===== verification/Peer.v ===== *)
(** * A whole service: aqua-auth-testkit/src/lib.rs

    [AquaPeer] wires the stores, the replay guard and the key registry behind
    six handlers. The stores are shared by every clone of the router's state,
    so that state is threaded through the calls; axum's routing and extractors
    are outside the source, a request reaching a handler already taken apart.
    [peer_step] is the service as a sequential object. *)

From S2P Require Import Prelude Crates Fixtures Errors Keys Did Suites Aqua Methods DidFormat Principal Message Types Challenge SessionBackend Session Wire Signer HttpSigBase HttpSigReplay HttpSig Directory.

Definition StatusCode : Type := Z.
Definition BAD_REQUEST : StatusCode := 400%Z.
Definition UNAUTHORIZED : StatusCode := 401%Z.
Definition NOT_FOUND : StatusCode := 404%Z.
Definition INTERNAL_SERVER_ERROR : StatusCode := 500%Z.
Definition SERVICE_UNAVAILABLE : StatusCode := 503%Z.
Definition SESSION_TTL_SECS : Z := 3600.
Definition ADVERTISED_NBF : Z := 0.
Definition ADVERTISED_EXP : Z := 4102444800.

(** The headers of a request: [headers.get(name).and_then(to_str().ok())]. *)
Definition HeaderMap : Type := string → option string.
(** [Uri::authority] and [Uri::path]. *)
Record RequestUri : Type := { uri_authority : option string; uri_path : string }.
(** A served document: its headers and its body. *)
Record Served : Type := { sv_headers : list (string * string); sv_body : string }.

#[local] Existing Instance InMemoryBackend.

Section defs.
Context `{Ed25519, P256, K256, MlDsa, Base58, Base64, Hex, Hashes, Features, Chrono, Profile}.
Context `{Sfv, World, JsonWrite}.

Record AquaPeer : Type := {
  peer_name : string;
  peer_base_url : string;
  peer_signer : Signer;
  peer_challenges : ChallengeStore;
  peer_sessions : SessionStore;
  peer_replay_guard : NonceReplayGuard;
  peer_registry : KeyRegistry;
}.
(** A DID the directory cannot advertise leaves the registry empty. *)
Definition in_memory (name base_url : string) (challenge_ttl_secs : Z) (signer : Signer)
  : AquaPeer :=
  {| peer_name := name; peer_base_url := base_url; peer_signer := signer;
     peer_challenges := new_challenge_store challenge_ttl_secs name base_url;
     peer_sessions := new_session_store SESSION_TTL_SECS;
     peer_replay_guard := new_guard;
     peer_registry := (add new_registry {| ak_did := signer_did signer;
       ak_nbf := ADVERTISED_NBF; ak_exp := ADVERTISED_EXP |}).1 |}.
Definition is_authority_end (c : ascii) : bool :=
  Ascii.eqb c "/" || Ascii.eqb c "?" || Ascii.eqb c "#".
Definition authority (p : AquaPeer) : string :=
  let after_scheme := match split_once_str "://" (peer_base_url p) with
    | Some (_, rest) => rest | None => peer_base_url p end in
  default after_scheme (head (split_on is_authority_end after_scheme)).
Definition scheme_of (base_url : string) : string :=
  match split_once_str "://" base_url with
  | Some (scheme, _) => to_lower scheme
  | None => "http"
  end.

(** What the handlers share. *)
Record PeerState : Type := {
  ps_challenges : ChallengeStore;
  ps_sessions : SessionStore;
  ps_replay_guard : NonceReplayGuard;
  ps_registry : KeyRegistry;
  ps_scheme : string;
}.
Definition router (p : AquaPeer) : PeerState :=
  {| ps_challenges := peer_challenges p; ps_sessions := peer_sessions p;
     ps_replay_guard := peer_replay_guard p; ps_registry := peer_registry p;
     ps_scheme := scheme_of (peer_base_url p) |}.
Definition put_challenges (st : PeerState) (c : ChallengeStore) : PeerState :=
  {| ps_challenges := c; ps_sessions := ps_sessions st;
     ps_replay_guard := ps_replay_guard st; ps_registry := ps_registry st;
     ps_scheme := ps_scheme st |}.
Definition put_sessions (st : PeerState) (s : SessionStore) : PeerState :=
  {| ps_challenges := ps_challenges st; ps_sessions := s;
     ps_replay_guard := ps_replay_guard st; ps_registry := ps_registry st;
     ps_scheme := ps_scheme st |}.
Definition put_guard (st : PeerState) (g : NonceReplayGuard) : PeerState :=
  {| ps_challenges := ps_challenges st; ps_sessions := ps_sessions st;
     ps_replay_guard := g; ps_registry := ps_registry st; ps_scheme := ps_scheme st |}.

(** [GET /auth/challenge]. The randomness and the clocks are arguments. *)
Definition challenge_handler (st : PeerState) (query_did : option string)
    (clean_now : date_time) (nonce_bytes : bytes) (now : date_time)
  : PeerState * run (result ChallengeEnvelope StatusCode) :=
  match query_did with
  | None => (st, Returned (Err BAD_REQUEST))
  | Some did =>
      match find_did_method did with
      | None => (st, Returned (Err BAD_REQUEST))
      | Some _ =>
          let '(store, r) := Challenge.create (ps_challenges st) did clean_now nonce_bytes now in
          (put_challenges st store,
           match r with
           | Panicked => Panicked
           | Returned (Err _) => Returned (Err BAD_REQUEST)
           | Returned (Ok c) => Returned (Ok {| en_nonce := ch_nonce c;
               en_message := ch_message c; en_expires_at := ch_expires_at c |})
           end)
      end
  end.

(** A hex member of the body. *)
Definition hex_member (s : string) : result bytes StatusCode :=
  map_err (λ _, UNAUTHORIZED) (hex_decode (trim_start_matches "0x" s)).
(** The checks between the challenge and the session. *)
Definition authenticate_request (stored : Challenge) (request : WireSessionRequest)
  : result Principal StatusCode :=
  if negb (String.eqb (ch_did stored) (wr_did request)) then Err UNAUTHORIZED
  else
  let? signature := hex_member (wr_signature request) in
  let? public_key := match wr_public_key request with
    | Some hex_pk => map_ok Some (hex_member hex_pk)
    | None => Ok None
    end in
  map_err (λ _, UNAUTHORIZED)
    (authenticate_with_public_key (wr_did request) (ch_message stored) signature public_key).
(** [POST /auth/session]. *)
Definition session_handler (st : PeerState) (request : WireSessionRequest)
    (challenge_now clean_now : date_time) (token_bytes : bytes) (now : date_time)
  : PeerState * run (result SessionResponse StatusCode) :=
  let '(store, r) := Challenge.validate (ps_challenges st) (wr_nonce request) challenge_now in
  let st := put_challenges st store in
  match r with
  | Err ChallengeNotFound => (st, Returned (Err NOT_FOUND))
  | Err _ => (st, Returned (Err UNAUTHORIZED))
  | Ok stored =>
      match authenticate_request stored request with
      | Err e => (st, Returned (Err e))
      | Ok principal =>
          let '(sessions, r) := Session.create (ps_sessions st) (principal_did principal)
            clean_now token_bytes now in
          (put_sessions st sessions,
           match r with
           | Panicked => Panicked
           | Returned (Err _) => Returned (Err SERVICE_UNAVAILABLE)
           | Returned (Ok s) => Returned (Ok {| rp_did := se_did s; rp_token := se_token s;
               rp_valid_until := se_valid_until s; rp_created_at := se_created_at s |})
           end)
      end
  end.

Definition bearer_token (headers : HeaderMap) : option string :=
  v ← headers "authorization"; strip_prefix "Bearer " v.
(** [GET /whoami]: the [did] member of the answer. *)
Definition whoami_handler (st : PeerState) (headers : HeaderMap) (now : date_time)
  : PeerState * result string StatusCode :=
  match bearer_token headers with
  | None => (st, Err UNAUTHORIZED)
  | Some token =>
      let '(sessions, r) := Session.validate (ps_sessions st) token now in
      (put_sessions st sessions, map_err (λ _, UNAUTHORIZED) r)
  end.

(** The request as received, for the signature base. *)
Definition received_parts (st : PeerState) (method : string) (uri : RequestUri)
    (headers : HeaderMap) : result RequestParts StatusCode :=
  let? auth := ok_or (match headers "host" with
    | Some host => Some host
    | None => uri_authority uri
    end) BAD_REQUEST in
  let parts := request_parts method (ps_scheme st +:+ "://" +:+ auth +:+ uri_path uri) in
  Ok (match headers "signature-agent" with
      | Some agent => with_signature_agent parts agent
      | None => parts
      end).
(** [GET /sig/whoami]. *)
Definition sig_whoami_handler (st : PeerState) (method : string) (uri : RequestUri)
    (headers : HeaderMap) (now : Z) : PeerState * result string StatusCode :=
  match received_parts st method uri headers with
  | Err e => (st, Err e)
  | Ok parts =>
      match headers "signature-input", headers "signature" with
      | Some signature_input, Some signature =>
          let options := with_replay_guard aqua_internal (ps_replay_guard st) in
          let '(guard, r) := verify_request_at parts signature_input signature options now in
          (put_guard st (default (ps_replay_guard st) guard),
           map_ok principal_did (map_err (λ _, UNAUTHORIZED) r))
      | _, _ => (st, Err UNAUTHORIZED)
      end
  end.

Definition serve_document (document : result DirectoryDocument DirectoryError)
  : result Served StatusCode :=
  let? d := map_err (λ _, INTERNAL_SERVER_ERROR) document in
  Ok {| sv_headers := [("content-type", doc_content_type d);
                       ("cache-control", doc_cache_control d)];
        sv_body := doc_body d |}.
Definition jwks_handler (st : PeerState) (now : Z) : result Served StatusCode :=
  serve_document (render_jwks (ps_registry st) now).
Definition aqua_identity_handler (st : PeerState) (now : Z) : result Served StatusCode :=
  serve_document (render_aqua_identity (ps_registry st) now).

(** ** The service as a sequential object *)

Inductive PeerOp : Type :=
| GetChallenge (did : option string) (clean_now : date_time) (nonce_bytes : bytes) (now : date_time)
| PostSession (request : WireSessionRequest) (challenge_now clean_now : date_time)
    (token_bytes : bytes) (now : date_time)
| GetWhoami (headers : HeaderMap) (now : date_time)
| GetSigWhoami (method : string) (uri : RequestUri) (headers : HeaderMap) (now : Z)
| GetJwks (now : Z)
| GetAquaIdentity (now : Z).
Inductive PeerOut : Type :=
| GaveChallenge (did : option string) (r : run (result ChallengeEnvelope StatusCode))
| GaveSession (request : WireSessionRequest) (r : run (result SessionResponse StatusCode))
| GaveWhoami (headers : HeaderMap) (now : date_time) (r : result string StatusCode)
| GaveSigWhoami (headers : HeaderMap) (r : result string StatusCode)
| GaveDocument (r : result Served StatusCode).
Definition peer_step (st : PeerState) (op : PeerOp) : PeerState * PeerOut :=
  match op with
  | GetChallenge did clean nb now =>
      let '(st', r) := challenge_handler st did clean nb now in (st', GaveChallenge did r)
  | PostSession req cnow clean tb now =>
      let '(st', r) := session_handler st req cnow clean tb now in (st', GaveSession req r)
  | GetWhoami headers now =>
      let '(st', r) := whoami_handler st headers now in (st', GaveWhoami headers now r)
  | GetSigWhoami method uri headers now =>
      let '(st', r) := sig_whoami_handler st method uri headers now in
      (st', GaveSigWhoami headers r)
  | GetJwks now => (st, GaveDocument (jwks_handler st now))
  | GetAquaIdentity now => (st, GaveDocument (aqua_identity_handler st now))
  end.
Fixpoint peer_run (st : PeerState) (ops : list PeerOp) : PeerState * list PeerOut :=
  match ops with
  | [] => (st, [])
  | op :: ops' =>
      let '(st1, out) := peer_step st op in
      let '(st2, outs) := peer_run st1 ops' in (st2, out :: outs)
  end.

(** What the answers so far show: a challenge was handed out for a DID, and
    the sender of a request proved possession of the key behind its DID over
    the message of a challenge handed out for that DID. *)
Definition handed_out (outs : list PeerOut) (did nonce message : string) : Prop :=
  ∃ env, GaveChallenge (Some did) (Returned (Ok env)) ∈ outs ∧
    en_nonce env = nonce ∧ en_message env = message.
Definition proven (outs : list PeerOut) (req : WireSessionRequest) : Prop :=
  ∃ message sig pk, handed_out outs (wr_did req) (wr_nonce req) message ∧
    hex_decode (trim_start_matches "0x" (wr_signature req)) = Ok sig ∧
    validate_did_well_formed (wr_did req) = Ok tt ∧
    verify_caip122_with_public_key (wr_did req) message sig pk = Ok true.
(** How a stored session came to be. *)
Definition granted (outs : list PeerOut) (s : Session) : Prop :=
  ∃ req resp, GaveSession req (Returned (Ok resp)) ∈ outs ∧ proven outs req ∧
    wr_did req = se_did s ∧ rp_did resp = se_did s ∧ rp_token resp = se_token s ∧
    rp_valid_until resp = se_valid_until s.
Definition peer_ok (outs : list PeerOut) (st : PeerState) : Prop :=
  map_Forall (λ n c, handed_out outs (ch_did c) n (ch_message c))
    (cst_challenges (ps_challenges st)) ∧
  Session.ok (ps_sessions st) ∧
  map_Forall (λ t s, se_token s = t ∧ granted outs s) (Session.view (ps_sessions st)).
End defs.

Section proofs.
Context `{Ed25519, P256, K256, MlDsa, Base58, Base64, Hex, Hashes, Features, Chrono, Profile}.
Context `{Sfv, World, JsonWrite}.

Lemma handed_out_mono outs outs' did n m :
  outs ⊆ outs' → handed_out outs did n m → handed_out outs' did n m.
Proof. intros Hs (env & Hin & ?). exists env. split; [by apply Hs|done]. Qed.
Lemma proven_mono outs outs' req : outs ⊆ outs' → proven outs req → proven outs' req.
Proof.
  intros Hs (m & sig & pk & Hh & ?). exists m, sig, pk.
  split; [by eapply handed_out_mono|done].
Qed.
Lemma granted_mono outs outs' s : outs ⊆ outs' → granted outs s → granted outs' s.
Proof.
  intros Hs (req & resp & Hin & Hp & ?). exists req, resp.
  split; [by apply Hs|]. split; [by eapply proven_mono|done].
Qed.
Lemma peer_ok_mono outs outs' st : outs ⊆ outs' → peer_ok outs st → peer_ok outs' st.
Proof.
  intros Hs (Hc & Hok & Hv). split; [|split; [done|]].
  - eapply map_Forall_impl; [exact Hc|]. intros n c Hh. by eapply handed_out_mono.
  - eapply map_Forall_impl; [exact Hv|]. intros t s [? ?]. split; [done|]. by eapply granted_mono.
Qed.
Lemma peer_ok_new name base ttl signer : peer_ok [] (router (in_memory name base ttl signer)).
Proof.
  split; [apply map_Forall_empty|]. split; [exact keyed_empty|].
  intros t s Hl. by destruct (lookup_empty_Some (M := gmap string) t s Hl).
Qed.

(** ** The handlers, when they grant *)

Lemma authenticate_request_Ok stored req p : authenticate_request stored req = Ok p →
  p = mk_principal (wr_did req) ∧ ch_did stored = wr_did req ∧
  ∃ sig pk, hex_decode (trim_start_matches "0x" (wr_signature req)) = Ok sig ∧
    validate_did_well_formed (wr_did req) = Ok tt ∧
    verify_caip122_with_public_key (wr_did req) (ch_message stored) sig pk = Ok true.
Proof.
  unfold authenticate_request, hex_member.
  destruct (String.eqb_spec (ch_did stored) (wr_did req)) as [Hd|]; [|done]. cbn [negb].
  destruct (hex_decode _) as [sig|]; [|done]. cbn [map_err].
  destruct (match wr_public_key req with Some _ => _ | None => _ end) as [pk|]; [|done].
  destruct (authenticate_with_public_key _ _ _ _) as [p'|] eqn:Ea; [|done].
  cbn [map_err]. intros [= <-]. apply authenticate_spec in Ea as (-> & Hv & Hs). eauto 10.
Qed.
Lemma session_handler_Ok st req cnow clean tb now st' resp :
  session_handler st req cnow clean tb now = (st', Returned (Ok resp)) →
  ∃ stored p sessions s,
    cst_challenges (ps_challenges st) !! wr_nonce req = Some stored ∧
    authenticate_request stored req = Ok p ∧
    Session.create (ps_sessions st) (principal_did p) clean tb now
      = (sessions, Returned (Ok s)) ∧
    resp = {| rp_did := se_did s; rp_token := se_token s;
      rp_valid_until := se_valid_until s; rp_created_at := se_created_at s |}.
Proof.
  unfold session_handler. destruct (Challenge.validate _ _ _) as [store r] eqn:Ev.
  destruct r as [stored|[]]; try done. apply validate_Ok in Ev as (Hl & _ & _).
  destruct (authenticate_request stored req) as [p|] eqn:Ea; [|done]. cbn [ps_sessions put_challenges].
  destruct (Session.create _ _ _ _ _) as [sessions [[s|]|]] eqn:Ec; try done.
  intros [= _ <-]. by exists stored, p, sessions, s.
Qed.

(** ** One call keeps the history true *)

Lemma challenge_handler_ok outs st did clean nb now : peer_ok outs st →
  let '(st', r) := challenge_handler st did clean nb now in
  peer_ok (outs ++ [GaveChallenge did r]) st'.
Proof.
  intros Hp. unfold challenge_handler.
  assert (∀ o, peer_ok (outs ++ [o]) st) as Hsame
    by (intros o; eapply peer_ok_mono; [|exact Hp]; set_solver).
  destruct did as [did|]; [|done]. destruct (find_did_method did); [|done].
  destruct (Challenge.create _ _ _ _ _) as [store r] eqn:Ec.
  specialize (Hsame (GaveChallenge (Some did) match r with
    | Panicked => Panicked
    | Returned (Err _) => Returned (Err BAD_REQUEST)
    | Returned (Ok c) => Returned (Ok {| en_nonce := ch_nonce c;
               en_message := ch_message c; en_expires_at := ch_expires_at c |}) end)).
  destruct Hsame as (Hc & Hs & Hv). split; [|by split]. intros n c Hl.
  pose proof (ch_step_known (ps_challenges st) (OpCreate did clean nb now) n c) as Hk.
  cbn [ch_step] in Hk. rewrite Ec in Hk. cbn [fst snd] in Hk.
  destruct (Hk Hl) as [Hold|[[= ->] <-]]; [by apply Hc|].
  apply create_Ok in Ec as (_ & ex & _ & _ & Hcc & _). rewrite Hcc. cbn [ch_did].
  eexists. split; [apply elem_of_app; right; by left|]. by rewrite Hcc.
Qed.
Lemma validate_ok outs st n now : peer_ok outs st →
  peer_ok outs (put_challenges st (Challenge.validate (ps_challenges st) n now).1).
Proof.
  intros (Hc & Hs & Hv). split; [|by split]. intros n' c Hl. apply Hc.
  cbn [put_challenges ps_challenges] in Hl. rewrite validate_consumes in Hl.
  by apply lookup_delete_Some in Hl as [_ ?].
Qed.
Lemma create_session_ok outs st did clean tb now sessions r : peer_ok outs st →
  Session.create (ps_sessions st) did clean tb now = (sessions, r) →
  (∀ s, r = Returned (Ok s) → granted outs s) →
  peer_ok outs (put_sessions st sessions).
Proof.
  intros (Hc & Hs & Hv) Ec Hg. split; [done|]. cbn [put_sessions ps_sessions].
  pose proof (λ t s, s_step_origin (ps_sessions st) (SCreate did clean tb now) t s Hs) as Ho.
  cbn [s_step] in Ho. rewrite Ec in Ho. cbn [fst snd] in Ho. split; [apply (Ho "" inhabitant)|].
  intros t s Hl. destruct (Ho t s) as [_ Hor]. destruct (Hor Hl) as [Hold|[[= ->] <-]].
  - by apply Hv.
  - split; [done|]. by apply Hg.
Qed.
Lemma validate_session_ok outs st t now : peer_ok outs st →
  peer_ok outs (put_sessions st (Session.validate (ps_sessions st) t now).1).
Proof.
  intros (Hc & Hs & Hv). split; [done|]. cbn [put_sessions ps_sessions].
  pose proof (λ t' s, s_step_origin (ps_sessions st) (SValidate t now) t' s Hs) as Ho.
  cbn [s_step] in Ho. destruct (Session.validate (ps_sessions st) t now) as [st' r].
  cbn [fst snd] in *. split; [apply (Ho "" inhabitant)|]. intros t' s Hl.
  destruct (Ho t' s) as [_ Hor]. destruct (Hor Hl) as [Hold|[[=] _]]. by apply Hv.
Qed.
Lemma session_handler_ok outs st req cnow clean tb now : peer_ok outs st →
  let '(st', r) := session_handler st req cnow clean tb now in
  peer_ok (outs ++ [GaveSession req r]) st'.
Proof.
  intros Hp. destruct (session_handler st req cnow clean tb now) as [st' r] eqn:Eh.
  pose proof Eh as Eg. unfold session_handler in Eh.
  apply (peer_ok_mono outs (outs ++ [GaveSession req r])) in Hp; [|set_solver].
  pose proof (validate_ok _ st (wr_nonce req) cnow Hp) as Hp1.
  destruct (Challenge.validate _ _ _) as [store rc] eqn:Ev. cbn [fst] in Hp1.
  destruct rc as [stored|[]]; cbn in Eh; try by injection Eh as <- _.
  destruct (authenticate_request stored req) as [p|] eqn:Ea; [|by injection Eh as <- _].
  destruct (Session.create _ _ _ _ _) as [sessions rs] eqn:Ec. injection Eh as <- Hr.
  eapply (create_session_ok _ (put_challenges st store)); [done|exact Ec|].
  intros s ->. subst r. exists req. eexists. split; [apply elem_of_app; right; by left|].
  apply validate_Ok in Ev as (Hl & _ & _).
  apply authenticate_request_Ok in Ea as (-> & Hd & sig & pk & Hs & Hw & Hver).
  split.
  - exists (ch_message stored), sig, pk. split; [|done]. rewrite <- Hd. by apply Hp.
  - cbn. split; [|done]. unfold Session.create in Ec. cbn [principal_did] in Ec.
    repeat (case_match; simplify_eq/=; try done).
Qed.
Lemma peer_step_ok outs st op : peer_ok outs st →
  peer_ok (outs ++ [(peer_step st op).2]) (peer_step st op).1.
Proof.
  intros Hp. assert (∀ o, peer_ok (outs ++ [o]) st) as Hsame
    by (intros o; eapply peer_ok_mono; [|exact Hp]; set_solver).
  destruct op as [did clean nb now|req cnow clean tb now|h now|m u h now|now|now]; cbn [peer_step].
  - pose proof (challenge_handler_ok outs st did clean nb now Hp) as Hh.
    by destruct (challenge_handler st did clean nb now).
  - pose proof (session_handler_ok outs st req cnow clean tb now Hp) as Hh.
    by destruct (session_handler st req cnow clean tb now).
  - unfold whoami_handler. destruct (bearer_token h) as [t|]; [|apply Hsame].
    pose proof (validate_session_ok _ st t now (Hsame (GaveWhoami h now
      (map_err (λ _, UNAUTHORIZED) (Session.validate (ps_sessions st) t now).2)))) as Hv.
    by destruct (Session.validate (ps_sessions st) t now).
  - unfold sig_whoami_handler. repeat case_match; simplify_eq; apply Hsame.
  - apply Hsame.
  - apply Hsame.
Qed.
Lemma peer_run_whoami outs st ops pre h now did post : peer_ok outs st →
  (peer_run st ops).2 = pre ++ GaveWhoami h now (Ok did) :: post →
  ∃ st', peer_ok (outs ++ pre) st' ∧ (whoami_handler st' h now).2 = Ok did.
Proof.
  revert outs st pre. induction ops as [|op ops IH]; intros outs st pre Hp; cbn [peer_run].
  { by intros ?%app_cons_not_nil. }
  pose proof (peer_step_ok outs st op Hp) as Hp1.
  destruct (peer_step st op) as [st1 o] eqn:Es. specialize (IH (outs ++ [o]) st1).
  destruct (peer_run st1 ops) as [st2 os]. cbn [fst snd] in *. intros Heq.
  destruct pre as [|o' pre]; cbn in Heq; injection Heq as -> Heq.
  - exists st. rewrite app_nil_r. split; [done|].
    destruct op as [d clean nb nw|req cnow clean tb nw|h' nw|m u h' nw|nw|nw]; cbn [peer_step] in Es.
    + by destruct (challenge_handler _ _ _ _ _).
    + by destruct (session_handler _ _ _ _ _ _).
    + destruct (whoami_handler st h' nw) as [? r] eqn:E. injection Es as <- <- <- ->. by rewrite E.
    + by destruct (sig_whoami_handler _ _ _ _ _).
    + done.
    + done.
  - destruct (IH pre Hp1 Heq) as (st' & Hst & ?). exists st'. split; [|done].
    by rewrite <- app_assoc in Hst.
Qed.
Lemma whoami_Ok outs st h now did : peer_ok outs st → (whoami_handler st h now).2 = Ok did →
  ∃ s, h "authorization" = Some ("Bearer " +:+ se_token s) ∧ se_did s = did ∧
    (now_secs now < se_valid_until s)%Z ∧ granted outs s.
Proof.
  intros (_ & Hs & Hv). unfold whoami_handler, bearer_token.
  destruct (h "authorization") as [v|]; [|done]. cbn [option_bind mbind].
  destruct (strip_prefix "Bearer " v) as [t|] eqn:Et; [|done].
  apply strip_prefix_Some in Et as ->.
  pose proof (validate_refines_spec (ps_sessions st) t now Hs) as Hr.
  destruct (Session.validate (ps_sessions st) t now) as [ss r]. destruct Hr as (_ & _ & Hr).
  cbn [snd]. destruct r as [d|e]; [|done]. cbn [map_err]. intros [= <-].
  unfold spec_validate in Hr. destruct (view (ps_sessions st) !! t) as [s|] eqn:El; [|done].
  destruct (_ <=? _)%Z eqn:E; [done|]. bool_simpl. injection Hr as _ ->.
  destruct (Hv t s El) as [<- Hg]. by exists s.
Qed.
End proofs.

Section properties.
Context `{Ed25519, P256, K256, MlDsa, Base58, Base64, Hex, Hashes, Features, Chrono, Profile}.
Context `{Sfv, World, JsonWrite}.

(** C1: the service names nobody who did not prove it. In any sequence of
    requests to a freshly started peer, [/whoami] answers with a DID only to
    the bearer of a token that an earlier [/auth/session] answer carried for
    that DID and that has not expired; and the request so answered was signed
    by the key of that DID over the very message an earlier [/auth/challenge]
    answer handed out, under that nonce, for that DID. *)
Theorem whoami_authentic name base ttl signer ops pre headers now did post :
  (peer_run (router (in_memory name base ttl signer)) ops).2
    = pre ++ GaveWhoami headers now (Ok did) :: post →
  ∃ req resp env sig pk,
    headers "authorization" = Some ("Bearer " +:+ rp_token resp) ∧
    (now_secs now < rp_valid_until resp)%Z ∧ rp_did resp = did ∧ wr_did req = did ∧
    GaveSession req (Returned (Ok resp)) ∈ pre ∧
    GaveChallenge (Some did) (Returned (Ok env)) ∈ pre ∧ en_nonce env = wr_nonce req ∧
    hex_decode (trim_start_matches "0x" (wr_signature req)) = Ok sig ∧
    validate_did_well_formed did = Ok tt ∧
    verify_caip122_with_public_key did (en_message env) sig pk = Ok true.
Proof.
  intros (st & Hp & Hw)%(peer_run_whoami []); [|apply peer_ok_new].
  destruct (whoami_Ok _ _ _ _ _ Hp Hw) as
    (s & Hh & <- & Hl & req & resp & Hin & (m & sig & pk & (env & Henv & Hn & <-) & Hs & Hwf & Hv)
      & Hd & Hrd & Ht & Hu).
  rewrite Hd in *. exists req, resp, env, sig, pk. rewrite Ht, Hu. done.
Qed.
End properties.

Section witnesses.
Import Fixtures.Instances.

Definition node : AquaPeer :=
  in_memory "aqua-node" "https://node.example" 300 (FnSigner sample_key_did (λ m, Ok (sample_sign m))).
Definition get_challenge : PeerOp :=
  GetChallenge (Some sample_key_did) (sample_time 0) (sample_nonce 1) (sample_time 0).
Definition handed_message : string :=
  match (peer_step (router node) get_challenge).2 with
  | GaveChallenge _ (Returned (Ok env)) => en_message env
  | _ => EmptyString
  end.
Definition bearer (token : string) : HeaderMap := λ name,
  if String.eqb name "authorization" then Some ("Bearer " +:+ token) else None.
Definition node_token : bytes := replicate 32 Byte.x07.
Definition node_visit : list PeerOp :=
  [get_challenge;
   PostSession {| wr_did := sample_key_did; wr_nonce := nonce_text (sample_nonce 1);
     wr_signature := "0x" +:+ hex_encode (sample_sign handed_message); wr_public_key := None |}
     (sample_time 60) (sample_time 60) node_token (sample_time 60);
   GetWhoami (bearer (hex_encode node_token)) (sample_time 3000)].
Definition node_answers : list PeerOut := (peer_run (router node) node_visit).2.
Lemma whoami_authentic_witness :
  ∃ req env sig pk, wr_did req = sample_key_did ∧ en_nonce env = wr_nonce req ∧
    GaveChallenge (Some sample_key_did) (Returned (Ok env)) ∈ take 2 node_answers ∧
    verify_caip122_with_public_key sample_key_did (en_message env) sig pk = Ok true.
Proof.
  destruct (whoami_authentic "aqua-node" "https://node.example" 300
    (FnSigner sample_key_did (λ m, Ok (sample_sign m))) node_visit (take 2 node_answers)
    (bearer (hex_encode node_token)) (sample_time 3000) sample_key_did [])
    as (req & resp & env & sig & pk & _ & _ & _ & Hd & _ & Hc & Hn & _ & _ & Hv).
  { vm_refl. }
  exists req, env, sig, pk. split; [exact Hd|]. split; [exact Hn|]. split; [exact Hc|exact Hv].
Defined.
End witnesses.
