(* ===== verification/PeerCalls.v ===== *)
(** * Concurrent requests to a whole service: aqua-auth-testkit/src/lib.rs

    The six handlers of Peer.v as concurrent requests run them: every access to
    the challenge store, the session store or the replay guard is a step. The
    documents come from a registry that no request changes. *)

From S2P Require Import Prelude Interleave SharedMap Locks Crates Fixtures Errors Keys Did Suites Aqua Methods DidFormat Principal Message Types Challenge ChallengeCalls SessionBackend Session SessionCalls Wire Signer HttpSigBase HttpSigReplay HttpSig GuardCalls Directory Peer.

#[local] Existing Instance InMemoryBackend.

(** The challenges, the sessions, the nonces seen. *)
Abbreviation store_maps := (shared Challenge * shared Session * shared Z)%type.
Definition on_challenges {R} : Prog (shared Challenge) R → Prog store_maps R :=
  zoom 0 (λ ms, ms.1.1) (λ c ms, (c, ms.1.2, ms.2)).
Definition on_sessions {R} : Prog (shared Session) R → Prog store_maps R :=
  zoom 1 (λ ms, ms.1.2) (λ s ms, (ms.1.1, s, ms.2)).
Definition on_seen {R} : Prog (shared Z) R → Prog store_maps R :=
  zoom 2 snd (λ n ms, (ms.1, n)).

Section defs.
Context `{Ed25519, P256, K256, MlDsa, Base58, Base64, Hex, Hashes, Features, Chrono, Profile}.
Context `{Sfv, World, JsonWrite}.
Context `{CS : ChallengeShards, SS : SessionShards, GS : GuardShards}.

(** [st] stands for what no request changes. *)
Definition challenge_request (st : PeerState) (query_did : option string)
    (clean_now : date_time) (nonce_bytes : bytes) (now : date_time)
  : Prog store_maps (run (result ChallengeEnvelope StatusCode)) :=
  match query_did with
  | None => Ret (Returned (Err BAD_REQUEST))
  | Some did =>
      match find_did_method did with
      | None => Ret (Returned (Err BAD_REQUEST))
      | Some _ =>
          r ← on_challenges
            (ChallengeCalls.create_call (ps_challenges st) did clean_now nonce_bytes now);
          Ret match r with
              | Panicked => Panicked
              | Returned (Err _) => Returned (Err BAD_REQUEST)
              | Returned (Ok c) => Returned (Ok {| en_nonce := ch_nonce c;
                  en_message := ch_message c; en_expires_at := ch_expires_at c |})
              end
      end
  end.
Definition session_request (st : PeerState) (request : WireSessionRequest)
    (challenge_now clean_now : date_time) (token_bytes : bytes) (now : date_time)
  : Prog store_maps (run (result SessionResponse StatusCode)) :=
  r ← on_challenges (ChallengeCalls.validate_call (wr_nonce request) challenge_now);
  match r with
  | Err ChallengeNotFound => Ret (Returned (Err NOT_FOUND))
  | Err _ => Ret (Returned (Err UNAUTHORIZED))
  | Ok stored =>
      match authenticate_request stored request with
      | Err e => Ret (Returned (Err e))
      | Ok principal =>
          r ← on_sessions (SessionCalls.create_call (ps_sessions st) (principal_did principal)
            clean_now token_bytes now);
          Ret match r with
              | Panicked => Panicked
              | Returned (Err _) => Returned (Err SERVICE_UNAVAILABLE)
              | Returned (Ok s) => Returned (Ok {| rp_did := se_did s; rp_token := se_token s;
                  rp_valid_until := se_valid_until s; rp_created_at := se_created_at s |})
              end
      end
  end.
Definition whoami_request (headers : HeaderMap) (now : date_time)
  : Prog store_maps (result string StatusCode) :=
  match bearer_token headers with
  | None => Ret (Err UNAUTHORIZED)
  | Some token =>
      r ← on_sessions (SessionCalls.validate_call token now);
      Ret (map_err (λ _, UNAUTHORIZED) r)
  end.

Definition sig_whoami_request (st : PeerState) (method : string) (uri : RequestUri)
    (headers : HeaderMap) (now : Z) : Prog store_maps (result string StatusCode) :=
  match received_parts st method uri headers with
  | Err e => Ret (Err e)
  | Ok parts =>
      match headers "signature-input", headers "signature" with
      | Some signature_input, Some signature =>
          let options := with_replay_guard aqua_internal (ps_replay_guard st) in
          r ← on_seen (verify_call parts signature_input signature options now);
          Ret (map_ok principal_did (map_err (λ _, UNAUTHORIZED) r))
      | _, _ => Ret (Err UNAUTHORIZED)
      end
  end.
Definition peer_request (st : PeerState) (op : PeerOp) : Prog store_maps PeerOut :=
  match op with
  | GetChallenge did clean nb now =>
      r ← challenge_request st did clean nb now; Ret (GaveChallenge did r)
  | PostSession req cnow clean tb now =>
      r ← session_request st req cnow clean tb now; Ret (GaveSession req r)
  | GetWhoami headers now => r ← whoami_request headers now; Ret (GaveWhoami headers now r)
  | GetSigWhoami method uri headers now =>
      r ← sig_whoami_request st method uri headers now; Ret (GaveSigWhoami headers r)
  | GetJwks now => Ret (GaveDocument (jwks_handler st now))
  | GetAquaIdentity now => Ret (GaveDocument (aqua_identity_handler st now))
  end.

(** The sender of a session request holds a signature, by the key of the DID it
    names, over a message this service builds for that DID and that nonce. *)
Definition can_prove (st : PeerState) (req : WireSessionRequest) : Prop :=
  ∃ issued expires message sig pk,
    build_message {| mp_did := wr_did req; mp_domain := cst_domain (ps_challenges st);
      mp_uri := cst_uri (ps_challenges st); mp_nonce := wr_nonce req; mp_issued_at := issued;
      mp_expiration_time := expires |} = Ok message ∧
    hex_decode (trim_start_matches "0x" (wr_signature req)) = Ok sig ∧
    verify_caip122_with_public_key (wr_did req) message sig pk = Ok true.
(** The sender of a signed request holds a signature, by the key of the DID, over
    the base this service rebuilds from the request and its parameters. *)
Definition can_sign (st : PeerState) (method : string) (uri : RequestUri) (headers : HeaderMap)
    (did : string) : Prop :=
  ∃ parts input signature label params sig base,
    received_parts st method uri headers = Ok parts ∧
    headers "signature-input" = Some input ∧ headers "signature" = Some signature ∧
    parse_signature_input input = Ok (label, params) ∧ sp_keyid params = did ∧
    parse_signature signature label = Ok sig ∧ build_signature_base parts params = Ok base ∧
    verify_caip122_with_public_key did base sig None = Ok true.
(** A request that shows the key of a DID. *)
Definition speaks_for (st : PeerState) (did : string) (op : PeerOp) : Prop :=
  match op with
  | PostSession req _ _ _ _ => wr_did req = did ∧ can_prove st req
  | GetSigWhoami method uri headers _ => can_sign st method uri headers did
  | _ => False
  end.
Definition names (did : string) (o : PeerOut) : bool :=
  match o with
  | GaveWhoami _ _ (Ok d) | GaveSigWhoami _ (Ok d) => String.eqb d did
  | _ => false
  end.
(** The nonce of a signed request that was answered. *)
Definition honoured_nonce (o : PeerOut) : option string :=
  match o with
  | GaveSigWhoami headers (Ok _) => input ← headers "signature-input"; presented_nonce input
  | _ => None
  end.
(** How many answers granted a session for a nonce and a DID of the class, and
    how many handed out a challenge for one. *)
Definition grants_any (P : string → string → bool) (o : PeerOut) : nat :=
  match o with
  | GaveSession req (Returned (Ok _)) => if P (wr_nonce req) (wr_did req) then 1 else 0
  | _ => 0
  end.
Definition hands_any (P : string → string → bool) (o : PeerOut) : nat :=
  match o with
  | GaveChallenge (Some did) (Returned (Ok env)) => if P (en_nonce env) did then 1 else 0
  | _ => 0
  end.
End defs.

Section proofs.
Context `{Ed25519, P256, K256, MlDsa, Base58, Base64, Hex, Hashes, Features, Chrono, Profile}.
Context `{Sfv, World, JsonWrite}.
Context `{CS : ChallengeShards, SS : SessionShards, GS : GuardShards}.

(** ** Nobody is named who cannot prove it *)

Section impostor.
Context (st : PeerState) (did : string).
Definition is_did (t d : string) : bool := String.eqb d did.
Definition nobody_yet (ms : store_maps) : Prop :=
  stored_ok (ps_challenges st) ms.1.1 ∧ holds_none is_did ms.1.2.

Lemma on_challenges_keeps {R} (p : Prog (shared Challenge) R) Q :
  keeps (stored_ok (ps_challenges st)) p Q → keeps nobody_yet (on_challenges p) Q.
Proof. apply keeps_zoom; [by intros ms []|by intros ms c []]. Qed.
Lemma on_sessions_keeps {R} (p : Prog (shared Session) R) Q :
  keeps (holds_none is_did) p Q → keeps nobody_yet (on_sessions p) Q.
Proof. apply keeps_zoom; [by intros ms []|by intros ms s []]. Qed.

Lemma on_seen_keeps {R} (p : Prog (shared Z) R) Q :
  keeps (λ _, True) p Q → keeps nobody_yet (on_seen p) Q.
Proof. by apply keeps_zoom. Qed.

Lemma challenge_request_keeps d clean nb now :
  keeps nobody_yet (challenge_request st d clean nb now) (λ _, True).
Proof.
  unfold challenge_request. destruct d as [d|]; [|done]. destruct (find_did_method d); [|done].
  apply keeps_bind, on_challenges_keeps. eapply keeps_mono; [apply create_keeps|done].
Qed.
Lemma session_request_keeps req cnow clean tb now : (wr_did req = did → ¬ can_prove st req) →
  keeps nobody_yet (session_request st req cnow clean tb now) (λ _, True).
Proof.
  intros Hno. apply keeps_bind, on_challenges_keeps.
  eapply keeps_mono; [apply (validate_keeps (ps_challenges st))|].
  intros [stored|[]]; try done. intros [(Hn & Hw & issued & ex & Hm & _) _].
  destruct (authenticate_request stored req) as [p|] eqn:Ea; [|done].
  apply authenticate_request_Ok in Ea as (-> & Hd & sig & pk & Hs & _ & Hv).
  apply keeps_bind, on_sessions_keeps. eapply keeps_mono; [apply create_quiet|done].
  apply String.eqb_neq. intros Heq. apply (Hno Heq). rewrite Hd in Hm.
  by exists issued, ex, (ch_message stored), sig, pk.
Qed.
Lemma whoami_request_keeps headers now :
  keeps nobody_yet (whoami_request headers now)
    (λ r, names did (GaveWhoami headers now r) = false).
Proof.
  unfold whoami_request. destruct (bearer_token headers) as [t|]; [|done].
  apply keeps_bind, on_sessions_keeps. eapply keeps_mono; [apply validate_quiet|].
  by intros [d|e].
Qed.
Lemma sig_whoami_request_keeps method uri headers now :
  ¬ can_sign st method uri headers did →
  keeps nobody_yet (sig_whoami_request st method uri headers now)
    (λ r, names did (GaveSigWhoami headers r) = false).
Proof.
  intros Hno. unfold sig_whoami_request.
  destruct (received_parts _ _ _ _) as [parts|] eqn:Hparts; [|done].
  destruct (headers "signature-input") as [input|] eqn:Hi; [|done].
  destruct (headers "signature") as [signature|] eqn:Hs; [|done].
  apply keeps_bind, on_seen_keeps. eapply keeps_mono; [apply verify_keeps|].
  intros [pr|e]; [|done]. intros (p & (l & b & base & Hp & Hb & _ & _ & _ & _ & _ & Hbase & Ha)
    %verify_headers_Ok). apply authenticate_spec in Ha as (-> & _ & Hv).
  cbn. apply String.eqb_neq. intros Heq. cbn in Heq. apply Hno. rewrite <- Heq.
  by exists parts, input, signature, l, p, b, base.
Qed.
Lemma peer_request_keeps op : ¬ speaks_for st did op →
  keeps nobody_yet (peer_request st op) (λ o, names did o = false).
Proof.
  intros Hno. destruct op as [d clean nb now|req cnow clean tb now|h now|m u h now|now|now];
    [apply keeps_bind..|done|done].
  - eapply keeps_mono; [apply challenge_request_keeps|done].
  - eapply keeps_mono; [apply session_request_keeps|done]. intros Hd Hp. by apply Hno.
  - apply whoami_request_keeps.
  - by apply sig_whoami_request_keeps.
Qed.
End impostor.

(** ** One session for a challenge *)

Section accounts.
Context (st : PeerState) (P : string → string → bool).
Definition of_class (n : string) (c : Challenge) : bool := P n (ch_did c).
Definition pending_in (ms : store_maps) : Z := holding of_class ms.1.1.
Definition peer_earns (o : PeerOut) : Z := Z.of_nat (grants_any P o) - Z.of_nat (hands_any P o).
Abbreviation paid := (paying solvent (pays pending_in)).

Lemma on_challenges_paid {R} (p : Prog (shared Challenge) R) Q g :
  paying solvent (pays (holding of_class)) p Q g → paid (on_challenges p) Q g.
Proof. apply paying_zoom; [by intros [[]]|by intros [[cs ss] ns] x b b']. Qed.
Lemma on_sessions_paid {R} (p : Prog (shared Session) R) g : (0 ≤ g)%Z →
  paid (on_sessions p) (λ _ g', g' = g) g.
Proof.
  intros Hg. eapply (paying_zoom _ _ _ _ (λ _ g _ g', g' = g)); [by intros [[]]| |by apply paying_free].
  intros [[cs ss] ns] x b b' ->. unfold pays, pending_in. cbn. lia.
Qed.
Lemma on_seen_paid {R} (p : Prog (shared Z) R) g : (0 ≤ g)%Z →
  paid (on_seen p) (λ _ g', g' = g) g.
Proof.
  intros Hg. eapply (paying_zoom _ _ _ _ (λ _ g _ g', g' = g)); [by intros []| |by apply paying_free].
  intros [ms ns] x b b' ->. unfold pays, pending_in. cbn. lia.
Qed.
Lemma challenge_request_paid d clean nb now :
  paid (challenge_request st d clean nb now) (λ r g, peer_earns (GaveChallenge d r) ≤ g)%Z 0%Z.
Proof.
  unfold challenge_request. destruct d as [d|]; [|done]. destruct (find_did_method d); [|done].
  apply paying_bind, on_challenges_paid. eapply paying_mono; [apply create_paid|].
  intros [[c|e]|] g [Hg Hd]; [|exact Hg|exact Hg]. cbn [paying]. unfold ch_earns, peer_earns in *.
  cbn [issues_any accepts_any grants_any hands_any en_nonce] in *. unfold of_class in Hg.
  by rewrite Hd in Hg.
Qed.
Lemma session_request_paid req cnow clean tb now :
  paid (session_request st req cnow clean tb now) (λ r g, peer_earns (GaveSession req r) ≤ g)%Z 0%Z.
Proof.
  apply paying_bind, on_challenges_paid. eapply paying_mono; [apply validate_paid|].
  intros [stored|e] g Hg; unfold ch_earns in Hg; cbn [issues_any accepts_any] in Hg;
    [|by destruct e].
  assert (0 ≤ g)%Z as Hpos by (destruct (of_class _ _); lia).
  destruct (authenticate_request stored req) as [p|] eqn:Ea; [|done].
  apply authenticate_request_Ok in Ea as (-> & Hd & _).
  apply paying_bind. eapply paying_mono; [by apply on_sessions_paid|]. intros r ? ->. cbn [paying].
  unfold peer_earns, of_class in *. rewrite Hd in Hg.
  destruct r as [[s|e]|]; cbn [grants_any hands_any]; [exact Hg|lia|lia].
Qed.
Lemma peer_request_paid op : accounted pending_in peer_earns (peer_request st op) 0%Z.
Proof.
  destruct op as [d clean nb now|req cnow clean tb now|h now|m u h now|now|now];
    [apply paying_bind..|done|done].
  - eapply paying_mono; [apply challenge_request_paid|done].
  - eapply paying_mono; [apply session_request_paid|done].
  - unfold whoami_request. destruct (bearer_token h) as [t|]; [|done]. apply paying_bind.
    eapply paying_mono; [by apply on_sessions_paid|]. by intros r ? ->.
  - unfold sig_whoami_request. destruct (received_parts _ _ _ _); [|done].
    destruct (h "signature-input"); [|done]. destruct (h "signature"); [|done]. apply paying_bind.
    eapply paying_mono; [by apply on_seen_paid|]. by intros r ? ->.
Qed.
End accounts.

(** ** A nonce is honoured once *)

Section signatures.
Context (st : PeerState).
#[local] Abbreviation cap := (ng_capacity (ps_replay_guard st)).
Definition whole_records (ms : store_maps) g (ms' : store_maps) g' : Prop :=
  records cap ms.2 g ms'.2 g'.
#[local] Abbreviation recording := (paying unrecorded whole_records).

Lemma on_challenges_idle {R} (p : Prog (shared Challenge) R) :
  recording (on_challenges p) (λ _ g, g = nothing) nothing.
Proof.
  eapply (paying_zoom _ _ _ _ (λ _ g _ g', g' = g)); [by intros [[]]| |by apply paying_free].
  intros [[cs ss] ns] x b b' ->. constructor.
Qed.
Lemma on_sessions_idle {R} (p : Prog (shared Session) R) :
  recording (on_sessions p) (λ _ g, g = nothing) nothing.
Proof.
  eapply (paying_zoom _ _ _ _ (λ _ g _ g', g' = g)); [by intros [[]]| |by apply paying_free].
  intros [[cs ss] ns] x b b' ->. constructor.
Qed.
Lemma on_seen_recording {R} (p : Prog (shared Z) R) Q g :
  paying unrecorded (records cap) p Q g → recording (on_seen p) Q g.
Proof. by apply paying_zoom; [intros []|]. Qed.
Lemma stores_idle op : (∀ m u h now, op ≠ GetSigWhoami m u h now) →
  recording (peer_request st op) (λ o g, g = nothing ∧ honoured_nonce o = None) nothing.
Proof.
  intros Hop. destruct op as [d clean nb now|req cnow clean tb now|h now|m u h now|now|now];
    [apply paying_bind..|done|done].
  - unfold challenge_request. destruct d as [d|]; [|done]. destruct (find_did_method d); [|done].
    apply paying_bind. eapply paying_mono; [apply on_challenges_idle|]. by intros r ? ->.
  - apply paying_bind. eapply paying_mono; [apply on_challenges_idle|].
    intros [stored|[]] ? ->; try done. destruct (authenticate_request stored req); [|done].
    apply paying_bind. eapply paying_mono; [apply on_sessions_idle|]. by intros r ? ->.
  - unfold whoami_request. destruct (bearer_token h) as [t|]; [|done]. apply paying_bind.
    eapply paying_mono; [apply on_sessions_idle|]. by intros r ? ->.
  - by destruct (Hop m u h now).
Qed.
Lemma peer_request_tracks op :
  tracks snd cap (peer_request st op) (honoured honoured_nonce).
Proof.
  assert ((∃ m u h now, op = GetSigWhoami m u h now) ∨ ∀ m u h now, op ≠ GetSigWhoami m u h now)
    as [(m & u & h & now & ->)|Hop] by (destruct op; eauto 6).
  - apply paying_bind. unfold sig_whoami_request.
    destruct (received_parts _ _ _ _); [|by right]. destruct (h "signature-input") as [input|] eqn:Hi;
      [|by right]. destruct (h "signature"); [|by right]. apply paying_bind.
    eapply paying_mono; [by eapply on_seen_recording, verify_recording|].
    intros r g [-> | ->]; [by left|right]. destruct r; [|done]. cbn. by rewrite Hi.
  - eapply paying_mono; [by apply stores_idle|]. intros o g [-> Ho]. right. by rewrite Ho.
Qed.
End signatures.
(** ** Requests that nothing interferes with *)

Definition maps (st : PeerState) : store_maps :=
  (cst_challenges (ps_challenges st), ss_backend (ps_sessions st), ng_seen (ps_replay_guard st)).

Lemma on_challenges_alone {R} (p : Prog (shared Challenge) R) ms Q :
  alone p ms.1.1 (λ c r, Q (c, ms.1.2, ms.2) r) → alone (on_challenges p) ms Q.
Proof. by apply (alone_zoom _ (λ ms : store_maps, ms.1.1) (λ c (ms : store_maps), (c, ms.1.2, ms.2))); [intros [[]]|..]. Qed.
Lemma on_sessions_alone {R} (p : Prog (shared Session) R) ms Q :
  alone p ms.1.2 (λ s r, Q (ms.1.1, s, ms.2) r) → alone (on_sessions p) ms Q.
Proof. by apply (alone_zoom _ (λ ms : store_maps, ms.1.2) (λ s (ms : store_maps), (ms.1.1, s, ms.2))); [intros [[]]|..]. Qed.
Lemma on_seen_alone {R} (p : Prog (shared Z) R) ms Q :
  alone p ms.2 (λ n r, Q (ms.1, n) r) → alone (on_seen p) ms Q.
Proof. by apply (alone_zoom _ snd (λ n ms, (ms.1, n))); [intros []|..]. Qed.
End proofs.

(** ** No guard is kept over an access *)

Section orderly_requests.
Context `{Ed25519, P256, K256, MlDsa, Base58, Base64, Hex, Hashes, Features, Chrono, Profile}.
Context `{Sfv, World, JsonWrite}.
Context `{CS : ChallengeShards, SS : SessionShards, GS : GuardShards}.

Lemma on_challenges_orderly {R} (p : Prog (shared Challenge) R) :
  orderly p → orderly (on_challenges p).
Proof. apply orderly_zoom. by intros [[]]. Qed.
Lemma on_sessions_orderly {R} (p : Prog (shared Session) R) : orderly p → orderly (on_sessions p).
Proof. apply orderly_zoom. by intros [[]]. Qed.
Lemma on_seen_orderly {R} (p : Prog (shared Z) R) : orderly p → orderly (on_seen p).
Proof. apply orderly_zoom. by intros []. Qed.
Lemma peer_request_orderly st op : orderly (peer_request st op).
Proof.
  destruct op as [d clean nb now|req cnow clean tb now|h now|mth uri h now|now|now]; try done;
    (apply orderly_bind; [|done]).
  - unfold challenge_request. destruct d as [d|]; [|done]. destruct (find_did_method d); [|done].
    by apply orderly_bind; [apply on_challenges_orderly, challenge_create_orderly|].
  - unfold session_request. apply orderly_bind; [apply on_challenges_orderly, challenge_validate_orderly|].
    intros [c|[]]; try done. destruct (authenticate_request c req); [|done].
    by apply orderly_bind; [apply on_sessions_orderly, session_create_orderly|].
  - unfold whoami_request. destruct (bearer_token h); [|done].
    by apply orderly_bind; [apply on_sessions_orderly, session_validate_orderly|].
  - unfold sig_whoami_request. destruct (received_parts st mth uri h) as [parts|]; [|done].
    destruct (h "signature-input"), (h "signature"); try done.
    by apply orderly_bind; [apply on_seen_orderly, verify_orderly|].
Qed.
End orderly_requests.

Section alone_requests.
Context `{Ed25519, P256, K256, MlDsa, Base58, Base64, Hex, Hashes, Features, Chrono, Profile}.
Context `{Sfv, World, JsonWrite}.
Context `{CS : ChallengeShards, SS : SessionShards, GS : GuardShards}.

Lemma challenge_request_alone st d clean nb now Q :
  Q (maps (challenge_handler st d clean nb now).1) (challenge_handler st d clean nb now).2 →
  alone (challenge_request st d clean nb now) (maps st) Q.
Proof.
  unfold challenge_handler, challenge_request. destruct d as [d|]; [|done].
  destruct (find_did_method d); [|done]. intros HQ.
  apply alone_bind, on_challenges_alone, challenge_create_alone.
  by destruct (Challenge.create _ _ _ _ _).
Qed.
Lemma session_request_alone st req cnow clean tb now Q :
  Q (maps (session_handler st req cnow clean tb now).1)
    (session_handler st req cnow clean tb now).2 →
  alone (session_request st req cnow clean tb now) (maps st) Q.
Proof.
  unfold session_handler. intros HQ.
  apply alone_bind, on_challenges_alone, challenge_validate_alone.
  destruct (Challenge.validate _ _ _) as [store [stored|[]]]; try done.
  cbn [fst snd] in *. destruct (authenticate_request stored req) as [p|]; [|done].
  apply alone_bind, on_sessions_alone, session_create_alone. cbn [snd maps] in *.
  cbn [put_challenges ps_sessions] in HQ. by destruct (Session.create _ _ _ _ _).
Qed.
Lemma whoami_request_alone st h now Q :
  Q (maps (whoami_handler st h now).1) (whoami_handler st h now).2 →
  alone (whoami_request h now) (maps st) Q.
Proof.
  unfold whoami_handler, whoami_request. destruct (bearer_token h) as [t|]; [|done]. intros HQ.
  apply alone_bind, on_sessions_alone, session_validate_alone.
  by destruct (Session.validate _ _ _).
Qed.
Lemma sig_whoami_request_alone st m u h now Q :
  Q (maps (sig_whoami_handler st m u h now).1) (sig_whoami_handler st m u h now).2 →
  alone (sig_whoami_request st m u h now) (maps st) Q.
Proof.
  unfold sig_whoami_handler, sig_whoami_request. destruct (received_parts _ _ _ _); [|done].
  destruct (h "signature-input"); [|done]. destruct (h "signature"); [|done]. intros HQ.
  apply alone_bind, on_seen_alone, verify_alone.
  by destruct (verify_request_at _ _ _ _ _) as [[g|] r].
Qed.
Lemma peer_request_alone st op Q :
  Q (maps (peer_step st op).1) (peer_step st op).2 → alone (peer_request st op) (maps st) Q.
Proof.
  intros HQ. destruct op as [d clean nb now|req cnow clean tb now|h now|m u h now|now|now];
    cbn [peer_step] in HQ; [apply alone_bind..|exact HQ|exact HQ].
  - apply challenge_request_alone. by destruct (challenge_handler _ _ _ _ _).
  - apply session_request_alone. by destruct (session_handler _ _ _ _ _ _).
  - apply whoami_request_alone. by destruct (whoami_handler _ _ _).
  - apply sig_whoami_request_alone. by destruct (sig_whoami_handler _ _ _ _ _).
Qed.
(** A request changes the maps and nothing else. *)
Definition with_maps (st : PeerState) (ms : store_maps) : PeerState :=
  put_guard (put_sessions (put_challenges st (set_challenges (ps_challenges st) ms.1.1))
    (set_backend (ps_sessions st) ms.1.2)) (set_seen (ps_replay_guard st) ms.2).
Lemma with_own_maps st : st = with_maps st (maps st).
Proof. by destruct st as [[] [] [] r sch]. Qed.
Lemma challenges_fields st store : store = set_challenges (ps_challenges st) (cst_challenges store) →
  put_challenges st store = with_maps st (maps (put_challenges st store)).
Proof. intros ->. by destruct st as [[] [] [] r sch]. Qed.
Lemma sessions_fields st ss : ss = set_backend (ps_sessions st) (ss_backend ss) →
  put_sessions st ss = with_maps st (maps (put_sessions st ss)).
Proof. intros ->. by destruct st as [[] [] [] r sch]. Qed.
Lemma request_fields st op :
  (peer_step st op).1 = with_maps st (maps (peer_step st op).1).
Proof.
  destruct op as [d clean nb now|req cnow clean tb now|h now|m u h now|now|now];
    cbn [peer_step]; try apply with_own_maps.
  - unfold challenge_handler. destruct d as [d|]; [|apply with_own_maps].
    destruct (find_did_method d); [|apply with_own_maps].
    pose proof (ch_step_fields (ps_challenges st) (OpCreate d clean nb now)) as Hf.
    cbn [ch_step] in Hf. destruct (Challenge.create _ _ _ _ _) as [cs' r'].
    by apply challenges_fields.
  - unfold session_handler.
    pose proof (ch_step_fields (ps_challenges st) (OpValidate (wr_nonce req) cnow)) as Hf.
    cbn [ch_step] in Hf. destruct (Challenge.validate _ _ _) as [cs' r']. cbn [fst] in *.
    destruct r' as [stored|[]]; try by apply challenges_fields.
    destruct (authenticate_request stored req) as [p|]; [|by apply challenges_fields].
    cbn [put_challenges ps_sessions].
    pose proof (create_fields (ps_sessions st) (principal_did p) clean tb now) as Hs.
    destruct (Session.create _ _ _ _ _) as [ss' r']. cbn [fst] in *. rewrite Hf, Hs.
    by destruct st as [[] [] [] r sch].
  - unfold whoami_handler. destruct (bearer_token h) as [t|]; [|apply with_own_maps].
    pose proof (validate_fields (ps_sessions st) t now) as Hs.
    destruct (Session.validate _ _ _) as [ss' r']. by apply sessions_fields.
  - unfold sig_whoami_handler. destruct (received_parts _ _ _ _); [|apply with_own_maps].
    destruct (h "signature-input"); [|apply with_own_maps].
    destruct (h "signature"); [|apply with_own_maps].
    destruct (verify_request_at _ _ _ _ _) as [g' r'] eqn:Hv.
    apply verify_guard_capacity in Hv. destruct st as [[] [] [seen c] rg sch].
    destruct g' as [[seen' c']|]; [|done]. cbn in Hv. by subst c'.
Qed.
Lemma sequential_requests st ops (calls : Prog store_maps PeerOut → Prop) ps :
  (∀ op, op ∈ ops → calls (peer_request st op)) →
  sys_run calls (maps st, ps)
    (maps (peer_run st ops).1, ps ++ map Ret (peer_run st ops).2).
Proof.
  revert st ps. induction ops as [|op ops IH]; intros st ps Hc; [by rewrite app_nil_r|].
  destruct (sys_run_alone calls (peer_request st op) (maps st) ps
    (λ ms o, ms = maps (peer_step st op).1 ∧ o = (peer_step st op).2))
    as (ms & o & Hr & -> & ->); [apply Hc; by left|by apply peer_request_alone|].
  etrans; [exact Hr|].
  specialize (IH (peer_step st op).1 (ps ++ [Ret (peer_step st op).2])).
  cbn [map peer_run]. revert IH.
  pose proof (request_fields st op) as Hf.
  destruct (peer_step st op) as [st1 o]. cbn [fst snd] in *.
  destruct (peer_run st1 ops) as [st2 os]. cbn [fst snd map].
  rewrite <- app_assoc. intros IH. apply IH. intros op' Hin. rewrite Hf.
  apply (Hc op'). by right.
Qed.
Lemma fresh_requests st ops (calls : Prog store_maps PeerOut → Prop) : maps st = (∅, ∅, ∅) →
  (∀ op, op ∈ ops → calls (peer_request st op)) →
  sys_run calls ((∅, ∅, ∅), []) (maps (peer_run st ops).1, map Ret (peer_run st ops).2).
Proof. intros <-. apply (sequential_requests st ops calls []). Qed.
End alone_requests.

Section properties.
Context `{Ed25519, P256, K256, MlDsa, Base58, Base64, Hex, Hashes, Features, Chrono, Profile}.
Context `{Sfv, World, JsonWrite}.
Context `{CS : ChallengeShards, SS : SessionShards, GS : GuardShards}.

(** C2: no impostor, under concurrency. Take a service that starts with empty
    stores, and any DID such that no [/auth/session] request for it carries a
    signature by its key over a message the service builds for it under the
    nonce of the request, and no [/sig/whoami] request a signature by its key
    over the base the service rebuilds. Then however the requests interleave,
    access by access, neither [/whoami] nor [/sig/whoami] answers with that
    DID. *)
Theorem concurrent_no_impostor st did ms ps :
  sys_run (λ p, ∃ op, p = peer_request st op ∧ ¬ speaks_for st did op)
    ((∅, ∅, ∅), []) (ms, ps) →
  Forall (λ o, names did o = false) (results ps).
Proof.
  intros Hrun. eapply (keeps_results (nobody_yet st did)); [| |exact Hrun].
  - intros p (op & -> & Hno). by apply peer_request_keeps.
  - split; [apply map_Forall_empty|]. intros t s Ht. cbn [fst snd] in Ht.
    by rewrite lookup_empty in Ht.
Qed.

(** C4: one login for a challenge, under concurrency. However the requests to a
    service that starts with empty stores interleave, the sessions it grants for
    any class of nonces and DIDs are at most as many as the challenges it handed
    out for that class: two requests that race with one signed challenge get one
    session between them. *)
Theorem concurrent_one_session st P ms ps :
  sys_run (λ p, ∃ op, p = peer_request st op) ((∅, ∅, ∅), []) (ms, ps) →
  list_sum (map (grants_any P) (results ps)) ≤ list_sum (map (hands_any P) (results ps)).
Proof.
  intros Hrun.
  assert (∀ p, (∃ op, p = peer_request st op) → accounted (pending_in P) (peer_earns P) p 0%Z)
    as Hpaid by (intros p [op ->]; apply peer_request_paid).
  pose proof (accounting (pending_in P) (peer_earns P) _ _ _ _ Hpaid Hrun) as Ha.
  change (pending_in P (∅, ∅, ∅)) with 0%Z in Ha. unfold pending_in, holding in Ha.
  rewrite (total_counts _ (grants_any P) (hands_any P)) in Ha by done. lia.
Qed.

(** C5: one answer for a signature, under concurrency. However the requests to a
    service that starts with empty stores interleave, [/sig/whoami] honours no
    nonce twice, whatever signature, method or path presents it, as long as it
    has honoured fewer nonces than its replay guard has room for, in whatever
    order the lengths of its shards are read. *)
Theorem concurrent_signature_single_use st ms ps :
  sys_run (λ p, ∃ op, p = peer_request st op) ((∅, ∅, ∅), []) (ms, ps) →
  length (omap honoured_nonce (results ps)) < ng_capacity (ps_replay_guard st) →
  NoDup (omap honoured_nonce (results ps)).
Proof.
  intros Hrun. eapply (recorded_once snd _ _ _ (∅, ∅, ∅)); [|done|exact Hrun].
  intros p [op ->]. by apply peer_request_tracks.
Qed.

(** C9: the requests refine the handlers: one that nothing interferes with
    answers what the handler of the sequential service answers, and leaves its
    stores and its replay guard. *)
Theorem peer_requests_refine st op :
  alone (peer_request st op) (maps st)
    (λ ms o, ms = maps (peer_step st op).1 ∧ o = (peer_step st op).2).
Proof. by apply peer_request_alone. Qed.
(** C10: requests do not deadlock. Let requests start and interleave, over
    whatever the maps hold, each waiting for the locks of the maps wherever it
    needs a guard that conflicts with one held, its own included, or that
    somebody already waits for. Then what they do is one of the interleavings
    that the other theorems are about; once no more of them start they cannot go
    on for ever; and where they can go no further, each has returned, and holds
    no guard. *)
Theorem requests_never_deadlock st ms0 ms ts :
  rtc (locked_step (λ p, ∃ op, p = peer_request st op)) (ms0, []) (ms, ts) →
  sys_run (λ p, ∃ op, p = peer_request st op) (ms0, []) (ms, ts.*1) ∧
  sn locked_move (ms, ts) ∧
  ∀ ms' ts', rtc locked_move (ms, ts) (ms', ts') → nf locked_move (ms', ts') →
    ∃ answers, ts' = map (λ r, (Ret r, [])) answers ∧ length answers = length ts.
Proof.
  intros Hrun. split; [exact (locked_run_erases _ _ _ Hrun)|].
  destruct (orderly_returns (λ p, ∃ op, p = peer_request st op) ms0 (ms, ts)) as [Hsn Hret].
  - intros p [op ->]. apply peer_request_orderly.
  - exact Hrun.
  - split; [exact Hsn|]. intros ms' ts' Hr Hnf. exact (Hret (ms', ts') Hr Hnf).
Qed.
End properties.

Section witnesses.
Import Fixtures.Instances.
#[local] Instance challenge_map : ChallengeShards := by_length.
#[local] Instance session_map : SessionShards := by_length.
#[local] Instance guard_map : GuardShards := by_length.

(** A login, then a signed request, sent twice. *)
Definition signed_request : PeerOp :=
  let h := match (sign_request_at http_signer (request_parts "GET" "https://node.example/sig/whoami")
      AquaInternal (from_secs 300) 1700000000 http_random []).2 with
    | Ok h => h | Err _ => {| sh_signature_input := ""; sh_signature := "" |} end in
  GetSigWhoami "GET" {| uri_authority := None; uri_path := "/sig/whoami" |}
    (λ name, if String.eqb name "host" then Some "node.example"
             else if String.eqb name "signature-input" then Some (sh_signature_input h)
             else if String.eqb name "signature" then Some (sh_signature h) else None) 1700000100.
Definition node_requests : list PeerOp := node_visit ++ [signed_request; signed_request].
Definition visit_answers : list PeerOut := (peer_run (router node) node_requests).2.
Definition replayed_requests : list PeerOp := node_requests ++ take 1 (drop 1 node_requests).
Definition replayed_answers : list PeerOut := (peer_run (router node) replayed_requests).2.
Lemma node_is_fresh : maps (router node) = (∅, ∅, ∅).
Proof. done. Qed.
Definition declared_keyid (op : PeerOp) : option string :=
  match op with
  | PostSession req _ _ _ _ => Some (wr_did req)
  | GetSigWhoami _ _ headers _ =>
      input ← headers "signature-input";
      match parse_signature_input input with Ok (_, p) => Some (sp_keyid p) | Err _ => None end
  | _ => None
  end.
Lemma speaks_for_declared st did op : speaks_for st did op → declared_keyid op = Some did.
Proof.
  destruct op; cbn; try done; [by intros [-> _]|].
  intros (parts & input & sg & l & p & sig & base & _ & -> & _ & Hp & <- & _). cbn. by rewrite Hp.
Qed.
(** The owner of one DID logs in and signs, and is not taken for another. *)
(** The requests of a visit, all at once. *)
Definition visitors := map (λ op, (peer_request (router node) op, [] : list guard)) node_visit.
Lemma requests_never_deadlock_witness :
  length visitors = 3 ∧ sn locked_move (maps (router node), visitors) ∧
  ∀ ms ts, rtc locked_move (maps (router node), visitors) (ms, ts) → nf locked_move (ms, ts) →
    ∃ answers, ts = map (λ r, (Ret r, [])) answers ∧ length answers = length visitors.
Proof.
  split; [reflexivity|].
  refine (proj2 (requests_never_deadlock (router node) (maps (router node)) _ visitors _)).
  unfold visitors. cbn [map node_visit].
  do 3 (eapply rtc_l; [apply LockedStarts; eexists; reflexivity|]; cbn [app]). constructor.
Defined.
Lemma concurrent_no_impostor_witness :
  map (names sample_key_did) visit_answers = [false; false; true; true; false] ∧
  Forall (λ o, names sample_eip155_did o = false) visit_answers.
Proof.
  split; [vm_refl|].
  assert (∀ op, op ∈ node_requests → ¬ speaks_for (router node) sample_eip155_did op) as Hno.
  { intros op Hin Hs%speaks_for_declared.
    assert (forallb (λ op, bool_decide (declared_keyid op ≠ Some sample_eip155_did)) node_requests
      = true) as Hall by vm_refl.
    rewrite forallb_forall in Hall. apply list_elem_of_In, Hall, bool_decide_eq_true in Hin.
    exact (Hin Hs). }
  pose proof (concurrent_no_impostor (router node)
    sample_eip155_did _ _ (fresh_requests (router node) node_requests _ node_is_fresh
      (λ op Hin, ex_intro _ op (conj eq_refl (Hno op Hin))))) as Hc.
  rewrite results_Ret in Hc. exact Hc.
Defined.
Definition every_class (nonce did : string) : bool := true.
(** The session request of a login sent twice. *)
Lemma concurrent_one_session_witness :
  list_sum (map (grants_any every_class) replayed_answers) = 1 ∧
  1 ≤ list_sum (map (hands_any every_class) replayed_answers).
Proof.
  assert (list_sum (map (grants_any every_class) replayed_answers) = 1) as Hg by vm_refl.
  split; [exact Hg|].
  pose proof (concurrent_one_session (router node) every_class
    _ _ (fresh_requests (router node) replayed_requests _ node_is_fresh
      (λ op _, ex_intro _ op eq_refl))) as Hc.
  rewrite results_Ret in Hc. rewrite <- Hg. exact Hc.
Defined.
(** The signed request is sent twice, and answered once. *)
Lemma concurrent_signature_single_use_witness :
  length (omap honoured_nonce visit_answers) = 1 ∧ NoDup (omap honoured_nonce visit_answers).
Proof.
  unfold visit_answers.
  assert (length (omap honoured_nonce (peer_run (router node) node_requests).2) = 1) as Hl
    by vm_refl. split; [exact Hl|].
  pose proof (concurrent_signature_single_use (router node) _ _
    (fresh_requests (router node) node_requests _ node_is_fresh (λ op _, ex_intro _ op eq_refl)))
    as Hc.
  rewrite results_Ret, Hl in Hc. apply Hc. apply Nat.ltb_lt. vm_refl.
Defined.
End witnesses.
