(* ===== verification/PeerLogin.v ===== *)
(** * The login, end to end: src/client.rs against aqua-auth-testkit/src/lib.rs

    The client of [Client] over the peer of [Peer], with the transport of the
    in-memory suite: a request goes to the handler its URL routes to, with the
    clock readings and the random bytes of that moment. *)

From S2P Require Import Prelude Crates Fixtures Errors Keys Did Suites Aqua Methods DidFormat Principal Message Types Challenge SessionBackend Session Wire Signer Client HttpSigBase HttpSigReplay HttpSig Directory LocalKey Peer.

#[local] Existing Instance InMemoryBackend.

(** ** The transport *)

Inductive Incoming : Type :=
| InChallenge (did : option string)
| InSession (body : WireSessionRequest)
| InWhoami (headers : HeaderMap).
Inductive Body : Type :=
| BodyEnvelope (e : ChallengeEnvelope)
| BodySession (s : SessionResponse)
| BodyDid (did : string)
| NoBody.
Record Reply : Type := { rep_status : Z; rep_body : Body }.

Section transport.
Context `{Ed25519, P256, K256, MlDsa, Base58, Base64, Hex, Hashes, Features, Chrono, Profile}.
Context `{Sfv, JsonWrite}.

(** What the peer reads while it serves one request. *)
Record Moment : Type := {
  mo_clean : date_time;
  mo_challenge_now : date_time;
  mo_bytes : bytes;
  mo_now : date_time;
}.
Definition reply_of {A} (body : A → Body) (r : run (result A StatusCode)) : result Reply string :=
  match r with
  | Panicked => Err "connection closed"
  | Returned (Ok a) => Ok {| rep_status := 200; rep_body := body a |}
  | Returned (Err code) => Ok {| rep_status := code; rep_body := NoBody |}
  end.
Definition serve (w : PeerState * list Moment) (r : Incoming)
  : (PeerState * list Moment) * result Reply string :=
  match w with
  | (st, []) => ((st, []), Err "connection refused")
  | (st, m :: ms) =>
      match r with
      | InChallenge did =>
          let '(st, x) := challenge_handler st did (mo_clean m) (mo_bytes m) (mo_now m) in
          ((st, ms), reply_of BodyEnvelope x)
      | InSession body =>
          let '(st, x) := session_handler st body (mo_challenge_now m) (mo_clean m)
            (mo_bytes m) (mo_now m) in
          ((st, ms), reply_of BodySession x)
      | InWhoami headers =>
          let '(st, x) := whoami_handler st headers (mo_now m) in
          ((st, ms), reply_of BodyDid (Returned x))
      end
  end.
#[local] Instance peer_world : World := {| world := PeerState * list Moment |}.
#[local] Instance peer_transport : Reqwest := {|
  request := Incoming; response := Reply; http_error := string;
  rq_send := (serve : @world peer_world → _);
  rs_status := rep_status;
  rs_error_for_status := λ r, if (400 <=? rep_status r)%Z then Err "status" else Ok r;
|}.
Definition envelope_of (r : Reply) : result ChallengeEnvelope string :=
  match rep_body r with BodyEnvelope e => Ok e | _ => Err "error decoding response body" end.
Definition session_of (r : Reply) : result SessionResponse string :=
  match rep_body r with BodySession s => Ok s | _ => Err "error decoding response body" end.

(** ** Each half of the login succeeds *)

Context `{!HexLaws, !Base58Laws, !ChronoLaws}.

Lemma create_returns st did clean nb now : Session.ok st →
  size (live_at (now_secs clean) (Session.view st)) < ss_max_sessions st →
  (now_secs now + ss_ttl_secs st < u64_bound)%Z →
  ∃ st' s, Session.create st did clean nb now = (st', Returned (Ok s)) ∧
    s = {| se_did := did; se_token := hex_encode nb;
           se_valid_until := now_secs now + ss_ttl_secs st; se_created_at := now_secs now |} ∧
    Session.ok st' ∧ Session.view st' !! hex_encode nb = Some s.
Proof.
  intros Hok Hroom Httl. unfold Session.create.
  set (st1 := if _ <=? sb_len (ss_backend st) then cleanup_expired clean st else st).
  assert (Session.ok st1 ∧ same_limits st st1 ∧ size (Session.view st1) < ss_max_sessions st)
    as (Hok1 & (Ht1 & Hm1 & Hp1) & Hlt).
  { subst st1. rewrite (sb_len_spec (ss_backend st) Hok). fold (Session.view st).
    destruct (_ <=? size (Session.view st)) eqn:E; bool_simpl; [|done].
    destruct (cleanup_refines st clean Hok) as [? Hv]. split; [done|]. split; [done|]. by rewrite Hv. }
  clearbody st1. rewrite (sb_len_spec (ss_backend st1) Hok1), Hm1. fold (Session.view st1).
  destruct (_ <=? size (Session.view st1)) eqn:E; bool_simpl; [lia|].
  destruct (enforce_refines did st1 Hok1) as (Hok2 & (Ht2 & _ & _) & _).
  rewrite Ht2, Ht1. unfold add_u64. rewrite (proj2 (Z.ltb_lt _ _) Httl).
  cbn [sb_insert InMemoryBackend mem_insert].
  eexists _, _. split; [done|]. split; [done|]. split.
  - unfold Session.ok. cbn. by apply keyed_insert.
  - unfold Session.view. cbn. by apply lookup_insert_eq.
Qed.
Lemma trim_start_once p s : str_is_empty p = false → strip_prefix p s = None →
  trim_start_matches p (p +:+ s) = s.
Proof.
  intros Hp Hs. unfold trim_start_matches, trim_start_of.
  assert (∃ n, String.length (p +:+ s) = S n) as [n ->] by (destruct p; [done|by eexists]).
  cbn [strip_many strip_any]. rewrite strip_prefix_app.
  destruct n; [done|]. cbn [strip_many strip_any]. by rewrite Hs.
Qed.
Lemma hex_text_trimmed b : trim_start_matches "0x" ("0x" +:+ hex_encode b) = hex_encode b.
Proof.
  apply trim_start_once; [done|]. destruct (strip_prefix "0x" (hex_encode b)) as [r|] eqn:E; [|done].
  apply strip_prefix_Some in E. pose proof (hex_encode_digits b) as Hd. by rewrite E in Hd.
Qed.

(** ** The login *)

Context `{Urls, !UrlsLaws, !P256Laws, !SigningKeys, !SigningKeysLaws}.

(** A peer whose challenges name an origin: what [in_memory] makes of a domain
    of one line and a plain base URL. *)
Definition names_origin (st : PeerState) (o : string) : Prop :=
  let cs := ps_challenges st in
  one_line (cst_domain cs) = true ∧ starts_with "URI:" (cst_domain cs) = false ∧
  str_forallb graphic (cst_uri cs) = true ∧ str_is_empty (cst_uri cs) = false ∧
  origin_of (cst_uri cs) = Some o.

Lemma nonce_text_graphic b : str_forallb graphic (nonce_text b) = true.
Proof.
  unfold nonce_text. rewrite str_forallb_app. cbn [str_forallb andb].
  eapply str_forallb_impl; [|apply hex_encode_digits].
  intros x Hx. by apply alnum_graphic, lower_hex_alnum.
Qed.
Lemma key_not_chainless k a : lk_did (key_signer k) ≠ "did:pkh:eip155:" +:+ a.
Proof. destruct (key_did_decodes k) as (z & ? & Hd & _). cbv zeta in Hd. by rewrite Hd. Qed.
Lemma loaded_not_chainless s a : loaded s → lk_did s ≠ "did:pkh:eip155:" +:+ a.
Proof. intros [k ->]%loaded_cases. apply key_not_chainless. Qed.
(** The peer hands out a challenge for a well-formed DID, and keeps it. *)
Lemma challenge_given st did clean nb now expires :
  validate_did_well_formed did = Ok tt →
  (∀ a, did = "did:pkh:eip155:" +:+ a → free_of ":"%char a = false) →
  dt_add_seconds now (as_i64 (cst_ttl_secs (ps_challenges st))) = Returned expires →
  ∃ st' msg, challenge_handler st (Some did) clean nb now
      = (st', Returned (Ok {| en_nonce := nonce_text nb; en_message := msg;
                              en_expires_at := now_secs expires |})) ∧
    build_message {| mp_did := did; mp_domain := cst_domain (ps_challenges st);
      mp_uri := cst_uri (ps_challenges st); mp_nonce := nonce_text nb; mp_issued_at := now;
      mp_expiration_time := expires |} = Ok msg ∧
    ps_sessions st' = ps_sessions st ∧
    cst_challenges (ps_challenges st') !! nonce_text nb
      = Some {| ch_did := did; ch_nonce := nonce_text nb; ch_message := msg;
                ch_expires_at := now_secs expires |}.
Proof.
  intros Hwf Hne Hex.
  set (p := {| mp_did := did; mp_domain := cst_domain (ps_challenges st);
    mp_uri := cst_uri (ps_challenges st); mp_nonce := nonce_text nb; mp_issued_at := now;
    mp_expiration_time := expires |}).
  destruct (build_message_total p Hwf) as [[msg Hmsg]|(a & Ha & Hf)];
    [|by rewrite (Hne a Ha) in Hf].
  set (c := {| ch_did := did; ch_nonce := nonce_text nb; ch_message := msg;
    ch_expires_at := now_secs expires |}).
  assert (Challenge.create (ps_challenges st) did clean nb now
    = (set_challenges (make_room clean (ps_challenges st))
         (<[nonce_text nb := c]> (cst_challenges (make_room clean (ps_challenges st)))),
       Returned (Ok c))) as Hc.
  { apply create_Ok. split; [done|]. by exists expires. }
  destruct (validated_method _ Hwf) as [m Hm].
  unfold challenge_handler. rewrite Hm, Hc. eexists _, msg. split; [done|].
  split; [done|]. split; [done|]. cbn. by apply lookup_insert_eq.
Qed.
(** The peer hands out a challenge the client accepts. *)
Lemma challenge_accepted st s o base clean nb now expires :
  loaded s → names_origin st o → origin_of base = Some o →
  dt_add_seconds now (as_i64 (cst_ttl_secs (ps_challenges st))) = Returned expires →
  ∃ st' env c, challenge_handler st (Some (lk_did s)) clean nb now = (st', Returned (Ok env)) ∧
    build_message {| mp_did := lk_did s; mp_domain := cst_domain (ps_challenges st);
      mp_uri := cst_uri (ps_challenges st); mp_nonce := nonce_text nb; mp_issued_at := now;
      mp_expiration_time := expires |} = Ok (ch_message c) ∧
    check_envelope env base (lk_did s) = Ok tt ∧ ps_sessions st' = ps_sessions st ∧
    cst_challenges (ps_challenges st') !! en_nonce env = Some c ∧
    ch_did c = lk_did s ∧ ch_message c = en_message env ∧ ch_expires_at c = now_secs expires.
Proof.
  intros Hs (Hd1 & Hd2 & Hu1 & Hu2 & Ho) Hb Hex.
  destruct (loaded_verifies s "" None Hs) as [Hwf _].
  destruct (challenge_given st (lk_did s) clean nb now expires) as (st' & msg & Hc & Hmsg & Hss & Hl);
    [done|by intros a ?%loaded_not_chainless|done|].
  exists st', {| en_nonce := nonce_text nb; en_message := msg; en_expires_at := now_secs expires |},
    {| ch_did := lk_did s; ch_nonce := nonce_text nb; ch_message := msg;
       ch_expires_at := now_secs expires |}.
  split; [exact Hc|]. split; [exact Hmsg|]. cbn [en_nonce en_message]. split.
  - apply check_envelope_Ok. cbn [en_message].
    match type of Hmsg with build_message ?p = _ => apply (minted_is_bound p msg base o) end; try done.
    split; [done|]. split; [by apply graphic_one_line|].
    by apply graphic_one_line, nonce_text_graphic.
  - split; [done|]. split; [exact Hl|done].
Qed.
(** An authentic answer to a pending challenge is turned into a session. *)
Lemma session_granted st req sig c cnow clean tb now :
  cst_challenges (ps_challenges st) !! wr_nonce req = Some c → ch_did c = wr_did req →
  wr_signature req = "0x" +:+ hex_encode sig → wr_public_key req = None →
  validate_did_well_formed (wr_did req) = Ok tt →
  verify_caip122_with_public_key (wr_did req) (ch_message c) sig None = Ok true →
  (now_secs cnow < ch_expires_at c)%Z → Session.ok (ps_sessions st) →
  size (live_at (now_secs clean) (Session.view (ps_sessions st)))
    < ss_max_sessions (ps_sessions st) →
  (now_secs now + ss_ttl_secs (ps_sessions st) < u64_bound)%Z →
  ∃ st' resp, session_handler st req cnow clean tb now = (st', Returned (Ok resp)) ∧
    resp = {| rp_did := wr_did req; rp_token := hex_encode tb;
      rp_valid_until := now_secs now + ss_ttl_secs (ps_sessions st);
      rp_created_at := now_secs now |} ∧
    cst_challenges (ps_challenges st')
      = delete (wr_nonce req) (cst_challenges (ps_challenges st)) ∧
    Session.ok (ps_sessions st') ∧ ∃ se, Session.view (ps_sessions st') !! rp_token resp = Some se ∧
      se_did se = wr_did req ∧ se_valid_until se = rp_valid_until resp.
Proof.
  intros Hl Hd Hsig Hpk Hwf Hver Hlive Hok Hroom Httl. unfold session_handler.
  assert (Challenge.validate (ps_challenges st) (wr_nonce req) cnow
    = (set_challenges (ps_challenges st) (delete (wr_nonce req) (cst_challenges (ps_challenges st))),
       Ok c)) as -> by by apply validate_Ok.
  assert (authenticate_request c req = Ok (mk_principal (wr_did req))) as ->.
  { unfold authenticate_request, hex_member.
    rewrite Hd, String.eqb_refl, Hsig, Hpk. cbn [negb]. rewrite hex_text_trimmed, hex_decode_encode.
    cbn [map_err]. assert (authenticate_with_public_key (wr_did req) (ch_message c) sig None
      = Ok (mk_principal (wr_did req))) as -> by by apply authenticate_spec. done. }
  cbn [principal_did ps_sessions put_challenges].
  destruct (create_returns (ps_sessions st) (wr_did req) clean tb now Hok Hroom Httl)
    as (ss & se & -> & -> & Hok' & Hin).
  eexists _, _. split; [done|]. cbn. split; [done|]. split; [done|]. split; [done|]. eauto.
Qed.
(** What the client posts back for a challenge. *)
Definition answer (s : LocalKeySigner) (nonce message : string) : WireSessionRequest :=
  {| wr_did := lk_did s; wr_nonce := nonce;
     wr_signature := "0x" +:+ hex_encode (local_sign s message); wr_public_key := None |}.
(** A stored session answers [/whoami]. *)
Lemma session_recognised st headers token se now : Session.ok (ps_sessions st) →
  Session.view (ps_sessions st) !! token = Some se →
  headers "authorization" = Some ("Bearer " +:+ token) →
  (now_secs now < se_valid_until se)%Z →
  (whoami_handler st headers now).2 = Ok (se_did se).
Proof.
  intros Hok Hl Hh Hlive. unfold whoami_handler, bearer_token. rewrite Hh.
  cbn [option_bind mbind]. rewrite strip_prefix_app.
  pose proof (validate_refines_spec (ps_sessions st) token now Hok) as Hr.
  destruct (Session.validate (ps_sessions st) token now) as [ss r]. destruct Hr as (_ & _ & Hr).
  unfold spec_validate in Hr. rewrite Hl in Hr.
  destruct (_ <=? _)%Z eqn:E; bool_simpl; [lia|]. injection Hr as _ ->. done.
Qed.

(** C3: an honest login succeeds. Let a peer hand out challenges that name the
    origin the client dials, with room for one more live session, its URLs
    routed to their handlers and its clock inside the ranges of its own types;
    let the client hold a key it loaded, whose signature over the challenge reads
    back as what it is ([read_back]: a P-256 [r || s] that is not a DER
    signature too), and let it answer before the challenge expires. Then the
    client's login returns a session for the DID of that key, and until the
    session expires the peer answers [/whoami] with that DID to the bearer of
    its token. *)
Theorem honest_login_succeeds get post_json base s st o m1 m2 ms expires :
  loaded s → names_origin st o → origin_of base = Some o →
  get (base +:+ "/auth/challenge?did=" +:+ urlencoded (lk_did s)) = InChallenge (Some (lk_did s)) →
  (∀ body, post_json (base +:+ "/auth/session") body = InSession body) →
  (∀ msg, build_message {| mp_did := lk_did s; mp_domain := cst_domain (ps_challenges st);
      mp_uri := cst_uri (ps_challenges st); mp_nonce := nonce_text (mo_bytes m1);
      mp_issued_at := mo_now m1; mp_expiration_time := expires |} = Ok msg →
    read_back (lk_key s) msg = true) →
  dt_add_seconds (mo_now m1) (as_i64 (cst_ttl_secs (ps_challenges st))) = Returned expires →
  (now_secs (mo_challenge_now m2) < now_secs expires)%Z →
  Session.ok (ps_sessions st) →
  size (live_at (now_secs (mo_clean m2)) (Session.view (ps_sessions st)))
    < ss_max_sessions (ps_sessions st) →
  (now_secs (mo_now m2) + ss_ttl_secs (ps_sessions st) < u64_bound)%Z →
  ∃ events st' session,
    Client.authenticate get post_json envelope_of session_of base (local_signer s)
      (st, m1 :: m2 :: ms) = (events, (st', ms), Ok session) ∧
    se_did session = lk_did s ∧
    se_valid_until session = (now_secs (mo_now m2) + ss_ttl_secs (ps_sessions st))%Z ∧
    ∀ headers now, headers "authorization" = Some ("Bearer " +:+ se_token session) →
      (now_secs now < se_valid_until session)%Z →
      (whoami_handler st' headers now).2 = Ok (lk_did s).
Proof.
  intros Hs Ho Hb Hget Hpost Hread Hex Hlive Hok Hroom Httl.
  destruct (challenge_accepted st s o base (mo_clean m1) (mo_bytes m1) (mo_now m1) expires)
    as (st1 & env & c & Hc & Hmsg & Hce & Hss & Hl & Hd & Hm & He); [done..|].
  rewrite <- Hss in Hok, Hroom, Httl. rewrite <- He in Hlive.
  destruct (loaded_verifies s (ch_message c) None Hs) as [Hwf Hver].
  rewrite (Hread _ Hmsg) in Hver.
  destruct (session_granted st1 (answer s (en_nonce env) (ch_message c)) (local_sign s (ch_message c))
    c (mo_challenge_now m2) (mo_clean m2) (mo_bytes m2) (mo_now m2))
    as (st2 & resp & Hr & -> & _ & Hok2 & se & Hse & Hsd & Hsu); [done..|].
  eexists _, st2, _. split; [|split; [|split]].
  - unfold Client.authenticate, fetch, signed_session_request, send, run_sign, eff_bind, eff_ret.
    cbn [signer_did local_signer rq_send peer_transport]. rewrite Hget. unfold serve at 1.
    rewrite Hc. cbn -[session_handler serve]. rewrite Hce. cbn -[session_handler serve].
    rewrite Hpost. unfold serve. rewrite <- Hm. fold (answer s (en_nonce env) (ch_message c)).
    rewrite Hr. cbn. done.
  - done.
  - cbn. by rewrite Hss.
  - intros headers now Hh Hnow. cbn [wr_did answer] in Hsd. rewrite <- Hsd. eapply session_recognised; [done|exact Hse|done|].
    by rewrite Hsu.
Qed.
End transport.

Section witnesses.
Import Fixtures.Instances.
Definition node_world : World := peer_world.
#[local] Existing Instance node_world.
Definition node_transport : @Reqwest node_world := peer_transport.
Definition node_keys : @SigningKeys _ _ node_world := fx_signing_keys.
#[local] Existing Instances node_transport node_keys fx_signing_laws.

(** A router: the [did] of the query, its colons unescaped. *)
Fixpoint unescaped (fuel : nat) (s : string) : string :=
  match fuel, s with
  | S n, String c s' =>
      match strip_prefix "%3A" s with
      | Some r => String ":" (unescaped n r)
      | None => String c (unescaped n s')
      end
  | _, _ => s
  end.
Definition sample_get (u : string) : Incoming :=
  InChallenge ((λ ad : string * string, unescaped (String.length ad.2) ad.2)
    <$> split_once_str "?did=" u).
Definition moment (t : Z) (entropy : bytes) : Moment :=
  {| mo_clean := sample_time t; mo_challenge_now := sample_time t; mo_bytes := entropy;
     mo_now := sample_time t |}.
Definition agent_key : LocalKeySigner :=
  {| lk_key := KEd25519 (sample_ed_signing : ed_signing); lk_did := sample_key_did |}.
Lemma agent_key_loaded : loaded agent_key.
Proof. left. exists "ed25519". unfold agent_key. rewrite <- agent_did. done. Qed.
Lemma honest_login_succeeds_witness :
  ∃ events st' session,
    Client.authenticate sample_get (λ _ body, InSession body) envelope_of session_of
      "https://node.example" (local_signer agent_key)
      (router node, [moment 0 (sample_nonce 1); moment 60 node_token])
      = (events, (st', []), Ok session) ∧
    (whoami_handler st' (bearer (se_token session)) (sample_time 3000)).2 = Ok sample_key_did.
Proof.
  destruct (honest_login_succeeds sample_get (λ _ body, InSession body) "https://node.example"
    agent_key (router node) "https://node.example:443" (moment 0 (sample_nonce 1))
    (moment 60 node_token) [] (sample_time 300)) as (ev & st' & se & Hl & _ & Hu & Hw).
  - exact agent_key_loaded.
  - repeat split; vm_refl.
  - vm_refl.
  - vm_refl.
  - intros body. reflexivity.
  - intros msg _. reflexivity.
  - vm_refl.
  - apply Z.ltb_lt. vm_refl.
  - exact keyed_empty.
  - apply Nat.ltb_lt. vm_refl.
  - apply Z.ltb_lt. vm_refl.
  - exists ev, st', se. split; [exact Hl|]. apply Hw; [reflexivity|]. rewrite Hu. apply Z.ltb_lt. vm_refl.
Defined.
End witnesses.
