(* ===== verification/Conformance.v ===== *)
(** * The conformance harness: aqua-auth-testkit/src/conformance/mod.rs and http.rs

    A run is a computation [Hio] over the outside world that keeps a log, in
    order, of the signers it drew and of the requests it sent with the answers
    they got. [send_call] is one request of the harness: [reqwest] follows the
    redirects of the answers on its own, and the log keeps each of those hops.
    [Target] is the gate every run starts from; a case is a computation that
    returns a [CaseResult]. *)

From S2P Require Import Prelude Crates Errors Signer WebauthnPolicy.

(** ** The outside: [reqwest], the environment, the clock *)

Inductive HttpCall : Type :=
| CallGet (url : string) (query : list (string * string))
| CallPost (url : string) (body : json).
Definition call_url (c : HttpCall) : string :=
  match c with CallGet u _ => u | CallPost u _ => u end.
Class HarnessHost `{World} := {
  hc_response : Type;
  (** One request on the wire and its answer; [status()] and [text()]; errors
      by their text. *)
  hc_send : world → HttpCall → world * result hc_response string;
  (** The request an answer redirects to, in the client's default policy: for a
      3xx with a [Location], the same request elsewhere (307, 308) or a GET of
      that URL (301, 302, 303). Past its limit the client gives up. *)
  hc_redirect : HttpCall → hc_response → option HttpCall;
  hc_too_many_redirects : string;
  hc_status : hc_response → Z;
  hc_text : world → hc_response → world * result string string;
  (** [StatusCode]'s [Display]. *)
  status_display : Z → string;
  (** [std::env::var(..)]; [SystemTime::now()] in seconds from the epoch. *)
  env_var : world → string → option string;
  system_secs : world → Z;
  sleep_secs : world → Z → world;
}.

(** ** Reading a JSON value: [Value::get], [as_str], [as_u64] *)

Definition json_get (v : json) (name : string) : option json :=
  match v with
  | JObject members => snd <$> List.find (λ kv, String.eqb kv.1 name) members
  | _ => None
  end.
Definition as_str (v : json) : option string :=
  match v with JString s => Some s | _ => None end.
Definition get_str (v : json) (name : string) : option string := x ← json_get v name; as_str x.
Definition get_u64 (v : json) (name : string) : option Z := x ← json_get v name; as_u64_value x.

(** ** The loopback gate *)

Definition is_hex_digit (c : ascii) : bool :=
  is_digit c || in_range 97 102 c || in_range 65 70 c.
Definition hex_char_value (c : ascii) : N :=
  if is_digit c then code c - 48 else if is_lower c then code c - 87 else code c - 55.
Fixpoint hex_value (acc : N) (s : string) : N :=
  match s with EmptyString => acc | String c s' => hex_value (16 * acc + hex_char_value c) s' end.
(** [Ipv6Addr] in text, as the standard library's parser reads it: groups of
    one to four hex digits, an IPv4 address in place of two groups, and once
    [::] for the zeros left out. *)
Definition read_group (s : string) : option (N * string) :=
  let '(ds, rest) := str_span is_hex_digit s in
  if (1 <=? String.length ds) && (String.length ds <=? 4) then Some (hex_value 0 ds, rest)
  else None.
Definition read_octet (s : string) : option (N * string) :=
  let '(ds, rest) := str_span is_digit s in
  if ipv4_octet ds then n ← digits_value 0 ds; Some (Z.to_N n, rest) else None.
Definition read_ipv4 (s : string) : option (list N * string) :=
  '(a, s) ← read_octet s; s ← strip_prefix "." s;
  '(b, s) ← read_octet s; s ← strip_prefix "." s;
  '(c, s) ← read_octet s; s ← strip_prefix "." s;
  '(d, s) ← read_octet s; Some ([(256 * a + b)%N; (256 * c + d)%N], s).
Definition read_separated {A} (first : bool) (p : string → option A) (s : string) : option A :=
  if first then p s else s ← strip_prefix ":" s; p s.
Fixpoint read_groups (slots : nat) (first : bool) (s : string) : list N * bool * string :=
  match slots with
  | O => ([], false, s)
  | S slots' =>
      match (if 0 <? slots' then read_separated first read_ipv4 s else None) with
      | Some (v4, rest) => (v4, true, rest)
      | None =>
          match read_separated first read_group s with
          | Some (g, rest) =>
              let '(gs, v4, rest) := read_groups slots' false rest in (g :: gs, v4, rest)
          | None => ([], false, s)
          end
      end
  end.
Definition parse_ipv6 (s : string) : option (list N) :=
  let '(head, head_v4, s) := read_groups 8 true s in
  if length head =? 8 then if str_is_empty s then Some head else None
  else if head_v4 then None
  else
  s ← strip_prefix "::" s;
  let '(tail, _, s) := read_groups (7 - length head) true s in
  if str_is_empty s then Some (head ++ replicate (8 - length head - length tail) 0%N ++ tail)
  else None.
(** [parse::<IpAddr>().map(|ip| ip.is_loopback())]. *)
Definition is_loopback_ip (s : string) : bool :=
  if is_ip s then String.eqb (default "" (head (split "." s))) "127"
  else bool_decide (parse_ipv6 s = Some [0; 0; 0; 0; 0; 0; 0; 1]%N).
Definition is_loopback_host (host : string) : bool :=
  String.eqb (to_lower host) "localhost" ||
  let unbracketed := default host (s ← strip_prefix "[" host; strip_suffix "]" s) in
  is_loopback_ip unbracketed.

Definition ALLOW_REMOTE_ENV : string := "AQUA_CONFORMANCE_ALLOW_REMOTE".
Definition DEFAULT_CHALLENGE_PATH : string := "/auth/challenge".
Definition DEFAULT_SESSION_PATH : string := "/auth/session".
Inductive TargetError : Type :=
| TargetParse (e : string)
| MissingHost
| RemoteNotAllowed (host : string).
Definition target_error_display (e : TargetError) : string :=
  match e with
  | TargetParse e => "base_url did not parse as a URL: " +:+ e
  | MissingHost => "base_url has no host component"
  | RemoteNotAllowed host => "refusing non-loopback target host '" +:+ host
      +:+ "': this suite signs real login attempts and sends them to whatever base_url names, "
      +:+ "so pointing it at a shared or production deployment must be a deliberate act. Set the "
      +:+ ALLOW_REMOTE_ENV +:+ "=1 environment variable to opt in."
  end.
Definition check_host (host : string) (allow_remote : bool) : result unit TargetError :=
  if allow_remote || is_loopback_host host then Ok tt else Err (RemoteNotAllowed host).
Record Target : Type := {
  tg_base_url : string;
  tg_challenge_path : string;
  tg_session_path : string;
}.
Definition with_paths (t : Target) (challenge session : string) : Target :=
  {| tg_base_url := tg_base_url t; tg_challenge_path := challenge; tg_session_path := session |}.

(** ** Verdicts *)

Inductive Outcome : Type := Pass | Fail | Skip.
#[export] Instance Outcome_eq_dec : EqDecision Outcome.
Proof. solve_decision. Defined.
Record CaseResult : Type := {
  cr_id : string; cr_spec_ref : string; cr_title : string;
  cr_outcome : Outcome; cr_detail : string;
}.
Definition case_pass (id spec_ref title detail : string) : CaseResult :=
  {| cr_id := id; cr_spec_ref := spec_ref; cr_title := title;
     cr_outcome := Pass; cr_detail := detail |}.
Definition case_fail (id spec_ref title detail : string) : CaseResult :=
  {| cr_id := id; cr_spec_ref := spec_ref; cr_title := title;
     cr_outcome := Fail; cr_detail := detail |}.
Definition case_skip (id spec_ref title detail : string) : CaseResult :=
  {| cr_id := id; cr_spec_ref := spec_ref; cr_title := title;
     cr_outcome := Skip; cr_detail := detail |}.
Record Report : Type := { rt_cases : list CaseResult }.
Definition report_passed (r : Report) : bool :=
  negb (existsb (λ c, bool_decide (cr_outcome c = Fail)) (rt_cases r)).
Definition report_failures (r : Report) : list CaseResult :=
  List.filter (λ c, bool_decide (cr_outcome c = Fail)) (rt_cases r).
Definition marker (o : Outcome) : string :=
  match o with Pass => "PASS" | Fail => "FAIL" | Skip => "SKIP" end.
Definition widest (f : CaseResult → string) (cases : list CaseResult) : nat :=
  foldr (λ c n, Nat.max (String.length (f c)) n) 0 cases.
Definition render_case (id_width spec_ref_width : nat) (c : CaseResult) : string :=
  marker (cr_outcome c) +:+ " " +:+ pad_right id_width (cr_id c) +:+ "  "
  +:+ pad_right spec_ref_width (cr_spec_ref c) +:+ "  " +:+ cr_title c
  +:+ (if str_is_empty (cr_detail c) then "" else " : " +:+ cr_detail c) +:+ nl.
Definition render (r : Report) : string :=
  let id_width := widest cr_id (rt_cases r) in
  let spec_ref_width := widest cr_spec_ref (rt_cases r) in
  String.concat "" (map (render_case id_width spec_ref_width) (rt_cases r)).

Section harness.
Context `{HarnessHost, Urls, Json, JsonWrite, Hex}.

(** [{value}] of a JSON value. *)
Definition json_display (v : json) : string :=
  match json_to_string v with Ok t => t | Err _ => "" end.

(** [Target::new] reads the environment. *)
Definition target_new (w : world) (base_url : string) : result Target TargetError :=
  let? parsed := map_err TargetParse (url_parse base_url) in
  let? host := ok_or (url_host_str parsed) MissingHost in
  let allow_remote := bool_decide (env_var w ALLOW_REMOTE_ENV = Some "1") in
  let? _u := check_host host allow_remote in
  Ok {| tg_base_url := trim_end_matches "/" base_url;
        tg_challenge_path := DEFAULT_CHALLENGE_PATH; tg_session_path := DEFAULT_SESSION_PATH |}.

(** ** Effects: the log, the world after, the value *)

Record HttpResponse : Type := { hr_status : Z; hr_text : string; hr_json : option json }.
Definition HttpError : Type := string.
(** A request the harness sent, the redirects the client followed, each with
    the answer that led to it, and what came of it in the end. *)
Record Exchange : Type := {
  xc_call : HttpCall;
  xc_hops : list (hc_response * HttpCall);
  xc_result : result HttpResponse HttpError;
}.
Inductive LogEntry : Type :=
| Drew (signer : Signer)
| Requested (x : Exchange).
Definition Hio (A : Type) : Type := world → list LogEntry * world * A.
Definition hio_ret {A} (a : A) : Hio A := λ w, ([], w, a).
Definition hio_bind {A B} (x : Hio A) (f : A → Hio B) : Hio B :=
  λ w, let '(c1, w1, a) := x w in let '(c2, w2, b) := f a w1 in (c1 ++ c2, w2, b).
Definition hio_do {A} (f : world → world * A) : Hio A := λ w, let '(w, a) := f w in ([], w, a).
(** A fresh signer of signers.rs. *)
Definition hio_draw (f : world → world * Signer) : Hio Signer := λ w,
  let '(w, s) := f w in ([Drew s], w, s).
Definition hio_read {A} (f : world → A) : Hio A := λ w, ([], w, f w).

(** ** http.rs *)

Definition excerpt (r : HttpResponse) : string :=
  if 300 <? char_count (hr_text r) then
    char_take 300 (hr_text r) +:+ "... [" +:+ show_nat (String.length (hr_text r))
    +:+ " bytes total]"
  else if str_is_empty (hr_text r) then "<empty body>"
  else hr_text r.
Definition is_success (r : HttpResponse) : bool :=
  (200 <=? hr_status r)%Z && (hr_status r <=? 299)%Z.
Definition http_error_display (e : HttpError) : string :=
  "no usable response from the target: " +:+ e.
Definition into_http_response (w : world) (response : hc_response)
  : world * result HttpResponse HttpError :=
  let status := hc_status response in
  let '(w, text) := hc_text w response in
  (w, let? text := map_err (λ e, "could not read the response body: " +:+ e) text in
      Ok {| hr_status := status; hr_text := text;
            hr_json := match json_value (as_bytes text) with Ok v => Some v | Err _ => None end |}).
(** [send()] of a client with the default redirect policy, which [Http::new]
    leaves in place: at most ten redirects are followed. *)
Definition REDIRECT_LIMIT : nat := 10.
Fixpoint follow (redirects : nat) (c : HttpCall) (w : world)
  : list (hc_response * HttpCall) * world * result hc_response string :=
  let '(w, r) := hc_send w c in
  match r with
  | Err e => ([], w, Err e)
  | Ok response =>
      match hc_redirect c response with
      | None => ([], w, Ok response)
      | Some c' =>
          match redirects with
          | O => ([], w, Err hc_too_many_redirects)
          | S n => let '(hops, w, r) := follow n c' w in ((response, c') :: hops, w, r)
          end
      end
  end.
Definition send_call (c : HttpCall) : Hio (result HttpResponse HttpError) := λ w,
  let '(hops, w, sent) := follow REDIRECT_LIMIT c w in
  let '(w, r) :=
    match sent with
    | Err e => (w, Err e)
    | Ok response => into_http_response w response
    end in
  ([Requested {| xc_call := c; xc_hops := hops; xc_result := r |}], w, r).
Definition get_challenge (t : Target) (did : string) : Hio (result HttpResponse HttpError) :=
  send_call (CallGet (tg_base_url t +:+ tg_challenge_path t) [("did", did)]).
Definition http_post_session (t : Target) (body : json) : Hio (result HttpResponse HttpError) :=
  send_call (CallPost (tg_base_url t +:+ tg_session_path t) body).

(** ** The shared login *)

Inductive LoginError : Type :=
| LoginHttp (e : HttpError)
| ChallengeStatus (r : HttpResponse)
| ChallengeShape (response : HttpResponse) (reason : string)
| LoginSign (e : string).
Definition login_error_display (e : LoginError) : string :=
  match e with
  | LoginHttp e => http_error_display e
  | ChallengeStatus r => "GET challenge returned " +:+ status_display (hr_status r)
      +:+ ", expected success: " +:+ excerpt r
  | ChallengeShape response reason =>
      "challenge response " +:+ reason +:+ ": " +:+ excerpt response
  | LoginSign e => "signer failed: " +:+ e
  end.
Definition fetch_challenge (t : Target) (did : string) : Hio (result HttpResponse LoginError) :=
  hio_bind (get_challenge t did) (λ r, hio_ret (map_err LoginHttp r)).
Definition hex_text (b : bytes) : string := "0x" +:+ hex_encode b.
(** What a challenge response must hold to be signed. *)
Definition signable (challenge : HttpResponse) : result (string * string) LoginError :=
  if negb (is_success challenge) then Err (ChallengeStatus challenge)
  else
  let? envelope := ok_or (hr_json challenge) (ChallengeShape challenge "was not valid JSON") in
  let? message := ok_or (get_str envelope "message")
    (ChallengeShape challenge "had no string `message` field") in
  let? nonce := ok_or (get_str envelope "nonce")
    (ChallengeShape challenge "had no string `nonce` field") in
  Ok (message, nonce).
Definition session_body (did nonce : string) (signature : bytes) : json :=
  json_object [("did", JString did); ("nonce", JString nonce);
    ("signature", JString (hex_text signature))].
Definition sign_challenge (challenge : HttpResponse) (signer : Signer)
  : Hio (result json LoginError) :=
  match signable challenge with
  | Err e => hio_ret (Err e)
  | Ok (message, nonce) =>
      hio_bind (hio_do (λ w, sg_sign signer w message)) (λ r, hio_ret (
        let? signature := map_err (λ e, LoginSign (sign_error_display e)) r in
        let body := session_body (signer_did signer) nonce signature in
        Ok match sg_public_key signer with
           | Some pk => json_insert "public_key" (JString (hex_text pk)) body
           | None => body
           end))
  end.
Definition post_session (t : Target) (body : json) : Hio (result HttpResponse LoginError) :=
  hio_bind (http_post_session t body) (λ r, hio_ret (map_err LoginHttp r)).
Record LoginFlow : Type := {
  lf_challenge : json;
  lf_session_request : json;
  lf_session_response : HttpResponse;
}.
(** The [expect] at the end cannot fail: a challenge that was signed is JSON
    ([signed_is_json]). *)
Definition login (t : Target) (signer : Signer) : Hio (result LoginFlow LoginError) :=
  hio_bind (fetch_challenge t (signer_did signer)) (λ r,
  match r with
  | Err e => hio_ret (Err e)
  | Ok challenge_response =>
      hio_bind (sign_challenge challenge_response signer) (λ r,
      match r with
      | Err e => hio_ret (Err e)
      | Ok session_request =>
          hio_bind (post_session t session_request) (λ r, hio_ret (
            let? session_response := r in
            Ok {| lf_challenge := default JNull (hr_json challenge_response);
                  lf_session_request := session_request;
                  lf_session_response := session_response |}))
      end)
  end).
Lemma signed_is_json challenge x : signable challenge = Ok x → is_Some (hr_json challenge).
Proof.
  unfold signable. destruct (is_success challenge); [|done]. cbn [negb].
  by destruct (hr_json challenge).
Qed.
(** [duration_since(UNIX_EPOCH)], zero before it. *)
Definition unix_now : Hio Z := hio_read (λ w, Z.max 0 (system_secs w)).
End harness.

Notation "'let!' x ':=' m 'in' k" := (hio_bind m (λ x, k))
  (at level 200, x name, m at level 100, k at level 200) : rust_scope.

(** [vec![a.await, b.await, ..]]. *)
Section in_order.
Context `{HarnessHost}.
Fixpoint in_order {A} (ms : list (Hio A)) : Hio (list A) :=
  match ms with
  | [] => hio_ret []
  | m :: ms => let! a := m in let! l := in_order ms in hio_ret (a :: l)
  end.
End in_order.
