(* ===== verification/ConformanceNonce.v ===== *)
(** * Nonces and DIDs: aqua-auth-testkit/src/conformance/cases_nonce_and_did.rs

    SPEC section 7, rules 1, 3, 4 and 5, one computation per case. *)

From S2P Require Import Prelude Crates Errors Keys Aqua Signer LocalKey TestSigners Conformance.

Section cases.
Context `{HarnessHost, Urls, Json, JsonWrite, Hex, Base58, Base64, Hashes}.
Context `{Ed25519, P256, K256, MlDsa, !SigningKeys, !KeyGeneration}.

Definition random_hex (n : nat) : Hio string :=
  hio_bind (hio_do (λ w, os_fill_bytes w n)) (λ b, hio_ret (hex_encode b)).
Definition extract_token (r : HttpResponse) : option string :=
  v ← hr_json r; get_str v "token".
Definition session_accepted (r : HttpResponse) : bool :=
  is_success r && match extract_token r with Some t => negb (str_is_empty t) | None => false end.
(** [{status} {excerpt}]. *)
Definition status_and_body (r : HttpResponse) : string :=
  status_display (hr_status r) +:+ " " +:+ excerpt r.

Definition refused_at_either_endpoint (t : Target) (did : string) : Hio (result string string) :=
  let! r := fetch_challenge t did in
  match r with
  | Err e => hio_ret (Err ("challenge request itself failed: " +:+ login_error_display e))
  | Ok challenge =>
      if negb (is_success challenge) then
        hio_ret (Ok ("refused at challenge time: " +:+ status_and_body challenge))
      else
      match (v ← hr_json challenge; get_str v "nonce") with
      | None => hio_ret (Err ("challenge returned " +:+ status_display (hr_status challenge)
          +:+ " for this DID with no usable `nonce`, so the session-level check could not be "
          +:+ "attempted: " +:+ excerpt challenge))
      | Some nonce =>
          let! signature := random_hex 64 in
          let! r := post_session t (json_object [("did", JString did); ("nonce", JString nonce);
            ("signature", JString ("0x" +:+ signature))]) in
          hio_ret
          match r with
          | Err e => Err ("session request itself failed: " +:+ login_error_display e)
          | Ok session_response =>
              if session_accepted session_response then
                Err ("accepted at BOTH endpoints: challenge "
                  +:+ status_display (hr_status challenge) +:+ " then session "
                  +:+ status_and_body session_response)
              else Ok ("challenge accepted (" +:+ status_display (hr_status challenge)
                  +:+ ") but session was refused: " +:+ status_and_body session_response)
          end
      end
  end.

Definition spec_7_1_unknown_nonce_refused (t : Target) : Hio CaseResult :=
  let ID := "spec_7_1_unknown_nonce_refused" in
  let SPEC_REF := "SPEC 7 rule 1" in
  let TITLE := "a syntactically valid, never-issued nonce is refused" in
  let! signer := hio_draw ed25519_did_key in
  let! r := fetch_challenge t (signer_did signer) in
  match r with
  | Err e => hio_ret (case_fail ID SPEC_REF TITLE
      ("challenge request failed: " +:+ login_error_display e))
  | Ok challenge =>
  let! r := sign_challenge challenge signer in
  match r with
  | Err e => hio_ret (case_fail ID SPEC_REF TITLE
      ("could not build a session request to tamper with: " +:+ login_error_display e))
  | Ok (JObject map_) =>
  let! hex := random_hex 32 in
  let unknown_nonce := "0x" +:+ hex in
  let body := JObject (insert_member "nonce" (JString unknown_nonce) map_) in
  let! r := post_session t body in
  hio_ret
  match r with
  | Err e => case_fail ID SPEC_REF TITLE
      ("session request failed: " +:+ login_error_display e)
  | Ok response =>
      if session_accepted response then
        case_fail ID SPEC_REF TITLE ("a nonce this server never issued (" +:+ unknown_nonce
          +:+ ") was accepted: " +:+ status_and_body response)
      else case_pass ID SPEC_REF TITLE ("refused with " +:+ status_and_body response)
  end
  | Ok _ => hio_ret (case_fail ID SPEC_REF TITLE
      ("the session request this harness built was not a JSON object, a bug in this "
       +:+ "harness, not the target"))
  end
  end.

Definition spec_7_3_nonce_single_use (t : Target) : Hio CaseResult :=
  let ID := "spec_7_3_nonce_single_use" in
  let SPEC_REF := "SPEC 7 rule 3" in
  let TITLE := "a spent nonce cannot mint a second session" in
  let! signer := hio_draw ed25519_did_key in
  let! r := login t signer in
  match r with
  | Err e => hio_ret (case_skip ID SPEC_REF TITLE
      ("the happy-path login did not even complete, so single-use could not be observed: "
       +:+ login_error_display e))
  | Ok flow =>
  if negb (session_accepted (lf_session_response flow)) then
    hio_ret (case_skip ID SPEC_REF TITLE
      ("the happy-path login was not accepted (" +:+ status_and_body (lf_session_response flow)
       +:+ "), so single-use could not be observed; spec_6_4_session_response_shape already owns "
       +:+ "reporting on the happy path itself"))
  else
  let missing := "<accepted with no token, unexpected>" in
  let first_token := default missing (extract_token (lf_session_response flow)) in
  let! r := post_session t (lf_session_request flow) in
  hio_ret
  match r with
  | Err e => case_fail ID SPEC_REF TITLE
      ("replay request itself failed: " +:+ login_error_display e)
  | Ok replay =>
      if session_accepted replay then
        let second_token := default missing (extract_token replay) in
        case_fail ID SPEC_REF TITLE
          ("the server minted a SECOND session from one already-spent challenge: first token "
           +:+ debug_str first_token +:+ ", replay token " +:+ debug_str second_token
           +:+ " (" +:+ status_and_body replay +:+ ")")
      else case_pass ID SPEC_REF TITLE
        ("byte-identical replay refused with " +:+ status_and_body replay)
  end
  end.

Definition spec_7_4_unsupported_namespace_refused (t : Target) : Hio CaseResult :=
  let ID := "spec_7_4_unsupported_namespace_refused" in
  let SPEC_REF := "SPEC 7 rule 4" in
  let TITLE := "an unsupported DID namespace is refused at challenge or session" in
  let! hex := random_hex 32 in
  let did := "did:pkh:solana:0x" +:+ hex in
  let! r := refused_at_either_endpoint t did in
  hio_ret
  match r with
  | Ok where_refused => case_pass ID SPEC_REF TITLE where_refused
  | Err what_was_accepted => case_fail ID SPEC_REF TITLE what_was_accepted
  end.

(** The seven malformed DIDs. *)
Definition corrupted_did_key : string := "did:key:z6Mk0OIl0000CORRUPTEDMULTIBASE0000".
Definition malformed_table : Hio (list (string * string)) :=
  let! too_short_ed25519 := random_hex 31 in
  let! too_long_ed25519 := random_hex 33 in
  let! missing_0x_ed25519 := random_hex 32 in
  let! corrupted := random_hex 32 in
  let! too_short_p256 := random_hex 32 in
  let! too_short_eip155 := random_hex 19 in
  hio_ret
   [("ed25519 did:pkh, 31-byte key (needs 32)", "did:pkh:ed25519:0x" +:+ too_short_ed25519);
    ("ed25519 did:pkh, 33-byte key (needs 32)", "did:pkh:ed25519:0x" +:+ too_long_ed25519);
    ("ed25519 did:pkh, missing 0x prefix", "did:pkh:ed25519:" +:+ missing_0x_ed25519);
    ("ed25519 did:pkh, non-hex character present",
     "did:pkh:ed25519:0x" +:+ match corrupted with String _ s => String "z" s | EmptyString => "" end);
    ("p256 did:pkh, 32-byte key (needs 33, compressed point)", "did:pkh:p256:0x" +:+ too_short_p256);
    ("eip155 did:pkh, 19-byte address (needs 20)", "did:pkh:eip155:1:0x" +:+ too_short_eip155);
    ("did:key with a corrupted multibase body (0/O/I/l chars)", corrupted_did_key)].
Fixpoint try_malformed (t : Target) (table : list (string * string))
  : Hio (list string * list (string * string)) :=
  match table with
  | [] => hio_ret ([], [])
  | (label, did) :: rest =>
      let! r := refused_at_either_endpoint t did in
      let! more := try_malformed t rest in
      hio_ret
      match r with
      | Ok where_refused => (more.1, (label, where_refused) :: more.2)
      | Err what_was_accepted =>
          ((label +:+ " (" +:+ debug_str did +:+ "): " +:+ what_was_accepted) :: more.1, more.2)
      end
  end.
Definition spec_7_5_did_well_formed (t : Target) : Hio CaseResult :=
  let ID := "spec_7_5_did_well_formed" in
  let SPEC_REF := "SPEC 7 rule 5, SPEC 3" in
  let TITLE := "malformed DIDs are refused at challenge or session" in
  let! table := malformed_table in
  let! r := try_malformed t table in
  let violations := r.1 in
  let refusals := r.2 in
  hio_ret (
  if bool_decide (violations = []) then
    let at_challenge := length (List.filter
      (λ x : string * string, starts_with "refused at challenge time" x.2) refusals) in
    let at_session := length refusals - at_challenge in
    let per_shape := String.concat "; "
      (map (λ x : string * string, x.1 +:+ ": " +:+ x.2) refusals) in
    case_pass ID SPEC_REF TITLE
      ("all " +:+ show_nat (length table) +:+ " malformed DID shapes were refused ("
       +:+ show_nat at_challenge +:+ " at challenge, " +:+ show_nat at_session
       +:+ " at session): " +:+ per_shape)
  else case_fail ID SPEC_REF TITLE
    (show_nat (length violations) +:+ " of " +:+ show_nat (length table)
     +:+ " malformed DID shapes were not refused: " +:+ String.concat "; " violations)).

Fixpoint try_valid (t : Target) (entries : list (string * Signer)) : Hio (list string) :=
  match entries with
  | [] => hio_ret []
  | (label, signer) :: rest =>
      let! r := fetch_challenge t (signer_did signer) in
      let! more := try_valid t rest in
      hio_ret
      match r with
      | Ok response =>
          if is_success response then more
          else (label +:+ " (" +:+ signer_did signer +:+ ") was refused: "
                +:+ status_and_body response) :: more
      | Err e => (label +:+ " (" +:+ signer_did signer +:+ ") request failed: "
                  +:+ login_error_display e) :: more
      end
  end.
Definition valid_entries : Hio (list (string * Signer)) :=
  let! a := hio_draw ed25519_did_key in
  let! b := hio_draw ed25519_did_pkh in
  let! c := hio_draw p256_did_key in
  let! d := hio_draw p256_did_pkh in
  let! e := hio_draw eip155 in
  hio_ret [("ed25519 did:key", a); ("ed25519 did:pkh", b); ("p256 did:key", c);
           ("p256 did:pkh", d); ("eip155 did:pkh", e)].
Definition spec_7_5_valid_did_spellings_accepted (t : Target) : Hio CaseResult :=
  let ID := "spec_7_5_valid_did_spellings_accepted" in
  let SPEC_REF := "SPEC 7 rule 5, SPEC 3" in
  let TITLE := "every SPEC 3 valid DID spelling is accepted at the challenge endpoint" in
  let! entries := valid_entries in
  let! failures := try_valid t entries in
  hio_ret (
  if bool_decide (failures = []) then
    case_pass ID SPEC_REF TITLE
      ("all " +:+ show_nat (length entries)
       +:+ " valid spellings accepted (did:aqua excluded, feature-gated per SPEC 3)")
  else case_fail ID SPEC_REF TITLE
    (show_nat (length failures) +:+ " of " +:+ show_nat (length entries)
     +:+ " valid spellings were wrongly refused: " +:+ String.concat "; " failures)).

Definition nonce_and_did_cases (t : Target) : Hio (list CaseResult) :=
  in_order [spec_7_1_unknown_nonce_refused t; spec_7_3_nonce_single_use t;
    spec_7_4_unsupported_namespace_refused t; spec_7_5_did_well_formed t;
    spec_7_5_valid_did_spellings_accepted t].
End cases.
