(* ===== verification/ConformanceSignature.v ===== *)
(** * Signatures, expiry and binding: aqua-auth-testkit/src/conformance/cases_signature.rs

    SPEC section 7, rules 2, 6 and 7, and the origin and key bindings of
    section 6, one computation per case. *)

From S2P Require Import Prelude Crates Errors Keys Aqua Signer LocalKey TestSigners Conformance.

Section cases.
Context `{HarnessHost, Urls, Json, JsonWrite, Hex, Base58, Base64, Hashes}.
Context `{Ed25519, P256, K256, MlDsa, !SigningKeys, !KeyGeneration}.

Definition EXPIRY_WAIT_ENV : string := "AQUA_CONFORMANCE_EXPIRY_WAIT".
Definition MAX_EXPIRY_WAIT : Z := 600.

Definition accepted (r : HttpResponse) : bool :=
  is_success r && match (v ← hr_json r; get_str v "token") with
                  | Some t => negb (str_is_empty t) | None => false end.
Definition message_and_nonce (r : HttpResponse) : result (string * string) string :=
  if negb (is_success r) then
    Err ("GET challenge returned " +:+ status_display (hr_status r)
         +:+ ", expected success: " +:+ excerpt r)
  else
  let? body := ok_or (hr_json r) ("challenge response was not JSON: " +:+ excerpt r) in
  let? message := ok_or (get_str body "message")
    ("challenge response had no string `message` field: " +:+ excerpt r) in
  let? nonce := ok_or (get_str body "nonce")
    ("challenge response had no string `nonce` field: " +:+ excerpt r) in
  Ok (message, nonce).

(** ** Rule 6: corrupted signatures *)

Definition decode_hex_body (signature : string) : bytes :=
  match hex_decode (default signature (strip_prefix "0x" signature)) with
  | Ok b => b
  | Err _ => []
  end.
Definition flip_one_bit (signature : string) : string :=
  hex_text match decode_hex_body signature with
           | b :: bs => byte_of (N.lxor (byte_N b) 1) :: bs
           | [] => []
           end.
Definition truncate_by_one_byte (signature : string) : string :=
  let b := decode_hex_body signature in hex_text (take (length b - 1) b).
Definition append_one_byte (signature : string) : string :=
  hex_text (decode_hex_body signature ++ [Byte.xaa]).
Definition zero_of_same_length (signature : string) : string :=
  hex_text (replicate (length (decode_hex_body signature)) Byte.x00).
Definition non_hex_garbage (signature : string) : string := "0xthis-is-not-hex-at-all".
Definition SIGNATURE_CORRUPTIONS : list (string * (string → string)) :=
  [("flipped one bit of the signature", flip_one_bit);
   ("truncated the signature by one byte", truncate_by_one_byte);
   ("appended one extra byte to the signature", append_one_byte);
   ("replaced the signature with all zero bytes of the correct length", zero_of_same_length);
   ("replaced the signature with a non-hex string", non_hex_garbage)].

(** One row: what went wrong, if anything. *)
Definition try_corruption (t : Target) (label : string) (corrupt : string → string)
  : Hio (list string) :=
  let! signer := hio_draw ed25519_did_key in
  let! r := fetch_challenge t (signer_did signer) in
  match r with
  | Err e => hio_ret [label +:+ ": could not fetch a fresh challenge: " +:+ login_error_display e]
  | Ok challenge =>
  let! r := sign_challenge challenge signer in
  match r with
  | Err e => hio_ret [label +:+ ": could not build a valid session request to corrupt: "
      +:+ login_error_display e]
  | Ok body =>
  match get_str body "signature" with
  | None => hio_ret [label +:+ ": the harness's own signed body had no `signature` field, this is "
      +:+ "a harness bug"]
  | Some original_signature =>
  let corrupted := corrupt original_signature in
  let! r := post_session t (json_insert "signature" (JString corrupted) body) in
  hio_ret
  match r with
  | Err e => [label +:+ ": request failed: " +:+ login_error_display e]
  | Ok response =>
      if accepted response then
        [label +:+ ": WRONGLY ACCEPTED (sent signature " +:+ debug_str corrupted +:+ ", got "
         +:+ status_display (hr_status response) +:+ " with a token)"]
      else []
  end
  end
  end
  end.
Fixpoint try_corruptions (t : Target) (rows : list (string * (string → string)))
  : Hio (list string) :=
  match rows with
  | [] => hio_ret []
  | (label, corrupt) :: rows =>
      let! problems := try_corruption t label corrupt in
      let! more := try_corruptions t rows in
      hio_ret (problems ++ more)
  end.
Definition spec_7_6_signature_invalid_refused (t : Target) : Hio CaseResult :=
  let ID := "spec_7_6_signature_invalid_refused" in
  let SPEC_REF := "SPEC 7 rule 6" in
  let TITLE := "a corrupted signature is refused" in
  let! problems := try_corruptions t SIGNATURE_CORRUPTIONS in
  hio_ret (
  if bool_decide (problems = []) then
    case_pass ID SPEC_REF TITLE ("all " +:+ show_nat (length SIGNATURE_CORRUPTIONS)
      +:+ " corruptions were rejected, each against its own fresh challenge")
  else case_fail ID SPEC_REF TITLE (String.concat "; " problems)).

(** [rejected with {status}: {excerpt}]. *)
Definition rejected_with (r : HttpResponse) : string :=
  "rejected with " +:+ status_display (hr_status r) +:+ ": " +:+ excerpt r.
Definition spec_7_6_wrong_key_refused (t : Target) : Hio CaseResult :=
  let ID := "spec_7_6_wrong_key_refused" in
  let SPEC_REF := "SPEC 7 rule 6" in
  let TITLE := "a valid signature from a different key than the claimed did is refused" in
  let! signer_a := hio_draw ed25519_did_key in
  let! signer_b := hio_draw ed25519_did_key in
  let! r := fetch_challenge t (signer_did signer_a) in
  match r with
  | Err e => hio_ret (case_fail ID SPEC_REF TITLE
      ("could not fetch a challenge for signer A: " +:+ login_error_display e))
  | Ok challenge =>
  match message_and_nonce challenge with
  | Err reason => hio_ret (case_fail ID SPEC_REF TITLE ("A's challenge " +:+ reason))
  | Ok (message, nonce) =>
  let! r := hio_do (λ w, sg_sign signer_b w message) in
  match r with
  | Err e => hio_ret (case_fail ID SPEC_REF TITLE
      ("signer B failed to sign A's message: " +:+ sign_error_display e))
  | Ok signature_b =>
  let! r := post_session t (session_body (signer_did signer_a) nonce signature_b) in
  hio_ret
  match r with
  | Err e => case_fail ID SPEC_REF TITLE ("request failed: " +:+ login_error_display e)
  | Ok response =>
      if accepted response then case_fail ID SPEC_REF TITLE
        ("the server logged in as " +:+ signer_did signer_a
         +:+ " using a well-formed signature made by an unrelated key B over A's own message; got "
         +:+ status_display (hr_status response)
         +:+ " with a token. Anyone who can produce any valid signature could log in as anyone else")
      else case_pass ID SPEC_REF TITLE (rejected_with response)
  end
  end
  end
  end.

(** ** Rule 7: message binding *)

(** One direction: the signature over one message under the other's nonce. *)
Definition cross_submission (t : Target) (signer : Signer) (message nonce : string)
    (sign_failed : string) (wrong : Z → string) (failed : string) : Hio (list string) :=
  let! r := hio_do (λ w, sg_sign signer w message) in
  match r with
  | Err e => hio_ret [sign_failed +:+ sign_error_display e]
  | Ok signature =>
  let! r := post_session t (session_body (signer_did signer) nonce signature) in
  hio_ret
  match r with
  | Ok response => if accepted response then [wrong (hr_status response)] else []
  | Err e => [failed +:+ login_error_display e]
  end
  end.
Definition spec_7_7_message_binding (t : Target) : Hio CaseResult :=
  let ID := "spec_7_7_message_binding" in
  let SPEC_REF := "SPEC 7 rule 7" in
  let TITLE := "a signature is checked against the message stored under its own nonce, not the "
    +:+ "DID's most recent challenge" in
  let! signer := hio_draw ed25519_did_key in
  let did := signer_did signer in
  let! r := fetch_challenge t did in
  match r with
  | Err e => hio_ret (case_fail ID SPEC_REF TITLE
      ("could not fetch challenge A: " +:+ login_error_display e))
  | Ok challenge_a =>
  let! r := fetch_challenge t did in
  match r with
  | Err e => hio_ret (case_fail ID SPEC_REF TITLE
      ("could not fetch challenge B: " +:+ login_error_display e))
  | Ok challenge_b =>
  match message_and_nonce challenge_a with
  | Err reason => hio_ret (case_fail ID SPEC_REF TITLE ("challenge A " +:+ reason))
  | Ok (message_a, nonce_a) =>
  match message_and_nonce challenge_b with
  | Err reason => hio_ret (case_fail ID SPEC_REF TITLE ("challenge B " +:+ reason))
  | Ok (message_b, nonce_b) =>
  if String.eqb message_a message_b || String.eqb nonce_a nonce_b then
    hio_ret (case_fail ID SPEC_REF TITLE
      ("two separate GET /auth/challenge calls for the same DID returned identical message/nonce "
       +:+ "(nonce " +:+ debug_str nonce_a +:+ " both times); the server is not minting a fresh "
       +:+ "challenge per request, so this rule 7 probe cannot be exercised meaningfully and the "
       +:+ "identical-challenge behaviour is itself a bug"))
  else
  let! first := cross_submission t signer message_b nonce_a "could not sign message B: "
    (λ status, "nonce=A with a signature over message B was accepted (" +:+ status_display status
       +:+ " with a token); a by-DID lookup would retrieve the more recent challenge B and wrongly "
       +:+ "match") "direction nonce=A/message=B: request failed: " in
  let! second := cross_submission t signer message_a nonce_b "could not sign message A: "
    (λ status, "nonce=B with a signature over message A was accepted (" +:+ status_display status
       +:+ " with a token)") "direction nonce=B/message=A: request failed: " in
  let wrongly_accepted := first ++ second in
  hio_ret (
  if bool_decide (wrongly_accepted = []) then
    case_pass ID SPEC_REF TITLE
      ("both cross-challenge submissions (nonce=A/message=B and nonce=B/message=A) were "
       +:+ "rejected")
  else case_fail ID SPEC_REF TITLE (String.concat "; " wrongly_accepted))
  end
  end
  end
  end.

(** ** Rule 2: expiry *)

(** [GET challenge returned .., expected success: ..]. *)
Definition not_success (r : HttpResponse) : string :=
  "GET challenge returned " +:+ status_display (hr_status r) +:+ ", expected success: "
  +:+ excerpt r.
Definition spec_7_2_challenge_expiry (t : Target) : Hio CaseResult :=
  let ID := "spec_7_2_challenge_expiry" in
  let SPEC_REF := "SPEC 7 rule 2" in
  let TITLE := "a session request signed after the challenge's expires_at is refused" in
  let! signer := hio_draw ed25519_did_key in
  let! r := fetch_challenge t (signer_did signer) in
  match r with
  | Err e => hio_ret (case_fail ID SPEC_REF TITLE ("request failed: " +:+ login_error_display e))
  | Ok challenge =>
  if negb (is_success challenge) then
    hio_ret (case_fail ID SPEC_REF TITLE (not_success challenge))
  else
  match (v ← hr_json challenge; get_u64 v "expires_at") with
  | None => hio_ret (case_fail ID SPEC_REF TITLE
      ("no unsigned-integer `expires_at` field in the response: " +:+ excerpt challenge))
  | Some expires_at =>
  let! fetched_at := unix_now in
  if (expires_at <=? fetched_at)%Z then
    hio_ret (case_fail ID SPEC_REF TITLE
      ("expires_at (" +:+ show_Z expires_at +:+ ") is already at or before the moment the "
       +:+ "challenge was fetched (now " +:+ show_Z fetched_at
       +:+ "); the server minted a pre-expired challenge"))
  else
  let observed_ttl_secs := (expires_at - fetched_at)%Z in
  let! opt_in := hio_read (λ w, bool_decide (env_var w EXPIRY_WAIT_ENV = Some "1")) in
  if negb opt_in then
    hio_ret (case_skip ID SPEC_REF TITLE
      ("observed TTL is " +:+ show_Z observed_ttl_secs +:+ "s (expires_at " +:+ show_Z expires_at
       +:+ ", fetched at " +:+ show_Z fetched_at +:+ "); a black-box client cannot prove expiry is "
       +:+ "enforced without waiting out the TTL, so this is not exercised by default. Set "
       +:+ EXPIRY_WAIT_ENV +:+ "=1 to actually wait and submit past expiry"))
  else if (MAX_EXPIRY_WAIT <? observed_ttl_secs)%Z then
    hio_ret (case_skip ID SPEC_REF TITLE
      ("TTL is " +:+ show_Z observed_ttl_secs +:+ "s, more than the " +:+ show_Z MAX_EXPIRY_WAIT
       +:+ "s this case is willing to wait; refusing to block the run for an impractically long "
       +:+ "TTL"))
  else
  let! r := sign_challenge challenge signer in
  match r with
  | Err e => hio_ret (case_fail ID SPEC_REF TITLE
      ("could not sign the challenge before waiting out its TTL: " +:+ login_error_display e))
  | Ok body =>
  let! _u := hio_do (λ w, (sleep_secs w (Z.min (u64_bound - 1) (observed_ttl_secs + 1)), tt)) in
  let! r := post_session t body in
  hio_ret
  match r with
  | Err e => case_fail ID SPEC_REF TITLE
      ("request failed after waiting out the TTL: " +:+ login_error_display e)
  | Ok response =>
      if accepted response then case_fail ID SPEC_REF TITLE
        ("a session request signed against a challenge " +:+ show_Z observed_ttl_secs
         +:+ "s past its stated expires_at (" +:+ show_Z expires_at +:+ ") was accepted: "
         +:+ status_display (hr_status response) +:+ " with a token")
      else case_pass ID SPEC_REF TITLE
        ("rejected " +:+ show_Z observed_ttl_secs +:+ "s past expiry with "
         +:+ status_display (hr_status response) +:+ ": " +:+ excerpt response)
  end
  end
  end
  end.

(** ** The origin of the URI line *)

Definition port_text (p : option Z) : string :=
  match p with Some p => show_Z p | None => "<unknown>" end.
Definition origin_text (u : url) : string :=
  url_scheme u +:+ "://" +:+ default "<no host>" (url_host_str u) +:+ ":"
  +:+ port_text (url_port_or_known_default u).
Definition same_origin (a b : url) : bool :=
  String.eqb (url_scheme a) (url_scheme b)
  && bool_decide (url_host_str a = url_host_str b)
  && bool_decide (url_port_or_known_default a = url_port_or_known_default b).
(** [str::lines]: the last line may end without a line feed, and a carriage
    return before one is dropped. *)
Definition str_lines (s : string) : list string :=
  let ls := split "010" s in
  let strip l := default l (strip_suffix (String "013" EmptyString) l) in
  match rev ls with
  | last :: before =>
      map strip (rev before) ++ (if str_is_empty last then [] else [last])
  | [] => []
  end.
Definition spec_6_2_uri_origin_matches_target (t : Target) : Hio CaseResult :=
  let ID := "spec_6_2_uri_origin_matches_target" in
  let SPEC_REF := "SPEC 6.2" in
  let TITLE := "the message's URI: line has the same origin as the base URL dialled" in
  let! signer := hio_draw ed25519_did_key in
  let! r := fetch_challenge t (signer_did signer) in
  hio_ret
  match r with
  | Err e => case_fail ID SPEC_REF TITLE ("request failed: " +:+ login_error_display e)
  | Ok challenge =>
  if negb (is_success challenge) then case_fail ID SPEC_REF TITLE (not_success challenge)
  else
  match (v ← hr_json challenge; get_str v "message") with
  | None => case_fail ID SPEC_REF TITLE
      ("no string `message` field in the response: " +:+ excerpt challenge)
  | Some message =>
  match List.find (starts_with "URI: ") (str_lines message) with
  | None => case_fail ID SPEC_REF TITLE
      ("message has no 'URI: ' line at all: " +:+ debug_str message)
  | Some uri_line =>
  let uri_value := trim (trim_start_matches "URI: " uri_line) in
  match url_parse uri_value, url_parse (tg_base_url t) with
  | Err _, _ => case_fail ID SPEC_REF TITLE
      ("the message's URI: line " +:+ debug_str uri_value +:+ " does not parse as a URL")
  | Ok _, Err _ => case_fail ID SPEC_REF TITLE
      ("the harness's own target base_url " +:+ debug_str (tg_base_url t)
       +:+ " does not parse as a URL, this is a harness bug")
  | Ok message_uri, Ok dialled =>
      if negb (same_origin message_uri dialled) then case_fail ID SPEC_REF TITLE
        ("message's URI: line is " +:+ debug_str uri_value +:+ " (origin "
         +:+ origin_text message_uri +:+ "), the harness dialled " +:+ debug_str (tg_base_url t)
         +:+ " (origin " +:+ origin_text dialled +:+ "); a conformant client refuses to sign a "
         +:+ "challenge whose URI origin does not match the origin it dialled")
      else case_pass ID SPEC_REF TITLE ""
  end
  end
  end
  end.

(** ** The key of a [did:aqua] *)

Definition spec_6_3_public_key_binding (t : Target) : Hio CaseResult :=
  let ID := "spec_6_3_public_key_binding" in
  let SPEC_REF := "SPEC 5.4 step 1, 6.3" in
  let TITLE := "a did:aqua public_key is bound to the did before being trusted" in
  let! signer_a := hio_draw did_aqua_signer in
  let! signer_b := hio_draw did_aqua_signer in
  let! r := fetch_challenge t (signer_did signer_a) in
  match r with
  | Err e => hio_ret (case_skip ID SPEC_REF TITLE
      ("could not even ask for a did:aqua challenge: " +:+ login_error_display e))
  | Ok challenge =>
  if negb (is_success challenge) then
    hio_ret (case_skip ID SPEC_REF TITLE
      ("GET challenge for a did:aqua DID was refused (" +:+ status_display (hr_status challenge)
       +:+ ": " +:+ excerpt challenge +:+ "); did:aqua is a feature-gated, optional namespace "
       +:+ "(SPEC section 3), so a server that does not implement it is a supported configuration, "
       +:+ "not a conformance failure"))
  else
  let! r := sign_challenge challenge signer_a in
  match r with
  | Err e => hio_ret (case_fail ID SPEC_REF TITLE
      ("signer A could not sign its own challenge: " +:+ login_error_display e))
  | Ok body =>
  match sg_public_key signer_b with
  | None => hio_ret (case_fail ID SPEC_REF TITLE
      ("the harness's own did:aqua signer B returned no public_key, this is a harness bug"))
  | Some public_key_b =>
  let! r := post_session t (json_insert "public_key" (JString (hex_text public_key_b)) body) in
  hio_ret
  match r with
  | Err e => case_fail ID SPEC_REF TITLE ("request failed: " +:+ login_error_display e)
  | Ok response =>
      if accepted response then case_fail ID SPEC_REF TITLE
        ("the server accepted a login as " +:+ signer_did signer_a
         +:+ " with a genuine signature from A's own key, but with B's public_key substituted into "
         +:+ "the request; got " +:+ status_display (hr_status response)
         +:+ " with a token. SPEC 5.4 step 1 requires binding public_key to did before trusting it")
      else case_pass ID SPEC_REF TITLE (rejected_with response)
  end
  end
  end
  end.

Definition signature_cases (t : Target) : Hio (list CaseResult) :=
  in_order [spec_7_6_signature_invalid_refused t; spec_7_6_wrong_key_refused t;
    spec_7_7_message_binding t; spec_7_2_challenge_expiry t;
    spec_6_2_uri_origin_matches_target t; spec_6_3_public_key_binding t].
End cases.
