(* ===== verification/ConformanceWire.v ===== *)
(** * Wire shapes: aqua-auth-testkit/src/conformance/cases_wire.rs

    SPEC section 6 (and the unknown fields of section 8), one computation per
    case, and [run_all] of conformance/mod.rs. *)

From S2P Require Import Prelude Crates Errors Keys Aqua Signer LocalKey TestSigners Conformance ConformanceNonce ConformanceSignature.

Section cases.
Context `{HarnessHost, Urls, Json, JsonWrite, Hex, Base58, Base64, Hashes}.
Context `{Ed25519, P256, K256, MlDsa, !SigningKeys, !KeyGeneration}.

Definition is_string (v : json) : bool := match v with JString _ => true | _ => false end.
Definition is_u64 (v : json) : bool := bool_decide (is_Some (as_u64_value v)).
(** One required member: why it is not there, if so. *)
Definition required_member (v : json) (name : string) (ok : json → bool) (kind : string)
  : option string :=
  match json_get v name with
  | Some x => if ok x then None
              else Some ("`" +:+ name +:+ "` is present but not " +:+ kind +:+ ": " +:+ json_display x)
  | None => Some ("`" +:+ name +:+ "` field is missing")
  end.
Definition first_problem (ps : list (option string)) : option string :=
  foldr (λ p acc, match p with Some s => Some s | None => acc end) None ps.
Definition spec_6_2_required_fields (t : Target) : Hio CaseResult :=
  let ID := "spec_6_2_required_fields" in
  let SPEC_REF := "SPEC 6.2" in
  let TITLE := "challenge response carries nonce, message, expires_at" in
  let! signer := hio_draw ed25519_did_key in
  let! r := fetch_challenge t (signer_did signer) in
  hio_ret
  match r with
  | Err e => case_fail ID SPEC_REF TITLE ("request failed: " +:+ login_error_display e)
  | Ok response =>
  if negb (is_success response) then case_fail ID SPEC_REF TITLE
    ("expected a 2xx, got " +:+ status_display (hr_status response) +:+ ": " +:+ excerpt response)
  else
  match hr_json response with
  | None => case_fail ID SPEC_REF TITLE
      ("response body was not JSON at all: " +:+ excerpt response)
  | Some (JObject obj) =>
      match first_problem [required_member (JObject obj) "nonce" is_string "a string";
        required_member (JObject obj) "message" is_string "a string";
        required_member (JObject obj) "expires_at" is_u64 "an unsigned integer"] with
      | Some why => case_fail ID SPEC_REF TITLE why
      | None => case_pass ID SPEC_REF TITLE ""
      end
  | Some _ => case_fail ID SPEC_REF TITLE
      ("response body was JSON but not an object: " +:+ excerpt response)
  end
  end.

Definition spec_6_2_did_field (t : Target) : Hio CaseResult :=
  let ID := "spec_6_2_did_field" in
  let SPEC_REF := "SPEC 6.2" in
  let TITLE := "challenge response echoes the requested did (non-fatal, contested field)" in
  let! signer := hio_draw ed25519_did_key in
  let requested_did := signer_did signer in
  let! r := fetch_challenge t requested_did in
  hio_ret
  match r with
  | Err e => case_skip ID SPEC_REF TITLE ("could not even ask: " +:+ login_error_display e)
  | Ok response =>
  match (v ← hr_json response; get_str v "did") with
  | Some did =>
      if String.eqb did requested_did then case_pass ID SPEC_REF TITLE ""
      else case_skip ID SPEC_REF TITLE
        ("server echoed a `did` field but it does not match the requested DID (requested "
         +:+ requested_did +:+ ", got " +:+ did +:+ "); reported, not failed, because SPEC 6.2 "
         +:+ "since cf07f72 says clients MUST ignore this field, so a wrong value cannot break a "
         +:+ "conformant client. The integrity property it hints at is enforced as a hard MUST "
         +:+ "elsewhere: spec_6_2_message_structure FAILS if the identifier inside `message`, which "
         +:+ "is the part that gets signed, disagrees with the requested DID")
  | None => case_skip ID SPEC_REF TITLE
      ("server did not echo a `did` field; contested field as of 2026-09-11, absence is the "
       +:+ "spec-compliant choice under the newer of the two live revisions, not a failure under "
       +:+ "either")
  end
  end.

Definition lower_hex_of (n : nat) (s : string) : bool :=
  (String.length s =? n) && str_forallb is_lower_hex s.
Definition is_well_formed_nonce (nonce : string) : bool :=
  match strip_prefix "0x" nonce with
  | Some hex_part => lower_hex_of 64 hex_part
  | None => false
  end.
Definition spec_6_2_nonce_format (t : Target) : Hio CaseResult :=
  let ID := "spec_6_2_nonce_format" in
  let SPEC_REF := "SPEC 4.2, 6.2" in
  let TITLE := "nonce is 0x followed by exactly 64 lowercase hex chars" in
  let! signer := hio_draw ed25519_did_key in
  let! r := fetch_challenge t (signer_did signer) in
  hio_ret
  match r with
  | Err e => case_fail ID SPEC_REF TITLE ("request failed: " +:+ login_error_display e)
  | Ok response =>
  match (v ← hr_json response; get_str v "nonce") with
  | None => case_fail ID SPEC_REF TITLE
      ("no string `nonce` field in the response: " +:+ excerpt response)
  | Some nonce =>
      if negb (is_well_formed_nonce nonce) then case_fail ID SPEC_REF TITLE
        ("nonce " +:+ debug_str nonce +:+ " is not `0x` + exactly 64 lowercase hex characters")
      else case_pass ID SPEC_REF TITLE ""
  end
  end.

(** The template, line by line: why the message is not it, if so. *)
Definition line_check (ok : bool) (why : string) : option string := if ok then None else Some why.
Definition template_problem (expected_identifier nonce : string) (lines : list string)
  : option string :=
  match lines with
  | l0 :: l1 :: l2 :: l3 :: l4 :: l5 :: l6 :: l7 :: l8 :: l9 :: _ =>
      first_problem
       [line_check (ends_with "wants you to sign in with your Ed25519 account:" l0)
          ("line 1 must end with the fixed suffix for the Ed25519 method label, got "
           +:+ debug_str l0);
        line_check (String.eqb l1 expected_identifier)
          ("line 2 identifier is " +:+ debug_str l1 +:+ ", expected "
           +:+ debug_str expected_identifier +:+ " (the DID's did:key body, SPEC section 3)");
        line_check (str_is_empty l2) ("line 3 must be blank, got " +:+ debug_str l2);
        line_check (String.eqb l3 "Sign in to Aqua Node")
          ("line 4 must be the fixed statement 'Sign in to Aqua Node', got " +:+ debug_str l3);
        line_check (str_is_empty l4) ("line 5 must be blank, got " +:+ debug_str l4);
        line_check (starts_with "URI: " l5)
          ("line 6 must start with 'URI: ', got " +:+ debug_str l5);
        line_check (String.eqb l6 "Version: 1")
          ("line 7 must be exactly 'Version: 1', got " +:+ debug_str l6);
        line_check (String.eqb l7 ("Nonce: " +:+ nonce))
          ("line 8 must bind the envelope's own nonce (" +:+ debug_str ("Nonce: " +:+ nonce)
           +:+ "), got " +:+ debug_str l7 +:+ "; a message signed against one nonce while the "
           +:+ "envelope names another is the SPEC 7 rule 7 hole this line closes");
        line_check (starts_with "Issued At: " l8)
          ("line 9 must start with 'Issued At: ', got " +:+ debug_str l8);
        line_check (starts_with "Expiration Time: " l9)
          ("line 10 must start with 'Expiration Time: ', got " +:+ debug_str l9);
        line_check (negb (existsb (starts_with "Chain ID:") lines))
          ("message carries a 'Chain ID:' line for an ed25519 identity; SPEC 4.3 reserves that "
           +:+ "line for eip155 only")]
  | _ => None
  end.
Definition spec_6_2_message_structure (t : Target) : Hio CaseResult :=
  let ID := "spec_6_2_message_structure" in
  let SPEC_REF := "SPEC 4.1, 4.2, 4.3" in
  let TITLE := "message matches the CAIP-122 template and binds the envelope's nonce" in
  let! signer := hio_draw ed25519_did_key in
  let did := signer_did signer in
  match strip_prefix "did:key:" did with
  | None => hio_ret (case_fail ID SPEC_REF TITLE
      ("harness signer DID " +:+ debug_str did +:+ " unexpectedly has no did:key: prefix"))
  | Some expected_identifier =>
  let! r := fetch_challenge t did in
  hio_ret
  match r with
  | Err e => case_fail ID SPEC_REF TITLE ("request failed: " +:+ login_error_display e)
  | Ok response =>
  match hr_json response with
  | None => case_fail ID SPEC_REF TITLE ("response body was not JSON: " +:+ excerpt response)
  | Some json_body =>
  match get_str json_body "message", get_str json_body "nonce" with
  | None, _ => case_fail ID SPEC_REF TITLE "no string `message` field in the response"
  | Some _, None => case_fail ID SPEC_REF TITLE
      ("no string `nonce` field in the response, cannot check the message binds it")
  | Some message, Some nonce =>
      let lines := map (trim_end_matches "013") (split "010" message) in
      if length lines <? 10 then case_fail ID SPEC_REF TITLE
        ("message has only " +:+ show_nat (length lines)
         +:+ " lines, the SPEC 4.1 template needs at least 10:" +:+ nl +:+ message)
      else
      match template_problem expected_identifier nonce lines with
      | Some why => case_fail ID SPEC_REF TITLE why
      | None => case_pass ID SPEC_REF TITLE ""
      end
  end
  end
  end
  end.

Definition spec_6_2_expires_at_sane (t : Target) : Hio CaseResult :=
  let ID := "spec_6_2_expires_at_sane" in
  let SPEC_REF := "SPEC 6.2" in
  let TITLE := "expires_at is a future unix-seconds timestamp within 24h" in
  let ONE_DAY_SECS := (24 * 60 * 60)%Z in
  let! signer := hio_draw ed25519_did_key in
  let! r := fetch_challenge t (signer_did signer) in
  match r with
  | Err e => hio_ret (case_fail ID SPEC_REF TITLE ("request failed: " +:+ login_error_display e))
  | Ok response =>
  match (v ← hr_json response; get_u64 v "expires_at") with
  | None => hio_ret (case_fail ID SPEC_REF TITLE
      ("no unsigned-integer `expires_at` field: " +:+ excerpt response))
  | Some expires_at =>
  let! now := unix_now in
  hio_ret (
  if (expires_at <=? now)%Z then case_fail ID SPEC_REF TITLE
    ("expires_at (" +:+ show_Z expires_at +:+ ") is not strictly in the future (now is "
     +:+ show_Z now +:+ ")")
  else if (ONE_DAY_SECS <? expires_at - now)%Z then case_fail ID SPEC_REF TITLE
    ("expires_at (" +:+ show_Z expires_at +:+ ") is more than 24h ahead of now (" +:+ show_Z now
     +:+ "); a server emitting milliseconds instead of seconds is the classic cause of a drift "
     +:+ "this large")
  else case_pass ID SPEC_REF TITLE "")
  end
  end.

(** What a session response must say: why it does not, if so. *)
Definition session_problem (login_did : string) (body : json) (now : Z) : option string :=
  match get_str body "did" with
  | None => Some "`did` field missing or not a string"
  | Some did =>
  if negb (String.eqb did login_did) then
    Some ("`did` is " +:+ debug_str did +:+ ", expected the login DID " +:+ debug_str login_did)
  else
  match get_str body "token" with
  | None => Some "`token` field missing or not a string"
  | Some token =>
  if negb (lower_hex_of 64 token) then
    Some ("`token` must be exactly 64 lowercase hex chars with no 0x prefix, got "
      +:+ debug_str token +:+ " (" +:+ show_nat (char_count token) +:+ " chars)")
  else
  match get_u64 body "valid_until", get_u64 body "created_at" with
  | None, _ => Some "`valid_until` field missing or not an unsigned integer"
  | Some _, None => Some "`created_at` field missing or not an unsigned integer"
  | Some valid_until, Some created_at =>
      if (valid_until <=? now)%Z then
        Some ("`valid_until` (" +:+ show_Z valid_until +:+ ") is not strictly in the future (now is "
          +:+ show_Z now +:+ ")")
      else if (valid_until <? created_at)%Z then
        Some ("`created_at` (" +:+ show_Z created_at +:+ ") is after `valid_until` ("
          +:+ show_Z valid_until +:+ ")")
      else None
  end
  end
  end.
Definition spec_6_4_session_response_shape (t : Target) : Hio CaseResult :=
  let ID := "spec_6_4_session_response_shape" in
  let SPEC_REF := "SPEC 6.4" in
  let TITLE := "session response carries did, token, valid_until, created_at" in
  let! signer := hio_draw ed25519_did_key in
  let! r := login t signer in
  match r with
  | Err e => hio_ret (case_fail ID SPEC_REF TITLE
      ("the happy-path login did not complete: " +:+ login_error_display e))
  | Ok flow =>
  let response := lf_session_response flow in
  if negb (is_success response) then hio_ret (case_fail ID SPEC_REF TITLE
    ("expected a 2xx from a valid login, got " +:+ status_display (hr_status response) +:+ ": "
     +:+ excerpt response))
  else
  match hr_json response with
  | None => hio_ret (case_fail ID SPEC_REF TITLE
      ("session response was not JSON: " +:+ excerpt response))
  | Some body =>
  let! now := unix_now in
  hio_ret
  match session_problem (signer_did signer) body now with
  | Some why => case_fail ID SPEC_REF TITLE why
  | None => case_pass ID SPEC_REF TITLE ""
  end
  end
  end.

Definition spec_8_unknown_request_fields_ignored (t : Target) : Hio CaseResult :=
  let ID := "spec_8_unknown_request_fields_ignored" in
  let SPEC_REF := "SPEC 8" in
  let TITLE := "an unrecognised top-level field on the session request is ignored" in
  let! signer := hio_draw ed25519_did_key in
  let! r := fetch_challenge t (signer_did signer) in
  match r with
  | Err e => hio_ret (case_fail ID SPEC_REF TITLE
      ("challenge setup failed: " +:+ login_error_display e))
  | Ok challenge =>
  let! r := sign_challenge challenge signer in
  match r with
  | Err e => hio_ret (case_fail ID SPEC_REF TITLE
      ("could not build a valid session request to mutate: " +:+ login_error_display e))
  | Ok (JObject map_) =>
  let body := JObject (insert_member "an_unrecognised_field_the_spec_never_defined"
    (JString "conformance-probe") map_) in
  let! r := post_session t body in
  hio_ret
  match r with
  | Err e => case_fail ID SPEC_REF TITLE ("request failed: " +:+ login_error_display e)
  | Ok response =>
      if negb (is_success response) then case_fail ID SPEC_REF TITLE
        ("a request that is valid except for one added, unrecognised field was refused: "
         +:+ status_and_body response)
      else case_pass ID SPEC_REF TITLE ""
  end
  | Ok _ => hio_ret (case_fail ID SPEC_REF TITLE
      ("the session request this suite builds was not a JSON object, which is a bug in this "
       +:+ "harness, not the target"))
  end
  end.

Definition wire_cases (t : Target) : Hio (list CaseResult) :=
  in_order [spec_6_2_required_fields t; spec_6_2_did_field t; spec_6_2_nonce_format t;
    spec_6_2_message_structure t; spec_6_2_expires_at_sane t;
    spec_6_4_session_response_shape t; spec_8_unknown_request_fields_ignored t].

(** ** [run_all] *)

Definition run_all (t : Target) : Hio Report :=
  let! wire := wire_cases t in
  let! nonce_and_did := nonce_and_did_cases t in
  let! signature := signature_cases t in
  hio_ret {| rt_cases := wire ++ nonce_and_did ++ signature |}.
End cases.
