(* ===== verification/ConformanceGate.v ===== *)
(** * What the suite sends, and to where: the gate of conformance/mod.rs

    Every request the harness makes goes to the base URL the gate let through,
    extended by one of the two paths, and every other request of a run is one
    that a redirect of an earlier answer asked for; the gate itself; and the two
    ways around it, redirects and [with_paths]. *)

From S2P Require Import Prelude Crates Fixtures Errors Keys Aqua Signer LocalKey TestSigners WebauthnPolicy Conformance ConformanceNonce ConformanceSignature ConformanceWire.

Section sends.
Context `{HarnessHost, Urls, Json, JsonWrite, Hex, Base58, Base64, Hashes}.
Context `{Ed25519, P256, K256, MlDsa, !SigningKeys, !KeyGeneration}.

(** The requests of the harness, and all that go over the wire. *)
Definition exchanges (log : list LogEntry) : list Exchange :=
  omap (λ e, match e with Requested x => Some x | Drew _ => None end) log.
Definition requests (log : list LogEntry) : list HttpCall :=
  flat_map (λ x, xc_call x :: map snd (xc_hops x)) (exchanges log).
(** The redirects followed from a request, each one asked for by an answer. *)
Fixpoint redirected (c : HttpCall) (hops : list (hc_response * HttpCall)) : Prop :=
  match hops with
  | [] => True
  | (resp, c') :: hops =>
      (∃ w w', hc_send w c = (w', Ok resp)) ∧ hc_redirect c resp = Some c' ∧ redirected c' hops
  end.
Lemma follow_redirected n c w :
  redirected c (follow n c w).1.1 ∧ length (follow n c w).1.1 ≤ n.
Proof.
  revert c w. induction n as [|n IH]; intros c w; cbn [follow];
    destruct (hc_send w c) as [w' [resp|e]] eqn:Es; try (cbn; split; [done|lia]);
    (destruct (hc_redirect c resp) as [c'|] eqn:Er; [|cbn; split; [done|lia]]).
  - cbn. split; [done|lia].
  - specialize (IH c' w'). destruct (follow n c' w') as [[hops w2] r]. cbn in *.
    destruct IH. split; [|lia]. split_and!; eauto.
Qed.
Lemma send_call_redirected c w w' resp c' :
  hc_send w c = (w', Ok resp) → hc_redirect c resp = Some c' →
  ∃ x hops w'' r, send_call c w = ([Requested x], w'', r) ∧ xc_hops x = (resp, c') :: hops.
Proof.
  intros Hs Hr. unfold send_call. change REDIRECT_LIMIT with (S 9).
  assert (∀ n, follow (S n) c w = let '(hops, w, r) := follow n c' w' in ((resp, c') :: hops, w, r))
    as -> by (intros n; cbn [follow]; by rewrite Hs, Hr).
  destruct (follow 9 c' w') as [[hops w2] r].
  destruct (match r with Ok _ => _ | Err _ => _ end) as [w3 x]. by eexists _, hops, _, _.
Qed.

(** What the requests of the harness itself satisfy. *)
Definition sends_only {A} (P : HttpCall → Prop) (m : Hio A) : Prop := ∀ w,
  Forall (λ x, P (xc_call x) ∧ redirected (xc_call x) (xc_hops x) ∧
    length (xc_hops x) ≤ REDIRECT_LIMIT) (exchanges (m w).1.1).

Section rules.
Context (P : HttpCall → Prop).
Lemma sends_ret {A} (a : A) : sends_only P (hio_ret a).
Proof. intros w. constructor. Qed.
Lemma sends_read {A} (f : world → A) : sends_only P (hio_read f).
Proof. intros w. constructor. Qed.
Lemma sends_do {A} (f : world → world * A) : sends_only P (hio_do f).
Proof. intros w. unfold hio_do. destruct (f w). constructor. Qed.
Lemma sends_draw (f : world → world * Signer) : sends_only P (hio_draw f).
Proof. intros w. unfold hio_draw. destruct (f w). constructor. Qed.
Lemma sends_bind {A B} (x : Hio A) (f : A → Hio B) :
  sends_only P x → (∀ a, sends_only P (f a)) → sends_only P (hio_bind x f).
Proof.
  intros Hx Hf w. unfold hio_bind. specialize (Hx w). destruct (x w) as [[c1 w1] a].
  specialize (Hf a w1). destruct (f a w1) as [[c2 w2] b]. cbn [fst] in *.
  unfold exchanges. rewrite omap_app. by apply Forall_app.
Qed.
Lemma sends_call c : P c → sends_only P (send_call c).
Proof.
  intros Hc w. unfold send_call. pose proof (follow_redirected REDIRECT_LIMIT c w) as Hf.
  destruct (follow REDIRECT_LIMIT c w) as [[hops w'] r]. cbn [fst] in Hf.
  destruct (match r with Ok _ => _ | Err _ => _ end) as [w2 x].
  constructor; [by split|constructor].
Qed.
Lemma sends_in_order {A} (ms : list (Hio A)) :
  Forall (sends_only P) ms → sends_only P (in_order ms).
Proof.
  induction 1 as [|m ms Hm _ IH]; cbn [in_order]; [apply sends_ret|].
  apply sends_bind; [done|]. intros a. apply sends_bind; [done|]. intros l. apply sends_ret.
Qed.
End rules.

(** A request of a target: one of its two URLs. *)
Definition on_target (t : Target) (c : HttpCall) : Prop :=
  match c with
  | CallGet url _ => url = tg_base_url t +:+ tg_challenge_path t
  | CallPost url _ => url = tg_base_url t +:+ tg_session_path t
  end.
Context (t : Target).
Lemma sends_fetch did : sends_only (on_target t) (fetch_challenge t did).
Proof. apply sends_bind; [by apply sends_call|]. intros r. apply sends_ret. Qed.
Lemma sends_post body : sends_only (on_target t) (post_session t body).
Proof. apply sends_bind; [by apply sends_call|]. intros r. apply sends_ret. Qed.
Lemma sends_sign c s : sends_only (on_target t) (sign_challenge c s).
Proof.
  unfold sign_challenge. destruct (signable c) as [[m n]|]; [|apply sends_ret].
  apply sends_bind; [apply sends_do|]. intros r. apply sends_ret.
Qed.
End sends.

(** The steps every case is made of. *)
Ltac sends_step :=
  first [ apply sends_ret | apply sends_read | apply sends_draw | apply sends_do | apply sends_fetch
        | apply sends_post | apply sends_sign | apply sends_bind; [|intros ?]
        | progress unfold random_hex, unix_now | case_match | assumption ].
Ltac sends := repeat sends_step.

Section cases.
Context `{HarnessHost, Urls, Json, JsonWrite, Hex, Base58, Base64, Hashes}.
Context `{Ed25519, P256, K256, MlDsa, !SigningKeys, !KeyGeneration}.
Context (t : Target).

Lemma sends_login s : sends_only (on_target t) (login t s).
Proof. unfold login. sends. Qed.
Lemma sends_refused did : sends_only (on_target t) (refused_at_either_endpoint t did).
Proof. unfold refused_at_either_endpoint. sends. Qed.
Lemma sends_malformed table : sends_only (on_target t) (try_malformed t table).
Proof.
  induction table as [|[l d] table IH]; cbn [try_malformed];
    repeat first [apply sends_refused | sends_step].
Qed.
Lemma sends_valid entries : sends_only (on_target t) (try_valid t entries).
Proof. induction entries as [|[l s] entries IH]; cbn [try_valid]; sends. Qed.
Lemma sends_corruptions rows : sends_only (on_target t) (try_corruptions t rows).
Proof.
  induction rows as [|[l c] rows IH]; cbn [try_corruptions]; [sends|].
  apply sends_bind; [unfold try_corruption; sends|intros ?; sends].
Qed.
Lemma sends_cross s m n a b c : sends_only (on_target t) (cross_submission t s m n a b c).
Proof. unfold cross_submission. sends. Qed.
Lemma sends_wire : sends_only (on_target t) (wire_cases t).
Proof.
  apply sends_in_order. repeat constructor.
  - unfold spec_6_2_required_fields. sends.
  - unfold spec_6_2_did_field. sends.
  - unfold spec_6_2_nonce_format. sends.
  - unfold spec_6_2_message_structure. sends.
  - unfold spec_6_2_expires_at_sane. sends.
  - unfold spec_6_4_session_response_shape. apply sends_bind; [sends|intros ?].
    apply sends_bind; [apply sends_login|intros ?]. sends.
  - unfold spec_8_unknown_request_fields_ignored. sends.
Qed.
Lemma sends_nonce_and_did : sends_only (on_target t) (nonce_and_did_cases t).
Proof.
  apply sends_in_order. repeat constructor.
  - unfold spec_7_1_unknown_nonce_refused. sends.
  - unfold spec_7_3_nonce_single_use. apply sends_bind; [sends|intros ?].
    apply sends_bind; [apply sends_login|intros ?]. sends.
  - unfold spec_7_4_unsupported_namespace_refused. apply sends_bind; [sends|intros ?].
    apply sends_bind; [apply sends_refused|intros ?]. sends.
  - unfold spec_7_5_did_well_formed, malformed_table. apply sends_bind; [sends|intros ?].
    apply sends_bind; [apply sends_malformed|intros ?]. sends.
  - unfold spec_7_5_valid_did_spellings_accepted, valid_entries. apply sends_bind; [sends|intros ?].
    apply sends_bind; [apply sends_valid|intros ?]. sends.
Qed.
Lemma sends_signature : sends_only (on_target t) (signature_cases t).
Proof.
  apply sends_in_order. repeat constructor.
  - unfold spec_7_6_signature_invalid_refused. apply sends_bind; [apply sends_corruptions|intros ?].
    sends.
  - unfold spec_7_6_wrong_key_refused. sends.
  - unfold spec_7_7_message_binding.
    repeat first [apply sends_cross | sends_step].
  - unfold spec_7_2_challenge_expiry. sends.
  - unfold spec_6_2_uri_origin_matches_target. sends.
  - unfold spec_6_3_public_key_binding. sends.
Qed.

(** What the gate lets through. *)
Lemma target_new_Ok w base : target_new w base = Ok t ↔
  ∃ u host, url_parse base = Ok u ∧ url_host_str u = Some host ∧
    (env_var w ALLOW_REMOTE_ENV = Some "1" ∨ is_loopback_host host = true) ∧
    t = {| tg_base_url := trim_end_matches "/" base;
           tg_challenge_path := "/auth/challenge"; tg_session_path := "/auth/session" |}.
Proof.
  unfold target_new, check_host. split.
  - destruct (url_parse base) as [u|]; [|done]. cbn [map_err].
    destruct (url_host_str u) as [host|] eqn:Eh; [|done]. cbn [ok_or].
    destruct (bool_decide_reflect (env_var w ALLOW_REMOTE_ENV = Some "1")); cbn [orb].
    + intros [= <-]. exists u, host. split_and!; [done..|by left|done].
    + destruct (is_loopback_host host) eqn:El; [|done]. intros [= <-]. exists u, host.
      split_and!; [done..|by right|done].
  - intros (u & host & -> & Hh & Hor & ->). cbn [map_err]. rewrite Hh. cbn [ok_or].
    destruct Hor as [He|Hl]; [by rewrite bool_decide_eq_true_2|].
    by rewrite Hl, orb_true_r.
Qed.
End cases.

Section properties.
Context `{HarnessHost, Urls, Json, JsonWrite, Hex, Base58, Base64, Hashes}.
Context `{Ed25519, P256, K256, MlDsa, !SigningKeys, !KeyGeneration}.

(** C39: where the suite's requests go. Let a target be made from a base URL,
    with whatever paths. Then that URL has a host, which is loopback unless the
    environment opted in when the target was made; and every request the harness
    itself makes in a whole run, whatever the service answers, is a GET of the
    base URL extended by the challenge path or a POST to it extended by the
    session path. Any other request of the run is a redirect, at most ten in a
    row from one of those, each asked for by the answer to the request before
    it; where nothing redirects, every request is one of the two. *)
Theorem suite_stays_on_target w0 base t challenge session w :
  let on_target c := match c with
    | CallGet url _ => url = trim_end_matches "/" base +:+ challenge
    | CallPost url _ => url = trim_end_matches "/" base +:+ session
    end in
  let log := (run_all (with_paths t challenge session) w).1.1 in
  target_new w0 base = Ok t →
  (∃ u host, url_parse base = Ok u ∧ url_host_str u = Some host ∧
    (env_var w0 ALLOW_REMOTE_ENV = Some "1" ∨ is_loopback_host host = true)) ∧
  Forall (λ x, on_target (xc_call x) ∧ redirected (xc_call x) (xc_hops x) ∧
    length (xc_hops x) ≤ 10) (exchanges log) ∧
  ((∀ c resp, hc_redirect c resp = None) → Forall on_target (requests log)).
Proof.
  intros on log (u & host & Hu & Hh & Hor & ->)%target_new_Ok. split; [eauto|].
  set (t := with_paths _ challenge session) in log.
  assert (sends_only (on_target t) (run_all t)) as Hs.
  { apply sends_bind; [apply sends_wire|intros ?].
    apply sends_bind; [apply sends_nonce_and_did|intros ?].
    apply sends_bind; [apply sends_signature|intros ?]. apply sends_ret. }
  specialize (Hs w). split; [exact Hs|]. intros Hno. fold log in Hs. unfold requests.
  induction Hs as [|x xs (Hx & Hr & _) _ IH]; [constructor|]. cbn [flat_map].
  destruct (xc_hops x) as [|[resp c'] hops]; cbn [map app]; [by constructor|].
  destruct Hr as (_ & Hr & _). by rewrite Hno in Hr.
Qed.

(** A redirect takes a signed login off the target. When the service
    answers the session request of a login with a redirect, the request it
    redirects to is sent, wherever it goes: no gate looks at it. *)
Theorem redirect_leaves_target t signer w l1 w1 challenge l2 w2 body w3 resp c' :
  fetch_challenge t (signer_did signer) w = (l1, w1, Ok challenge) →
  sign_challenge challenge signer w1 = (l2, w2, Ok body) →
  hc_send w2 (CallPost (tg_base_url t +:+ tg_session_path t) body) = (w3, Ok resp) →
  hc_redirect (CallPost (tg_base_url t +:+ tg_session_path t) body) resp = Some c' →
  c' ∈ requests (login t signer w).1.1.
Proof.
  intros Hf Hs Hp Hr. unfold login, hio_bind at 1. rewrite Hf. unfold hio_bind at 1. rewrite Hs.
  destruct (send_call_redirected _ w2 w3 resp c' Hp Hr) as (x & hops & w4 & r & Hx & Hh).
  unfold post_session, http_post_session, hio_bind. rewrite Hx. cbn [fst hio_ret].
  unfold requests, exchanges. rewrite !omap_app, !flat_map_app. cbn [omap list_omap flat_map app].
  rewrite Hh. apply elem_of_app. right. apply elem_of_app. right. right. by left.
Qed.
End properties.

Section witnesses.
Import Fixtures.Instances.
#[local] Existing Instances fx_signing_keys fill_keys.

(** A request, sent on with its body. *)
Definition sent_on (url : string) (c : HttpCall) : HttpCall :=
  match c with CallGet _ _ => CallGet url [] | CallPost _ body => CallPost url body end.
(** A host that opted nothing in; the script of the world answers, and the text
    of a redirect is where it leads. *)
Definition scripted_host : @HarnessHost fx_world := {|
  hc_response := toy_response;
  hc_send := λ (w : @world fx_world) _,
    match w with [] => ([], Err "connection refused") | x :: w' => (w', x) end;
  hc_redirect := λ c r, if (tr_status r =? 307)%Z then Some (sent_on (tr_body r) c) else None;
  hc_too_many_redirects := "too many redirects";
  hc_status := tr_status; hc_text := λ w r, (w, Ok (tr_body r));
  status_display := show_Z; env_var := λ _ _, None; system_secs := λ _, 0%Z;
  sleep_secs := λ w _, w;
|}.
#[local] Existing Instance scripted_host.
Definition local_url : string := "http://127.0.0.1:4000".
Definition local_target : Target :=
  {| tg_base_url := local_url; tg_challenge_path := "/auth/challenge";
     tg_session_path := "/auth/session" |}.
Definition silent : @world fx_world := [].
Lemma suite_stays_on_target_witness :
  Forall (λ x, match xc_call x with
    | CallGet url _ => url = local_url +:+ "/api/challenge"
    | CallPost url _ => url = local_url +:+ "/api/session"
    end ∧ redirected (xc_call x) (xc_hops x) ∧ length (xc_hops x) ≤ 10)
    (exchanges (run_all (with_paths local_target "/api/challenge" "/api/session") silent).1.1).
Proof.
  refine (proj1 (proj2 (suite_stays_on_target silent local_url local_target "/api/challenge"
    "/api/session" silent _))). vm_refl.
Defined.

(** A service on loopback that hands out a challenge and redirects the login
    elsewhere. *)
Definition challenge_text : string :=
  toy_write (JObject [("message", JString "m"); ("nonce", JString "n")]).
Definition login_key : SpelledKey := SpelledEd25519 (sample_ed_signing : ed_signing) DidKey.
Definition login_body : json := session_body (signer_did (spelled_signer login_key)) "n"
  (ed_sign (sample_ed_signing : ed_signing) (as_bytes "m")).
Definition redirecting : @world fx_world :=
  [Ok {| tr_status := 200; tr_body := challenge_text |};
   Ok {| tr_status := 307; tr_body := "http://node.example/collect" |}].
Lemma redirect_leaves_target_witness :
  target_new redirecting local_url = Ok local_target ∧
  env_var redirecting ALLOW_REMOTE_ENV = None ∧ is_loopback_host "node.example" = false ∧
  CallPost "http://node.example/collect" login_body
    ∈ requests (login local_target (spelled_signer login_key) redirecting).1.1.
Proof.
  split; [vm_refl|]. split; [done|]. split; [vm_refl|].
  refine (redirect_leaves_target local_target (spelled_signer login_key) redirecting _ _ _ _ _
    login_body _ _ _ _ _ _ _); reflexivity.
Defined.
(** The gate looks at the base URL only, and the paths are put behind it as
    text. A path that starts with an at sign turns the host the gate saw into
    user information: without any opt-in, the first request of a run goes to
    another host. *)
Lemma with_paths_escapes_gate :
  let t := with_paths local_target "@node.example/auth/challenge" "/auth/session" in
  target_new silent local_url = Ok local_target ∧ env_var silent ALLOW_REMOTE_ENV = None ∧
  ∃ url u q rest, requests (run_all t silent).1.1 = CallGet url q :: rest ∧ url_parse url = Ok u ∧
    url_host_str u = Some "node.example" ∧ is_loopback_host "node.example" = false.
Proof.
  split; [vm_refl|]. split; [done|].
  exists (local_url +:+ "@node.example/auth/challenge"), {| tu_scheme := SHttp;
    tu_user := "127.0.0.1"; tu_password := Some "4000"; tu_host := Some "node.example";
    tu_port := None; tu_path := "/auth/challenge"; tu_query := None; tu_fragment := None |}.
  eexists _, _. split; [reflexivity|]. split_and!; vm_refl.
Qed.

(** The gate's reading of addresses. *)
Example loopback_hosts :
  map is_loopback_host ["localhost"; "LOCALHOST"; "127.0.0.1"; "127.5.9.2"; "::1"; "[::1]";
    "[0:0:0:0:0:0:0:1]"; "[::0.0.0.1]"] = repeat true 8.
Proof. vm_refl. Qed.
Example remote_hosts :
  map is_loopback_host ["example.com"; "203.0.113.7"; "[::]"; "[2001:db8::1]"; "127.0.0.01";
    "[::ffff:127.0.0.1]"; "localhost."; ""] = repeat false 8.
Proof. vm_refl. Qed.
End witnesses.
