(* ===== verification/ConformanceLogic.v ===== *)
(** * Reasoning about a run: the suite against a service it can reason about

    [PeerTarget] is the interface between the suite and the service under it:
    a target whose requests reach the handlers of an [AquaPeer], over a set of
    worlds a run stays in. [wp] is the logic of runs; the lemmas after it are
    the steps the cases are made of, proved against the interface. *)

From S2P Require Import Prelude Crates Fixtures Errors Keys Did Suites Aqua Methods DidFormat Principal Message Types Challenge SessionBackend Session Wire Signer HttpSigBase HttpSigReplay HttpSig Directory LocalKey TestSigners Peer PeerLogin Conformance ConformanceNonce ConformanceSignature ConformanceWire.

#[local] Existing Instance InMemoryBackend.

(** ** The interface *)

Section interface.
Context `{Ed25519, P256, K256, MlDsa, Base58, Base64, Hex, Hashes, Features, Chrono, Profile}.
Context `{Sfv, HarnessHost, Urls, Json, JsonWrite, !SigningKeys, !KeyGeneration}.

(** How the answer of a handler travels: a body is the JSON text of the value,
    an error is a status alone, a panic closes the connection. None of them is
    a redirect. *)
Definition answered {A} (enc : A → json) (x : run (result A StatusCode)) (w : world)
    (c : HttpCall) (r : result hc_response string) : Prop :=
  match x with
  | Panicked => ∃ e, r = Err e
  | Returned (Err code) =>
      ∃ resp, r = Ok resp ∧ hc_redirect c resp = None ∧ hc_status resp = code ∧
        hc_text w resp = (w, Ok "")
  | Returned (Ok a) =>
      ∃ resp t, r = Ok resp ∧ hc_redirect c resp = None ∧ hc_status resp = 200%Z ∧
        json_to_string (enc a) = Ok t ∧ hc_text w resp = (w, Ok t)
  end.

Class PeerTarget := {
  pt_target : Target;
  pt_peer : world → PeerState;
  (** The clocks the next request meets, and the entropy of its challenge and of
      its session token. *)
  pt_moment : world → Moment;
  pt_token : world → bytes;
  (** The worlds of a run. *)
  pt_ok : world → Prop;
}.
Definition peer_get `{PeerTarget} (w : world) (did : string)
  : PeerState * run (result ChallengeEnvelope StatusCode) :=
  let m := pt_moment w in
  challenge_handler (pt_peer w) (Some did) (mo_clean m) (mo_bytes m) (mo_now m).
Definition peer_post `{PeerTarget} (w : world) (req : WireSessionRequest)
  : PeerState * run (result SessionResponse StatusCode) :=
  let m := pt_moment w in
  session_handler (pt_peer w) req (mo_challenge_now m) (mo_clean m) (pt_token w) (mo_now m).
(** A draw from the generator leaves the service alone. *)
Definition quiet `{PeerTarget} {A} (f : world → world * A) : Prop :=
  ∀ w, pt_ok w → pt_ok (f w).1 ∧ pt_peer (f w).1 = pt_peer w.
Class PeerTargetLaws `{PeerTarget} : Prop := {
  pt_get w did w' r : pt_ok w →
    let c := CallGet (tg_base_url pt_target +:+ tg_challenge_path pt_target) [("did", did)] in
    hc_send w c = (w', r) →
    pt_ok w' ∧ pt_peer w' = (peer_get w did).1 ∧
    answered envelope_to_json (peer_get w did).2 w' c r;
  pt_post w body t v req w' r : pt_ok w →
    json_to_string body = Ok t → json_document (as_bytes t) = Ok v →
    session_request_of_json v = Some req →
    let c := CallPost (tg_base_url pt_target +:+ tg_session_path pt_target) body in
    hc_send w c = (w', r) →
    pt_ok w' ∧ pt_peer w' = (peer_post w req).1 ∧
    answered session_response_to_json (peer_post w req).2 w' c r;
  pt_fill n : quiet (λ w, os_fill_bytes w n);
  pt_ed : quiet ed_generate;
  pt_p256 : quiet p256_random;
  pt_k256 : quiet k256_random;
  (** A fresh nonce is not one of the service's, whoever draws it. *)
  pt_fresh w : pt_ok w →
    cst_challenges (ps_challenges (pt_peer w)) !! nonce_text (os_fill_bytes w 32).2 = None ∧
    cst_challenges (ps_challenges (pt_peer w)) !! nonce_text (mo_bytes (pt_moment w)) = None;
  pt_entropy w : pt_ok w → length (mo_bytes (pt_moment w)) = 32 ∧ length (pt_token w) = 32;
  (** Waiting for a challenge to expire is not opted into. *)
  pt_env w : pt_ok w → env_var w EXPIRY_WAIT_ENV ≠ Some "1";
  (** Challenges name the origin that is dialled. *)
  pt_origin w : pt_ok w →
    starts_with "URI: " (cst_domain (ps_challenges (pt_peer w))
      +:+ " wants you to sign in with your Ed25519 account:") = false ∧
    ∃ u d, url_parse (cst_uri (ps_challenges (pt_peer w))) = Ok u ∧
      url_parse (tg_base_url pt_target) = Ok d ∧ same_origin u d = true;
  (** The run fits into the lifetime of one challenge, which is at most a day,
      and the clocks stay inside the ranges of their types. *)
  pt_clock w : pt_ok w → ∃ expires,
    dt_add_seconds (mo_now (pt_moment w)) (as_i64 (cst_ttl_secs (ps_challenges (pt_peer w))))
      = Returned expires ∧
    ∀ w', pt_ok w' → (now_secs (mo_challenge_now (pt_moment w')) < now_secs expires)%Z ∧
      (Z.max 0 (system_secs w') < now_secs expires ≤ Z.max 0 (system_secs w') + 86400)%Z;
  (** There is room for a session, which outlives the run. *)
  pt_sessions w : pt_ok w →
    let ss := ps_sessions (pt_peer w) in let now := now_secs (mo_now (pt_moment w)) in
    Session.ok ss ∧
    size (live_at (now_secs (mo_clean (pt_moment w))) (Session.view ss)) < ss_max_sessions ss ∧
    (0 ≤ ss_ttl_secs ss)%Z ∧ (now + ss_ttl_secs ss < u64_bound)%Z ∧
    ∀ w', pt_ok w' → (Z.max 0 (system_secs w') < now + ss_ttl_secs ss)%Z;
  (** The service's domain is a line, and not one that looks like another. *)
  pt_lines w : pt_ok w → let cs := ps_challenges (pt_peer w) in
    one_line (cst_domain cs) = true ∧ str_forallb graphic (cst_uri cs) = true ∧
    starts_with "Chain ID:"
      (cst_domain cs +:+ " wants you to sign in with your Ed25519 account:") = false;
}.
End interface.

(** ** Reading what the service wrote *)

Ltac names_distinct := cbn [fmap list_fmap fst]; apply (bool_decide_unpack _); vm_compute; done.

Section reading.
Context `{Json, JsonWrite, !JsonTextLaws}.

Lemma json_get_perm ms ms' name : NoDup ms.*1 → ms ≡ₚ ms' →
  json_get (JObject ms') name = json_get (JObject ms) name.
Proof.
  intros Hnd Hp. cbn [json_get].
  assert (∀ (kv : string * json) l, NoDup l.*1 → (kv ∈ l : Prop) → kv.1 = name →
    List.find (λ kv, String.eqb kv.1 name) l = Some kv) as Hin.
  { clear. intros [k v] l Hnd Hin <-. cbn [fst]. induction l as [|[k' v'] l IH]; [by apply not_elem_of_nil in Hin|].
    cbn [fmap list_fmap fst] in Hnd. apply list.NoDup_cons in Hnd as [Hk Hnd]. cbn [List.find fst].
    apply elem_of_cons in Hin as [[= -> ->]|Hin]; [by rewrite String.eqb_refl|].
    destruct (String.eqb_spec k' k) as [->|]; [|by apply IH].
    destruct Hk. apply list_elem_of_fmap. by exists (k, v). }
  assert (NoDup ms'.*1) as Hnd' by by rewrite <- Hp.
  destruct (List.find (λ kv, String.eqb kv.1 name) ms) as [kv|] eqn:E.
  - apply List.find_some in E as [Hkv%list_elem_of_In Hn%String.eqb_eq].
    rewrite (Hin kv ms'); [done|done|by rewrite <- Hp|done].
  - destruct (List.find (λ kv, String.eqb kv.1 name) ms') as [kv|] eqn:E'; [|done].
    apply List.find_some in E' as [Hkv%list_elem_of_In Hn%String.eqb_eq].
    rewrite (Hin kv ms) in E; [done|done|by rewrite Hp|done].
Qed.
Lemma flat_number z : (0 ≤ z)%Z → flat (JNumber (show_Z z)) = true.
Proof. intros Hz. cbn [flat]. by rewrite show_Z_digits, show_Z_nonempty. Qed.
Lemma now_secs_range `{Chrono} d : (0 ≤ now_secs d < u64_bound)%Z.
Proof. unfold now_secs, as_u64. apply Z.mod_pos_bound. done. Qed.

(** A body whose members are flat and distinct, as the harness sees it. *)
Definition flat_object (v : json) : Prop :=
  ∃ ms, v = JObject ms ∧ NoDup ms.*1 ∧ forallb flat ms.*2 = true.
Definition shows (v : json) (got : option json) : Prop :=
  ∃ ms, got = Some (JObject ms) ∧ ∀ name, json_get (JObject ms) name = json_get v name.
Lemma flat_object_read v t : flat_object v → json_to_string v = Ok t →
  json_document (as_bytes t) = Ok v ∧
  shows v match json_value (as_bytes t) with Ok g => Some g | Err _ => None end.
Proof.
  intros (ms & -> & Hnd & Hf) Ht. destruct (json_text_read ms t Hnd Hf Ht) as (Hd & ms' & -> & Hp).
  split; [done|]. exists ms'. split; [done|]. intros name.
  by apply json_get_perm.
Qed.
(** The requests the harness makes hold strings only. *)
Definition string_members (ms : list (string * json)) : Prop :=
  Forall (λ kv : string * json, ∃ s, kv.2 = JString s) ms.
Lemma string_members_flat ms : string_members ms → forallb flat ms.*2 = true.
Proof. induction 1 as [|[k v] ms [s Hs] _ IH]; [done|]. cbn in Hs. by subst v. Qed.
Lemma string_members_text ms : string_members ms → ∃ t, json_to_string (JObject ms) = Ok t.
Proof.
  intros Hs. assert (∃ ts, Forall2 (λ (kv : string * json) t, ∃ k v,
    json_to_string (JString kv.1) = Ok k ∧ json_to_string kv.2 = Ok v ∧ t = k +:+ ":" +:+ v) ms ts)
    as [ts Hts]; [|eexists; by apply (json_text_object ms ts)].
  induction Hs as [|[n v0] ms [s Hv0] _ [ts IH]]; [by exists []|]. cbn in Hv0. subst v0.
  destruct (json_text_string n) as [k Hk], (json_text_string s) as [v Hv].
  exists ((k +:+ ":" +:+ v) :: ts). constructor; [|done]. by exists k, v.
Qed.
Lemma envelope_flat e : (0 ≤ en_expires_at e)%Z → flat_object (envelope_to_json e).
Proof.
  intros He. eexists. split; [done|]. split; [names_distinct|].
  cbn [fmap list_fmap snd forallb]. by rewrite (flat_number _ He).
Qed.
Lemma session_response_flat r : (0 ≤ rp_valid_until r)%Z → (0 ≤ rp_created_at r)%Z →
  flat_object (session_response_to_json r).
Proof.
  intros Hu Hc. eexists. split; [done|]. split; [names_distinct|].
  cbn [fmap list_fmap snd forallb]. by rewrite (flat_number _ Hu), (flat_number _ Hc).
Qed.
End reading.

(** ** Reasoning about a run over the interface *)

Section wp.
Context `{Ed25519, P256, K256, MlDsa, Base58, Base64, Hex, Hashes, Features, Chrono, Profile}.
Context `{Sfv, HarnessHost, Urls, Json, JsonWrite, !SigningKeys, !KeyGeneration}.

(** What holds of the value and of the world afterwards. *)
Definition wp {A} (m : Hio A) (Q : A → world → Prop) (w : world) : Prop := Q (m w).2 (m w).1.2.
Lemma wp_ret {A} (a : A) (Q : A → world → Prop) w : Q a w → wp (hio_ret a) Q w.
Proof. done. Qed.
Lemma wp_bind {A B} (x : Hio A) (f : A → Hio B) Q w :
  wp x (λ a, wp (f a) Q) w → wp (hio_bind x f) Q w.
Proof.
  unfold wp, hio_bind. destruct (x w) as [[c1 w1] a]. cbn. by destruct (f a w1) as [[c2 w2] b].
Qed.
Lemma wp_mono {A} (m : Hio A) (Q Q' : A → world → Prop) w :
  wp m Q w → (∀ a w', Q a w' → Q' a w') → wp m Q' w.
Proof. unfold wp. auto. Qed.
Lemma wp_read {A} (f : world → A) Q w : Q (f w) w → wp (hio_read f) Q w.
Proof. done. Qed.

(** What the harness sees of an answer. *)
Definition replied {A} (enc : A → json) (x : run (result A StatusCode))
    (r : result HttpResponse LoginError) : Prop :=
  match x with
  | Panicked => ∃ e, r = Err e
  | Returned (Err code) => ∃ resp, r = Ok resp ∧ hr_status resp = code
  | Returned (Ok a) =>
      ∃ resp, r = Ok resp ∧ hr_status resp = 200%Z ∧ shows (enc a) (hr_json resp)
  end.

Context `{!JsonTextLaws, !PeerTarget, !PeerTargetLaws}.

Lemma wp_quiet {A} (f : world → world * A) Q w : quiet f → pt_ok w →
  (∀ w' a, (w', a) = f w → pt_ok w' → pt_peer w' = pt_peer w → Q a w') → wp (hio_do f) Q w.
Proof.
  intros Hf Hok HQ. destruct (Hf w Hok) as [Hok' Hp]. unfold wp, hio_do.
  destruct (f w) as [w' a] eqn:E. by apply (HQ w' a).
Qed.
Lemma answered_replied {A} (enc : A → json) x c w w' r :
  hc_send w c = (w', r) → answered enc x w' c r →
  (∀ a, x = Returned (Ok a) → flat_object (enc a)) →
  wp (send_call c) (λ r w2, w2 = w' ∧ replied enc x (map_err LoginHttp r)) w.
Proof.
  intros Hs Ha Hflat. unfold wp, send_call, REDIRECT_LIMIT. cbn [follow]. rewrite Hs.
  destruct x as [[a|code]|]; cbn [answered replied] in *.
  - destruct Ha as (resp & t & -> & -> & Hst & Ht & Htext). unfold into_http_response.
    rewrite Htext. cbn. split; [done|]. eexists. split; [done|]. cbn. split; [done|].
    by apply (flat_object_read (enc a) t), Ht; apply Hflat.
  - destruct Ha as (resp & -> & -> & Hst & Htext). unfold into_http_response.
    rewrite Htext. cbn. split; [done|]. by eexists.
  - destruct Ha as [e ->]. cbn. split; [done|]. by eexists.
Qed.

Lemma peer_get_expiry w did env :
  (peer_get w did).2 = Returned (Ok env) → (0 ≤ en_expires_at env)%Z.
Proof.
  unfold peer_get, challenge_handler. destruct (find_did_method did); [|done].
  destruct (Challenge.create _ _ _ _ _) as [st [[c|]|]] eqn:E; try done.
  intros [= <-]. cbn [en_expires_at]. apply create_Ok in E as (_ & ex & _ & _ & -> & _).
  cbn [ch_expires_at]. apply now_secs_range.
Qed.
Lemma wp_fetch did Q w : pt_ok w →
  (∀ w' r, pt_ok w' → pt_peer w' = (peer_get w did).1 →
    replied envelope_to_json (peer_get w did).2 r → Q r w') →
  wp (fetch_challenge pt_target did) Q w.
Proof.
  intros Hok HQ. apply wp_bind.
  destruct (hc_send w (CallGet (tg_base_url pt_target +:+ tg_challenge_path pt_target)
    [("did", did)])) as [w' r] eqn:E.
  destruct (pt_get w did w' r Hok E) as (Hok' & Hp & Ha).
  eapply wp_mono; [eapply answered_replied; [exact E|exact Ha|]|].
  - intros env Henv. by apply envelope_flat, (peer_get_expiry w did).
  - intros r' w2 [-> Hr]. apply wp_ret. by apply HQ.
Qed.

Lemma create_times st did clean tb now st' s : (0 ≤ ss_ttl_secs st)%Z →
  Session.create st did clean tb now = (st', Returned (Ok s)) →
  (0 ≤ se_valid_until s)%Z ∧ (0 ≤ se_created_at s)%Z.
Proof.
  intros Httl Hc. unfold Session.create in Hc.
  set (st1 := if _ <=? sb_len (ss_backend st) then Session.cleanup_expired clean st else st) in Hc.
  assert (ss_ttl_secs st1 = ss_ttl_secs st) as Ht1 by (unfold st1; clear; by case_match).
  clearbody st1. destruct (_ <=? _); [done|].
  assert (ss_ttl_secs (enforce_per_did_cap did st1) = ss_ttl_secs st1) as Ht2.
  { unfold enforce_per_did_cap. destruct (_ <? _); [done|]. by destruct (head _) as [[]|]. }
  rewrite Ht2, Ht1 in Hc. pose proof (now_secs_range now) as [Hn _].
  destruct (add_u64 _ _ _) as [u|] eqn:Ea; [|done].
  assert (0 ≤ u)%Z as Hu.
  { unfold add_u64 in Ea. destruct (_ <? u64_bound)%Z; [injection Ea as <-; lia|].
    destruct overflow_checks; [done|]. injection Ea as <-. by apply Z.mod_pos_bound. }
  destruct (sb_insert _ _) as [b [x|e]]; [|done]. injection Hc as _ <-. done.
Qed.
Lemma peer_post_times w req resp : (0 ≤ ss_ttl_secs (ps_sessions (pt_peer w)))%Z →
  (peer_post w req).2 = Returned (Ok resp) →
  (0 ≤ rp_valid_until resp)%Z ∧ (0 ≤ rp_created_at resp)%Z.
Proof.
  intros Httl Hr. unfold peer_post in Hr.
  destruct (session_handler _ _ _ _ _ _) as [st' x] eqn:E. cbn in Hr. subst x.
  apply session_handler_Ok in E as (stored & p & ss & s & _ & _ & Hc & ->).
  by apply create_times in Hc.
Qed.
(** A body of strings reaches the service as the request it spells. *)
Lemma wp_post ms req Q w : pt_ok w → string_members ms → NoDup ms.*1 →
  session_request_of_json (JObject ms) = Some req →
  (∀ w' r, pt_ok w' → pt_peer w' = (peer_post w req).1 →
    replied session_response_to_json (peer_post w req).2 r → Q r w') →
  wp (post_session pt_target (JObject ms)) Q w.
Proof.
  intros Hok Hs Hnd Hreq HQ. apply wp_bind.
  destruct (string_members_text ms Hs) as [t Ht].
  destruct (json_text_read ms t Hnd (string_members_flat ms Hs) Ht) as [Hd _].
  destruct (hc_send w (CallPost (tg_base_url pt_target +:+ tg_session_path pt_target) (JObject ms)))
    as [w' r] eqn:E.
  destruct (pt_post w (JObject ms) t (JObject ms) req w' r Hok Ht Hd Hreq E) as (Hok' & Hp & Ha).
  eapply wp_mono; [eapply answered_replied; [exact E|exact Ha|]|].
  - intros resp Hr. apply (peer_post_times w req resp) in Hr as [? ?];
      [by apply session_response_flat|]. by destruct (pt_sessions w Hok) as (_ & _ & ? & _).
  - intros r' w2 [-> Hr]. apply wp_ret. by apply HQ.
Qed.
End wp.

(** ** Malformed DIDs *)

Section malformed.
Context `{Ed25519, P256, K256, MlDsa, Base58, Base64, Hex, Hashes, Features}.
Context `{!HexLaws, !Base58Laws}.

Lemma pkh_refused ns rest cs : free_of ":"%char ns = true → find_cipher_suite ns = Some cs →
  (∀ a, pkh_parser ns ("did:pkh:" +:+ ns +:+ ":" +:+ rest) ≠ Ok a) →
  ∃ e, validate_did_well_formed ("did:pkh:" +:+ ns +:+ ":" +:+ rest) = Err e.
Proof.
  intros Hns Hcs Hp. destruct (pkh_identity ns rest _ cs eq_refl Hns Hcs) as [-> _].
  destruct (pkh_parser ns _) as [a|e] eqn:E; [by destruct (Hp a)|by exists e].
Qed.
Lemma wrong_length_ed25519 b : length b ≠ 32 →
  ∃ e, validate_did_well_formed ("did:pkh:ed25519:0x" +:+ hex_encode b) = Err e.
Proof.
  intros Hl. apply (pkh_refused "ed25519" ("0x" +:+ hex_encode b) Ed25519Suite); [done..|].
  intros a (h & k & Heq & Hh & Hla & _)%pubkey_from_ed25519_did_Ok.
  apply (str_app_inj_l "did:pkh:ed25519:0x" (hex_encode b) h) in Heq as <-.
  rewrite hex_decode_encode in Hh. by injection Hh as <-.
Qed.
Lemma missing_0x_ed25519 b :
  ∃ e, validate_did_well_formed ("did:pkh:ed25519:" +:+ hex_encode b) = Err e.
Proof.
  apply (pkh_refused "ed25519" (hex_encode b) Ed25519Suite); [done..|].
  intros a (h & k & Heq & _)%pubkey_from_ed25519_did_Ok.
  apply (str_app_inj_l "did:pkh:ed25519:" (hex_encode b) ("0x" +:+ h)) in Heq.
  pose proof (hex_encode_digits b) as Hd. by rewrite Heq in Hd.
Qed.
Lemma non_hex_ed25519 s :
  ∃ e, validate_did_well_formed ("did:pkh:ed25519:0x" +:+ String "z" s) = Err e.
Proof.
  apply (pkh_refused "ed25519" ("0x" +:+ String "z" s) Ed25519Suite); [done..|].
  intros a (h & k & Heq & Hh%hex_decode_digits & _)%pubkey_from_ed25519_did_Ok.
  by apply (str_app_inj_l "did:pkh:ed25519:0x" (String "z" s) h) in Heq as <-.
Qed.
Lemma wrong_length_p256 b : length b ≠ 33 →
  ∃ e, validate_did_well_formed ("did:pkh:p256:0x" +:+ hex_encode b) = Err e.
Proof.
  intros Hl. apply (pkh_refused "p256" ("0x" +:+ hex_encode b) P256Suite); [done..|].
  intros a (h & Heq & Hh & Hla)%pubkey_from_p256_did_Ok.
  apply (str_app_inj_l "did:pkh:p256:0x" (hex_encode b) h) in Heq as <-.
  rewrite hex_decode_encode in Hh. by injection Hh as <-.
Qed.
Lemma wrong_length_eip155 b : length b ≠ 20 →
  ∃ e, validate_did_well_formed ("did:pkh:eip155:1:0x" +:+ hex_encode b) = Err e.
Proof.
  intros Hl. apply (pkh_refused "eip155" ("1:0x" +:+ hex_encode b) Eip155Suite); [done..|].
  intros a (rest & h & Heq & Hr & Hh & Hla)%address_from_did_Ok.
  apply (str_app_inj_l "did:pkh:eip155:" ("1:0x" +:+ hex_encode b) rest) in Heq as <-.
  assert (rsplit_next ":"%char ("1:0x" +:+ hex_encode b) = "0x" +:+ hex_encode b) as Heq.
  { apply (rsplit_next_app ":"%char "1" ("0x" +:+ hex_encode b)).
    assert (free_of ":"%char (hex_encode b) = true) as Hf.
    { apply free_of_alnum; [done|]. eapply str_forallb_impl; [|apply hex_encode_digits].
      intros c Hc. by apply lower_hex_alnum. }
    by rewrite free_of_app, Hf. }
  rewrite Heq in Hr. apply (str_app_inj_l "0x") in Hr as <-.
  rewrite hex_decode_encode in Hh. by injection Hh as <-.
Qed.
Lemma corrupted_key : ∃ e, validate_did_well_formed corrupted_did_key = Err e.
Proof.
  unfold validate_did_well_formed.
  assert (find_did_method corrupted_did_key = Some KeyMethod) as -> by apply find_did_method_key.
  cbn [ok_or dm_method_name KeyMethod String.eqb Ascii.eqb Bool.eqb].
  change (strip_prefix "did:key:z" corrupted_did_key) with
    (Some "6Mk0OIl0000CORRUPTEDMULTIBASE0000"). cbn [ok_or].
  unfold validate_multibase_key_body. set (z := "6Mk0OIl0000CORRUPTEDMULTIBASE0000").
  destruct (decode_multibase_key z) as [k|e] eqn:E; [|by exists e].
  apply decode_multibase_key_inv in E.
  assert (str_forallb is_base58 z = true) as Hz by (rewrite E; apply bs58_encode_alphabet).
  by vm_compute in Hz.
Qed.
Lemma unsupported_namespace rest :
  ∃ e, validate_did_well_formed ("did:pkh:solana:" +:+ rest) = Err e.
Proof.
  unfold validate_did_well_formed.
  rewrite (find_did_method_pkh ("solana:" +:+ rest) : find_did_method ("did:pkh:solana:" +:+ rest) = _).
  cbn [ok_or dm_method_name PkhMethod]. rewrite String.eqb_refl. unfold validate_pkh.
  assert (parse_did_namespace ("did:pkh:solana:" +:+ rest) = Ok "solana") as ->; [|by eexists].
  apply (parse_did_namespace_split _ "solana" rest). by apply split_namespace_Ok.
Qed.
End malformed.

(** ** The steps of a case, against a lawful target *)

(** A challenge is added to those outstanding, some of which it may evict. *)
Lemma challenge_known `{Ed25519, P256, K256, MlDsa, Base58, Base64, Hex, Hashes, Features, Chrono, Profile}
    st did clean nb now st' env :
  challenge_handler st did clean nb now = (st', Returned (Ok env)) →
  ∀ n c, cst_challenges (ps_challenges st') !! n = Some c →
    n = en_nonce env ∨ cst_challenges (ps_challenges st) !! n = Some c.
Proof.
  unfold challenge_handler. destruct did as [did|]; [|done]. destruct (find_did_method did); [|done].
  pose proof (λ n c, ch_step_known (ps_challenges st) (OpCreate did clean nb now) n c) as Hk.
  cbn [ch_step] in Hk. destruct (Challenge.create _ _ _ _ _) as [cs [[c0|]|]]; try done.
  cbn [fst snd] in Hk. intros [= <- <-] n c Hn. cbn [ps_challenges put_challenges en_nonce] in *.
  destruct (Hk n c Hn) as [?|[[= ->] <-]]; [by right|by left].
Qed.

(** A well-formed identity the message template can spell. *)
Definition challengeable `{Ed25519, P256, MlDsa, K256, Base58, Base64, Hex, Hashes, Features}
    (did : string) : Prop :=
  validate_did_well_formed did = Ok tt ∧
  ∀ a, did = "did:pkh:eip155:" +:+ a → free_of ":"%char a = false.

Section steps.
Context `{Ed25519, P256, K256, MlDsa, Base58, Base64, Hex, Hashes, Features, Chrono, Profile}.
Context `{Sfv, HarnessHost, Urls, Json, JsonWrite, !SigningKeys, !KeyGeneration}.
Context `{!JsonTextLaws, !PeerTarget, !PeerTargetLaws}.
Context `{!Base58Laws, !HexLaws, !P256Laws, !HashesLaws, !Base64Laws, !ChronoLaws,
  !SigningKeysLaws, !KeyGenerationLaws}.

Lemma peer_refuses w did e : validate_did_well_formed did = Err e →
  peer_get w did = (pt_peer w, Returned (Err BAD_REQUEST)).
Proof.
  intros He. unfold peer_get, challenge_handler. destruct (find_did_method did); [|done].
  rewrite (create_malformed _ _ _ _ _ _ He). by destruct (pt_peer w).
Qed.
Lemma wp_refused did e Q w : pt_ok w → validate_did_well_formed did = Err e →
  (∀ s w', pt_ok w' → pt_peer w' = pt_peer w → Q (Ok s) w') →
  wp (refused_at_either_endpoint pt_target did) Q w.
Proof.
  intros Hok He HQ. apply wp_bind, wp_fetch; [done|]. intros w' r Hok'.
  rewrite (peer_refuses w did e He). intros Hp (resp & -> & Hst).
  unfold is_success. rewrite Hst. apply wp_ret, HQ; [done|by rewrite Hp].
Qed.
Lemma wp_random n Q w : pt_ok w →
  (∀ w' b, length b = n → pt_ok w' → pt_peer w' = pt_peer w →
    (n = 32 → cst_challenges (ps_challenges (pt_peer w')) !! nonce_text b = None) →
    Q (hex_encode b) w') → wp (random_hex n) Q w.
Proof.
  intros Hok HQ. apply wp_bind, wp_quiet; [apply pt_fill|done|].
  intros w' b Hb Hok' Hp. apply wp_ret, HQ; [|done|done|].
  - pose proof (os_fill_length w n) as Hl. by rewrite <- Hb in Hl.
  - intros ->. destruct (pt_fresh w Hok) as [Hf _]. rewrite <- Hb in Hf. by rewrite Hp.
Qed.
Lemma wp_key {K} (f : K → SpelledKey) (g : world → world * K) gen Q w :
  (∀ w, gen w = let '(w', k) := g w in (w', spelled_signer (f k))) → quiet g → pt_ok w →
  (∀ w' k, pt_ok w' → pt_peer w' = pt_peer w → Q (spelled_signer (f k)) w') → wp (hio_draw gen) Q w.
Proof.
  intros Hgen Hg Hok HQ. destruct (Hg w Hok) as [Hok' Hp]. unfold wp, hio_draw. rewrite Hgen.
  destruct (g w) as [w' k]. by apply HQ.
Qed.
Lemma wp_ed_key Q w : pt_ok w →
  (∀ w' k, pt_ok w' → pt_peer w' = pt_peer w → Q (spelled_signer (SpelledEd25519 k DidKey)) w') →
  wp (hio_draw ed25519_did_key) Q w.
Proof.
  apply (wp_key (λ k, SpelledEd25519 k DidKey) ed_generate); [|apply pt_ed].
  intros w'. unfold ed25519_did_key, boxed, ed25519_generate. by destruct (ed_generate w').
Qed.

(** A challenge handed out for a DID: what its envelope says, and that the
    service holds it. *)
Record handed (w : world) (did : string) (env : ChallengeEnvelope) (c : Challenge) : Prop := {
  hd_nonce : ch_nonce c = en_nonce env;
  hd_did : ch_did c = did;
  hd_message : ch_message c = en_message env;
  hd_expires : ch_expires_at c = en_expires_at env;
  hd_stored : cst_challenges (ps_challenges (pt_peer w)) !! en_nonce env = Some c;
  hd_live w' : pt_ok w' → (now_secs (mo_challenge_now (pt_moment w')) < en_expires_at env)%Z ∧
    (Z.max 0 (system_secs w') < en_expires_at env ≤ Z.max 0 (system_secs w') + 86400)%Z;
  hd_template : ∃ cs b issued expires, str_forallb graphic (cst_uri cs) = true ∧
    one_line (cst_domain cs) = true ∧ length b = 32 ∧ en_nonce env = nonce_text b ∧
    en_expires_at env = now_secs expires ∧
    starts_with "Chain ID:"
      (cst_domain cs +:+ " wants you to sign in with your Ed25519 account:") = false ∧
    build_message {| mp_did := did; mp_domain := cst_domain cs; mp_uri := cst_uri cs;
      mp_nonce := nonce_text b; mp_issued_at := issued; mp_expiration_time := expires |}
      = Ok (en_message env);
}.
(** What a challenge adds to those outstanding in [w]. *)
Definition adds (w w' : world) (env : ChallengeEnvelope) : Prop :=
  let cs w := cst_challenges (ps_challenges (pt_peer w)) in
  cs w !! en_nonce env = None ∧
  ∀ n c, cs w' !! n = Some c → n = en_nonce env ∨ cs w !! n = Some c.
Lemma wp_handed_new did Q w : pt_ok w → challengeable did →
  (∀ w' resp env c, pt_ok w' → hr_status resp = 200%Z → shows (envelope_to_json env) (hr_json resp) →
    handed w' did env c → adds w w' env →
    (∃ b issued expires, params_one_line {| mp_did := did;
        mp_domain := cst_domain (ps_challenges (pt_peer w));
        mp_uri := cst_uri (ps_challenges (pt_peer w)); mp_nonce := nonce_text b;
        mp_issued_at := issued; mp_expiration_time := expires |} ∧ en_nonce env = nonce_text b ∧
      build_message {| mp_did := did; mp_domain := cst_domain (ps_challenges (pt_peer w));
        mp_uri := cst_uri (ps_challenges (pt_peer w)); mp_nonce := nonce_text b;
        mp_issued_at := issued; mp_expiration_time := expires |} = Ok (en_message env)) →
    Q (Ok resp) w') →
  wp (fetch_challenge pt_target did) Q w.
Proof.
  intros Hok [Hwf Hch] HQ. apply wp_fetch; [done|]. intros w' r Hok' Hp Hr.
  destruct (pt_clock w Hok) as (expires & Hex & Hlive), (pt_lines w Hok) as (Hd & Hu & Hc).
  destruct (challenge_given (pt_peer w) did (mo_clean (pt_moment w)) (mo_bytes (pt_moment w))
    (mo_now (pt_moment w)) expires Hwf Hch Hex) as (st' & msg & Hg & Hmsg & _ & Hst).
  pose proof (challenge_known _ _ _ _ _ _ _ Hg) as Hkn.
  unfold peer_get in Hp, Hr. rewrite Hg in Hp, Hr. cbn [fst snd replied] in Hp, Hr.
  destruct Hr as (resp & -> & Hs & Hsh).
  eapply HQ; [done|done|exact Hsh|..].
  - constructor; cbn [en_nonce en_message en_expires_at]; [..|rewrite Hp; exact Hst| |]; try done.
    exists (ps_challenges (pt_peer w)), (mo_bytes (pt_moment w)), (mo_now (pt_moment w)), expires.
    split_and!; try done. by apply pt_entropy.
  - split; [by apply pt_fresh|]. rewrite Hp. exact Hkn.
  - exists (mo_bytes (pt_moment w)), (mo_now (pt_moment w)), expires. split; [|done].
    split_and!; [done|by apply graphic_one_line|by apply graphic_one_line, nonce_text_graphic].
Qed.
Lemma wp_handed did Q w : pt_ok w → challengeable did →
  (∀ w' resp env c, pt_ok w' → hr_status resp = 200%Z → shows (envelope_to_json env) (hr_json resp) →
    handed w' did env c → Q (Ok resp) w') →
  wp (fetch_challenge pt_target did) Q w.
Proof. intros Hok Hch HQ. apply wp_handed_new; [done..|]. intros. by eapply HQ. Qed.

Lemma shows_str v got name s : shows v got → get_str v name = Some s →
  (x ← got; get_str x name) = Some s.
Proof. intros (g & -> & Hg) Hs. cbn [mbind option_bind]. unfold get_str. by rewrite Hg. Qed.
Lemma shows_u64 v got name z : shows v got → get_u64 v name = Some z →
  (x ← got; get_u64 x name) = Some z.
Proof. intros (g & -> & Hg) Hs. cbn [mbind option_bind]. unfold get_u64. by rewrite Hg. Qed.
Lemma ok_is_success resp : hr_status resp = 200%Z → is_success resp = true.
Proof. intros Hs. unfold is_success. by rewrite Hs. Qed.
Lemma signable_handed resp env : hr_status resp = 200%Z →
  shows (envelope_to_json env) (hr_json resp) → signable resp = Ok (en_message env, en_nonce env).
Proof.
  intros Hs (g & Hg & Hm). unfold signable, get_str. rewrite (ok_is_success _ Hs), Hg. cbn [negb ok_or].
  by rewrite !Hm.
Qed.
Lemma wp_signed resp env k Q w : hr_status resp = 200%Z →
  shows (envelope_to_json env) (hr_json resp) →
  (∀ sig, let did := signer_did (spelled_signer (SpelledEd25519 k DidKey)) in
    verify_caip122_with_public_key did (en_message env) sig None = Ok true →
    Q (Ok (session_body did (en_nonce env) sig)) w) →
  wp (sign_challenge resp (spelled_signer (SpelledEd25519 k DidKey))) Q w.
Proof.
  intros Hs Hsh HQ. unfold sign_challenge. rewrite (signable_handed _ _ Hs Hsh).
  apply wp_bind. unfold wp, hio_do. apply wp_ret.
  apply (HQ (ed_sign k (as_bytes (en_message env)))).
  by apply (spelled_verifies (SpelledEd25519 k DidKey) w (en_message env) w).
Qed.

(** What the service answers to a session request it grants. *)
Record session_for (did : string) (r : SessionResponse) : Prop := {
  sf_did : rp_did r = did;
  sf_token : ∃ b, length b = 32 ∧ rp_token r = hex_encode b;
  sf_created : (0 ≤ rp_created_at r ≤ rp_valid_until r)%Z;
  sf_until : (rp_valid_until r < u64_bound)%Z;
  sf_live w : pt_ok w → (Z.max 0 (system_secs w) < rp_valid_until r)%Z;
}.
Lemma wp_answered did env c sig ms Q w : pt_ok w → handed w did env c →
  validate_did_well_formed did = Ok tt →
  verify_caip122_with_public_key did (en_message env) sig None = Ok true →
  string_members ms → NoDup ms.*1 →
  session_request_of_json (JObject ms) = Some {| wr_did := did; wr_nonce := en_nonce env;
    wr_signature := hex_text sig; wr_public_key := None |} →
  (∀ w' resp r, pt_ok w' → hr_status resp = 200%Z →
    shows (session_response_to_json r) (hr_json resp) → session_for did r →
    cst_challenges (ps_challenges (pt_peer w')) !! en_nonce env = None → Q (Ok resp) w') →
  wp (post_session pt_target (JObject ms)) Q w.
Proof.
  intros Hok Hh Hwf Hver Hs Hnd Hreq HQ. eapply wp_post; [done..|]. intros w' r Hok' Hp Hr.
  destruct (pt_sessions w Hok) as (Hso & Hroom & Httl & Hmax & Hlive).
  set (req := Build_WireSessionRequest _ _ _ _) in *.
  destruct (session_granted (pt_peer w) req sig c (mo_challenge_now (pt_moment w))
    (mo_clean (pt_moment w)) (pt_token w) (mo_now (pt_moment w)))
    as (st' & resp & Hg & -> & Hdel & _); try done.
  - apply Hh.
  - apply Hh.
  - by rewrite (hd_message _ _ _ _ Hh).
  - rewrite (hd_expires _ _ _ _ Hh). by apply (hd_live _ _ _ _ Hh).
  - unfold peer_post in Hp, Hr. rewrite Hg in Hp, Hr. cbn [fst snd replied] in Hp, Hr.
    destruct Hr as (resp & -> & Hst & Hsh). eapply HQ; [done|done|exact Hsh| |].
    + pose proof (now_secs_range (mo_now (pt_moment w))).
      constructor; cbn [rp_did rp_token rp_created_at rp_valid_until]; [done| |lia|lia|done].
      exists (pt_token w). split; [by apply pt_entropy|done].
    + rewrite Hp, Hdel. apply lookup_delete_eq.
Qed.
Lemma wp_unknown ms req Q w : pt_ok w → string_members ms → NoDup ms.*1 →
  session_request_of_json (JObject ms) = Some req →
  cst_challenges (ps_challenges (pt_peer w)) !! wr_nonce req = None →
  (∀ w' resp, pt_ok w' → hr_status resp = 404%Z → Q (Ok resp) w') →
  wp (post_session pt_target (JObject ms)) Q w.
Proof.
  intros Hok Hs Hnd Hreq Hn HQ. eapply wp_post; [done..|]. intros w' r Hok' _ Hr.
  unfold peer_post, session_handler, Challenge.validate in Hr. rewrite Hn in Hr.
  destruct Hr as (resp & -> & Hst). by apply HQ.
Qed.

(** The lines of a message for an Ed25519 [did:key]. *)
Lemma ed_key_split k p msg : mp_did p = signer_did (spelled_signer (SpelledEd25519 k DidKey)) →
  params_one_line p → build_message p = Ok msg →
  ∃ z, strip_prefix "did:key:" (mp_did p) = Some ("z" +:+ z) ∧
    str_forallb graphic ("z" +:+ z) = true ∧
    split "010" msg = message_lines p ("z" +:+ z) "Ed25519".
Proof.
  intros Hd Hp Hm. assert (validate_did_well_formed (mp_did p) = Ok tt) as Hwf
    by by rewrite Hd; apply spelled_well_formed.
  destruct (build_message_split p msg Hwf Hp Hm) as (m & id & label & Hfm & Ha & Hl & Hg & He & ->).
  set (z := bs58_encode (ED25519_PREFIX ++ ed_public_bytes k)).
  change (mp_did p = "did:key:" +:+ ("z" +:+ z)) in Hd. rewrite Hd in Hfm, Ha, Hl |- *.
  rewrite find_did_method_key in Hfm. injection Hfm as <-.
  cbn [dm_address_for_message dm_method_label KeyMethod] in Ha, Hl.
  unfold key_address_for_message in Ha. rewrite strip_prefix_app in Ha |- *. injection Ha as <-.
  exists z. do 2 (split; [done|]).
  destruct (ed_public_strict k) as (Hlen & vk & Hs & _). apply strict_verifying_key_Ok in Hs.
  unfold key_method_label, key_z_body in Hl.
  rewrite (strip_prefix_app "did:key:z" z : strip_prefix "did:key:z" ("did:key:" +:+ ("z" +:+ z)) = _) in Hl.
  cbn [ok_or] in Hl. rewrite (decode_multibase_ed25519 _ vk Hs : decode_multibase_key z = _) in Hl.
  injection Hl as <-. by rewrite app_nil_r.
Qed.

(** A request the service accepts, whoever made it: it holds a challenge under
    the nonce, whose message the signature verifies over. *)
Definition proved (w : world) (req : WireSessionRequest) : Prop :=
  ∃ c sig pk, cst_challenges (ps_challenges (pt_peer w)) !! wr_nonce req = Some c ∧
    hex_member (wr_signature req) = Ok sig ∧
    match wr_public_key req with
    | Some h => map_ok Some (hex_member h)
    | None => Ok None
    end = Ok pk ∧
    verify_caip122_with_public_key (wr_did req) (ch_message c) sig pk = Ok true.
Lemma authenticate_request_checks stored req p : authenticate_request stored req = Ok p →
  ∃ sig pk, hex_member (wr_signature req) = Ok sig ∧
    match wr_public_key req with
    | Some h => map_ok Some (hex_member h)
    | None => Ok None
    end = Ok pk ∧
    verify_caip122_with_public_key (wr_did req) (ch_message stored) sig pk = Ok true.
Proof.
  unfold authenticate_request. destruct (String.eqb _ _); [|done]. cbn [negb].
  destruct (hex_member (wr_signature req)) as [sig|]; [|done].
  destruct (match wr_public_key req with Some _ => _ | None => _ end) as [pk|]; [|done].
  destruct (authenticate_with_public_key _ _ _ _) as [p'|] eqn:Ea; [|done]. intros _.
  apply authenticate_spec in Ea as (_ & _ & Hv). by exists sig, pk.
Qed.
Lemma authenticate_request_Err stored req e :
  authenticate_request stored req = Err e → e = UNAUTHORIZED.
Proof.
  unfold authenticate_request, hex_member.
  destruct (String.eqb _ _); [|by intros [= <-]]. cbn [negb].
  destruct (hex_decode (_ (wr_signature req))); [|by intros [= <-]]. cbn [map_err].
  destruct (wr_public_key req) as [h|]; [destruct (hex_decode (_ h)); [|by intros [= <-]]|];
    cbn [map_err map_ok]; destruct (authenticate_with_public_key _ _ _ _); try done; by intros [= <-].
Qed.
Lemma session_handler_answers st req cnow clean tb now : Session.ok (ps_sessions st) →
  size (live_at (now_secs clean) (Session.view (ps_sessions st)))
    < ss_max_sessions (ps_sessions st) →
  (now_secs now + ss_ttl_secs (ps_sessions st) < u64_bound)%Z →
  (session_handler st req cnow clean tb now).2 ≠ Panicked ∧
  ∀ code, (session_handler st req cnow clean tb now).2 = Returned (Err code) → (400 ≤ code)%Z.
Proof.
  intros Hok Hroom Httl. unfold session_handler.
  destruct (Challenge.validate _ _ _) as [cs [stored|[]]]; cbn [snd];
    try by split; [done|]; intros code [= <-].
  destruct (authenticate_request stored req) as [p|e] eqn:Ea; cbn [snd].
  - destruct (create_returns (ps_sessions st) (principal_did p) clean tb now Hok Hroom Httl)
      as (ss & se & Hc & _). cbn [ps_sessions put_challenges]. by rewrite Hc.
  - split; [done|]. intros code [= <-]. by rewrite (authenticate_request_Err _ _ _ Ea).
Qed.
Lemma session_handler_known st req cnow clean tb now n c :
  cst_challenges (ps_challenges (session_handler st req cnow clean tb now).1) !! n = Some c →
  cst_challenges (ps_challenges st) !! n = Some c.
Proof.
  pose proof (validate_consumes (ps_challenges st) (wr_nonce req) cnow) as Hv. unfold session_handler.
  destruct (Challenge.validate _ _ _) as [cs r]. cbn [fst] in Hv.
  assert (cst_challenges cs !! n = Some c → cst_challenges (ps_challenges st) !! n = Some c) as Hcs
    by (rewrite Hv; by intros [_ ?]%lookup_delete_Some).
  destruct r as [stored|[]]; try exact Hcs. destruct (authenticate_request _ _); [|exact Hcs].
  by destruct (Session.create _ _ _ _ _).
Qed.
Lemma wp_tried ms req Q w : pt_ok w → string_members ms → NoDup ms.*1 →
  session_request_of_json (JObject ms) = Some req →
  (∀ w' resp, pt_ok w' →
    (∀ n c, cst_challenges (ps_challenges (pt_peer w')) !! n = Some c →
      cst_challenges (ps_challenges (pt_peer w)) !! n = Some c) →
    (accepted resp = true → proved w req) → Q (Ok resp) w') →
  wp (post_session pt_target (JObject ms)) Q w.
Proof.
  intros Hok Hs Hnd Hreq HQ. eapply wp_post; [done..|]. intros w' r Hok' Hp Hr.
  destruct (pt_sessions w Hok) as (Hso & Hroom & _ & Hmax & _).
  destruct (session_handler_answers (pt_peer w) req (mo_challenge_now (pt_moment w))
    (mo_clean (pt_moment w)) (pt_token w) (mo_now (pt_moment w)) Hso Hroom Hmax) as [Hnp Hcode].
  assert (∀ n c, cst_challenges (ps_challenges (pt_peer w')) !! n = Some c →
    cst_challenges (ps_challenges (pt_peer w)) !! n = Some c) as Hkn
    by (intros n c; rewrite Hp; apply session_handler_known).
  unfold peer_post in Hr. destruct (session_handler _ _ _ _ _ _) as [st' x] eqn:E. cbn [snd] in *.
  destruct x as [[a|code]|]; [..|done]; cbn [replied] in Hr.
  - destruct Hr as (resp & -> & _ & _). apply HQ; [done..|]. intros _.
    apply session_handler_Ok in E as (stored & p & ss & s & Hl & Ha & _).
    apply authenticate_request_checks in Ha as (sig & pk & ?). by exists stored, sig, pk.
  - destruct Hr as (resp & -> & Hst). apply HQ; [done..|]. unfold accepted, is_success. rewrite Hst.
    specialize (Hcode code eq_refl). destruct (code <=? 299)%Z eqn:E2; bool_simpl; [lia|].
    by rewrite andb_false_r.
Qed.
End steps.
