(* ===== verification/ConformancePeer.v ===== *)
(** * The wire, nonce and DID cases pass: conformance/ against aqua-auth-testkit/src/lib.rs

    Case by case, against the interface of [ConformanceLogic]. *)

From S2P Require Import Prelude Crates Fixtures Errors Keys Did Suites Aqua Methods DidFormat Principal Message Types Challenge SessionBackend Session Wire Signer HttpSigBase HttpSigReplay HttpSig Directory LocalKey TestSigners Peer PeerLogin Conformance ConformanceNonce ConformanceSignature ConformanceWire ConformanceLogic.

#[local] Existing Instance InMemoryBackend.

(** ** The cases *)

Section passing.
Context `{Ed25519, P256, K256, MlDsa, Base58, Base64, Hex, Hashes, Features, Chrono, Profile}.
Context `{Sfv, HarnessHost, Urls, Json, JsonWrite, !SigningKeys, !KeyGeneration}.
Context `{!JsonTextLaws, !PeerTarget, !PeerTargetLaws}.
Context `{!Base58Laws, !HexLaws, !P256Laws, !HashesLaws, !Base64Laws, !ChronoLaws,
  !SigningKeysLaws, !KeyGenerationLaws}.

(** A case that ends with this verdict wherever a run stands. *)
Definition gives (o : Outcome) (m : Hio CaseResult) : Prop :=
  ∀ w, pt_ok w → wp m (λ r w', pt_ok w' ∧ cr_outcome r = o) w.
Lemma gives_in_order os ms w : Forall2 gives os ms → pt_ok w →
  wp (in_order ms) (λ rs w', pt_ok w' ∧ map cr_outcome rs = os) w.
Proof.
  intros Hms. revert w. induction Hms as [|o m os ms Hm _ IH]; intros w Hok; [by apply wp_ret|].
  apply wp_bind. eapply wp_mono; [by apply Hm|]. intros r w' [Hok' Hr].
  apply wp_bind. eapply wp_mono; [by apply IH|]. intros rs w2 [Hok2 Hrs].
  apply wp_ret. split; [done|]. cbn [map]. by rewrite Hr, Hrs.
Qed.

Lemma spelled_challengeable x : (is_aqua x = true → did_aqua = true) →
  challengeable (signer_did (spelled_signer x)).
Proof.
  intros Haq. split; [by apply spelled_well_formed|].
  intros a. destruct x as [k []|k []|k|k]; cbn; intros Ha; try discriminate Ha.
  apply (str_app_inj_l "did:pkh:eip155:" ("1:0x" +:+ _)) in Ha as <-. done.
Qed.
Lemma ed_key_challengeable k :
  challengeable (signer_did (spelled_signer (SpelledEd25519 k DidKey))).
Proof. by apply spelled_challengeable. Qed.

(** *** wire *)

Lemma handed_expiry w did env c : handed w did env c → (0 ≤ en_expires_at env < u64_bound)%Z.
Proof.
  intros Hh. destruct (hd_template _ _ _ _ Hh) as (? & ? & ? & ? & ? & ? & ? & ? & -> & _).
  apply now_secs_range.
Qed.
Lemma envelope_nonce env got : shows (envelope_to_json env) got →
  (x ← got; get_str x "nonce") = Some (en_nonce env).
Proof. intros Hsh. by eapply shows_str. Qed.
Lemma envelope_expiry w did env c got : handed w did env c → shows (envelope_to_json env) got →
  (x ← got; get_u64 x "expires_at") = Some (en_expires_at env).
Proof. intros Hh Hsh. eapply shows_u64; [done|]. by apply as_u64_number, (handed_expiry w did env c). Qed.
Lemma nonce_well_formed b : length b = 32 → is_well_formed_nonce (nonce_text b) = true.
Proof.
  intros Hb. unfold is_well_formed_nonce, nonce_text. rewrite strip_prefix_app.
  unfold lower_hex_of. by rewrite hex_encode_length, Hb, hex_encode_digits.
Qed.

Lemma required_fields_pass : gives Pass (spec_6_2_required_fields pt_target).
Proof.
  intros w Hok. apply wp_bind, wp_ed_key; [done|]. intros w1 k Hok1 _.
  apply wp_bind, wp_handed; [done|apply ed_key_challengeable|].
  intros w2 resp env c Hok2 Hs (g & Hg & Hm) Hh. apply wp_ret. split; [done|].
  rewrite (ok_is_success _ Hs), Hg. cbn [negb]. unfold required_member. rewrite !Hm.
  cbn -[show_Z as_u64_value]. unfold is_u64.
  rewrite (as_u64_number _ (handed_expiry _ _ _ _ Hh)). done.
Qed.
Lemma did_field_skip : gives Skip (spec_6_2_did_field pt_target).
Proof.
  intros w Hok. apply wp_bind, wp_ed_key; [done|]. intros w1 k Hok1 _.
  apply wp_bind, wp_handed; [done|apply ed_key_challengeable|].
  intros w2 resp env c Hok2 Hs (g & Hg & Hm) Hh. apply wp_ret. split; [done|].
  rewrite Hg. cbn [mbind option_bind]. unfold get_str. by rewrite Hm.
Qed.
Lemma nonce_format_pass : gives Pass (spec_6_2_nonce_format pt_target).
Proof.
  intros w Hok. apply wp_bind, wp_ed_key; [done|]. intros w1 k Hok1 _.
  apply wp_bind, wp_handed; [done|apply ed_key_challengeable|].
  intros w2 resp env c Hok2 Hs Hsh Hh. apply wp_ret. split; [done|].
  rewrite (envelope_nonce _ _ Hsh). destruct (hd_template _ _ _ _ Hh) as (? & b & ? & ? & ? & ? & Hb & -> & _).
  by rewrite (nonce_well_formed b Hb).
Qed.
Lemma expires_at_pass : gives Pass (spec_6_2_expires_at_sane pt_target).
Proof.
  intros w Hok. apply wp_bind, wp_ed_key; [done|]. intros w1 k Hok1 _.
  apply wp_bind, wp_handed; [done|apply ed_key_challengeable|].
  intros w2 resp env c Hok2 Hs Hsh Hh. rewrite (envelope_expiry _ _ _ _ _ Hh Hsh).
  apply wp_bind, wp_read, wp_ret. split; [done|].
  destruct (hd_live _ _ _ _ Hh w2 Hok2) as [_ Hlive].
  destruct (_ <=? _)%Z eqn:E1; bool_simpl; [lia|].
  destruct (_ <? _)%Z eqn:E2; bool_simpl; [lia|]. done.
Qed.

Lemma map_fixed {A} (f : A → A) l : Forall (λ x, f x = x) l → map f l = l.
Proof. induction 1 as [|x l Hx _ IH]; [done|]. cbn [map]. by rewrite Hx, IH. Qed.
(** The lines of a message for an Ed25519 [did:key], as the harness trims them. *)
Lemma ed_key_lines k p msg : mp_did p = signer_did (spelled_signer (SpelledEd25519 k DidKey)) →
  params_one_line p → str_forallb graphic (mp_uri p) = true →
  str_forallb graphic (mp_nonce p) = true → build_message p = Ok msg →
  ∃ z, strip_prefix "did:key:" (mp_did p) = Some ("z" +:+ z) ∧
    map (trim_end_matches "013") (split "010" msg) = message_lines p ("z" +:+ z) "Ed25519".
Proof.
  intros Hd Hp Hu Hn Hm. destruct (ed_key_split k p msg Hd Hp Hm) as (z & Hz & Hg & ->).
  exists z. split; [done|]. apply map_fixed. unfold message_lines. repeat constructor; try done.
  - rewrite <- !str_app_assoc. by apply (trim_end_matches_app "013" _ " account:").
  - by apply trim_end_matches_none, free_of_graphic.
  - apply trim_end_matches_none. by rewrite free_of_app, (free_of_graphic "013"%char _ eq_refl Hu).
  - apply trim_end_matches_none. by rewrite free_of_app, (free_of_graphic "013"%char _ eq_refl Hn).
  - apply trim_end_matches_none.
    by rewrite free_of_app, (free_of_graphic "013"%char _ eq_refl (dt_format_graphic _)).
  - apply trim_end_matches_none.
    by rewrite free_of_app, (free_of_graphic "013"%char _ eq_refl (dt_format_graphic _)).
Qed.
Lemma template_lines_pass p z :
  starts_with "Chain ID:" (mp_domain p +:+ " wants you to sign in with your Ed25519 account:")
    = false →
  template_problem ("z" +:+ z) (mp_nonce p) (message_lines p ("z" +:+ z) "Ed25519") = None.
Proof.
  intros Hc. unfold message_lines, template_problem.
  assert (ends_with "wants you to sign in with your Ed25519 account:"
    (mp_domain p +:+ " wants you to sign in with your " +:+ "Ed25519" +:+ " account:") = true) as ->.
  { apply ends_with_spec. exists (mp_domain p +:+ " "). by rewrite str_app_assoc. }
  assert (∀ a b, starts_with a (a +:+ b) = true) as Hs by (intros; apply starts_with_spec; eauto).
  rewrite !String.eqb_refl, (Hs "URI: "), (Hs "Issued At: "), (Hs "Expiration Time: ").
  cbn [existsb]. change (" wants you to sign in with your " +:+ "Ed25519" +:+ " account:")
    with " wants you to sign in with your Ed25519 account:". rewrite Hc. done.
Qed.
Lemma message_structure_pass : gives Pass (spec_6_2_message_structure pt_target).
Proof.
  intros w Hok. apply wp_bind, wp_ed_key; [done|]. intros w1 k Hok1 _.
  set (did := signer_did (spelled_signer (SpelledEd25519 k DidKey))).
  assert (∀ env c w', handed w' did env c → ∃ z p, strip_prefix "did:key:" did = Some ("z" +:+ z) ∧
    mp_nonce p = en_nonce env ∧
    map (trim_end_matches "013") (split "010" (en_message env)) = message_lines p ("z" +:+ z) "Ed25519" ∧
    template_problem ("z" +:+ z) (mp_nonce p) (message_lines p ("z" +:+ z) "Ed25519") = None) as Ht.
  { intros env c w' Hh. destruct (hd_template _ _ _ _ Hh)
      as (cs & b & issued & expires & Hu & Hd & _ & Hn & _ & Hc & Hm).
    eapply (ed_key_lines k) in Hm as (z & Hz & Hl); [|done|split_and!; [done|by apply graphic_one_line|
      by apply graphic_one_line, nonce_text_graphic]|done|apply nonce_text_graphic].
    eexists z, _. split; [exact Hz|]. split; [|split; [exact Hl|by apply template_lines_pass]].
    done. }
  assert (∃ z, strip_prefix "did:key:" did = Some z) as [z0 Hz0].
  { eexists. apply (strip_prefix_app "did:key:"). }
  cbv beta zeta. fold did. rewrite Hz0. apply wp_bind, wp_handed; [done|apply ed_key_challengeable|].
  intros w2 resp env c Hok2 Hs (g & Hg & Hm) Hh. apply wp_ret. split; [done|].
  destruct (Ht env c w2 Hh) as (z & p & Hz & Hn & Hl & Hp). rewrite Hz0 in Hz. injection Hz as ->.
  rewrite Hg. unfold get_str. rewrite !Hm. cbn [envelope_to_json json_get List.find String.eqb Ascii.eqb
    Bool.eqb fst snd fmap option_fmap option_map mbind option_bind as_str].
  rewrite Hl. rewrite Hn in Hp. by rewrite Hp.
Qed.

(** *** login *)

Lemma session_body_members did nonce sig : session_body did nonce sig =
  JObject [("did", JString did); ("nonce", JString nonce); ("signature", JString (hex_text sig))].
Proof. done. Qed.
Lemma body_strings did nonce sig :
  string_members [("did", JString did); ("nonce", JString nonce); ("signature", JString (hex_text sig))].
Proof. repeat constructor; by eexists. Qed.
(** A login ends with a session, and its nonce is spent. *)
Lemma wp_login k Q w : pt_ok w →
  (∀ w' flow r nonce sig, let did := signer_did (spelled_signer (SpelledEd25519 k DidKey)) in
    pt_ok w' → hr_status (lf_session_response flow) = 200%Z →
    shows (session_response_to_json r) (hr_json (lf_session_response flow)) → session_for did r →
    lf_session_request flow = session_body did nonce sig →
    cst_challenges (ps_challenges (pt_peer w')) !! nonce = None → Q (Ok flow) w') →
  wp (login pt_target (spelled_signer (SpelledEd25519 k DidKey))) Q w.
Proof.
  intros Hok HQ. apply wp_bind, wp_handed; [done|apply ed_key_challengeable|].
  intros w1 challenge env c Hok1 Hs Hsh Hh.
  apply wp_bind, (wp_signed challenge env); [done..|]. intros sig did Hver.
  rewrite session_body_members.
  apply wp_bind, (wp_answered did env c sig); [done|exact Hh|apply ed_key_challengeable|done|
    apply body_strings|names_distinct|done|].
  intros w2 resp r Hok2 Hs2 Hsh2 Hr Hspent. apply wp_ret.
  by apply (HQ w2 _ r (en_nonce env) sig).
Qed.
Lemma session_shows did r got w : session_for did r → pt_ok w →
  shows (session_response_to_json r) got →
  ∃ g, got = Some g ∧ session_problem did g (Z.max 0 (system_secs w)) = None ∧
    get_str g "token" = Some (rp_token r).
Proof.
  intros Hr Hok (g & Hg & Hm). eexists. split; [exact Hg|]. unfold session_problem, get_str, get_u64.
  rewrite !Hm. cbn [session_response_to_json json_get List.find String.eqb Ascii.eqb Bool.eqb fst snd
    fmap option_fmap option_map mbind option_bind as_str].
  destruct Hr as [-> (b & Hb & Htok) Hc Hu Hl]. rewrite String.eqb_refl. cbn [negb].
  rewrite Htok. unfold lower_hex_of. rewrite hex_encode_length, Hb, hex_encode_digits.
  cbn [Nat.mul Nat.add Nat.eqb andb negb]. rewrite !as_u64_number by lia. specialize (Hl w Hok).
  destruct (_ <=? _)%Z eqn:E1; bool_simpl; [lia|].
  destruct (_ <? _)%Z eqn:E2; bool_simpl; [lia|]. done.
Qed.
Lemma session_shape_pass : gives Pass (spec_6_4_session_response_shape pt_target).
Proof.
  intros w Hok. apply wp_bind, wp_ed_key; [done|]. intros w1 k Hok1 _.
  apply wp_bind, wp_login; [done|]. intros w2 flow r nonce sig did Hok2 Hs Hsh Hr _ _.
  destruct (session_shows did r _ w2 Hr Hok2 Hsh) as (g & Hg & Hp & _).
  cbv beta zeta. rewrite (ok_is_success _ Hs), Hg. cbn [negb]. apply wp_bind, wp_read, wp_ret.
  split; [done|]. fold did. by rewrite Hp.
Qed.
Lemma unknown_fields_pass : gives Pass (spec_8_unknown_request_fields_ignored pt_target).
Proof.
  intros w Hok. apply wp_bind, wp_ed_key; [done|]. intros w1 k Hok1 _.
  apply wp_bind, wp_handed; [done|apply ed_key_challengeable|].
  intros w2 challenge env c Hok2 Hs Hsh Hh.
  apply wp_bind, (wp_signed challenge env); [done..|]. intros sig did Hver.
  rewrite session_body_members.
  apply wp_bind, (wp_answered did env c sig); [done|exact Hh|apply ed_key_challengeable|done| | |done|].
  - cbn. repeat constructor; by eexists.
  - cbn. apply (bool_decide_unpack _). vm_compute. done.
  - intros w3 resp r Hok3 Hs3 _ _ _. apply wp_ret. split; [done|].
    by rewrite (ok_is_success _ Hs3).
Qed.
Lemma wire_pass w : pt_ok w →
  wp (wire_cases pt_target) (λ rs w', pt_ok w' ∧
    map cr_outcome rs = [Pass; Skip; Pass; Pass; Pass; Pass; Pass]) w.
Proof.
  apply gives_in_order. repeat apply List.Forall2_cons; [apply required_fields_pass|
    apply did_field_skip|apply nonce_format_pass|apply message_structure_pass|
    apply expires_at_pass|apply session_shape_pass|apply unknown_fields_pass|done].
Qed.

(** *** nonces and DIDs *)

Lemma refused_status (resp : HttpResponse) code : hr_status resp = code → (400 ≤ code)%Z →
  session_accepted resp = false.
Proof.
  intros Hs Hc. unfold session_accepted, is_success. rewrite Hs.
  destruct (code <=? 299)%Z eqn:E; bool_simpl; [lia|]. by rewrite andb_false_r.
Qed.
Lemma unknown_nonce_pass : gives Pass (spec_7_1_unknown_nonce_refused pt_target).
Proof.
  intros w Hok. apply wp_bind, wp_ed_key; [done|]. intros w1 k Hok1 _.
  apply wp_bind, wp_handed; [done|apply ed_key_challengeable|].
  intros w2 challenge env c Hok2 Hs Hsh Hh.
  apply wp_bind, (wp_signed challenge env); [done..|]. intros sig did Hver.
  rewrite session_body_members. apply wp_bind, wp_random; [done|].
  intros w3 b _ Hok3 _ Hfresh.
  eapply wp_bind, wp_unknown; [done| | |done| |].
  - cbn. repeat constructor; by eexists.
  - cbn. apply (bool_decide_unpack _). vm_compute. done.
  - by apply Hfresh.
  - intros w4 resp Hok4 Hs4. apply wp_ret. split; [done|].
    by rewrite (refused_status resp 404%Z Hs4).
Qed.
Lemma single_use_pass : gives Pass (spec_7_3_nonce_single_use pt_target).
Proof.
  intros w Hok. apply wp_bind, wp_ed_key; [done|]. intros w1 k Hok1 _.
  apply wp_bind, wp_login; [done|]. intros w2 flow r nonce sig did Hok2 Hs Hsh Hr Hreq Hspent.
  destruct (session_shows did r _ w2 Hr Hok2 Hsh) as (g & Hg & _ & Ht).
  assert (session_accepted (lf_session_response flow) = true) as Hacc.
  { unfold session_accepted, extract_token. rewrite (ok_is_success _ Hs), Hg. cbn [mbind option_bind].
    rewrite Ht. destruct (sf_token _ _ Hr) as (b & Hb & ->).
    pose proof (hex_encode_length b) as Hl. rewrite Hb in Hl. by destruct (hex_encode b). }
  cbv beta zeta. rewrite Hacc, Hreq, session_body_members. cbn [negb].
  eapply wp_bind, wp_unknown; [done|apply body_strings|names_distinct|done|done|].
  intros w3 resp Hok3 Hs3. apply wp_ret. split; [done|].
  by rewrite (refused_status resp 404%Z Hs3).
Qed.
Lemma unsupported_namespace_pass : gives Pass (spec_7_4_unsupported_namespace_refused pt_target).
Proof.
  intros w Hok. apply wp_bind, wp_random; [done|]. intros w1 b _ Hok1 _ _.
  destruct (unsupported_namespace ("0x" +:+ hex_encode b)) as [e He].
  eapply wp_bind, wp_refused; [done|exact He|]. intros s w2 Hok2 _. by apply wp_ret.
Qed.
Lemma wp_try_malformed table w : pt_ok w →
  Forall (λ x : string * string, ∃ e, validate_did_well_formed x.2 = Err e) table →
  wp (try_malformed pt_target table) (λ r w', pt_ok w' ∧ r.1 = []) w.
Proof.
  intros Hok Ht. revert w Hok. induction Ht as [|[label did] table [e He] _ IH]; intros w Hok;
    [by apply wp_ret|].
  eapply wp_bind, wp_refused; [done|exact He|]. intros s w1 Hok1 _.
  apply wp_bind. eapply wp_mono; [by apply IH|]. intros r w2 [Hok2 Hr]. by apply wp_ret.
Qed.
Lemma wp_malformed_table w : pt_ok w → wp malformed_table (λ table w', pt_ok w' ∧
  Forall (λ x : string * string, ∃ e, validate_did_well_formed x.2 = Err e) table) w.
Proof.
  intros Hok. unfold malformed_table.
  apply wp_bind, wp_random; [done|]. intros w1 b1 Hl1 Hok1 _ _.
  apply wp_bind, wp_random; [done|]. intros w2 b2 Hl2 Hok2 _ _.
  apply wp_bind, wp_random; [done|]. intros w3 b3 Hl3 Hok3 _ _.
  apply wp_bind, wp_random; [done|]. intros w4 b4 Hl4 Hok4 _ _.
  apply wp_bind, wp_random; [done|]. intros w5 b5 Hl5 Hok5 _ _.
  apply wp_bind, wp_random; [done|]. intros w6 b6 Hl6 Hok6 _ _.
  apply wp_ret. split; [done|].
  assert (∃ c s, hex_encode b4 = String c s) as (c & s & ->).
  { pose proof (hex_encode_length b4) as Hl. rewrite Hl4 in Hl.
    destruct (hex_encode b4) as [|c s]; [done|]. by exists c, s. }
  repeat (apply List.Forall_cons; [cbn [snd]|]); [..|done].
  - apply wrong_length_ed25519. by rewrite Hl1.
  - apply wrong_length_ed25519. by rewrite Hl2.
  - apply missing_0x_ed25519.
  - apply non_hex_ed25519.
  - apply wrong_length_p256. by rewrite Hl5.
  - apply wrong_length_eip155. by rewrite Hl6.
  - apply corrupted_key.
Qed.
Lemma malformed_pass : gives Pass (spec_7_5_did_well_formed pt_target).
Proof.
  intros w Hok. apply wp_bind. eapply wp_mono; [by apply wp_malformed_table|].
  intros table w1 [Hok1 Ht]. apply wp_bind. eapply wp_mono; [by apply wp_try_malformed|].
  intros r w2 [Hok2 Hr]. apply wp_ret. split; [done|]. cbv beta zeta. by rewrite Hr.
Qed.
Lemma wp_try_valid entries w : pt_ok w →
  Forall (λ x : string * Signer, challengeable (signer_did x.2)) entries →
  wp (try_valid pt_target entries) (λ r w', pt_ok w' ∧ r = []) w.
Proof.
  intros Hok Ht. revert w Hok. induction Ht as [|[label signer] entries He _ IH]; intros w Hok;
    [by apply wp_ret|].
  apply wp_bind, wp_handed; [done|exact He|]. intros w1 resp env c Hok1 Hs _ _.
  apply wp_bind. eapply wp_mono; [by apply IH|]. intros r w2 [Hok2 ->]. apply wp_ret.
  split; [done|]. by rewrite (ok_is_success _ Hs).
Qed.
Lemma wp_valid_entries w : pt_ok w → wp valid_entries (λ entries w', pt_ok w' ∧
  Forall (λ x : string * Signer, challengeable (signer_did x.2)) entries) w.
Proof.
  intros Hok. unfold valid_entries. apply wp_bind, wp_ed_key; [done|]. intros w1 a Hok1 _.
  apply wp_bind, (wp_key (λ k, SpelledEd25519 k DidPkh) ed_generate); [|apply pt_ed|done|].
  { intros w'. unfold ed25519_did_pkh, boxed, ed25519_generate. by destruct (ed_generate w'). }
  intros w2 b Hok2 _.
  apply wp_bind, (wp_key (λ k, SpelledP256 k DidKey) p256_random); [|apply pt_p256|done|].
  { intros w'. unfold p256_did_key, boxed, p256_generate. by destruct (p256_random w'). }
  intros w3 c Hok3 _.
  apply wp_bind, (wp_key (λ k, SpelledP256 k DidPkh) p256_random); [|apply pt_p256|done|].
  { intros w'. unfold p256_did_pkh, boxed, p256_generate. by destruct (p256_random w'). }
  intros w4 d Hok4 _.
  apply wp_bind, (wp_key SpelledEip155 k256_random); [|apply pt_k256|done|].
  { intros w'. unfold eip155, boxed, eip155_generate. by destruct (k256_random w'). }
  intros w5 e Hok5 _. apply wp_ret. split; [done|].
  repeat (apply List.Forall_cons; [by apply spelled_challengeable|]). done.
Qed.
Lemma spellings_pass : gives Pass (spec_7_5_valid_did_spellings_accepted pt_target).
Proof.
  intros w Hok. apply wp_bind. eapply wp_mono; [by apply wp_valid_entries|].
  intros entries w1 [Hok1 Ht]. apply wp_bind. eapply wp_mono; [by apply wp_try_valid|].
  intros r w2 [Hok2 ->]. by apply wp_ret.
Qed.
Lemma nonce_and_did_pass w : pt_ok w →
  wp (nonce_and_did_cases pt_target) (λ rs w', pt_ok w' ∧
    map cr_outcome rs = [Pass; Pass; Pass; Pass; Pass]) w.
Proof.
  apply gives_in_order. repeat apply List.Forall2_cons; [apply unknown_nonce_pass|
    apply single_use_pass|apply unsupported_namespace_pass|apply malformed_pass|
    apply spellings_pass|done].
Qed.
End passing.
