(* ===== verification/ConformanceForgery.v ===== *)
(** * What a failing signature case shows: conformance/cases_signature.rs

    The six signature cases against the interface of [ConformanceLogic]. A case
    that fails has got a signature past the service that its DID's key did not
    make for that message, or two signers it drew have one DID. [forgery] and
    [shared_did] say so of the log of the run alone: the signers drawn, the
    challenges handed out, the login that was accepted. *)

From S2P Require Import Prelude Crates Errors Keys Did Suites Aqua Methods DidFormat Principal Message Types Challenge SessionBackend Session Wire Signer HttpSigBase HttpSigReplay HttpSig Directory LocalKey TestSigners Peer PeerLogin Conformance ConformanceNonce ConformanceSignature ConformanceWire ConformanceLogic ConformancePeer.

#[local] Existing Instance InMemoryBackend.

Section forgery.
Context `{Ed25519, P256, K256, MlDsa, Base58, Base64, Hex, Hashes, Features, Chrono, Profile}.
Context `{Sfv, HarnessHost, Urls, Json, JsonWrite, !SigningKeys, !KeyGeneration, !PeerTarget}.

Definition key_did (k : ed_signing) : string :=
  signer_did (spelled_signer (SpelledEd25519 k DidKey)).
Definition aqua_seed_did (seed : bytes) : string :=
  signer_did (spelled_signer (SpelledAqua (mldsa_new seed))).
Definition verifies (k : ed_signing) (message : string) (sig : bytes) : Prop :=
  verify_caip122_with_public_key (key_did k) message sig None = Ok true.
(** What the log of a run shows: a key the harness drew; a challenge the service
    handed out for a DID; a signature it let past. *)
Definition drawn (log : list LogEntry) (k : ed_signing) : Prop :=
  Drew (spelled_signer (SpelledEd25519 k DidKey)) ∈ log.
Definition challenged (log : list LogEntry) (did nonce message : string) : Prop :=
  ∃ x resp, Requested x ∈ log ∧
    xc_call x = CallGet (tg_base_url pt_target +:+ tg_challenge_path pt_target) [("did", did)] ∧
    xc_result x = Ok resp ∧ message_and_nonce resp = Ok (message, nonce).
(** A session request of these three members. *)
Definition body_of (did nonce signature : string) : json :=
  JObject [("did", JString did); ("nonce", JString nonce); ("signature", JString signature)].
Definition got_past (log : list LogEntry) (did nonce signature : string) : Prop :=
  ∃ x resp, Requested x ∈ log ∧
    xc_call x = CallPost (tg_base_url pt_target +:+ tg_session_path pt_target)
      (body_of did nonce signature) ∧
    xc_result x = Ok resp ∧ accepted resp = true.
Definition corruptions (sig : bytes) : list bytes :=
  [match sig with b :: bs => byte_of (N.lxor (byte_N b) 1) :: bs | [] => [] end;
   take (length sig - 1) sig; sig ++ [Byte.xaa]; replicate (length sig) Byte.x00].
(** A signature the harness did not have the key of [k] make for [message]. *)
Inductive not_made (log : list LogEntry) (k : ed_signing) (message : string) : bytes → Prop :=
| Corrupted sig : sig ∈ corruptions (ed_sign k (as_bytes message)) → not_made log k message sig
| OfOtherKey k' : drawn log k' → key_did k' ≠ key_did k →
    not_made log k message (ed_sign k' (as_bytes message))
| OfOtherMessage nonce' message' : challenged log (key_did k) nonce' message' →
    message' ≠ message → not_made log k message (ed_sign k (as_bytes message')).
(** The service let such a signature past for a challenge it had handed out, and
    it verifies. *)
Definition forgery (log : list LogEntry) : Prop :=
  ∃ k nonce message sig, drawn log k ∧ challenged log (key_did k) nonce message ∧
    not_made log k message sig ∧ got_past log (key_did k) nonce (hex_text sig) ∧
    verifies k message sig.
(** Two signers drawn one after the other that have one DID. *)
Definition shared_did (log : list LogEntry) : Prop :=
  ∃ s s', sublist [Drew s; Drew s'] log ∧ signer_did s = signer_did s'.
Definition broken (log : list LogEntry) : Prop := forgery log ∨ shared_did log.

Context `{!JsonTextLaws, !PeerTargetLaws}.
Context `{!Base58Laws, !HexLaws, !P256Laws, !HashesLaws, !Base64Laws, !ChronoLaws,
  !SigningKeysLaws, !KeyGenerationLaws}.

(** *** Runs and their logs *)

(** What holds of the value, the log so far and the world afterwards. *)
Definition wpl {A} (m : Hio A) (Q : A → list LogEntry → world → Prop) (l : list LogEntry) (w : world)
  : Prop := Q (m w).2 (l ++ (m w).1.1) (m w).1.2.
Lemma wpl_ret {A} (a : A) (Q : A → list LogEntry → world → Prop) l w : Q a l w → wpl (hio_ret a) Q l w.
Proof. unfold wpl. cbn. by rewrite app_nil_r. Qed.
Lemma wpl_bind {A B} (x : Hio A) (f : A → Hio B) Q l w :
  wpl x (λ a l' w', sublist l l' → wpl (f a) Q l' w') l w → wpl (hio_bind x f) Q l w.
Proof.
  unfold wpl, hio_bind. destruct (x w) as [[c1 w1] a]. cbn. intros Hf.
  specialize (Hf (sublist_inserts_r c1 l l (reflexivity _))).
  destruct (f a w1) as [[c2 w2] b]. cbn in *. by rewrite app_assoc.
Qed.
Lemma wpl_mono {A} (m : Hio A) (Q Q' : A → list LogEntry → world → Prop) l w :
  wpl m Q l w → (∀ a l' w', Q a l' w' → Q' a l' w') → wpl m Q' l w.
Proof. unfold wpl. auto. Qed.
(** What is known of the value and the world, with the log of the step. *)
Lemma wpl_wp {A} (m : Hio A) (Q : A → world → Prop) (Q' : A → list LogEntry → world → Prop) l w :
  wp m Q w → (∀ a w', (m w).2 = a → Q a w' → Q' a (l ++ (m w).1.1) w') → wpl m Q' l w.
Proof. unfold wp, wpl. auto. Qed.

Lemma drawn_mono l l' k : sublist l l' → drawn l k → drawn l' k.
Proof. intros Hl Hk. by eapply elem_of_sublist. Qed.
Lemma challenged_mono l l' did n m : sublist l l' → challenged l did n m → challenged l' did n m.
Proof. intros Hl (x & resp & Hx & ?). exists x, resp. split; [by eapply elem_of_sublist|done]. Qed.
Lemma got_past_mono l l' did n s : sublist l l' → got_past l did n s → got_past l' did n s.
Proof. intros Hl (x & resp & Hx & ?). exists x, resp. split; [by eapply elem_of_sublist|done]. Qed.
Lemma not_made_mono l l' k m sig : sublist l l' → not_made l k m sig → not_made l' k m sig.
Proof.
  intros Hl [s Hs|k' Hk Hne|n' m' Hm Hne].
  - by apply Corrupted.
  - apply OfOtherKey; [by eapply drawn_mono|done].
  - eapply OfOtherMessage; [by eapply challenged_mono|done].
Qed.
Lemma forgery_mono l l' : sublist l l' → forgery l → forgery l'.
Proof.
  intros Hl (k & n & m & sig & Hk & Hh & Hn & Hg & Hv). exists k, n, m, sig.
  split_and!; eauto using drawn_mono, challenged_mono, got_past_mono, not_made_mono.
Qed.
Lemma broken_mono l l' : sublist l l' → broken l → broken l'.
Proof.
  intros Hl [Hf|(s & s' & Hs & Heq)]; [left; by eapply forgery_mono|right].
  exists s, s'. split; [by etrans|done].
Qed.

(** A case that ends with this verdict wherever a run stands, or breaks it. *)
Definition gives_or_forged (o : Outcome) (m : Hio CaseResult) : Prop :=
  ∀ l w, pt_ok w → wpl m (λ r l' w', pt_ok w' ∧ (cr_outcome r = o ∨ broken l')) l w.
Lemma gives_anyway o m : gives o m → gives_or_forged o m.
Proof.
  intros Hm l w Hok. eapply wpl_wp; [by apply Hm|]. intros r w' _ [Hok' Hr]. split; [done|by left].
Qed.

(** *** Steps *)

Lemma wpl_ed_draw Q l w : pt_ok w →
  (∀ w' k, pt_ok w' → pt_peer w' = pt_peer w →
    let s := spelled_signer (SpelledEd25519 k DidKey) in Q s (l ++ [Drew s]) w') →
  wpl (hio_draw ed25519_did_key) Q l w.
Proof.
  intros Hok HQ. destruct (pt_ed w Hok) as [Hok' Hp].
  unfold wpl, hio_draw, ed25519_did_key, boxed, ed25519_generate.
  destruct (ed_generate w) as [w' k] eqn:E. by apply (HQ w' k).
Qed.
Lemma drawn_last l k : drawn (l ++ [Drew (spelled_signer (SpelledEd25519 k DidKey))]) k.
Proof. apply elem_of_app. right. by left. Qed.
Lemma key_challengeable k : challengeable (key_did k).
Proof. by apply spelled_challengeable. Qed.
Lemma session_body_of did nonce sig : session_body did nonce sig = body_of did nonce (hex_text sig).
Proof. done. Qed.
Lemma hex_member_text sig : hex_member (hex_text sig) = Ok sig.
Proof. unfold hex_member, hex_text. by rewrite hex_text_trimmed, hex_decode_encode. Qed.
(** The log of one request. *)
Lemma send_log c w : ∃ x, (send_call c w).1.1 = [Requested x] ∧ xc_call x = c ∧
  (send_call c w).2 = xc_result x.
Proof.
  unfold send_call. destruct (follow REDIRECT_LIMIT c w) as [[hops w'] r].
  destruct (match r with Ok _ => _ | Err _ => _ end) as [w2 x]. by eexists.
Qed.
Lemma fetch_log t did w : ∃ x, (fetch_challenge t did w).1.1 = [Requested x] ∧
  xc_call x = CallGet (tg_base_url t +:+ tg_challenge_path t) [("did", did)] ∧
  (fetch_challenge t did w).2 = map_err LoginHttp (xc_result x).
Proof.
  unfold fetch_challenge, get_challenge, hio_bind.
  destruct (send_log (CallGet (tg_base_url t +:+ tg_challenge_path t) [("did", did)]) w)
    as (x & Hl & Hc & Hr).
  destruct (send_call _ w) as [[l' w'] r]. cbn in *. subst l' r. by exists x.
Qed.
Lemma post_log t body w : ∃ x, (post_session t body w).1.1 = [Requested x] ∧
  xc_call x = CallPost (tg_base_url t +:+ tg_session_path t) body ∧
  (post_session t body w).2 = map_err LoginHttp (xc_result x).
Proof.
  unfold post_session, http_post_session, hio_bind.
  destruct (send_log (CallPost (tg_base_url t +:+ tg_session_path t) body) w) as (x & Hl & Hc & Hr).
  destruct (send_call _ w) as [[l' w'] r]. cbn in *. subst l' r. by exists x.
Qed.
Lemma message_and_nonce_handed resp env : hr_status resp = 200%Z →
  shows (envelope_to_json env) (hr_json resp) →
  message_and_nonce resp = Ok (en_message env, en_nonce env).
Proof.
  intros Hs (g & Hg & Hm). unfold message_and_nonce, get_str.
  rewrite (ok_is_success _ Hs), Hg. cbn [negb ok_or]. by rewrite !Hm.
Qed.
(** A challenge the log then shows as handed out. *)
Lemma wpl_handed did Q l w : pt_ok w → challengeable did →
  (∀ w' resp env c l', pt_ok w' → hr_status resp = 200%Z →
    shows (envelope_to_json env) (hr_json resp) → handed w' did env c → adds w w' env →
    (∃ b issued expires, params_one_line {| mp_did := did;
        mp_domain := cst_domain (ps_challenges (pt_peer w));
        mp_uri := cst_uri (ps_challenges (pt_peer w)); mp_nonce := nonce_text b;
        mp_issued_at := issued; mp_expiration_time := expires |} ∧ en_nonce env = nonce_text b ∧
      build_message {| mp_did := did; mp_domain := cst_domain (ps_challenges (pt_peer w));
        mp_uri := cst_uri (ps_challenges (pt_peer w)); mp_nonce := nonce_text b;
        mp_issued_at := issued; mp_expiration_time := expires |} = Ok (en_message env)) →
    challenged l' did (en_nonce env) (en_message env) → Q (Ok resp) l' w') →
  wpl (fetch_challenge pt_target did) Q l w.
Proof.
  intros Hok Hch HQ.
  eapply (wpl_wp _ (λ r w', ∃ resp, r = Ok resp ∧
    ∀ l', (∃ x, Requested x ∈ l' ∧
      xc_call x = CallGet (tg_base_url pt_target +:+ tg_challenge_path pt_target) [("did", did)] ∧
      xc_result x = Ok resp) → Q (Ok resp) l' w')).
  - apply wp_handed_new; [done..|]. intros w' resp env c Hok' Hs Hsh Hh Ha Hm. exists resp.
    split; [done|]. intros l' (x & Hx & Hc & Hr). eapply HQ; [done|done|exact Hsh|exact Hh|done|done|].
    exists x, resp. split_and!; [done..|]. by apply message_and_nonce_handed.
  - intros r w' Hr (resp & -> & Hl). apply Hl.
    destruct (fetch_log pt_target did w) as (x & Hx & Hc & Hxr). exists x.
    split; [rewrite Hx; apply elem_of_app; right; by left|]. split; [done|].
    rewrite Hr in Hxr. by destruct (xc_result x) as [y|e]; [injection Hxr as ->|].
Qed.
(** The signature of a body for a challenge the service holds: refused, or it
    verifies over the message held, and the log shows that it got past. *)
Lemma wpl_sent did nonce signature Q l w : pt_ok w →
  (∀ w' resp l', pt_ok w' →
    (∀ n c, cst_challenges (ps_challenges (pt_peer w')) !! n = Some c →
      cst_challenges (ps_challenges (pt_peer w)) !! n = Some c) →
    (accepted resp = true → got_past l' did nonce signature ∧
      ∃ c sig, cst_challenges (ps_challenges (pt_peer w)) !! nonce = Some c ∧
      hex_member signature = Ok sig ∧
      verify_caip122_with_public_key did (ch_message c) sig None = Ok true) → Q (Ok resp) l' w') →
  wpl (post_session pt_target (body_of did nonce signature)) Q l w.
Proof.
  intros Hok HQ.
  eapply (wpl_wp _ (λ r w', ∃ resp, r = Ok resp ∧
    ∀ l', (accepted resp = true → got_past l' did nonce signature) → Q (Ok resp) l' w')).
  - eapply (wp_tried _ {| wr_did := did; wr_nonce := nonce;
      wr_signature := signature; wr_public_key := None |}); [done| |names_distinct|done|].
    + repeat constructor; by eexists.
    + intros w' resp Hok' Hk Ha. exists resp. split; [done|]. intros l' Hg. apply HQ; [done..|].
      intros Hacc. split; [by apply Hg|].
      destruct (Ha Hacc) as (c & sig & pk & Hc & Hs & [= <-] & Hv). by exists c, sig.
  - intros r w' Hr (resp & -> & Hl). apply Hl. intros Hacc.
    destruct (post_log pt_target (body_of did nonce signature) w) as (x & Hx & Hc & Hxr).
    exists x, resp.
    split; [rewrite Hx; apply elem_of_app; right; by left|]. split; [done|].
    rewrite Hr in Hxr. by destruct (xc_result x) as [y|e]; [injection Hxr as ->|].
Qed.
Lemma wpl_signed_by resp env k Q l w : hr_status resp = 200%Z →
  shows (envelope_to_json env) (hr_json resp) →
  Q (Ok (body_of (key_did k) (en_nonce env)
    (hex_text (ed_sign k (as_bytes (en_message env)))))) l w →
  wpl (sign_challenge resp (spelled_signer (SpelledEd25519 k DidKey))) Q l w.
Proof.
  intros Hs Hsh HQ. unfold sign_challenge. rewrite (signable_handed _ _ Hs Hsh).
  apply wpl_bind. unfold wpl at 1, hio_do. intros _. apply wpl_ret. by rewrite app_nil_r.
Qed.

(** *** Rule 6 *)

Lemma decode_hex_text sig : decode_hex_body (hex_text sig) = sig.
Proof.
  unfold decode_hex_body, hex_text. rewrite strip_prefix_app.
  change (default _ (Some ?x)) with x. by rewrite hex_decode_encode.
Qed.
Lemma garbage_not_hex : ∃ e, hex_member (non_hex_garbage "") = Err e.
Proof.
  unfold hex_member, non_hex_garbage.
  assert (trim_start_matches "0x" "0xthis-is-not-hex-at-all" = "this-is-not-hex-at-all") as -> by vm_refl.
  destruct (hex_decode _) as [b|] eqn:E; [|by eexists]. apply hex_decode_digits in E. by vm_compute in E.
Qed.
(** What a row of the table sends in place of a signature. *)
Lemma corruption_sent label corrupt sig : (label, corrupt) ∈ SIGNATURE_CORRUPTIONS →
  (∃ sig', sig' ∈ corruptions sig ∧ corrupt (hex_text sig) = hex_text sig') ∨
  (∃ e, hex_member (corrupt (hex_text sig)) = Err e).
Proof.
  intros Hin. unfold SIGNATURE_CORRUPTIONS in Hin. rewrite !elem_of_cons in Hin. unfold corruptions.
  destruct Hin as [[= _ ->]|[[= _ ->]|[[= _ ->]|[[= _ ->]|[[= _ ->]|Hnil]]]]].
  - left. eexists. split; [by left|]. unfold flip_one_bit. by rewrite decode_hex_text.
  - left. eexists. split; [right; by left|]. unfold truncate_by_one_byte. by rewrite decode_hex_text.
  - left. eexists. split; [do 2 right; by left|]. unfold append_one_byte. by rewrite decode_hex_text.
  - left. eexists. split; [do 3 right; by left|]. unfold zero_of_same_length. by rewrite decode_hex_text.
  - right. apply garbage_not_hex.
  - by apply not_elem_of_nil in Hnil.
Qed.
Lemma wpl_try_corruption label corrupt l w : (label, corrupt) ∈ SIGNATURE_CORRUPTIONS → pt_ok w →
  wpl (try_corruption pt_target label corrupt) (λ r l' w', pt_ok w' ∧ (r = [] ∨ broken l')) l w.
Proof.
  intros Hin Hok. apply wpl_bind, wpl_ed_draw; [done|]. intros w1 k Hok1 _ s _.
  pose proof (drawn_last l k) as Hk. fold s in Hk.
  apply wpl_bind, wpl_handed; [done|apply key_challengeable|].
  intros w2 resp env c l2 Hok2 Hs Hsh Hh _ _ Hho Hl2.
  apply wpl_bind, (wpl_signed_by resp env); [done..|]. intros _.
  set (sig := ed_sign k (as_bytes (en_message env))).
  change (get_str (body_of (key_did k) (en_nonce env) (hex_text sig)) "signature")
    with (Some (hex_text sig)). cbv beta iota zeta.
  apply wpl_bind, wpl_sent; [done|]. intros w3 resp3 l3 Hok3 _ Hacc Hl3. apply wpl_ret.
  split; [done|]. destruct (accepted resp3); [right; left|by left].
  destruct (Hacc eq_refl) as (Hgot & c' & s' & Hc & Hsig & Hv).
  destruct (corruption_sent label corrupt sig Hin) as [(s2 & Hs2 & Heq)|[e He]]; [|congruence].
  rewrite Heq in Hgot. rewrite Heq, hex_member_text in Hsig. injection Hsig as <-.
  rewrite (hd_stored _ _ _ _ Hh) in Hc. injection Hc as <-. rewrite (hd_message _ _ _ _ Hh) in Hv.
  exists k, (en_nonce env), (en_message env), s2.
  split_and!; [by eapply drawn_mono, drawn_mono|by eapply challenged_mono|by apply Corrupted|done|done].
Qed.
Lemma signature_invalid_refused :
  gives_or_forged Pass (spec_7_6_signature_invalid_refused pt_target).
Proof.
  assert (∀ rows l w, rows ⊆ SIGNATURE_CORRUPTIONS → pt_ok w →
    wpl (try_corruptions pt_target rows) (λ r l' w', pt_ok w' ∧ (r = [] ∨ broken l')) l w) as Hrows.
  { induction rows as [|[label corrupt] rows IH]; intros l w Hsub Hok; [apply wpl_ret; by auto|].
    apply wpl_bind. eapply wpl_mono; [apply wpl_try_corruption; [apply Hsub; by left|done]|].
    intros r l1 w1 [Hok1 Hr] _. apply wpl_bind. eapply wpl_mono; [apply IH; [|done]|].
    { intros x Hx. apply Hsub. by right. }
    intros r' l2 w2 [Hok2 Hr'] Hl. apply wpl_ret. split; [done|].
    destruct Hr as [->|?]; [|right; by eapply broken_mono].
    destruct Hr' as [->|?]; [by left|by right]. }
  intros l w Hok. apply wpl_bind. eapply wpl_mono; [by apply Hrows|]. intros r l' w' [Hok' Hr] _.
  apply wpl_ret. split; [done|]. destruct Hr as [->|?]; [by left|by right].
Qed.
Lemma wrong_key_refused : gives_or_forged Pass (spec_7_6_wrong_key_refused pt_target).
Proof.
  intros l w Hok. apply wpl_bind, wpl_ed_draw; [done|]. intros w1 k Hok1 _ s _.
  apply wpl_bind, wpl_ed_draw; [done|]. intros w2 k' Hok2 _ s' Hl2.
  set (l2 := (l ++ [Drew s]) ++ [Drew s']) in *.
  assert (sublist [Drew s; Drew s'] l2) as Hboth.
  { unfold l2. rewrite <- app_assoc. by apply sublist_inserts_l. }
  apply wpl_bind, wpl_handed; [done|apply key_challengeable|].
  intros w3 resp env c l3 Hok3 Hs Hsh Hh _ _ Hho Hl3.
  rewrite (message_and_nonce_handed resp env) by done.
  apply wpl_bind. unfold wpl at 1, hio_do. cbn [fst snd sg_sign spelled_signer ed25519_local_signer
    el_key ed25519_spelled s']. rewrite app_nil_r. intros _. rewrite session_body_of.
  apply wpl_bind, wpl_sent; [done|]. intros w4 resp4 l4 Hok4 _ Hacc Hl4. apply wpl_ret.
  split; [done|]. destruct (accepted resp4); [right|by left].
  assert (sublist l2 l4) as Hl24 by by etrans.
  destruct (decide (key_did k' = key_did k)) as [Heq|Hne].
  { right. exists s, s'. split; [by etrans|done]. }
  destruct (Hacc eq_refl) as (Hgot & c' & sig & Hc & Hsig & Hv). left.
  rewrite hex_member_text in Hsig. injection Hsig as <-.
  rewrite (hd_stored _ _ _ _ Hh) in Hc. injection Hc as <-. rewrite (hd_message _ _ _ _ Hh) in Hv.
  exists k, (en_nonce env), (en_message env), (ed_sign k' (as_bytes (en_message env))).
  split_and!; [|exact (challenged_mono _ _ _ _ _ Hl4 Hho)| |done|done].
  - eapply drawn_mono; [exact Hl24|]. eapply drawn_mono; [exact Hl2|]. apply drawn_last.
  - apply OfOtherKey; [|done]. eapply drawn_mono; [exact Hl24|]. apply drawn_last.
Qed.

(** *** Rule 7 *)

(** Two messages for different nonces differ. *)
Lemma same_message_nonce p q msg :
  validate_did_well_formed (mp_did p) = Ok tt → params_one_line p →
  validate_did_well_formed (mp_did q) = Ok tt → params_one_line q →
  build_message p = Ok msg → build_message q = Ok msg → mp_nonce p = mp_nonce q.
Proof.
  intros Hvp Hp Hvq Hq Hbp Hbq.
  destruct (build_message_split _ _ Hvp Hp Hbp) as (m & id & lp & _ & _ & _ & _ & _ & Hs).
  destruct (build_message_split _ _ Hvq Hq Hbq) as (n & id' & lq & _ & _ & _ & _ & _ & Hs').
  rewrite Hs in Hs'. cbv [message_lines app] in Hs'. injection Hs' as _ _ _ Hn _ _ _.
  by apply str_app_inj_l in Hn.
Qed.
(** One direction, against a service that holds [c] under the nonce, if any. *)
Lemma wpl_cross k message nonce c sign_failed wrong failed l w : pt_ok w →
  (∀ c', cst_challenges (ps_challenges (pt_peer w)) !! nonce = Some c' → c' = c) →
  let sig := ed_sign k (as_bytes message) in
  wpl (cross_submission pt_target (spelled_signer (SpelledEd25519 k DidKey)) message nonce
       sign_failed wrong failed)
    (λ r l' w', pt_ok w' ∧
      (∀ n c', cst_challenges (ps_challenges (pt_peer w')) !! n = Some c' →
        cst_challenges (ps_challenges (pt_peer w)) !! n = Some c') ∧
      (r = [] ∨ got_past l' (key_did k) nonce (hex_text sig) ∧ verifies k (ch_message c) sig)) l w.
Proof.
  intros Hok Hc sig. apply wpl_bind. unfold wpl at 1, hio_do. cbn [fst snd sg_sign spelled_signer
    ed25519_local_signer el_key ed25519_spelled]. rewrite app_nil_r. intros _.
  rewrite session_body_of.
  apply wpl_bind, wpl_sent; [done|]. intros w' resp l' Hok' Hkn Hacc _. apply wpl_ret.
  do 2 (split; [done|]). destruct (accepted resp); [right|by left].
  destruct (Hacc eq_refl) as (Hgot & c' & s & Hc' & Hsig & Hv). split; [done|].
  rewrite hex_member_text in Hsig. injection Hsig as <-. by rewrite <- (Hc c' Hc').
Qed.
(** Such a submission that got past is a forgery. *)
Lemma crossed_forgery l k nonce message nonce' message' : drawn l k →
  challenged l (key_did k) nonce message → challenged l (key_did k) nonce' message' →
  message' ≠ message →
  got_past l (key_did k) nonce (hex_text (ed_sign k (as_bytes message'))) →
  verifies k message (ed_sign k (as_bytes message')) → broken l.
Proof.
  intros Hk Hm Hm' Hne Hg Hv. left. exists k, nonce, message, (ed_sign k (as_bytes message')).
  split_and!; try done. by eapply OfOtherMessage.
Qed.
Lemma message_binding_refused : gives_or_forged Pass (spec_7_7_message_binding pt_target).
Proof.
  intros l w Hok. apply wpl_bind, wpl_ed_draw; [done|]. intros w1 k Hok1 _ s _.
  pose proof (drawn_last l k) as Hdrawn. fold s in Hdrawn.
  apply wpl_bind, wpl_handed; [done|apply key_challengeable|].
  intros w2 ra ea ca l2 Hok2 Hsa Hsha Hha _ (ba & ia & xa & Hpa & Hna & Hma) Hoa Hl2.
  apply wpl_bind, wpl_handed; [done|apply key_challengeable|].
  intros w3 rb eb cb l3 Hok3 Hsb Hshb Hhb [Hnew Hkn] (bb & ib & xb & Hpb & Hnb & Hmb) Hob Hl3.
  rewrite (message_and_nonce_handed ra ea), (message_and_nonce_handed rb eb) by done.
  assert (en_nonce ea ≠ en_nonce eb) as Hne
    by (intros Heq; rewrite <- Heq, (hd_stored _ _ _ _ Hha) in Hnew; done).
  assert (en_message ea ≠ en_message eb) as Hme.
  { intros Heq. rewrite Heq in Hma. apply Hne. rewrite Hna, Hnb.
    refine (same_message_nonce _ _ _ _ Hpa _ Hpb Hma Hmb); apply key_challengeable. }
  rewrite (proj2 (String.eqb_neq _ _) Hme), (proj2 (String.eqb_neq _ _) Hne). cbn [orb].
  apply wpl_bind. eapply wpl_mono; [apply (wpl_cross k _ _ ca); [done|]|].
  { intros c' [Heq|Hc']%Hkn; [by destruct Hne|].
    rewrite (hd_stored _ _ _ _ Hha) in Hc'. by injection Hc'. }
  intros first l4 w4 (Hok4 & Hkn4 & Hfirst) Hl4.
  apply wpl_bind. eapply wpl_mono; [apply (wpl_cross k _ _ cb); [done|]|].
  { intros c' Hc'%Hkn4. rewrite (hd_stored _ _ _ _ Hhb) in Hc'. by injection Hc'. }
  intros second l5 w5 (Hok5 & _ & Hsecond) Hl5. apply wpl_ret. split; [done|].
  rewrite (hd_message _ _ _ _ Hha) in Hfirst. rewrite (hd_message _ _ _ _ Hhb) in Hsecond.
  assert (drawn l4 k) as Hd4 by (do 2 (eapply drawn_mono; [eassumption|]); by eapply drawn_mono).
  assert (challenged l4 (key_did k) (en_nonce ea) (en_message ea)) as Ha4
    by (eapply challenged_mono; [|exact Hoa]; by etrans).
  assert (challenged l4 (key_did k) (en_nonce eb) (en_message eb)) as Hb4
    by by eapply challenged_mono.
  destruct Hfirst as [->|[Hg Hv]].
  - destruct Hsecond as [->|[Hg Hv]]; [by left|right].
    exact (crossed_forgery l5 k _ _ _ _ (drawn_mono _ _ _ Hl5 Hd4)
      (challenged_mono _ _ _ _ _ Hl5 Hb4) (challenged_mono _ _ _ _ _ Hl5 Ha4) Hme Hg Hv).
  - right. eapply broken_mono; [exact Hl5|].
    exact (crossed_forgery l4 k _ _ _ _ Hd4 Ha4 Hb4 (not_eq_sym Hme) Hg Hv).
Qed.

(** *** Rule 2, and the origin *)

Lemma expiry_skipped : gives Skip (spec_7_2_challenge_expiry pt_target).
Proof.
  intros w Hok. apply wp_bind, wp_ed_key; [done|]. intros w1 k Hok1 _.
  apply wp_bind, wp_handed; [done|apply key_challengeable|]. intros w2 resp env c Hok2 Hs Hsh Hh.
  rewrite (ok_is_success _ Hs). cbn [negb].
  assert ((v ← hr_json resp; get_u64 v "expires_at") = Some (en_expires_at env)) as ->.
  { eapply shows_u64; [done|]. apply as_u64_number.
    destruct (hd_template _ _ _ _ Hh) as (? & ? & ? & ? & ? & ? & ? & ? & -> & _). apply now_secs_range. }
  apply wp_bind, wp_read. destruct (hd_live _ _ _ _ Hh w2 Hok2) as [_ Hlive].
  destruct (_ <=? _)%Z eqn:E; bool_simpl; [lia|].
  apply wp_bind, wp_read. rewrite bool_decide_eq_false_2 by by apply pt_env.
  by apply wp_ret.
Qed.
Lemma no_carriage_return a b : free_of "013"%char b = true → str_is_empty b = false →
  strip_suffix (String "013" EmptyString) (a +:+ b) = None.
Proof.
  intros Hf He. unfold strip_suffix. rewrite str_rev_app.
  pose proof (free_of_rev_head _ _ Hf) as Hh. revert Hh.
  destruct (String.rev b) as [|d r] eqn:Eb; intros Hh.
  - apply (f_equal String.rev) in Eb. rewrite str_rev_involutive in Eb. by rewrite Eb in He.
  - rewrite str_app_cons. apply negb_true_iff in Hh.
    assert (∀ c s, Ascii.eqb c d = false → strip_prefix (String c EmptyString) (String d s) = None)
      as Hc by (intros c s Hc; unfold strip_prefix; by rewrite Hc).
    exact (f_equal (fmap String.rev) (Hc _ _ Hh)).
Qed.
(** The line the harness finds, and the value it reads off it. *)
Lemma uri_line_found k p msg : build_message p = Ok msg → mp_did p = key_did k →
  params_one_line p → str_forallb graphic (mp_uri p) = true →
  starts_with "URI: " (mp_domain p +:+ " wants you to sign in with your Ed25519 account:") = false →
  List.find (starts_with "URI: ") (str_lines msg) = Some ("URI: " +:+ mp_uri p) ∧
  trim (trim_start_matches "URI: " ("URI: " +:+ mp_uri p)) = mp_uri p.
Proof.
  intros Hm Hd Hp Hu Hno. destruct (ed_key_split k p msg Hd Hp Hm) as (z & _ & Hz & Hls).
  assert (strip_prefix "URI: " (mp_uri p) = None) as Hns.
  { destruct (strip_prefix _ _) as [r|] eqn:E; [|done]. apply strip_prefix_Some in E.
    by rewrite E in Hu. }
  split.
  - unfold str_lines. rewrite Hls. unfold message_lines. cbn [rev app map].
    rewrite (no_carriage_return (mp_domain p)
      (" wants you to sign in with your " +:+ "Ed25519" +:+ " account:") eq_refl eq_refl).
    assert (strip_suffix (String "013" EmptyString) ("z" +:+ z) = None) as ->
      by exact (no_carriage_return "" ("z" +:+ z) (free_of_graphic "013"%char _ eq_refl Hz) eq_refl).
    assert (strip_suffix (String "013" EmptyString) ("URI: " +:+ mp_uri p) = None) as ->.
    { apply (no_carriage_return "" ("URI: " +:+ mp_uri p)); [|done].
      by rewrite free_of_app, (free_of_graphic "013"%char _ eq_refl Hu). }
    change (default ?x None) with x. cbn [List.find].
    change (" wants you to sign in with your " +:+ "Ed25519" +:+ " account:")
      with " wants you to sign in with your Ed25519 account:". rewrite Hno.
    assert (starts_with "URI: " ("URI: " +:+ mp_uri p) = true) as Hs
      by (apply starts_with_spec; eauto).
    cbn [app List.find]. rewrite Hs. done.
  - rewrite trim_start_once by done. by apply trim_graphic.
Qed.
Lemma origin_matches : gives Pass (spec_6_2_uri_origin_matches_target pt_target).
Proof.
  intros w Hok. apply wp_bind, wp_ed_key; [done|]. intros w1 k Hok1 _.
  apply wp_bind, wp_handed_new; [done|apply key_challengeable|].
  intros w2 resp env c Hok2 Hs Hsh Hh _ (b & i & x & Hp & _ & Hm). apply wp_ret.
  split; [done|]. rewrite (ok_is_success _ Hs). cbn [negb].
  assert ((v ← hr_json resp; get_str v "message") = Some (en_message env)) as ->
    by by eapply shows_str.
  destruct (pt_origin w1 Hok1) as (Hno & u & d & Hu & Hd & Ho), (pt_lines w1 Hok1) as (_ & Hg & _).
  destruct (uri_line_found k _ _ Hm eq_refl Hp Hg Hno) as [-> ->]. cbn [mp_uri].
  by rewrite Hu, Hd, Ho.
Qed.

(** *** The key of a [did:aqua] *)

Lemma wpl_aqua_draw Q l w : pt_ok w →
  (∀ w' seed, pt_ok w' → pt_peer w' = pt_peer w →
    let s := spelled_signer (SpelledAqua (mldsa_new seed)) in Q s (l ++ [Drew s]) w') →
  wpl (hio_draw did_aqua_signer) Q l w.
Proof.
  intros Hok HQ. destruct (pt_fill 32 w Hok) as [Hok' Hp].
  unfold wpl, hio_draw, did_aqua_signer, boxed, mldsa_generate.
  destruct (os_fill_bytes w 32) as [w' seed] eqn:E. by apply (HQ w' seed).
Qed.
Lemma aqua_unsupported seed : did_aqua = false →
  ∃ e, validate_did_well_formed (aqua_seed_did seed) = Err e.
Proof.
  intros Haq. unfold validate_did_well_formed.
  assert (find_did_method (aqua_seed_did seed) = None) as ->; [|by eexists].
  etrans; [apply (find_did_method_aqua ("z" +:+ bs58_encode (aqua_multihash
    (mldsa_public (mldsa_new seed)))))|]. by rewrite Haq.
Qed.
Lemma aqua_verified_binds seed message sig pk : did_aqua = true →
  verify_caip122_with_public_key (aqua_seed_did seed) message sig (Some pk) = Ok true →
  aqua_seed_did seed = aqua_did_from_pubkey pk.
Proof.
  intros Haq. unfold verify_caip122_with_public_key.
  assert (find_did_method (aqua_seed_did seed) = Some AquaMethod) as ->.
  { etrans; [apply (find_did_method_aqua ("z" +:+ bs58_encode (aqua_multihash
      (mldsa_public (mldsa_new seed)))))|]. by rewrite Haq. }
  cbn [ok_or]. change (dm_verify_with_public_key AquaMethod ?d ?m ?s ?p)
    with (aqua_verify_with_public_key d m s p).
  unfold aqua_verify_with_public_key. cbn [ok_or].
  destruct (aqua_did_binds_pubkey _ pk) as [[]|] eqn:E; [|done..]. intros _.
  by apply aqua_did_binds_spec.
Qed.
Lemma aqua_body did nonce sig pk pk' :
  json_insert "public_key" (JString pk') (json_insert "public_key" (JString pk)
    (session_body did nonce sig)) =
  JObject [("did", JString did); ("nonce", JString nonce); ("public_key", JString pk');
    ("signature", JString (hex_text sig))].
Proof. done. Qed.
(** Whatever is sent in its place, a public key that gets past is one of the
    DID. *)
Lemma wpl_other_key did nonce sig pk Q l w : pt_ok w →
  (∀ w' resp l', pt_ok w' → (accepted resp = true → ∃ message,
    verify_caip122_with_public_key did message sig (Some pk) = Ok true) → Q (Ok resp) l' w') →
  wpl (post_session pt_target (JObject [("did", JString did); ("nonce", JString nonce);
    ("public_key", JString (hex_text pk)); ("signature", JString (hex_text sig))])) Q l w.
Proof.
  intros Hok HQ.
  eapply (wpl_wp _ (λ r w', ∀ l', Q r l' w')).
  - eapply (wp_tried _ {| wr_did := did; wr_nonce := nonce; wr_signature := hex_text sig;
      wr_public_key := Some (hex_text pk) |});
      [done|repeat constructor; by eexists|names_distinct|done|].
    intros w' resp Hok' _ Ha l'. apply HQ; [done|]. intros Hacc.
    destruct (Ha Hacc) as (c & sig' & pk' & _ & Hs & Hp & Hv). cbn [wr_signature wr_public_key] in *.
    rewrite hex_member_text in Hs, Hp. injection Hs as <-. injection Hp as <-. by eexists.
  - intros r w' _ Hl. apply Hl.
Qed.
Lemma public_key_bound :
  gives_or_forged (if did_aqua then Pass else Skip) (spec_6_3_public_key_binding pt_target).
Proof.
  intros l w Hok. apply wpl_bind, wpl_aqua_draw; [done|]. intros w1 seed Hok1 _ s _.
  apply wpl_bind, wpl_aqua_draw; [done|]. intros w2 seed' Hok2 _ s' _.
  set (l2 := (l ++ [Drew s]) ++ [Drew s']).
  assert (sublist [Drew s; Drew s'] l2) as Hboth.
  { unfold l2. rewrite <- app_assoc. by apply sublist_inserts_l. }
  destruct did_aqua eqn:Haq.
  - apply wpl_bind, wpl_handed; [done|by apply spelled_challengeable|].
    intros w3 resp env c l3 Hok3 Hs Hsh Hh _ _ _ Hl3. rewrite (ok_is_success _ Hs). cbn [negb].
    apply wpl_bind. unfold sign_challenge at 1. rewrite (signable_handed _ _ Hs Hsh).
    apply wpl_bind. unfold wpl at 1, hio_do. intros _. apply wpl_ret.
    cbn [spelled_signer mldsa_local_signer sg_sign sg_public_key fst snd map_err ml_public_key
      mldsa_of s s'].
    rewrite aqua_body, app_nil_r. intros _.
    eapply wpl_bind, wpl_other_key; [done|].
    intros w4 resp4 l4 Hok4 Hacc Hl4. apply wpl_ret. split; [done|].
    destruct (accepted resp4); [right|by left].
    destruct (Hacc eq_refl) as [message Hv].
    apply (aqua_verified_binds _ _ _ _ Haq) in Hv. right. exists s, s'.
    split; [by do 2 (etrans; [|eassumption])|exact Hv].
  - apply wpl_bind. eapply (wpl_wp _ (λ r w', ∃ resp, r = Ok resp ∧ is_success resp = false ∧ pt_ok w')).
    + apply wp_fetch; [done|]. intros w3 r Hok3.
      destruct (aqua_unsupported seed Haq) as [e He]. rewrite (peer_refuses w2 _ e He).
      intros _ (resp & -> & Hst). exists resp. unfold is_success. by rewrite Hst.
    + intros r w3 _ (resp & -> & Hst & Hok3) _. rewrite Hst. apply wpl_ret. split; [done|by left].
Qed.

Definition signature_outcomes : list Outcome :=
  [Pass; Pass; Pass; Skip; Pass; if did_aqua then Pass else Skip].
Lemma in_order_or_forged os ms l w : Forall2 gives_or_forged os ms → pt_ok w →
  wpl (in_order ms) (λ rs l' w', pt_ok w' ∧ (map cr_outcome rs = os ∨ broken l')) l w.
Proof.
  intros Hms. revert l w. induction Hms as [|o m os ms Hm _ IH]; intros l w Hok;
    [apply wpl_ret; by auto|].
  apply wpl_bind. eapply wpl_mono; [by apply Hm|]. intros r l1 w' [Hok' Hr] _.
  apply wpl_bind. eapply wpl_mono; [by apply IH|]. intros rs l2 w2 [Hok2 Hrs] Hl.
  apply wpl_ret. split; [done|]. destruct Hr as [Hr|?]; [|right; by eapply broken_mono].
  destruct Hrs as [Hrs|?]; [left|by right]. cbn [map]. by rewrite Hr, Hrs.
Qed.
Lemma signature_cases_pass l w : pt_ok w →
  wpl (signature_cases pt_target) (λ rs l' w', pt_ok w' ∧
    (map cr_outcome rs = signature_outcomes ∨ broken l')) l w.
Proof.
  apply in_order_or_forged. repeat apply List.Forall2_cons; [apply signature_invalid_refused|
    apply wrong_key_refused|apply message_binding_refused|apply gives_anyway, expiry_skipped|
    apply gives_anyway, origin_matches|apply public_key_bound|done].
Qed.
End forgery.
