(* ===== verification/ConformanceReference.v ===== *)
(** * The conformance suite against the reference service

    The eighteen cases of aqua-auth-testkit/src/conformance in one run against
    the peer of aqua-auth-testkit/src/lib.rs, and a target that implements the
    interface of [ConformanceLogic]. *)

From S2P Require Import Prelude Crates Fixtures Errors Keys Did Suites Aqua Methods DidFormat Principal Message Types Challenge ChallengeCalls SessionBackend Session Wire Signer HttpSigBase HttpSigReplay HttpSig Directory LocalKey TestSigners Peer PeerLogin Conformance ConformanceNonce ConformanceSignature ConformanceWire ConformanceLogic ConformancePeer ConformanceForgery.

#[local] Existing Instance InMemoryBackend.

Section suite.
Context `{Ed25519, P256, K256, MlDsa, Base58, Base64, Hex, Hashes, Features, Chrono, Profile}.
Context `{Sfv, HarnessHost, Urls, Json, JsonWrite, !SigningKeys, !KeyGeneration}.
Context `{!JsonTextLaws, !PeerTarget, !PeerTargetLaws}.
Context `{!Base58Laws, !HexLaws, !P256Laws, !HashesLaws, !Base64Laws, !ChronoLaws,
  !SigningKeysLaws, !KeyGenerationLaws}.

(** C38: the reference service passes. Whatever target behaves like the peer of
    aqua-auth-testkit, a run of the conformance suite against it passes every
    wire case and every nonce and DID case, except that it skips the one about
    the contested [did] member, which that peer does not send. And it passes the
    signature cases, without waiting for a challenge to expire and with the
    [did:aqua] one skipped where that method is not compiled in, unless the log
    of this very run shows one of two things. Either a [forgery]: the service
    accepted a login as the DID of a key the run drew, on a challenge it had
    handed out, whose signature verifies although it is a corruption of the
    key's own, or is the signature of a key of another DID, or is over the
    message of another challenge. Or a [shared_did]: two of the signers the run
    drew have one DID. *)
Theorem reference_service_passes w : pt_ok w →
  let log := (run_all pt_target w).1.1 in
  let outcomes := map cr_outcome (rt_cases (run_all pt_target w).2) in
  take 12 outcomes
    = [Pass; Skip; Pass; Pass; Pass; Pass; Pass; Pass; Pass; Pass; Pass; Pass] ∧
  (drop 12 outcomes = signature_outcomes ∨ forgery log ∨ shared_did log).
Proof.
  intros Hok.
  assert (wpl (run_all pt_target) (λ r l _, take 12 (map cr_outcome (rt_cases r))
    = [Pass; Skip; Pass; Pass; Pass; Pass; Pass; Pass; Pass; Pass; Pass; Pass] ∧
    (drop 12 (map cr_outcome (rt_cases r)) = signature_outcomes ∨ broken l)) [] w) as Hrun.
  { apply wpl_bind. eapply wpl_wp; [by apply wire_pass|]. intros wire w1 _ [Hok1 Hw] _.
    apply wpl_bind. eapply wpl_wp; [by apply nonce_and_did_pass|]. intros nonce w2 _ [Hok2 Hn] _.
    apply wpl_bind. eapply wpl_mono; [by apply signature_cases_pass|]. intros sig l w3 [_ Hs] _.
    apply wpl_ret. cbn [rt_cases]. by rewrite !map_app, Hw, Hn. }
  exact Hrun.
Qed.
End suite.

(** ** A target that is the peer *)

(** The sockets left out: a request goes to the handler of its path, which
    reads one clock and two sources of entropy: of the nonces, of the tokens. *)
Section host.
Context `{Ed25519, P256, K256, MlDsa, Base58, Base64, Hex, Hashes, Features, Chrono, Profile}.
Context `{Sfv, Json, JsonWrite}.
Context (base : string) (moment : PeerState → Moment) (token : bytes).

Definition reply {A} (enc : A → json) (x : run (result A StatusCode)) : result (Z * string) string :=
  match x with
  | Panicked => Err "connection closed"
  | Returned (Err code) => Ok (code, EmptyString)
  | Returned (Ok a) =>
      match json_to_string (enc a) with Ok t => Ok (200%Z, t) | Err e => Err e end
  end.
Definition read_body (body : json) : option WireSessionRequest :=
  match json_to_string body with
  | Ok t => match json_document (as_bytes t) with Ok v => session_request_of_json v | Err _ => None end
  | Err _ => None
  end.
Definition service_send (st : PeerState) (c : HttpCall) : PeerState * result (Z * string) string :=
  let m := moment st in
  match c with
  | CallGet url query =>
      if String.eqb url (base +:+ "/auth/challenge") then
        let did := snd <$> List.find (λ kv, String.eqb kv.1 "did") query in
        let '(st, x) := challenge_handler st did (mo_clean m) (mo_bytes m) (mo_now m) in
        (st, reply envelope_to_json x)
      else (st, Ok (404%Z, EmptyString))
  | CallPost url body =>
      if String.eqb url (base +:+ "/auth/session") then
        match read_body body with
        | Some req =>
            let '(st, x) := session_handler st req (mo_challenge_now m) (mo_clean m) token
              (mo_now m) in
            (st, reply session_response_to_json x)
        | None => (st, Ok (422%Z, EmptyString))
        end
      else (st, Ok (404%Z, EmptyString))
  end.
Lemma service_send_get st did :
  service_send st (CallGet (base +:+ "/auth/challenge") [("did", did)]) =
    let '(st, x) := challenge_handler st (Some did) (mo_clean (moment st)) (mo_bytes (moment st))
      (mo_now (moment st)) in
    (st, reply envelope_to_json x).
Proof. unfold service_send. by rewrite String.eqb_refl. Qed.
Lemma service_send_post st body req : read_body body = Some req →
  service_send st (CallPost (base +:+ "/auth/session") body) =
    let '(st, x) := session_handler st req (mo_challenge_now (moment st)) (mo_clean (moment st)) token
      (mo_now (moment st)) in
    (st, reply session_response_to_json x).
Proof. intros Hr. unfold service_send. by rewrite String.eqb_refl, Hr. Qed.

(** What the requests keep: the configuration and the capacity of the
    challenges, the sessions well-formed and all under one token. *)
Definition kept (st0 st : PeerState) : Prop :=
  let cs := ps_challenges st in let ss := ps_sessions st in
  cs = set_challenges (ps_challenges st0) (cst_challenges cs) ∧ within_capacity cs ∧
  Session.ok ss ∧ same_limits (ps_sessions st0) ss ∧
  (∀ t, is_Some (Session.view ss !! t) → t = hex_encode token).
Lemma ch_step_kept st0 cs op : cs = set_challenges st0 (cst_challenges cs) →
  within_capacity cs →
  (ch_step cs op).1 = set_challenges st0 (cst_challenges (ch_step cs op).1) ∧
  within_capacity (ch_step cs op).1.
Proof.
  intros Hf Hc. split; [|by apply ch_step_capacity]. rewrite ch_step_fields at 1.
  by rewrite Hf at 1.
Qed.
Lemma challenge_kept st0 st did clean nb now :
  kept st0 st → kept st0 (challenge_handler st did clean nb now).1.
Proof.
  intros Hk. pose proof Hk as (Hf & Hc & Hrest). unfold challenge_handler.
  destruct did as [did|]; [|done]. destruct (find_did_method did); [|done].
  pose proof (ch_step_kept (ps_challenges st0) _ (OpCreate did clean nb now) Hf Hc) as Hs.
  cbn [ch_step] in Hs. destruct (Challenge.create _ _ _ _ _) as [cs r].
  destruct Hs as [Hf' Hc']. split; [exact Hf'|]. by split.
Qed.
Lemma session_kept st0 st req cnow clean now : kept st0 st →
  kept st0 (session_handler st req cnow clean token now).1.
Proof.
  intros (Hf & Hc & Hok & Hlim & Hs). unfold session_handler.
  pose proof (ch_step_kept (ps_challenges st0) _ (OpValidate (wr_nonce req) cnow) Hf Hc) as Hst.
  cbn [ch_step] in Hst. destruct (Challenge.validate _ _ _) as [cs r]. cbn [fst] in Hst.
  destruct Hst as [Hf' Hc'].
  assert (kept st0 (put_challenges st cs)) as Hput
    by (split; [exact Hf'|]; by split).
  destruct r as [c|[]]; try done. destruct (authenticate_request c req) as [p|]; [|done].
  pose proof (create_refines_spec (ps_sessions st) (principal_did p) clean token now Hok) as Href.
  cbn [ps_sessions put_challenges].
  destruct (Session.create _ _ _ _ _) as [ss r]. destruct Href as (Hok' & Hlim' & v & Hv).
  cbn [fst]. unfold kept. cbn [ps_sessions ps_challenges put_sessions put_challenges] in *.
  assert (same_limits (ps_sessions st0) ss) as Hl0.
  { destruct Hlim as (? & ? & ?), Hlim' as (? & ? & ?). repeat split; congruence. }
  split_and!; try done. symmetry in Hv.
  apply spec_create_cases in Hv as [(s & -> & _ & Htok & _ & _ & _ & Hm)|(_ & Hsub & _)].
  - intros t. rewrite Hm, Htok. intros [->|[_ [x Hl]]]%lookup_insert_is_Some; [done|]. apply Hs. exists x.
    eapply lookup_weaken; [exact Hl|]. unfold before_insert.
    etrans; [apply evict_for_subseteq|apply purge_subseteq].
  - intros t [x Hl]. apply Hs. exists x. by eapply lookup_weaken.
Qed.
End host.

(** A source of entropy that looks where a nonce is free. *)
Section entropy.
Context `{Hex, !HexLaws}.

Definition numbered (j k : nat) : bytes :=
  byte_of (N.of_nat k mod 256) :: byte_of (N.of_nat k / 256) :: byte_of (N.of_nat j mod 256)
  :: replicate 29 Byte.x22.
Fixpoint first_free {V} (m : gmap string V) (b : nat → bytes) (fuel k : nat) : bytes :=
  match fuel with
  | O => b k
  | S fuel =>
      match m !! nonce_text (b k) with Some _ => first_free m b fuel (S k) | None => b k end
  end.

Lemma numbered_inj j i k : (N.of_nat i < 65536)%N → (N.of_nat k < 65536)%N → numbered j i = numbered j k → i = k.
Proof.
  intros Hi Hk [= H1 H2]. apply (f_equal byte_N) in H1, H2.
  rewrite !byte_N_of in H1, H2 by (by apply N.mod_lt || (apply N.Div0.div_lt_upper_bound; lia)).
  pose proof (N.div_mod (N.of_nat i) 256). pose proof (N.div_mod (N.of_nat k) 256). lia.
Qed.
Lemma nonce_text_inj b b' : nonce_text b = nonce_text b' → b = b'.
Proof.
  intros Heq%str_app_inj_l. apply (f_equal hex_decode) in Heq.
  rewrite !hex_decode_encode in Heq. by injection Heq.
Qed.
Lemma first_free_stored {V} (m : gmap string V) b fuel k :
  is_Some (m !! nonce_text (first_free m b fuel k)) →
  ∀ i, k ≤ i ≤ k + fuel → is_Some (m !! nonce_text (b i)).
Proof.
  revert k. induction fuel as [|fuel IH]; intros k Hs i Hi.
  - by replace i with k by lia.
  - cbn in Hs. destruct (m !! nonce_text (b k)) eqn:E; [|by rewrite E in Hs; destruct Hs].
    destruct (decide (i = k)) as [->|]; [by eexists|]. apply (IH (S k)); [done|lia].
Qed.
Lemma first_free_fresh {V} (m : gmap string V) j fuel : size m ≤ fuel → (N.of_nat fuel < 65536)%N →
  m !! nonce_text (first_free m (numbered j) fuel 0) = None.
Proof.
  intros Hm Hf. destruct (m !! _) as [v|] eqn:E; [exfalso|done].
  assert (∀ i, 0 ≤ i ≤ 0 + fuel → is_Some (m !! nonce_text (numbered j i))) as Hall
    by (apply first_free_stored; by rewrite E).
  set (l := (λ i, nonce_text (numbered j i)) <$> seq 0 (S fuel)).
  assert (NoDup l) as Hnd.
  { apply NoDup_fmap_2_strong; [|apply NoDup_seq]. intros i k Hi Hk Heq%nonce_text_inj.
    apply elem_of_seq in Hi, Hk. apply (numbered_inj j); [lia..|done]. }
  assert (S fuel ≤ size m); [|lia].
  rewrite <- (size_dom (D := gset string)).
  replace (S fuel) with (size (list_to_set l : gset string))
    by (rewrite size_list_to_set by done; unfold l; by rewrite length_fmap, length_seq).
  apply subseteq_size. intros n (i & -> & Hi)%elem_of_list_to_set%list_elem_of_fmap.
  apply elem_of_dom, Hall. apply elem_of_seq in Hi. lia.
Qed.
Lemma first_free_length {V} (m : gmap string V) j fuel k :
  length (first_free m (numbered j) fuel k) = 32.
Proof. revert k. induction fuel as [|fuel IH]; intros k; [done|]. cbn. by destruct (m !! _). Qed.
End entropy.

Section witnesses.
Import Fixtures.Instances.

(** The peer of aqua-auth-testkit on loopback, at one moment, and how many keys
    were drawn. *)
Definition service_world : World := {| world := PeerState * nat |}.
#[local] Existing Instance service_world.
Definition service_keys : @SigningKeys _ _ service_world := fx_signing_keys.
Definition service_keys_laws : @SigningKeysLaws _ _ service_world service_keys := fx_signing_laws.
#[local] Existing Instances service_keys service_keys_laws.
Definition free_nonce (st : PeerState) (j : nat) : bytes :=
  first_free (cst_challenges (ps_challenges st)) (numbered j) MAX_CHALLENGES 0.
Definition service_fill (w : @world service_world) (n : nat) : @world service_world * bytes :=
  ((w.1, S w.2), if n =? 32 then free_nonce w.1 w.2 else replicate n Byte.x11).
Lemma service_fill_length w n : length (service_fill w n).2 = n.
Proof.
  cbn. destruct (Nat.eqb_spec n 32) as [->|]; [apply first_free_length|apply length_replicate].
Qed.
Definition service_generation : @KeyGeneration _ _ service_world service_keys fx_k256 fx_mldsa :=
  fx_key_generation service_fill.
Definition service_generation_laws :
  @KeyGenerationLaws _ _ service_world service_keys fx_k256 fx_mldsa service_generation :=
  fx_key_generation_laws service_fill service_fill_length.
#[local] Existing Instances service_generation service_generation_laws.
Definition service_url : string := "http://127.0.0.1:4000".
Definition service_origin : url := {| tu_scheme := SHttp; tu_user := ""; tu_password := None;
  tu_host := Some "127.0.0.1"; tu_port := Some 4000%Z; tu_path := "/"; tu_query := None;
  tu_fragment := None |}.
Definition service_peer : PeerState := router (in_memory "aqua-node" service_url 300
  (FnSigner sample_key_did (λ m, Ok (sample_sign m)))).
Definition service_moment (st : PeerState) : Moment := moment 0 (free_nonce st 0).
Definition service_hears (w : @world service_world) (c : HttpCall)
  : @world service_world * result (Z * string) string :=
  let '(st, r) := service_send service_url service_moment node_token w.1 c in ((st, w.2), r).
Definition service_host : @HarnessHost service_world := {|
  hc_response := Z * string;
  hc_send := service_hears; hc_redirect := λ _ _, None; hc_too_many_redirects := "too many redirects";
  hc_status := fst; hc_text := λ w r, (w, Ok r.2);
  status_display := show_Z; env_var := λ _ _, None; system_secs := λ _, 1773748800%Z;
  sleep_secs := λ w _, w;
|}.
#[local] Existing Instance service_host.
Definition service_target : PeerTarget := {|
  pt_target := {| tg_base_url := service_url; tg_challenge_path := DEFAULT_CHALLENGE_PATH;
                  tg_session_path := DEFAULT_SESSION_PATH |};
  pt_peer := λ w : @world service_world, w.1;
  pt_moment := λ w : @world service_world, service_moment w.1;
  pt_token := λ _, node_token;
  pt_ok := λ w : @world service_world, kept node_token service_peer w.1;
|}.
#[local] Existing Instance service_target.

Lemma reply_answered {A} (enc : A → json) x w :
  ∀ c, answered enc x w c (reply enc x : result (@hc_response _ service_host) string).
Proof. intros c. destruct x as [[a|code]|]; cbn; eauto 10. Qed.
Lemma one_session (k : string) (ss : gmap string Session) :
  (∀ t, is_Some (ss !! t) → t = k) → size ss ≤ 1.
Proof.
  intros Hk. rewrite <- size_dom, <- (size_singleton (C := gset string) k).
  apply subseteq_size. intros t [s Hs]%elem_of_dom. apply elem_of_singleton, Hk. by exists s.
Qed.
Lemma service_room st : kept node_token service_peer st →
  ∀ j, cst_challenges (ps_challenges st) !! nonce_text (free_nonce st j) = None.
Proof.
  intros (Hf & Hc & _) j. apply first_free_fresh.
  - unfold within_capacity, cst_len in Hc. rewrite Hf in Hc at 2.
    cbn [set_challenges cst_max_challenges] in Hc. etrans; [exact Hc|]. apply Nat.leb_le. vm_refl.
  - apply N.ltb_lt. vm_refl.
Qed.
Lemma service_laws : PeerTargetLaws.
Proof.
  split.
  - intros w did w' r Hok c Hs.
    pose proof (service_send_get service_url service_moment node_token w.1 did) as Hg.
    unfold peer_get. cbn [pt_moment pt_peer service_target].
    pose proof (challenge_kept node_token service_peer w.1 (Some did)
      (mo_clean (service_moment w.1)) (mo_bytes (service_moment w.1)) (mo_now (service_moment w.1)) Hok)
      as Hok'.
    destruct (challenge_handler w.1 (Some did) _ _ _) as [st x].
    assert (service_hears w (CallGet (service_url +:+ "/auth/challenge") [("did", did)])
      = ((st, w.2), reply envelope_to_json x)) as Hh by (unfold service_hears; by rewrite Hg).
    pose proof (eq_trans (eq_sym Hh) Hs) as Hp. injection Hp as <- <-.
    split; [exact Hok'|]. split; [done|]. apply reply_answered.
  - intros w body t v req w' r Hok Ht Hv Hr c Hs.
    assert (read_body body = Some req) as Hb by (unfold read_body; by rewrite Ht, Hv).
    pose proof (service_send_post service_url service_moment node_token w.1 body req Hb) as Hg.
    unfold peer_post. cbn [pt_moment pt_peer pt_token service_target].
    pose proof (session_kept node_token service_peer w.1 req
      (mo_challenge_now (service_moment w.1)) (mo_clean (service_moment w.1))
      (mo_now (service_moment w.1)) Hok) as Hok'.
    destruct (session_handler w.1 req _ _ _ _) as [st x].
    assert (service_hears w (CallPost (service_url +:+ "/auth/session") body)
      = ((st, w.2), reply session_response_to_json x)) as Hh by (unfold service_hears; by rewrite Hg).
    pose proof (eq_trans (eq_sym Hh) Hs) as Hp. injection Hp as <- <-.
    split; [exact Hok'|]. split; [done|]. apply reply_answered.
  - done.
  - done.
  - done.
  - done.
  - intros w Hok. split; by apply service_room.
  - intros w _. split; [apply first_free_length|done].
  - done.
  - intros w (Hf & _). cbn [pt_peer service_target]. rewrite Hf. cbn [set_challenges cst_domain cst_uri].
    split; [vm_refl|]. exists service_origin, service_origin. split_and!; vm_refl.
  - intros w (Hf & _). exists (sample_time 300). split; [|done].
    cbn [pt_peer service_target]. rewrite Hf. vm_refl.
  - intros w (_ & _ & Hok & (Httl & Hmax & _) & Hs). cbn [pt_peer service_target].
    split; [exact Hok|]. rewrite Httl, Hmax. split; [|done].
    apply Nat.le_lt_trans with 1; [|apply Nat.ltb_lt; vm_refl].
    etrans; [apply map_subseteq_size, live_at_subseteq|]. by eapply one_session.
  - intros w (Hf & _). cbn [pt_peer service_target]. rewrite Hf. split_and!; vm_refl.
Qed.
Lemma service_ok : pt_ok (service_peer, 0 : nat).
Proof.
  assert (Session.ok (ps_sessions service_peer)) by exact keyed_empty.
  split_and!; try done.
  - unfold within_capacity. apply Nat.leb_le. vm_refl.
  - intros n [x Hx]; by destruct (lookup_empty_Some (M := gmap string) n x Hx).
Qed.
#[local] Existing Instance service_laws.
Definition service_started : @world service_world := (service_peer, 0).
Definition service_outcomes : list Outcome :=
  map cr_outcome (rt_cases (run_all pt_target service_started).2).
(** A run in which nothing is forged. *)
Lemma reference_service_passes_witness :
  drop 12 service_outcomes = [Pass; Pass; Pass; Skip; Pass; Pass] ∧
  take 12 service_outcomes
    = [Pass; Skip; Pass; Pass; Pass; Pass; Pass; Pass; Pass; Pass; Pass; Pass] ∧
  (drop 12 service_outcomes = signature_outcomes ∨
   forgery (run_all pt_target service_started).1.1 ∨
   shared_did (run_all pt_target service_started).1.1).
Proof. split; [vm_refl|]. exact (reference_service_passes service_started service_ok). Defined.
End witnesses.
