(* ===== verification/Digests.v ===== *)
(** * The two hash functions themselves

    SHA-256 (FIPS 180-4) and Keccak-256 as Ethereum uses it, executable, so
    that the test vectors of the repository can be run through the definitions.
    The theorems hold for any hash; only the files Test*.v use this one. *)

From S2P Require Import Prelude Crates Fixtures.

Definition word32 : N := 2 ^ 32 - 1.
Definition word64 : N := 2 ^ 64 - 1.
Definition rotr32 (x n : N) : N :=
  N.lor (N.shiftr x n) (N.land (N.shiftl x (32 - n)) word32).
Definition rotl64 (x n : N) : N :=
  N.lor (N.land (N.shiftl x n) word64) (N.shiftr x (64 - n)).
(** Cut into pieces of [n]. *)
Fixpoint pieces {A} (fuel n : nat) (l : list A) : list (list A) :=
  match fuel, l with
  | S f, _ :: _ => take n l :: pieces f n (drop n l)
  | _, _ => []
  end.
Definition big_endian (l : list N) : N := foldl (λ acc d, acc * 256 + d)%N 0%N l.
Definition little_endian (l : list N) : N := big_endian (reverse l).
(** The last [n] bytes of [x], most significant first. *)
Fixpoint be_bytes (n : nat) (x : N) : list N :=
  match n with O => [] | S m => be_bytes m (N.shiftr x 8) ++ [N.land x 255] end.

(** ** SHA-256 *)

(** The constants are the first 32 bits of the fractional parts of roots of the
    first primes: of the cube roots of 64 of them, and of the square roots of 8. *)
Definition primes (n : nat) : list N :=
  let prime p := forallb (λ d, negb (p mod N.of_nat d =? 0)%N) (seq 2 (N.to_nat p - 2)) in
  take n (List.filter prime (N.of_nat <$> seq 2 310)).
Definition cube_root (x : N) : N :=
  foldl (λ r b, let r' := (r + 2 ^ N.of_nat b)%N in if (r' * r' * r' <=? x)%N then r' else r)
    0%N (rev (seq 0 36)).
Definition sha_k : list N := Eval vm_compute in
  (λ p, N.land (cube_root (p * 2 ^ 96)) word32) <$> primes 64.
Definition sha_start : list N := Eval vm_compute in
  (λ p, N.land (N.sqrt (p * 2 ^ 64)) word32) <$> primes 8.
Definition add32 (x y : N) : N := N.land (x + y) word32.
(** The schedule as a window: the next sixteen words, the current one first. *)
Definition sha_next (w : list N) : list N :=
  match w with
  | w0 :: w1 :: _ =>
      let w9 := nth 9 w 0%N in
      let w14 := nth 14 w 0%N in
      let s0 := N.lxor (N.lxor (rotr32 w1 7) (rotr32 w1 18)) (N.shiftr w1 3) in
      let s1 := N.lxor (N.lxor (rotr32 w14 17) (rotr32 w14 19)) (N.shiftr w14 10) in
      drop 1 w ++ [add32 (add32 w0 s0) (add32 w9 s1)]
  | _ => w
  end.
Definition sha_round (st : list N) (w k : N) : list N :=
  match st with
  | [a; b; c; d; e; f; g; h] =>
      let s1 := N.lxor (N.lxor (rotr32 e 6) (rotr32 e 11)) (rotr32 e 25) in
      let ch := N.lxor (N.land e f) (N.land (N.lxor e word32) g) in
      let t1 := add32 (add32 h s1) (add32 ch (add32 k w)) in
      let s0 := N.lxor (N.lxor (rotr32 a 2) (rotr32 a 13)) (rotr32 a 22) in
      let maj := N.lxor (N.lxor (N.land a b) (N.land a c)) (N.land b c) in
      [add32 t1 (add32 s0 maj); a; b; c; add32 d t1; e; f; g]
  | _ => st
  end.
Fixpoint sha_rounds (ks : list N) (w st : list N) : list N :=
  match ks with
  | [] => st
  | k :: ks' => sha_rounds ks' (sha_next w) (sha_round st (nth 0 w 0%N) k)
  end.
Definition sha_block (st : list N) (block : list N) : list N :=
  zip_with add32 st (sha_rounds sha_k (big_endian <$> pieces 16 4 block) st).
Definition sha_padded (l : list N) : list N :=
  let n := length l in
  l ++ [128%N] ++ replicate ((119 - n mod 64) mod 64) 0%N ++ be_bytes 8 (8 * N.of_nat n).
Definition sha256_digest (b : bytes) : bytes :=
  let padded := sha_padded (byte_N <$> b) in
  byte_of <$> (foldl sha_block sha_start (pieces (length padded) 64 padded) ≫= be_bytes 4).

(** ** Keccak-256: rate 136, the original padding *)

Definition keccak_rc : list N := [
  0x0000000000000001; 0x0000000000008082; 0x800000000000808a; 0x8000000080008000;
  0x000000000000808b; 0x0000000080000001; 0x8000000080008081; 0x8000000000008009;
  0x000000000000008a; 0x0000000000000088; 0x0000000080008009; 0x000000008000000a;
  0x000000008000808b; 0x800000000000008b; 0x8000000000008089; 0x8000000000008003;
  0x8000000000008002; 0x8000000000000080; 0x000000000000800a; 0x800000008000000a;
  0x8000000080008081; 0x8000000000008080; 0x0000000080000001; 0x8000000080008008]%N.
(** Rotations of lane [x + 5 y]. *)
Definition keccak_rot : list N := [
  0; 1; 62; 28; 27; 36; 44; 6; 55; 20; 3; 10; 43; 25; 39; 41; 45; 15; 21; 8; 18; 2; 61; 56; 14]%N.
Definition lane (st : list N) (i : nat) : N := nth i st 0%N.
Definition keccak_round (st : list N) (rc : N) : list N :=
  let column x := foldl N.lxor 0%N (map (λ y, lane st (x + 5 * y)) (seq 0 5)) in
  let cs := map column (seq 0 5) in
  let ds := map (λ x, N.lxor (lane cs ((x + 4) mod 5)) (rotl64 (lane cs ((x + 1) mod 5)) 1)) (seq 0 5) in
  let turned := map (λ i, rotl64 (N.lxor (lane st i) (lane ds (i mod 5))) (lane keccak_rot i)) (seq 0 25) in
  (* Lane [(x, y)] goes to [(y, 2 x + 3 y)]: [(x, y)] comes from [(x + 3 y, x)]. *)
  let moved := map (λ i, lane turned ((i mod 5 + 3 * (i / 5)) mod 5 + 5 * (i mod 5))) (seq 0 25) in
  let mixed := map (λ i, let x := i mod 5 in let r := 5 * (i / 5) in
    N.lxor (lane moved i)
      (N.land (N.lxor (lane moved ((x + 1) mod 5 + r)) word64) (lane moved ((x + 2) mod 5 + r))))
    (seq 0 25) in
  match mixed with l :: ls => N.lxor l rc :: ls | [] => [] end.
Definition keccak_absorb (st block : list N) : list N :=
  let lanes := little_endian <$> pieces 17 8 block in
  foldl keccak_round (zip_with N.lxor st (lanes ++ replicate 8 0%N)) keccak_rc.
Definition keccak_padded (l : list N) : list N :=
  let q := 136 - length l mod 136 in
  l ++ (if q =? 1 then [129%N] else 1%N :: replicate (q - 2) 0%N ++ [128%N]).
Definition keccak256_digest (b : bytes) : bytes :=
  let padded := keccak_padded (byte_N <$> b) in
  let st := foldl keccak_absorb (replicate 25 0%N) (pieces (length padded) 136 padded) in
  byte_of <$> (take 4 st ≫= λ x, reverse (be_bytes 8 x)).

Definition real_hashes : Hashes :=
  {| sha256 := sha256_digest; keccak256 := keccak256_digest; sha3_256 := toy_hash 3 |}.

(** The digests of the empty string. *)
Example sha256_empty : real_hex_encode (sha256_digest []) =
  "e3b0c44298fc1c149afbf4c8996fb92427ae41e4649b934ca495991b7852b855".
Proof. vm_refl. Qed.
Example keccak256_empty : real_hex_encode (keccak256_digest []) =
  "c5d2460186f7233c927e7db2dcc703c0e500b653ca82273b7bfad8045d85a470".
Proof. vm_refl. Qed.
