(* ===== verification/StructuredFields.v ===== *)
(** * RFC 8941 dictionaries and lists, as text

    A reader and a writer of structured fields, executable, for the tests that
    work on whole header values. Decimals, tokens and booleans are read but not
    told apart: no header of the profile has one. The theorems hold for any
    [Sfv] that keeps its laws; only the files Test*.v use this one. *)

From S2P Require Import Prelude Crates Fixtures.

(** ** Base64 with padding *)

Definition std_alphabet : string :=
  "ABCDEFGHIJKLMNOPQRSTUVWXYZabcdefghijklmnopqrstuvwxyz0123456789+/".
Definition b64_padding (n : nat) : string :=
  match n mod 3 with 1 => "==" | 2 => "=" | _ => "" end.
Definition std_encode (b : bytes) : string :=
  letters std_alphabet (b64_digits (byte_N <$> b)) +:+ b64_padding (length b).
Definition std_decode (s : string) : option bytes :=
  option_map (map byte_of) (unletters std_alphabet (trim_end_matches "=" s) ≫= b64_bytes).

(** ** Writing *)

Fixpoint sf_escape (s : string) : string :=
  match s with
  | EmptyString => EmptyString
  | String c s' =>
      if Ascii.eqb c "034" || Ascii.eqb c "092" then String "092" (String c (sf_escape s'))
      else String c (sf_escape s')
  end.
Definition write_bare (b : bare_item) : string :=
  match b with
  | SfInteger z => show_Z z
  | SfString s => quoted (sf_escape s)
  | SfBytes bs => ":" +:+ std_encode bs +:+ ":"
  | SfOther s => s
  end.
Definition write_param (p : string * bare_item) : string :=
  ";" +:+ p.1 +:+ match p.2 with SfOther "?1" => "" | b => "=" +:+ write_bare b end.
Definition write_params (ps : sf_params) : string := String.concat "" (map write_param ps).
Definition write_item (i : sf_item) : string :=
  write_bare (item_bare i) +:+ write_params (item_params i).
Definition write_entry (e : list_entry) : string :=
  match e with
  | EntryItem i => write_item i
  | EntryInnerList items ps =>
      "(" +:+ String.concat " " (map write_item items) +:+ ")" +:+ write_params ps
  end.
Definition write_member (m : string * list_entry) : string := m.1 +:+ "=" +:+ write_entry m.2.

(** ** Reading *)

Definition key_char (c : ascii) : bool :=
  is_lower c || is_digit c || existsb (Ascii.eqb c) ["_"; "-"; "."; "*"]%char.
Definition read_key (s : string) : option (string * string) :=
  match s with
  | String c _ => if is_lower c || Ascii.eqb c "*" then Some (span key_char s) else None
  | EmptyString => None
  end.
Fixpoint read_quoted (s : string) : option (string * string) :=
  match s with
  | EmptyString => None
  | String c r =>
      if Ascii.eqb c "034" then Some (EmptyString, r)
      else if Ascii.eqb c "092" then
        match r with
        | String d r' =>
            if Ascii.eqb d "034" || Ascii.eqb d "092" then
              '(t, u) ← read_quoted r'; Some (String d t, u)
            else None
        | EmptyString => None
        end
      else if in_range 32 126 c then '(t, u) ← read_quoted r; Some (String c t, u)
      else None
  end.
Definition read_number (s : string) : option (bare_item * string) :=
  let '(sign, s) := match strip_prefix "-" s with Some s' => ((-1)%Z, s') | None => (1%Z, s) end in
  let '(ds, r) := span is_digit s in
  if (String.length ds =? 0) || (15 <? String.length ds) then None
  else z ← digits_value 0 ds;
    match strip_prefix "." r with
    | None => Some (SfInteger (sign * z), r)
    | Some r => let '(fs, r) := span is_digit r in
        if String.length fs =? 0 then None else Some (SfOther (show_Z (sign * z) +:+ "." +:+ fs), r)
    end.
Definition token_char (c : ascii) : bool :=
  is_alnum c || existsb (Ascii.eqb c)
    ["!"; "#"; "$"; "%"; "&"; "'"; "*"; "+"; "-"; "."; "^"; "_"; "`"; "|"; "~"; ":"; "/"]%char.
Definition read_bare (s : string) : option (bare_item * string) :=
  match s with
  | EmptyString => None
  | String c r =>
      if Ascii.eqb c "034" then '(t, u) ← read_quoted r; Some (SfString t, u)
      else if Ascii.eqb c ":" then
        let '(body, u) := span (λ d, negb (Ascii.eqb d ":")) r in
        u ← strip_prefix ":" u;
        b ← std_decode body;
        Some (SfBytes b, u)
      else if Ascii.eqb c "?" then
        match r with
        | String d u => if Ascii.eqb d "0" || Ascii.eqb d "1"
            then Some (SfOther (String c (String d EmptyString)), u) else None
        | EmptyString => None
        end
      else if is_digit c || Ascii.eqb c "-" then read_number s
      else if is_alnum c || Ascii.eqb c "*" then let '(t, u) := span token_char s in Some (SfOther t, u)
      else None
  end.
(** A repeated key keeps its place and takes the later value. *)
Fixpoint upsert {A} (k : string) (a : A) (l : list (string * A)) : list (string * A) :=
  match l with
  | [] => [(k, a)]
  | (k', a') :: l' => if String.eqb k k' then (k, a) :: l' else (k', a') :: upsert k a l'
  end.
Definition skip_sp (s : string) : string := (span (λ c, Ascii.eqb c " ") s).2.
Definition skip_ows (s : string) : string :=
  (span (λ c, Ascii.eqb c " " || Ascii.eqb c "009") s).2.
Fixpoint read_params (fuel : nat) (ps : sf_params) (s : string) : option (sf_params * string) :=
  match fuel with
  | O => None
  | S f =>
      match strip_prefix ";" s with
      | None => Some (ps, s)
      | Some r =>
          '(k, r) ← read_key (skip_sp r);
          match strip_prefix "=" r with
          | Some r => '(b, r) ← read_bare r; read_params f (upsert k b ps) r
          | None => read_params f (upsert k (SfOther "?1") ps) r
          end
      end
  end.
Definition read_item (fuel : nat) (s : string) : option (sf_item * string) :=
  '(b, r) ← read_bare s;
  '(ps, r) ← read_params fuel [] r;
  Some ({| item_bare := b; item_params := ps |}, r).
Fixpoint read_items (fuel : nat) (s : string) : option (list sf_item * string) :=
  match fuel with
  | O => None
  | S f =>
      let s := skip_sp s in
      match strip_prefix ")" s with
      | Some r => Some ([], r)
      | None =>
          '(i, r) ← read_item fuel s;
          if starts_with " " r || starts_with ")" r then
            '(l, r) ← read_items f r; Some (i :: l, r)
          else None
      end
  end.
Definition read_entry (fuel : nat) (s : string) : option (list_entry * string) :=
  match strip_prefix "(" s with
  | Some r =>
      '(items, r) ← read_items fuel r;
      '(ps, r) ← read_params fuel [] r;
      Some (EntryInnerList items ps, r)
  | None => '(i, r) ← read_item fuel s; Some (EntryItem i, r)
  end.
Fixpoint read_members (fuel : nat) (d : sf_dict) (s : string) : option sf_dict :=
  match fuel with
  | O => None
  | S f =>
      '(k, r) ← read_key s;
      '(e, r) ← match strip_prefix "=" r with
                | Some r => read_entry fuel r
                | None => '(ps, r) ← read_params fuel [] r;
                    Some (EntryItem {| item_bare := SfOther "?1"; item_params := ps |}, r)
                end;
      let d := upsert k e d in
      let r := skip_ows r in
      if str_is_empty r then Some d
      else r ← strip_prefix "," r; read_members f d (skip_ows r)
  end.
(** Every step reads a character at least: the length is enough. *)
Definition read_dict (s : string) : option sf_dict :=
  let s := trim_end_matches " " (skip_sp s) in
  if str_is_empty s then Some [] else read_members (S (String.length s)) [] s.

Definition real_sfv : Sfv := {|
  sfv_parse_dict := λ s, ok_or (read_dict s) "not a dictionary";
  sfv_write_list := λ l, match l with [] => None | _ => Some (String.concat ", " (map write_entry l)) end;
  sfv_write_dict := λ d, match d with [] => None | _ => Some (String.concat ", " (map write_member d)) end;
  sfv_key := λ s, match read_key s with Some (_, EmptyString) => Ok s | _ => Err "invalid key" end;
  sfv_string := λ s, if printable s then Ok s else Err "invalid string";
  sfv_integer := λ z, if in_sf_range z then Ok z else Err "out of range";
|}.
