(* ===== verification/JsonText.v ===== *)
(** * JSON as text

    A compact writer and a reader of whole documents, executable, for the tests
    that parse what the code rendered. Escapes are those of one character; a
    number keeps its text. The theorems hold for any [Json] that keeps its
    laws; only the files Test*.v use this one. *)

From S2P Require Import Prelude Crates Fixtures.

(** The characters with an escape of one letter. *)
Definition escapes : list (ascii * ascii) := [
  ("034", "034"); ("092", "092"); ("008", "b"); ("012", "f"); ("010", "n"); ("013", "r");
  ("009", "t")]%char.
Fixpoint json_escape (s : string) : string :=
  match s with
  | EmptyString => EmptyString
  | String c s' =>
      match List.find (λ e, Ascii.eqb e.1 c) escapes with
      | Some (_, l) => String "092" (String l (json_escape s'))
      | None => String c (json_escape s')
      end
  end.
Fixpoint write_json (v : json) : string :=
  match v with
  | JNull => "null"
  | JBool b => if b then "true" else "false"
  | JNumber s => s
  | JString s => quoted (json_escape s)
  | JArray l => "[" +:+ String.concat "," (map write_json l) +:+ "]"
  | JObject ms => "{" +:+ String.concat ","
      (map (λ kv, quoted (json_escape kv.1) +:+ ":" +:+ write_json kv.2) ms) +:+ "}"
  end.

(** The rest of a string after its opening quote. *)
Fixpoint read_string (s : string) : option (string * string) :=
  match s with
  | EmptyString => None
  | String c s' =>
      if Ascii.eqb c "034" then Some (EmptyString, s')
      else if Ascii.eqb c "092" then
        match s' with
        | String l s'' =>
            match List.find (λ e, Ascii.eqb e.2 l) (("/", "/")%char :: escapes) with
            | Some (d, _) => '(r, rest) ← read_string s''; Some (String d r, rest)
            | None => None
            end
        | EmptyString => None
        end
      else '(r, rest) ← read_string s'; Some (String c r, rest)
  end.
Definition skip_space (s : string) : string :=
  (span (λ c, existsb (Ascii.eqb c) [" "; "009"; "010"; "013"]%char) s).2.
Definition number_char (c : ascii) : bool :=
  is_digit c || existsb (Ascii.eqb c) ["-"; "+"; "."; "e"; "E"]%char.
Fixpoint read_json (fuel : nat) (s : string) : option (json * string) :=
  match fuel with
  | O => None
  | S f =>
      let s := skip_space s in
      match s with
      | EmptyString => None
      | String c r =>
          if Ascii.eqb c "034" then '(t, rest) ← read_string r; Some (JString t, rest)
          else if Ascii.eqb c "[" then
            match strip_prefix "]" (skip_space r) with
            | Some rest => Some (JArray [], rest)
            | None => '(l, rest) ← read_elements f r; Some (JArray l, rest)
            end
          else if Ascii.eqb c "{" then
            match strip_prefix "}" (skip_space r) with
            | Some rest => Some (JObject [], rest)
            | None => '(ms, rest) ← read_pairs f r; Some (JObject ms, rest)
            end
          else match strip_prefix "null" s, strip_prefix "true" s, strip_prefix "false" s with
          | Some rest, _, _ => Some (JNull, rest)
          | _, Some rest, _ => Some (JBool true, rest)
          | _, _, Some rest => Some (JBool false, rest)
          | None, None, None =>
              let '(n, rest) := span number_char s in
              if str_is_empty n then None else Some (JNumber n, rest)
          end
      end
  end
with read_elements (fuel : nat) (s : string) : option (list json * string) :=
  match fuel with
  | O => None
  | S f =>
      '(v, r) ← read_json f s;
      let r := skip_space r in
      match strip_prefix "]" r with
      | Some rest => Some ([v], rest)
      | None => r ← strip_prefix "," r; '(l, rest) ← read_elements f r; Some (v :: l, rest)
      end
  end
with read_pairs (fuel : nat) (s : string) : option (list (string * json) * string) :=
  match fuel with
  | O => None
  | S f =>
      r ← strip_prefix quote (skip_space s);
      '(k, r) ← read_string r;
      r ← strip_prefix ":" (skip_space r);
      '(v, r) ← read_json f r;
      let r := skip_space r in
      match strip_prefix "}" r with
      | Some rest => Some ([(k, v)], rest)
      | None => r ← strip_prefix "," r; '(l, rest) ← read_pairs f r; Some ((k, v) :: l, rest)
      end
  end.
(** Every two calls read a character at least: twice the length is enough. *)
Definition parse_json (s : string) : option json :=
  '(v, rest) ← read_json (2 * S (String.length s)) s;
  if str_is_empty (skip_space rest) then Some v else None.

Definition real_json : Json := {|
  json_document := λ b, ok_or (parse_json (String.string_of_list_byte b)) "not JSON";
  json_value := λ b, ok_or (parse_json (String.string_of_list_byte b)) "not JSON";
  json_error := λ _, "not JSON" |}.
Definition real_json_write : JsonWrite := {| json_to_string := λ v, Ok (write_json v) |}.

(** [value[name]] and [value[i]]; a missing member indexes as null. *)
Definition member (name : string) (v : json) : json :=
  match v with
  | JObject ms => match List.find (λ kv, String.eqb kv.1 name) ms with Some (_, v) => v | None => JNull end
  | _ => JNull
  end.
Definition element (i : nat) (v : json) : json :=
  match v with JArray l => default JNull (l !! i) | _ => JNull end.
Fixpoint json_eqb (v w : json) : bool :=
  match v, w with
  | JNull, JNull => true
  | JBool a, JBool b => Bool.eqb a b
  | JNumber a, JNumber b | JString a, JString b => String.eqb a b
  | JArray l, JArray m =>
      (fix go l m := match l, m with
        | [], [] => true
        | a :: l', b :: m' => json_eqb a b && go l' m'
        | _, _ => false
        end) l m
  | _, _ => false
  end.
