(* ===== verification/Testing.v ===== *)
(** * The repository's unit tests as computations

    A test works on a [bench]: a clock, a source of random bytes and the object
    under test, which every `&self` call shares. [Test] threads the bench and
    stops at the first assertion or [unwrap] that fails; [passes] runs a test.
    The files Test*.v translate the `mod tests` of the sources and run them
    against the definitions the rest of the library proves things about. *)

From S2P Require Import Prelude Crates Fixtures.
Import Fixtures.Instances.

Record bench (St : Type) : Type := { clock : Z; drawn : N; subject : St }.
Arguments clock {St} b. Arguments drawn {St} b. Arguments subject {St} b.
Definition Test (St A : Type) : Type := bench St → option (bench St * A).
#[export] Instance test_mret {St} : MRet (Test St) := λ A a b, Some (b, a).
#[export] Instance test_mbind {St} : MBind (Test St) := λ A B f t b,
  match t b with Some (b', a) => f a b' | None => None end.

Definition assert {St} (ok : bool) : Test St unit := λ b, if ok then Some (b, tt) else None.
Definition unwrap {St A E} (r : result A E) : Test St A :=
  λ b, match r with Ok a => Some (b, a) | Err _ => None end.
Definition unwrap_err {St A E} (r : result A E) : Test St E :=
  λ b, match r with Ok _ => None | Err e => Some (b, e) end.
Definition unwrap_some {St A} (o : option A) : Test St A :=
  λ b, match o with Some a => Some (b, a) | None => None end.
Definition returned {St A} (r : run A) : Test St A :=
  λ b, match r with Returned a => Some (b, a) | Panicked => None end.

(** A call that may change the object, one that only looks at it, and another
    object in its place. *)
Definition call {St A} (f : St → St * A) : Test St A :=
  λ b, let '(s, a) := f (subject b) in
       Some ({| clock := clock b; drawn := drawn b; subject := s |}, a).
Definition change {St} (f : St → St) : Test St unit := call (λ s, (f s, tt)).
Definition look {St A} (f : St → A) : Test St A := λ b, Some (b, f (subject b)).
(** [Utc::now()], [thread::sleep] of so many whole seconds, and 32 bytes of
    [OsRng], no two draws alike. *)
Definition utc_now {St} : Test St (@date_time fx_chrono) := λ b, Some (b, sample_time (clock b)).
Definition sleep {St} (seconds : Z) : Test St unit := λ b,
  Some ({| clock := clock b + seconds; drawn := drawn b; subject := subject b |}, tt).
Definition random_bytes {St} : Test St bytes := λ b,
  Some ({| clock := clock b; drawn := N.succ (drawn b); subject := subject b |},
        sample_nonce (drawn b)).
Fixpoint each {St A} (l : list A) (body : A → Test St unit) : Test St unit :=
  match l with [] => mret tt | a :: l' => body a;; each l' body end.

Definition on_bench {St A} (s : St) (t : Test St A) : bool :=
  match t {| clock := 0; drawn := 1; subject := s |} with Some _ => true | None => false end.
(** A test with no object. *)
Definition passes {A} (t : Test unit A) : bool := on_bench tt t.

(** [assert!(x.is_ok())], [assert!(x.is_err())], [!x] *)
Definition assert_ok {St A E} (r : result A E) : Test St unit := assert (is_ok r).
Definition assert_err {St A E} (r : result A E) : Test St unit := assert (negb (is_ok r)).
Definition assert_eq {St A} `{EqDecision A} (a b : A) : Test St unit := assert (bool_decide (a = b)).

Fixpoint contains (needle s : string) : bool :=
  starts_with needle s || match s with EmptyString => false | String _ s' => contains needle s' end.
Definition addr_hex (byte : byte) : string := hex_encode (replicate 20 byte).

(** [assert!(x.unwrap())], [assert!(!x.unwrap())] *)
Definition assert_true {St E} (r : result bool E) : Test St unit := b ← unwrap r; assert b.
Definition assert_false {St E} (r : result bool E) : Test St unit := b ← unwrap r; assert (negb b).
Definition is_none {A} (o : option A) : bool := match o with Some _ => false | None => true end.
Definition is_some {A} (o : option A) : bool := negb (is_none o).

(** ** Key pairs

    Signature schemes in which a signature is bound to its key and its message.
    A key pair is 32 random bytes. *)

Definition test_p256 : P256 := {|
  p256_point := bytes; p256_key := toy_key; p256_sig := bytes;
  p256_point_from_bytes := toy_point;
  p256_key_from_point := toy_key_of;
  p256_sec1_valid := λ b, is_ok (toy_point b);
  p256_compressed := key_bytes;
  p256_sig_from_der := λ b, match b with Byte.x30 :: s => sized 64 s | _ => Err "no DER" end;
  p256_sig_from_slice := sized 64;
  p256_verify := λ k m s, bytes_eqb s (toy_sign 9 (key_bytes k) m);
  p256_normalize_s := λ s, None;
  p256_recover := λ _ _ _, Err "no recovery";
  p256_key_from_spki := toy_key_of;
|}.
Definition test_k256 : K256 := {|
  k256_sig := bytes; k256_key := bytes; k256_recid := Z;
  k256_recid_from_byte := λ z, if (z <? 4)%Z then Some z else None;
  k256_sig_from_slice := sized 64;
  k256_recover := λ h s v,
    Ok (if bytes_eqb (drop 32 s) (toy_hash 9 h) then take 32 s else toy_hash 10 (h ++ s));
  k256_uncompressed := λ k, Byte.x04 :: k;
|}.
(** Hashes that keep apart the inputs of the tests. *)
Definition mix (seed : N) (b : bytes) : bytes :=
  let v := foldl (λ acc x, N.land (acc * 257 + byte_N x + 1) 18446744073709551615)%N seed b in
  reverse (map (λ i, byte_of (N.land (N.shiftr v (8 * N.of_nat i)) 255)) (seq 0 32)).
Definition test_hashes : Hashes := {| sha256 := mix 1; keccak256 := mix 2; sha3_256 := mix 3 |}.
(** [verifying_key().as_bytes()] and [sign(..).to_bytes()]. *)
Definition ed_verifying (key : bytes) : bytes := key.
Definition ed_signs (key : bytes) (message : string) : bytes := toy_sign 4 key (as_bytes message).
(** [to_encoded_point(true)], [sign(..).to_bytes()], [to_der()]. *)
Definition p256_compress (key : bytes) : bytes := Byte.x02 :: key.
Definition p256_signs (key : bytes) (message : string) : bytes :=
  toy_sign 9 (p256_compress key) (as_bytes message).
Definition to_der (signature : bytes) : bytes := Byte.x30 :: signature.
(** [sign_prehash_recoverable], as [r || s] and the recovery id. *)
Definition k256_signs (key prehash : bytes) : bytes * N := (key ++ toy_hash 9 prehash, 0%N).

Module Instances.
  #[export] Existing Instances test_p256 test_k256 test_hashes.
End Instances.
