(* ===== verification/TestStores.v ===== *)
(** * The unit tests of the stores

    The tests modules of src/challenge.rs, src/session_backend.rs,
    src/session.rs, src/http_sig/replay.rs and src/webauthn_store.rs. *)

From S2P Require Import Prelude Crates Fixtures Errors Keys Did Suites Aqua Methods DidFormat Principal Message Types Challenge SessionBackend Session HttpSigBase HttpSigReplay WebauthnStore Testing.
Import Fixtures.Instances Testing.Instances.

(** ** src/challenge.rs *)

Module ChallengeTests.
Definition create (did : string) : Test ChallengeStore Challenge :=
  nonce ← random_bytes; now ← utc_now;
  r ← call (λ s, Challenge.create s did now nonce now); r ← returned r; unwrap r.
Definition validate (nonce : string) : Test ChallengeStore (result Challenge AuthError) :=
  now ← utc_now; call (λ s, Challenge.validate s nonce now).
Definition cleanup_expired : Test ChallengeStore unit :=
  now ← utc_now; change (Challenge.cleanup_expired now).
Definition len : Test ChallengeStore nat := look cst_len.

Definition test_store : ChallengeStore := new_challenge_store 300 "aqua-node" "http://127.0.0.1:3000".
Definition addr_did (byte : byte) : string := "did:pkh:eip155:1:0x" +:+ addr_hex byte.

Definition create_and_validate_challenge : bool := on_bench test_store (
  let did := "did:pkh:eip155:1:0x" +:+ addr_hex Byte.x42 in
  challenge ← create did;
  assert_eq (ch_did challenge) did;;
  assert (starts_with "0x" (ch_nonce challenge));;
  assert (contains "Sign in to Aqua Node" (ch_message challenge));;
  validated ← validate (ch_nonce challenge); validated ← unwrap validated;
  assert_eq (ch_did validated) did;;
  again ← validate (ch_nonce challenge); assert_err again).
Definition unknown_nonce_fails : bool := on_bench test_store (
  r ← validate "0xnonexistent"; assert_err r).
Definition expired_challenge_fails : bool :=
  on_bench (new_challenge_store 0 "aqua-node" "http://127.0.0.1:3000") (
  let did := "did:pkh:eip155:1:0x" +:+ addr_hex Byte.x42 in
  challenge ← create did;
  r ← validate (ch_nonce challenge); assert_err r).
Definition create_challenge_for_did_key_ed25519 : bool := on_bench test_store (
  key ← random_bytes;
  let did := "did:key:z" +:+ bs58_encode (ED25519_PREFIX ++ ed_verifying key) in
  challenge ← create did;
  assert_eq (ch_did challenge) did;;
  assert (contains "Ed25519 account" (ch_message challenge));;
  assert (contains "z6Mk" (ch_message challenge));;
  assert (negb (contains "Chain ID" (ch_message challenge)));;
  ok ← unwrap (verify_caip122 did (ch_message challenge) (ed_signs key (ch_message challenge)));
  assert ok).
Definition create_challenge_for_did_key_p256 : bool := on_bench test_store (
  key ← random_bytes;
  let did := "did:key:z" +:+ bs58_encode (P256_PREFIX ++ p256_compress key) in
  challenge ← create did;
  assert_eq (ch_did challenge) did;;
  assert (contains "P-256 account" (ch_message challenge));;
  assert (negb (contains "Chain ID" (ch_message challenge)));;
  ok ← unwrap (verify_caip122 did (ch_message challenge) (p256_signs key (ch_message challenge)));
  assert ok).
Definition cleanup_removes_expired : bool :=
  on_bench (new_challenge_store 0 "aqua-node" "http://127.0.0.1:3000") (
  let did := "did:pkh:eip155:1:0x" +:+ addr_hex Byte.x42 in
  _ ← create did;
  n ← len; assert_eq n 1;;
  cleanup_expired;;
  n ← len; assert_eq n 0).
Definition default_cap_matches_max_challenges_const : bool := on_bench test_store (
  cap ← look cst_max_challenges; assert_eq cap MAX_CHALLENGES).
Definition with_capacity_overrides_the_default_cap : bool :=
  on_bench (with_capacity 300 "aqua-node" "http://x" 3) (
  each [Byte.x00; Byte.x01; Byte.x02] (λ i, _ ← create (addr_did i); mret tt);;
  n ← len; assert_eq n 3;;
  _ ← create (addr_did Byte.x09);
  n ← len; assert (n <=? 3)).
Definition cap_never_exceeded_across_many_creates : bool :=
  on_bench (with_capacity 300 "aqua-node" "http://x" 5) (
  each (map (λ i, byte_of (N.of_nat i)) (seq 0 50)) (λ i,
    _ ← create (addr_did i); n ← len; assert (n <=? 5))).
Definition purge_expired_before_evicting_oldest : bool :=
  on_bench (with_capacity 1 "aqua-node" "http://x" 2) (
  a ← create (addr_did Byte.x01);
  _ ← create (addr_did Byte.x02);
  n ← len; assert_eq n 2;;
  sleep 1;;
  c ← create (addr_did Byte.x03);
  n ← len; assert_eq n 1;;
  r ← validate (ch_nonce a); assert_err r;;
  r ← validate (ch_nonce c); assert_ok r).
Definition evicts_oldest_issued_when_still_full_after_purge : bool :=
  on_bench (with_capacity 300 "aqua-node" "http://x" 2) (
  first ← create (addr_did Byte.x01);
  sleep 1;;
  second ← create (addr_did Byte.x02);
  n ← len; assert_eq n 2;;
  third ← create (addr_did Byte.x03);
  n ← len; assert_eq n 2;;
  r ← validate (ch_nonce first); assert_err r;;
  r ← validate (ch_nonce second); assert_ok r;;
  r ← validate (ch_nonce third); assert_ok r).

Definition challenge_tests : list bool := [
  create_and_validate_challenge; unknown_nonce_fails; expired_challenge_fails;
  create_challenge_for_did_key_ed25519; create_challenge_for_did_key_p256;
  cleanup_removes_expired; default_cap_matches_max_challenges_const;
  with_capacity_overrides_the_default_cap; cap_never_exceeded_across_many_creates;
  purge_expired_before_evicting_oldest; evicts_oldest_issued_when_still_full_after_purge].
Example challenge_tests_pass : forallb id challenge_tests = true.
Proof. vm_refl. Qed.
End ChallengeTests.

(** ** src/session_backend.rs *)

Module BackendTests.
#[local] Existing Instance InMemoryBackend.
Definition insert (s : Session) : Test sessions unit := r ← call (λ b, mem_insert b s); unwrap r.
Definition get (token : string) : Test sessions (option Session) := look (λ b, mem_get b token).
Definition remove (token : string) : Test sessions bool := call (λ b, mem_remove b token).
Definition purge_expired (now : Z) : Test sessions nat := call (λ b, mem_purge_expired b now).
Definition sessions_for_did (did : string) : Test sessions (list Session) :=
  look (λ b, mem_sessions_for_did b did).
Definition len : Test sessions nat := look mem_len.

Definition in_memory_backend_insert_get_remove : bool := on_bench new_in_memory (
  insert {| se_did := "did:key:zDnX"; se_token := "tok1"; se_valid_until := 9999999999;
            se_created_at := 1 |};;
  o ← get "tok1"; s ← unwrap_some o;
  assert_eq (se_did s) "did:key:zDnX";;
  n ← len; assert_eq n 1;;
  b ← remove "tok1"; assert b;;
  o ← get "tok1"; assert_eq o None).
Definition session (did token : string) (valid_until : Z) : Session :=
  {| se_did := did; se_token := token; se_valid_until := valid_until; se_created_at := 1 |}.
Definition sessions_for_did_returns_only_that_dids_sessions : bool := on_bench new_in_memory (
  insert (session "did:key:zA" "a1" 9999999999);;
  insert (session "did:key:zA" "a2" 9999999999);;
  insert (session "did:key:zB" "b1" 9999999999);;
  a ← sessions_for_did "did:key:zA";
  assert_eq (sort_by String.ltb (map se_token a)) ["a1"; "a2"];;
  b ← sessions_for_did "did:key:zB"; assert_eq (length b) 1;;
  l ← sessions_for_did "did:key:zAbsent"; assert_eq l [];;
  n ← len; assert_eq n 3).
Definition purge_expired_removes_only_expired_sessions : bool := on_bench new_in_memory (
  insert (session "did:key:zA" "live" 2000);;
  insert (session "did:key:zA" "dead" 1000);;
  insert (session "did:key:zB" "boundary" 1500);;
  n ← purge_expired 1500; assert_eq n 2;;
  n ← len; assert_eq n 1;;
  o ← get "live"; _ ← unwrap_some o;
  o ← get "dead"; assert_eq o None;;
  o ← get "boundary"; assert_eq o None;;
  n ← purge_expired 1500; assert_eq n 0).

Definition backend_tests : list bool := [
  in_memory_backend_insert_get_remove; sessions_for_did_returns_only_that_dids_sessions;
  purge_expired_removes_only_expired_sessions].
Example backend_tests_pass : forallb id backend_tests = true.
Proof. vm_refl. Qed.
End BackendTests.

(** ** src/session.rs *)

Module SessionTests.
#[local] Existing Instance InMemoryBackend.
Definition try_create (did : string) : Test SessionStore (result Session AuthError) :=
  token ← random_bytes; now ← utc_now;
  r ← call (λ s, Session.create s did now token now); returned r.
Definition create (did : string) : Test SessionStore Session := r ← try_create did; unwrap r.
Definition validate (token : string) : Test SessionStore (result string AuthError) :=
  now ← utc_now; call (λ s, Session.validate s token now).
Definition cleanup_expired : Test SessionStore unit :=
  now ← utc_now; change (Session.cleanup_expired now).
Definition active_count : Test SessionStore Z := look Session.active_count.
Definition list_sessions : Test SessionStore (list SessionInfo) :=
  now ← utc_now; look (λ s, Session.list_sessions s now).
Definition revoke (token : string) : Test SessionStore bool := call (λ s, Session.revoke s token).

Definition create_and_validate_session : bool := on_bench (new_session_store 3600) (
  session ← create "did:pkh:eip155:1:0xabc";
  assert_eq (se_did session) "did:pkh:eip155:1:0xabc";;
  assert_eq (String.length (se_token session)) 64;;
  did ← validate (se_token session); did ← unwrap did;
  assert_eq did "did:pkh:eip155:1:0xabc").
Definition unknown_token_fails : bool := on_bench (new_session_store 3600) (
  r ← validate "nonexistent"; assert_err r).
Definition expired_session_fails : bool := on_bench (new_session_store 0) (
  session ← create "did:pkh:eip155:1:0xabc";
  r ← validate (se_token session); assert_err r).
Definition list_sessions_returns_active : bool := on_bench (new_session_store 3600) (
  _ ← create "did:pkh:eip155:1:0xaaa";
  _ ← create "did:pkh:eip155:1:0xbbb";
  sessions ← list_sessions;
  assert_eq (length sessions) 2).
Definition cleanup_removes_expired_sessions : bool := on_bench (new_session_store 0) (
  _ ← create "did:pkh:eip155:1:0xaaa";
  n ← active_count; assert_eq n 1%Z;;
  cleanup_expired;;
  n ← active_count; assert_eq n 0%Z).
Definition default_caps_match_consts : bool := on_bench (new_session_store 3600) (
  n ← look ss_max_sessions; assert_eq n MAX_SESSIONS;;
  n ← look ss_max_sessions_per_did; assert_eq n MAX_SESSIONS_PER_DID).
Definition with_capacity_overrides_both_caps : bool :=
  on_bench (session_store_with_capacity 3600 3 2) (
  n ← look ss_max_sessions; assert_eq n 3;;
  n ← look ss_max_sessions_per_did; assert_eq n 2).
Definition global_cap_purges_expired_before_rejecting : bool :=
  on_bench (session_store_with_capacity 0 2 2) (
  _ ← create "did:pkh:eip155:1:0xaaa";
  _ ← create "did:pkh:eip155:1:0xbbb";
  n ← active_count; assert_eq n 2%Z;;
  s ← try_create "did:pkh:eip155:1:0xccc";
  assert_ok s;;
  n ← active_count; assert_eq n 1%Z).
Definition global_cap_rejects_when_still_full_after_purge : bool :=
  on_bench (session_store_with_capacity 3600 2 100) (
  _ ← create "did:pkh:eip155:1:0xaaa";
  _ ← create "did:pkh:eip155:1:0xbbb";
  n ← active_count; assert_eq n 2%Z;;
  r ← try_create "did:pkh:eip155:1:0xccc"; err ← unwrap_err r;
  assert (match err with SessionStoreFull 2 => true | _ => false end);;
  n ← active_count; assert_eq n 2%Z).
Definition per_did_cap_evicts_that_dids_oldest_session_only : bool :=
  on_bench (session_store_with_capacity 3600 100 2) (
  let did_a := "did:pkh:eip155:1:0xaaa" in
  let other := "did:pkh:eip155:1:0xbbb" in
  a1 ← create did_a;
  sleep 1;;
  a2 ← create did_a;
  b1 ← create other;
  n ← active_count; assert_eq n 3%Z;;
  a3 ← create did_a;
  r ← validate (se_token a1); assert_err r;;
  r ← validate (se_token a2); assert_ok r;;
  r ← validate (se_token a3); assert_ok r;;
  r ← validate (se_token b1); assert_ok r).
Definition revoke_removes_session_and_fails_validation_immediately : bool :=
  on_bench (new_session_store 3600) (
  session ← create "did:pkh:eip155:1:0xabc";
  r ← validate (se_token session); assert_ok r;;
  b ← revoke (se_token session); assert b;;
  r ← validate (se_token session);
  assert (match r with Err SessionNotFound => true | _ => false end);;
  b ← revoke (se_token session); assert (negb b)).
Definition revoke_unknown_token_returns_false : bool := on_bench (new_session_store 3600) (
  b ← revoke "nonexistent"; assert (negb b)).
Definition store_with_explicit_backend_roundtrips : bool :=
  on_bench (with_backend 3600 MAX_SESSIONS 32 new_in_memory : SessionStore) (
  s ← create "did:pkh:eip155:1:0xabc";
  r ← validate (se_token s); did ← unwrap r;
  assert_eq did "did:pkh:eip155:1:0xabc").
Definition revoke_all_for_did_removes_only_that_dids_sessions : bool :=
  on_bench (new_session_store 3600) (
  let did_a := "did:pkh:eip155:1:0xaaa" in
  let did_b := "did:pkh:eip155:1:0xbbb" in
  _ ← create did_a;
  _ ← create did_a;
  b ← create did_b;
  revoked ← call (λ s, revoke_all_for_did s did_a);
  assert_eq revoked 2;;
  n ← active_count; assert_eq n 1%Z;;
  r ← validate (se_token b); assert_ok r).

Definition session_tests : list bool := [
  create_and_validate_session; unknown_token_fails; expired_session_fails;
  list_sessions_returns_active; cleanup_removes_expired_sessions; default_caps_match_consts;
  with_capacity_overrides_both_caps; global_cap_purges_expired_before_rejecting;
  global_cap_rejects_when_still_full_after_purge;
  per_did_cap_evicts_that_dids_oldest_session_only;
  revoke_removes_session_and_fails_validation_immediately;
  revoke_unknown_token_returns_false; store_with_explicit_backend_roundtrips;
  revoke_all_for_did_removes_only_that_dids_sessions].
Example session_tests_pass : forallb id session_tests = true.
Proof. vm_refl. Qed.
End SessionTests.

(** ** src/http_sig/replay.rs *)

Module ReplayTests.
Definition NOW : Z := 1700000000.
Definition check_and_record_at (nonce : string) (expires_at now : Z)
  : Test NonceReplayGuard (result unit HttpSigError) :=
  call (HttpSigReplay.check_and_record_at nonce expires_at now).
Definition record_at (nonce : string) (expires_at now : Z) : Test NonceReplayGuard unit :=
  r ← check_and_record_at nonce expires_at now; unwrap r.
Definition cleanup_expired_at (now : Z) : Test NonceReplayGuard unit :=
  change (HttpSigReplay.cleanup_expired_at now).
Definition len : Test NonceReplayGuard nat := look guard_len.
Definition nonce_i (i : nat) : string := "nonce-" +:+ show_nat i.

Definition a_fresh_nonce_is_accepted_once : bool := on_bench new_guard (
  r ← check_and_record_at "nonce-a" (NOW + 300) NOW; assert_ok r;;
  n ← len; assert_eq n 1).
Definition the_same_nonce_twice_is_rejected : bool := on_bench new_guard (
  record_at "nonce-a" (NOW + 300) NOW;;
  r ← check_and_record_at "nonce-a" (NOW + 300) (NOW + 1); err ← unwrap_err r;
  assert (match err with NonceReplayed => true | _ => false end);;
  n ← len; assert_eq n 1).
Definition distinct_nonces_are_independent : bool := on_bench new_guard (
  each (seq 0 10) (λ i, record_at (nonce_i i) (NOW + 300) NOW);;
  n ← len; assert_eq n 10).
Definition an_empty_guard_reports_empty : bool := on_bench new_guard (
  b ← look guard_is_empty; assert b;;
  record_at "nonce-a" (NOW + 300) NOW;;
  b ← look guard_is_empty; assert (negb b)).
Definition cleanup_drops_entries_past_their_expiry : bool := on_bench new_guard (
  record_at "short" (NOW + 10) NOW;;
  record_at "long" (NOW + 1000) NOW;;
  n ← len; assert_eq n 2;;
  cleanup_expired_at (NOW + 11);;
  n ← len; assert_eq n 1;;
  r ← check_and_record_at "long" (NOW + 1000) (NOW + 11); assert_err r).
Definition expiry_is_exclusive_in_the_guard_too : bool := on_bench new_guard (
  record_at "n" (NOW + 10) NOW;;
  cleanup_expired_at (NOW + 10);;
  n ← len; assert_eq n 0).
Definition default_capacity_matches_the_constant : bool := on_bench new_guard (
  n ← look ng_capacity; assert_eq n MAX_SEEN_NONCES).
Definition capacity_is_never_exceeded : bool := on_bench (guard_with_capacity 4) (
  each (seq 0 100) (λ i,
    record_at (nonce_i i) (NOW + 300) NOW;; n ← len; assert (n <=? 4))).
Definition expired_entries_are_purged_before_anything_live_is_evicted : bool :=
  on_bench (guard_with_capacity 2) (
  record_at "old-a" (NOW + 10) NOW;;
  record_at "old-b" (NOW + 10) NOW;;
  record_at "fresh" (NOW + 1000) (NOW + 20);;
  n ← len; assert_eq n 1;;
  r ← check_and_record_at "fresh" (NOW + 1000) (NOW + 20); assert_err r).
Definition the_soonest_expiring_entry_is_evicted_when_still_full : bool :=
  on_bench (guard_with_capacity 2) (
  record_at "soonest" (NOW + 100) NOW;;
  record_at "later" (NOW + 900) NOW;;
  record_at "newest" (NOW + 900) NOW;;
  n ← len; assert_eq n 2;;
  r ← check_and_record_at "later" (NOW + 900) NOW; assert_err r;;
  r ← check_and_record_at "newest" (NOW + 900) NOW; assert_err r;;
  r ← check_and_record_at "soonest" (NOW + 100) NOW; assert_ok r).
Definition a_replay_is_detected_even_when_the_guard_is_full : bool :=
  on_bench (guard_with_capacity 1) (
  record_at "only" (NOW + 300) NOW;;
  r ← check_and_record_at "only" (NOW + 300) NOW;
  assert (match r with Err NonceReplayed => true | _ => false end)).

Definition replay_tests : list bool := [
  a_fresh_nonce_is_accepted_once; the_same_nonce_twice_is_rejected;
  distinct_nonces_are_independent; an_empty_guard_reports_empty;
  cleanup_drops_entries_past_their_expiry; expiry_is_exclusive_in_the_guard_too;
  default_capacity_matches_the_constant; capacity_is_never_exceeded;
  expired_entries_are_purged_before_anything_live_is_evicted;
  the_soonest_expiring_entry_is_evicted_when_still_full;
  a_replay_is_detected_even_when_the_guard_is_full].
Example replay_tests_pass : forallb id replay_tests = true.
Proof. vm_refl. Qed.
End ReplayTests.

(** ** src/webauthn_store.rs *)

Module WebauthnStoreTests.
Definition insert (c : NewCredential) : Test credentials unit :=
  now ← utc_now; r ← call (λ m, mem_cred_insert m c now); unwrap r.
Definition list_for_did (did : string) : Test credentials (list StoredCredential) :=
  r ← look (λ m, mem_list_for_did m did); unwrap r.
Definition get_by_id (id : CredentialId) : Test credentials (option StoredCredential) :=
  r ← look (λ m, mem_get_by_id m id); unwrap r.
Definition update_sign_count (id : CredentialId) (n : Z) : Test credentials unit :=
  r ← call (λ m, mem_update_sign_count m id n); unwrap r.
Definition delete (did : string) (id : CredentialId) : Test credentials bool :=
  r ← call (λ m, mem_delete m did id); unwrap r.

Definition cred (did id : string) : NewCredential :=
  {| nc_did := did; nc_credential_id := as_bytes id; nc_public_key := [Byte.x01; Byte.x02; Byte.x03];
     nc_sign_count := 0; nc_transports := ["internal"]; nc_label := None |}.
Definition insert_get_list_roundtrip : bool := on_bench new_webauthn_store (
  insert (cred "did:key:zA" "id1");;
  insert (cred "did:key:zA" "id2");;
  insert (cred "did:key:zB" "id3");;
  l ← list_for_did "did:key:zA"; assert_eq (length l) 2;;
  l ← list_for_did "did:key:zB"; assert_eq (length l) 1;;
  o ← get_by_id (as_bytes "id1"); c ← unwrap_some o;
  assert_eq (sc_did c) "did:key:zA").
Definition insert_is_idempotent_by_id : bool := on_bench new_webauthn_store (
  insert (cred "did:key:zA" "id1");;
  insert (cred "did:key:zA" "id1");;
  l ← list_for_did "did:key:zA"; assert_eq (length l) 1).
Definition sign_count_is_monotonic : bool := on_bench new_webauthn_store (
  insert (cred "did:key:zA" "id1");;
  let id := as_bytes "id1" in
  update_sign_count id 5;;
  update_sign_count id 3;;
  o ← get_by_id id; c ← unwrap_some o;
  assert_eq (sc_sign_count c) 5%Z).
Definition delete_requires_matching_did : bool := on_bench new_webauthn_store (
  insert (cred "did:key:zA" "id1");;
  let id := as_bytes "id1" in
  b ← delete "did:key:zWRONG" id; assert (negb b);;
  o ← get_by_id id; _ ← unwrap_some o;
  b ← delete "did:key:zA" id; assert b;;
  o ← get_by_id id; assert (is_none o)).
Definition absent_lookups_are_ok_not_err : bool := on_bench new_webauthn_store (
  let id := as_bytes "nope" in
  o ← get_by_id id; assert (is_none o);;
  l ← list_for_did "did:key:zNOBODY"; assert_eq (length l) 0).
(** The same store behind the trait. *)
Definition works_as_a_dyn_trait_object : bool :=
  on_bench (new_webauthn_store : @cred_store InMemoryWebauthnStore) (
  now ← utc_now;
  r ← call (λ s, @cb_insert InMemoryWebauthnStore s (cred "did:key:zDyn" "dynid") now); unwrap r;;
  r ← look (λ s, @cb_list_for_did InMemoryWebauthnStore s "did:key:zDyn"); l ← unwrap r;
  assert_eq (length l) 1).

Definition webauthn_store_tests : list bool := [
  insert_get_list_roundtrip; insert_is_idempotent_by_id; sign_count_is_monotonic;
  delete_requires_matching_did; absent_lookups_are_ok_not_err; works_as_a_dyn_trait_object].
Example webauthn_store_tests_pass : forallb id webauthn_store_tests = true.
Proof. vm_refl. Qed.
End WebauthnStoreTests.
