(* ===== verification/TestIdentity.v ===== *)
(** * The unit tests of keys, DIDs and messages

    The tests modules of src/did.rs, src/did_method.rs, src/cipher_suite.rs,
    src/did_format.rs, src/message.rs, src/key, src/pkh, src/peer/mod.rs and
    src/lib.rs. The EIP-55 vectors run on Keccak-256 itself, the other tests on a
    stand-in hash. Left out are the tests whose inputs are points of the curves
    themselves (the torsion points and the non-canonical encodings of
    src/key/ed25519.rs, the point off the curve of src/key/mod.rs). *)

From S2P Require Import Prelude Crates Fixtures Digests Errors Keys Did Suites Aqua Methods DidFormat Principal Message Types Challenge Testing.
Import Fixtures.Instances Testing.Instances.

Definition is_unsupported {A} (r : result A CryptoError) : bool :=
  match r with Err (UnsupportedMethod _) => true | _ => false end.
Definition unwrap_label {St} (r : run (result string CryptoError)) : Test St string :=
  r ← returned r; unwrap r.
Definition zeros (n : nat) : bytes := replicate n Byte.x00.

(** ** src/did.rs *)

Module DidTests.
(** The known answers run on Keccak-256 itself. *)
Section known_answers.
#[local] Existing Instance real_hashes.
Definition eip55_known_vector : bool := passes (
  addr ← unwrap (hex_decode "5aaeb6053f3e94c9b9a09f33669435e7ef1beaed");
  assert_eq (eip55_checksum addr) "5aAeb6053F3E94C9b9A09f33669435E7Ef1BeAed").
Definition checksummed_address_eip155 : bool := passes (
  addr ← unwrap (checksummed_address "did:pkh:eip155:1:0x5aaeb6053f3e94c9b9a09f33669435e7ef1beaed");
  assert_eq addr "0x5aAeb6053F3E94C9b9A09f33669435E7Ef1BeAed").
End known_answers.
Definition parse_eip155_namespace : bool := passes (
  ns ← unwrap (parse_did_namespace "did:pkh:eip155:1:0xAb5801a7D398351b8bE11C439e05C5B3259aeC9B");
  assert_eq ns "eip155").
Definition parse_ed25519_namespace : bool := passes (
  let did := "did:pkh:ed25519:0x" +:+ hex_encode (replicate 32 Byte.xaa) in
  ns ← unwrap (parse_did_namespace did); assert_eq ns "ed25519").
Definition parse_p256_namespace : bool := passes (
  let did := "did:pkh:p256:0x" +:+ hex_encode (replicate 33 Byte.xbb) in
  ns ← unwrap (parse_did_namespace did); assert_eq ns "p256").
Definition address_from_did_any_chain : bool := passes (
  assert_ok (address_from_did "did:pkh:eip155:137:0xab5801a7d398351b8be11c439e05c5b3259aec9b")).
Definition address_from_did_roundtrip : bool := passes (
  addr ← unwrap (hex_decode "Ab5801a7D398351b8bE11C439e05C5B3259aeC9B");
  let did := "did:pkh:eip155:1:0x" +:+ hex_encode addr in
  parsed ← unwrap (address_from_did did); assert_eq parsed addr).
Definition invalid_did_prefix_errors : bool := passes (assert_err (parse_did_namespace "not:a:did")).
Definition identifier_from_message_extracts_eip155 : bool := passes (
  let msg := "timestamp.inblock.io wants you to sign in with your Ethereum account:" +:+ nl
    +:+ "0x5aAeb6053F3E94C9b9A09f33669435E7Ef1BeAed" +:+ nl +:+ nl
    +:+ "Sign in to Aqua Node" +:+ nl in
  assert_eq (identifier_from_message msg) (Some "0x5aAeb6053F3E94C9b9A09f33669435E7Ef1BeAed")).
Definition identifier_from_message_extracts_ed25519 : bool := passes (
  let pk_hex := hex_encode (replicate 32 Byte.xaa) in
  let msg := "aqua-node wants you to sign in with your Ed25519 account:" +:+ nl
    +:+ "0x" +:+ pk_hex +:+ nl +:+ nl +:+ "Sign in to Aqua Node" in
  assert_eq (identifier_from_message msg) (Some ("0x" +:+ pk_hex))).
Definition crlf : string := String "013"%char nl.
Definition identifier_from_message_tolerates_crlf : bool := passes (
  assert_eq (identifier_from_message ("domain wants you..." +:+ crlf +:+ "0xABC" +:+ crlf +:+ crlf))
    (Some "0xABC")).
Definition identifier_from_message_rejects_too_short : bool := passes (
  assert (is_none (identifier_from_message ""));;
  assert (is_none (identifier_from_message "only one line"))).
Definition identifier_from_message_rejects_empty_identifier : bool := passes (
  let msg := "domain wants you..." +:+ nl +:+ nl +:+ nl +:+ "statement" +:+ nl in
  assert (is_none (identifier_from_message msg))).
Definition identifier_from_did_eip155 : bool := passes (
  let did := "did:pkh:eip155:1:0x" +:+ addr_hex Byte.x42 in
  id ← unwrap (identifier_from_did did);
  assert (starts_with "0x" id);;
  assert_eq (String.length id) 42).
Definition basepoint : bytes := Byte.x58 :: replicate 31 Byte.x66.
Definition identifier_from_did_ed25519 : bool := passes (
  let pk_hex := hex_encode basepoint in
  id ← unwrap (identifier_from_did ("did:pkh:ed25519:0x" +:+ pk_hex));
  assert_eq id ("0x" +:+ pk_hex)).
Definition identifier_from_did_p256 : bool := passes (
  let pk_hex := hex_encode (replicate 33 Byte.xbb) in
  id ← unwrap (identifier_from_did ("did:pkh:p256:0x" +:+ pk_hex));
  assert_eq id ("0x" +:+ pk_hex)).
Definition identifier_from_did_unsupported : bool := passes (
  assert_err (identifier_from_did "did:pkh:solana:0xabc")).
(** [mod encode_tests] *)
Definition ed25519_encode_round_trips_through_the_did_key_decoder : bool := passes (
  let did := ed25519_did_key_from_pubkey basepoint in
  assert (starts_with "did:key:z6Mk" did);;
  ed ← unwrap (ed25519_pubkey_from_did_key did); assert_eq ed basepoint).
Definition p256_encode_produces_a_did_the_registry_accepts : bool := passes (
  let did := p256_did_key_from_pubkey (Byte.x02 :: replicate 32 Byte.x09) in
  assert (starts_with "did:key:zDn" did);;
  assert (is_some (find_did_method did))).
Definition the_did_key_form_is_not_the_did_pkh_form : bool := passes (
  let ed := replicate 32 Byte.x07 in
  assert (negb (String.eqb (ed25519_did_key_from_pubkey ed)
                  ("did:pkh:ed25519:0x" +:+ hex_encode ed)))).

Definition did_tests : list bool := [
  eip55_known_vector; parse_eip155_namespace; parse_ed25519_namespace; parse_p256_namespace;
  address_from_did_any_chain; address_from_did_roundtrip; invalid_did_prefix_errors;
  identifier_from_message_extracts_eip155; identifier_from_message_extracts_ed25519;
  identifier_from_message_tolerates_crlf; identifier_from_message_rejects_too_short;
  identifier_from_message_rejects_empty_identifier; identifier_from_did_eip155;
  identifier_from_did_ed25519; identifier_from_did_p256; identifier_from_did_unsupported;
  checksummed_address_eip155; ed25519_encode_round_trips_through_the_did_key_decoder;
  p256_encode_produces_a_did_the_registry_accepts; the_did_key_form_is_not_the_did_pkh_form].
Example did_tests_pass : forallb id did_tests = true.
Proof. vm_refl. Qed.
End DidTests.

(** ** src/did_method.rs and src/cipher_suite.rs *)

Module RegistryTests.
Definition find_unknown_did_returns_none : bool := is_none (find_did_method "did:unknown:foo").
Definition all_did_methods_has_pkh_key_peer : bool :=
  let names := map dm_method_name all_did_methods in
  forallb (λ n, existsb (String.eqb n) names) ["pkh"; "key"; "peer"].
Definition find_pkh_did_returns_some : bool := is_some (find_did_method "did:pkh:eip155:1:0xAbc").
Definition find_key_did_returns_some : bool := is_some (find_did_method "did:key:z6MkiTBz1y").
Definition find_peer_v0_returns_some : bool := is_some (find_did_method "did:peer:0z6Mkfoo").
Definition find_peer_v1_returns_none : bool := is_none (find_did_method "did:peer:1zQm").

Definition find_unknown_namespace_returns_none : bool := is_none (find_cipher_suite "solana").
Definition all_cipher_suites_has_three_entries : bool := length all_cipher_suites =? 3.
Definition find_known_namespaces : bool :=
  forallb (λ ns, is_some (find_cipher_suite ns)) ["eip155"; "ed25519"; "p256"].

Definition registry_tests : list bool := [
  find_unknown_did_returns_none; all_did_methods_has_pkh_key_peer; find_pkh_did_returns_some;
  find_key_did_returns_some; find_peer_v0_returns_some; find_peer_v1_returns_none;
  find_unknown_namespace_returns_none; all_cipher_suites_has_three_entries;
  find_known_namespaces].
Example registry_tests_pass : forallb id registry_tests = true.
Proof. vm_refl. Qed.
End RegistryTests.

(** ** src/did_format.rs *)

Module DidFormatTests.
(** [h(n)] *)
Fixpoint ab (n : nat) : string := match n with O => "" | S m => "ab" +:+ ab m end.
Definition h (n : nat) : string := ab (n / 2).
Definition malformed_shapes : list (string * string) := [
  ("ed25519 did:pkh, 31-byte key (needs 32)", "did:pkh:ed25519:0x" +:+ h 62);
  ("ed25519 did:pkh, 33-byte key (needs 32)", "did:pkh:ed25519:0x" +:+ h 66);
  ("ed25519 did:pkh, missing 0x prefix", "did:pkh:ed25519:" +:+ h 64);
  ("ed25519 did:pkh, non-hex character present", "did:pkh:ed25519:0xz" +:+ h 62 +:+ "a");
  ("p256 did:pkh, 32-byte key (needs 33, compressed point)", "did:pkh:p256:0x" +:+ h 64);
  ("eip155 did:pkh, 19-byte address (needs 20)", "did:pkh:eip155:1:0x" +:+ h 38);
  ("did:key with a corrupted multibase body (0/O/I/l chars)",
   "did:key:z6Mk0OIl0000CORRUPTEDMULTIBASE0000")].
Definition malformed_multibase_lengths : list (string * string) := [
  ("did:key ed25519 multicodec wrapping 31 key bytes",
   "did:key:z" +:+ bs58_encode (ED25519_PREFIX ++ replicate 31 Byte.x07));
  ("did:peer variant 0 p256 multicodec wrapping 40 key bytes",
   "did:peer:0z" +:+ bs58_encode (P256_PREFIX ++ replicate 40 Byte.x02))].
Definition valid_spellings {St} : Test St (list (string * string)) :=
  ed ← random_bytes;
  p ← random_bytes;
  let ed_pk := ed_verifying ed in
  let p_pk := p256_compress p in
  mret [
  ("ed25519 did:key", ed25519_did_key_from_pubkey ed_pk);
  ("ed25519 did:pkh", "did:pkh:ed25519:0x" +:+ hex_encode ed_pk);
  ("p256 did:key", p256_did_key_from_pubkey p_pk);
  ("p256 did:pkh", "did:pkh:p256:0x" +:+ hex_encode p_pk);
  ("eip155 did:pkh", "did:pkh:eip155:1:0x" +:+ addr_hex Byte.x42);
  ("ed25519 did:peer variant 0", "did:peer:0z" +:+ bs58_encode (ED25519_PREFIX ++ ed_pk))].
Definition malformed : list (string * string) := malformed_shapes ++ malformed_multibase_lengths.

Definition every_malformed_shape_is_refused_without_any_verification : bool := passes (
  each malformed (λ shape, assert_err (validate_did_well_formed shape.2))).
Definition every_valid_spelling_is_accepted : bool := passes (
  l ← valid_spellings; each l (λ shape, unwrap (validate_did_well_formed shape.2))).
Definition everything_this_layer_refuses_the_verifier_also_refuses : bool := passes (
  each malformed (λ shape,
    match find_did_method shape.2 with
    | Some method => assert_err (dm_verify method shape.2 "any message" (zeros 64))
    | None => mret tt
    end)).
Definition a_valid_did_this_layer_accepts_still_verifies_a_real_signature : bool := passes (
  key ← random_bytes;
  let did := ed25519_did_key_from_pubkey (ed_verifying key) in
  let msg := "aqua-node wants you to sign in" in
  unwrap (validate_did_well_formed did);;
  assert_true (dm_verify KeyMethod did msg (ed_signs key msg))).
Definition an_unknown_method_and_a_malformed_identifier_are_different_errors : bool := passes (
  assert (is_unsupported (validate_did_well_formed "did:madeupmethod:whatever"));;
  assert (is_unsupported (validate_did_well_formed "did:pkh:solana:0xabc"));;
  assert (negb (is_unsupported (validate_did_well_formed ("did:pkh:ed25519:0x" +:+ ab 31))))).
(** In both builds. *)
Fixpoint ones (n : nat) : string := match n with O => "" | S m => "1" +:+ ones m end.
Definition did_aqua_is_recognised_exactly_when_its_feature_is_on : bool := passes (
  let did := "did:aqua:z" +:+ ones 46 in
  let verdict (F : Features) := validate_did_well_formed did in
  assert (negb (is_unsupported (verdict {| did_aqua := true |})));;
  assert (is_unsupported (verdict {| did_aqua := false |}))).
Definition the_challenge_store_refuses_every_malformed_shape : bool :=
  on_bench (new_challenge_store 300 "test" "http://127.0.0.1:1") (
  each malformed (λ shape,
    nonce ← random_bytes; now ← utc_now;
    r ← call (λ s, create s shape.2 now nonce now); r ← returned r; assert_err r);;
  n ← look cst_len; assert_eq n 0).
Definition the_challenge_store_still_mints_for_every_valid_spelling : bool :=
  on_bench (new_challenge_store 300 "test" "http://127.0.0.1:1") (
  l ← valid_spellings;
  each l (λ shape,
    nonce ← random_bytes; now ← utc_now;
    r ← call (λ s, create s shape.2 now nonce now); r ← returned r; _ ← unwrap r; mret tt)).
Definition from_trusted_did_refuses_every_malformed_shape : bool := passes (
  each malformed (λ shape, assert_err (from_trusted_did shape.2))).

Definition did_format_tests : list bool := [
  every_malformed_shape_is_refused_without_any_verification; every_valid_spelling_is_accepted;
  everything_this_layer_refuses_the_verifier_also_refuses;
  a_valid_did_this_layer_accepts_still_verifies_a_real_signature;
  an_unknown_method_and_a_malformed_identifier_are_different_errors;
  did_aqua_is_recognised_exactly_when_its_feature_is_on;
  the_challenge_store_refuses_every_malformed_shape;
  the_challenge_store_still_mints_for_every_valid_spelling;
  from_trusted_did_refuses_every_malformed_shape].
Example did_format_tests_pass : forallb id did_format_tests = true.
Proof. vm_refl. Qed.
End DidFormatTests.

(** ** src/message.rs *)

Module MessageTests.
(** 2026-03-17T12:00:00Z and five minutes later. *)
Definition issued : date_time := sample_time 0.
Definition expires : date_time := sample_time 300.
Definition params (did nonce : string) : MessageParams :=
  {| mp_did := did; mp_domain := "aqua-node"; mp_uri := "http://127.0.0.1:3000"; mp_nonce := nonce;
     mp_issued_at := issued; mp_expiration_time := expires |}.

Definition eip155_message_has_chain_id : bool := passes (
  let did := "did:pkh:eip155:1:0x" +:+ addr_hex Byte.x11 in
  msg ← unwrap (build_message (params did "0xdeadbeef"));
  assert (contains "Ethereum account" msg);;
  assert (contains "Chain ID: 1" msg);;
  assert (contains "Sign in to Aqua Node" msg);;
  assert (contains "Nonce: 0xdeadbeef" msg)).
Definition ed25519_pkh_message_no_chain_id : bool := passes (
  let did := "did:pkh:ed25519:0x" +:+ hex_encode (replicate 32 Byte.xaa) in
  msg ← unwrap (build_message (params did "0xdeadbeef"));
  assert (contains "Ed25519 account" msg);;
  assert (negb (contains "Chain ID" msg))).
Definition p256_pkh_message_no_chain_id : bool := passes (
  let did := "did:pkh:p256:0x" +:+ hex_encode (replicate 33 Byte.xbb) in
  msg ← unwrap (build_message (params did "0xdeadbeef"));
  assert (contains "P-256 account" msg);;
  assert (negb (contains "Chain ID" msg))).
Definition did_key_ed25519_message : bool := passes (
  key ← random_bytes;
  let did := "did:key:z" +:+ bs58_encode (ED25519_PREFIX ++ ed_verifying key) in
  msg ← unwrap (build_message (params did "0xtest"));
  assert (contains "Ed25519 account" msg);;
  assert (negb (contains "Chain ID" msg));;
  assert (contains "z6Mk" msg)).
Definition did_key_p256_message : bool := passes (
  key ← random_bytes;
  let did := "did:key:z" +:+ bs58_encode (P256_PREFIX ++ p256_compress key) in
  msg ← unwrap (build_message (params did "0xtest"));
  assert (contains "P-256 account" msg);;
  assert (negb (contains "Chain ID" msg));;
  assert (contains "zDn" msg)).
(** 2026-01-15T10:30:00Z. *)
Definition january : date_time := 1768473000%Z : @date_time fx_chrono.
Definition message_contains_all_fields : bool := passes (
  let did := "did:pkh:eip155:1:0x" +:+ addr_hex Byte.x42 in
  expires ← returned (dt_add_seconds january 300);
  msg ← unwrap (build_message {| mp_did := did; mp_domain := "localhost";
    mp_uri := "http://localhost:3000"; mp_nonce := "0xaabbccdd"; mp_issued_at := january;
    mp_expiration_time := expires |});
  assert (starts_with "localhost wants you to sign in" msg);;
  assert (contains "URI: http://localhost:3000" msg);;
  assert (contains "Version: 1" msg);;
  assert (contains "Nonce: 0xaabbccdd" msg);;
  assert (contains "Issued At: 2026-01-15T10:30:00.000Z" msg);;
  assert (contains "Expiration Time: 2026-01-15T10:35:00.000Z" msg)).
Definition unsupported_did_method_errors : bool := passes (
  assert_err (build_message {| mp_did := "did:unknown:foo"; mp_domain := "test";
    mp_uri := "http://test"; mp_nonce := "0x1"; mp_issued_at := issued;
    mp_expiration_time := expires |})).

Definition message_tests : list bool := [
  eip155_message_has_chain_id; ed25519_pkh_message_no_chain_id; p256_pkh_message_no_chain_id;
  did_key_ed25519_message; did_key_p256_message; message_contains_all_fields;
  unsupported_did_method_errors].
Example message_tests_pass : forallb id message_tests = true.
Proof. vm_refl. Qed.
End MessageTests.

(** ** src/key/ed25519.rs and src/key/p256.rs *)

Module SuiteTests.
Definition ed25519_keypair {St} : Test St (bytes * string) :=
  key ← random_bytes; mret (key, "did:pkh:ed25519:0x" +:+ hex_encode (ed_verifying key)).
Definition ed25519_sign_and_verify_roundtrip : bool := passes (
  '(key, did) ← ed25519_keypair;
  let msg := "hello siwx" in
  assert_true (cs_verify Ed25519Suite did msg (ed_signs key msg))).
Definition ed25519_wrong_did_rejects : bool := passes (
  '(key, _) ← ed25519_keypair;
  '(_, did2) ← ed25519_keypair;
  assert_false (cs_verify Ed25519Suite did2 "test" (ed_signs key "test"))).
Definition ed25519_tampered_message_rejects : bool := passes (
  '(key, did) ← ed25519_keypair;
  assert_false (cs_verify Ed25519Suite did "tampered" (ed_signs key "original"))).
Definition ed25519_bad_signature_length_errors : bool := passes (
  '(_, did) ← ed25519_keypair;
  assert_err (cs_verify Ed25519Suite did "msg" (zeros 32))).
Definition parse_did_parts_ed25519 : bool := passes (
  '(address, chain) ← unwrap (cs_parse_did_parts Ed25519Suite "0xdeadbeef");
  assert_eq address "0xdeadbeef";;
  assert_eq chain None).
Definition basepoint_is_an_ordinary_valid_key : bool := passes (
  assert_ok (strict_verifying_key DidTests.basepoint)).
Definition normal_key_round_trips_through_both_spellings : bool := passes (
  key ← random_bytes;
  let bytes := ed_verifying key in
  let sig := ed_signs key "round trip" in
  assert_true (cs_verify Ed25519Suite ("did:pkh:ed25519:0x" +:+ hex_encode bytes) "round trip" sig);;
  assert_true (dm_verify KeyMethod (ed25519_did_key_from_pubkey bytes) "round trip" sig)).

Definition p256_keypair {St} : Test St (bytes * string) :=
  key ← random_bytes; mret (key, "did:pkh:p256:0x" +:+ hex_encode (p256_compress key)).
Definition sign_and_verify_roundtrip_fixed : bool := passes (
  '(key, did) ← p256_keypair;
  let msg := "hello siwx" in
  assert_true (cs_verify P256Suite did msg (p256_signs key msg))).
Definition sign_and_verify_roundtrip_der : bool := passes (
  '(key, did) ← p256_keypair;
  let msg := "hello siwx" in
  assert_true (cs_verify P256Suite did msg (to_der (p256_signs key msg)))).
Definition p256_wrong_did_rejects : bool := passes (
  '(key, _) ← p256_keypair;
  '(_, did2) ← p256_keypair;
  assert_false (cs_verify P256Suite did2 "test" (p256_signs key "test"))).
Definition p256_tampered_message_rejects : bool := passes (
  '(key, did) ← p256_keypair;
  assert_false (cs_verify P256Suite did "tampered" (p256_signs key "original"))).
Definition parse_did_parts_p256 : bool := passes (
  '(address, chain) ← unwrap (cs_parse_did_parts P256Suite "0xdeadbeef");
  assert_eq address "0xdeadbeef";;
  assert_eq chain None).

Definition suite_tests : list bool := [
  ed25519_sign_and_verify_roundtrip; ed25519_wrong_did_rejects; ed25519_tampered_message_rejects;
  ed25519_bad_signature_length_errors; parse_did_parts_ed25519; basepoint_is_an_ordinary_valid_key;
  normal_key_round_trips_through_both_spellings; sign_and_verify_roundtrip_fixed;
  sign_and_verify_roundtrip_der; p256_wrong_did_rejects; p256_tampered_message_rejects;
  parse_did_parts_p256].
Example suite_tests_pass : forallb id suite_tests = true.
Proof. vm_refl. Qed.
End SuiteTests.

(** ** src/key/mod.rs *)

Module KeyTests.
Definition ed25519_did (key : bytes) : string :=
  "did:key:z" +:+ bs58_encode (ED25519_PREFIX ++ ed_verifying key).
Definition p256_did (key : bytes) : string :=
  "did:key:z" +:+ bs58_encode (P256_PREFIX ++ p256_compress key).

Definition ed25519_roundtrip : bool := passes (
  key ← random_bytes;
  let did := ed25519_did key in
  assert (starts_with "did:key:z6Mk" did);;
  assert_true (dm_verify KeyMethod did "hello did:key" (ed_signs key "hello did:key"))).
Definition ed25519_wrong_key_rejects : bool := passes (
  key ← random_bytes;
  key2 ← random_bytes;
  assert_false (dm_verify KeyMethod (ed25519_did key2) "test" (ed_signs key "test"))).
Definition p256_roundtrip_fixed : bool := passes (
  key ← random_bytes;
  assert_true (dm_verify KeyMethod (p256_did key) "hello p256 key" (p256_signs key "hello p256 key"))).
Definition p256_roundtrip_der : bool := passes (
  key ← random_bytes;
  assert_true (dm_verify KeyMethod (p256_did key) "hello p256 key"
    (to_der (p256_signs key "hello p256 key")))).
Definition p256_wrong_key_rejects : bool := passes (
  key ← random_bytes;
  key2 ← random_bytes;
  assert_false (dm_verify KeyMethod (p256_did key2) "test" (p256_signs key "test"))).
Definition display_label_ed25519 : bool := passes (
  key ← random_bytes;
  label ← unwrap_label (dm_display_label KeyMethod (ed25519_did key));
  assert (contains "Ed25519" label)).
Definition display_label_p256 : bool := passes (
  key ← random_bytes;
  label ← unwrap_label (dm_display_label KeyMethod (p256_did key));
  assert (contains "P-256" label)).
Definition key_canonical_subject_is_full_did : bool := passes (
  key ← random_bytes;
  let did := ed25519_did key in
  s ← unwrap (dm_canonical_subject KeyMethod did); assert_eq s did).
Definition address_for_message_strips_did_key : bool := passes (
  key ← random_bytes;
  addr ← unwrap (dm_address_for_message KeyMethod (ed25519_did key));
  assert (starts_with "z6Mk" addr)).
Definition ed25519_pubkey_from_did_key_roundtrip : bool := passes (
  key ← random_bytes;
  raw ← unwrap (ed25519_pubkey_from_did_key (ed25519_did key));
  assert_eq raw (ed_verifying key)).
Definition ed25519_pubkey_from_did_key_rejects_p256 : bool := passes (
  key ← random_bytes;
  assert_err (ed25519_pubkey_from_did_key (p256_did key))).
Definition ed25519_pubkey_from_did_key_rejects_pkh_spelling : bool := passes (
  let did := "did:pkh:ed25519:0x" +:+ hex_encode (replicate 32 Byte.xaa) in
  assert_err (ed25519_pubkey_from_did_key did)).
(** One pass of the loop. *)
Definition p256_did_key_roundtrip : bool := passes (
  key ← random_bytes;
  let compressed := p256_compress key in
  let did := p256_did_key_from_pubkey compressed in
  assert (starts_with "did:key:zDn" did);;
  k ← unwrap (p256_pubkey_from_did_key did); assert_eq k compressed).
Definition invalid_multicodec_errors : bool := passes (
  let bad_body := bs58_encode [Byte.x00; Byte.x01; Byte.x02; Byte.x03] in
  assert_err (dm_verify KeyMethod ("did:key:z" +:+ bad_body) "msg" (zeros 64))).

Definition key_tests : list bool := [
  ed25519_roundtrip; ed25519_wrong_key_rejects; p256_roundtrip_fixed; p256_roundtrip_der;
  p256_wrong_key_rejects; display_label_ed25519; display_label_p256;
  key_canonical_subject_is_full_did; address_for_message_strips_did_key;
  ed25519_pubkey_from_did_key_roundtrip; ed25519_pubkey_from_did_key_rejects_p256;
  ed25519_pubkey_from_did_key_rejects_pkh_spelling; p256_did_key_roundtrip;
  invalid_multicodec_errors].
Example key_tests_pass : forallb id key_tests = true.
Proof. vm_refl. Qed.
End KeyTests.

(** ** src/pkh/eip155.rs and src/pkh/method.rs *)

Module PkhTests.
Definition eth_sign (key : bytes) (msg : string) : bytes :=
  let prefix := String "025"%char "Ethereum Signed Message:" +:+ nl +:+ show_nat (String.length msg) in
  let prehash := keccak256 (as_bytes prefix ++ as_bytes msg) in
  let '(sig, rec_id) := k256_signs key prehash in
  sig ++ [byte_of (rec_id + 27)].
Definition verifying_key (key : bytes) : k256_key := key.
Definition make_eip155_keypair {St} : Test St (bytes * string) :=
  key ← random_bytes;
  let addr := address_from_verifying_key (verifying_key key) in
  mret (key, "did:pkh:eip155:1:0x" +:+ eip55_checksum addr).

Definition eip155_sign_and_verify_roundtrip : bool := passes (
  '(key, did) ← make_eip155_keypair;
  let msg := "hello siwx" in
  assert_true (cs_verify Eip155Suite did msg (eth_sign key msg))).
Definition eip155_wrong_did_rejects : bool := passes (
  '(key, _) ← make_eip155_keypair;
  '(_, did2) ← make_eip155_keypair;
  assert_false (cs_verify Eip155Suite did2 "test" (eth_sign key "test"))).
Definition eip155_tampered_message_rejects : bool := passes (
  '(key, did) ← make_eip155_keypair;
  assert_false (cs_verify Eip155Suite did "tampered" (eth_sign key "original"))).
Definition eip155_bad_signature_length_errors : bool := passes (
  '(_, did) ← make_eip155_keypair;
  assert_err (cs_verify Eip155Suite did "msg" (zeros 32))).
Definition parse_did_parts_eip155 : bool := passes (
  '(addr, chain) ← unwrap (cs_parse_did_parts Eip155Suite "1:0xAbCd");
  assert_eq addr "0xAbCd";;
  assert_eq chain (Some "eip155:1")).

Definition method_name : bool := String.eqb (dm_method_name PkhMethod) "pkh".
Definition supports_pkh_did : bool := passes (
  assert (dm_supports_did PkhMethod "did:pkh:eip155:1:0xAbc");;
  assert (negb (dm_supports_did PkhMethod "did:key:z6Mk"));;
  assert (negb (dm_supports_did PkhMethod "did:peer:0z"))).
Definition pkh_canonical_subject_is_full_did : bool := passes (
  let did := "did:pkh:eip155:1:0xAb5801a7D398351b8bE11C439e05C5B3259aeC9B" in
  s ← unwrap (dm_canonical_subject PkhMethod did); assert_eq s did).
Definition has_chain_id_eip155 : bool := dm_has_chain_id PkhMethod "did:pkh:eip155:1:0xAbc".
Definition has_chain_id_ed25519_false : bool :=
  negb (dm_has_chain_id PkhMethod ("did:pkh:ed25519:0x" +:+ hex_encode (replicate 32 Byte.xaa))).
Definition chain_id_eip155 : bool := passes (
  c ← unwrap (dm_chain_id PkhMethod "did:pkh:eip155:137:0xAb5801a7D398351b8bE11C439e05C5B3259aeC9B");
  assert_eq c (Some "eip155:137")).
Definition verify_eip155_roundtrip : bool := passes (
  '(key, did) ← make_eip155_keypair;
  let msg := "Sign-In With X test message" in
  assert_true (dm_verify PkhMethod did msg (eth_sign key msg))).
Definition verify_eip155_wrong_key_rejects : bool := passes (
  '(key, _) ← make_eip155_keypair;
  '(_, did2) ← make_eip155_keypair;
  assert_false (dm_verify PkhMethod did2 "test" (eth_sign key "test"))).
Definition verify_unknown_namespace_errors : bool := passes (
  assert (is_unsupported (dm_verify PkhMethod "did:pkh:solana:0xabc" "msg" (zeros 64)))).
Definition pkh_display_label_eip155 : bool := passes (
  '(_, did) ← make_eip155_keypair;
  label ← unwrap_label (dm_display_label PkhMethod did);
  assert (contains "Ethereum" label)).
Definition pkh_display_label_ed25519 : bool := passes (
  let did := "did:pkh:ed25519:0x" +:+ hex_encode (replicate 32 Byte.xbb) in
  label ← unwrap_label (dm_display_label PkhMethod did);
  assert (contains "Ed25519" label)).

Definition pkh_tests : list bool := [
  eip155_sign_and_verify_roundtrip; eip155_wrong_did_rejects; eip155_tampered_message_rejects;
  eip155_bad_signature_length_errors; parse_did_parts_eip155; method_name; supports_pkh_did;
  pkh_canonical_subject_is_full_did; has_chain_id_eip155; has_chain_id_ed25519_false;
  chain_id_eip155; verify_eip155_roundtrip; verify_eip155_wrong_key_rejects;
  verify_unknown_namespace_errors; pkh_display_label_eip155; pkh_display_label_ed25519].
Example pkh_tests_pass : forallb id pkh_tests = true.
Proof. vm_refl. Qed.
End PkhTests.

(** ** src/peer/mod.rs *)

Module PeerMethodTests.
Definition z_encode_ed25519 (key : bytes) : string := bs58_encode (ED25519_PREFIX ++ ed_verifying key).
Definition z_encode_p256 (key : bytes) : string := bs58_encode (P256_PREFIX ++ p256_compress key).

Definition variant0_ed25519_roundtrip : bool := passes (
  key ← random_bytes;
  let did := "did:peer:0z" +:+ z_encode_ed25519 key in
  assert_true (dm_verify PeerMethod did "hello peer v0" (ed_signs key "hello peer v0"))).
Definition variant0_p256_roundtrip : bool := passes (
  key ← random_bytes;
  let did := "did:peer:0z" +:+ z_encode_p256 key in
  assert_true (dm_verify PeerMethod did "p256 peer v0" (p256_signs key "p256 peer v0"))).
Definition variant2_verification_key_used : bool := passes (
  enc_key ← random_bytes;
  ver_key ← random_bytes;
  let did := "did:peer:2.Ez" +:+ z_encode_ed25519 enc_key +:+ ".Vz" +:+ z_encode_ed25519 ver_key in
  assert_true (dm_verify PeerMethod did "hello peer v2" (ed_signs ver_key "hello peer v2"))).
Definition variant2_enc_key_does_not_verify : bool := passes (
  enc_key ← random_bytes;
  ver_key ← random_bytes;
  let did := "did:peer:2.Ez" +:+ z_encode_ed25519 enc_key +:+ ".Vz" +:+ z_encode_ed25519 ver_key in
  assert_false (dm_verify PeerMethod did "hello peer v2" (ed_signs enc_key "hello peer v2"))).
Definition variant2_v_key_first_order_also_works : bool := passes (
  enc_key ← random_bytes;
  ver_key ← random_bytes;
  let did := "did:peer:2.Vz" +:+ z_encode_ed25519 ver_key +:+ ".Ez" +:+ z_encode_ed25519 enc_key in
  assert_true (dm_verify PeerMethod did "v before e" (ed_signs ver_key "v before e"))).
Definition supports_did_only_v0_and_v2 : bool := passes (
  assert (dm_supports_did PeerMethod "did:peer:0z6Mkfoo");;
  assert (dm_supports_did PeerMethod "did:peer:2.Ez6Mk.Vz6Mk");;
  assert (negb (dm_supports_did PeerMethod "did:peer:1zQm"));;
  assert (negb (dm_supports_did PeerMethod "did:peer:3foo"));;
  assert (negb (dm_supports_did PeerMethod "did:key:z6Mk"))).
Definition unsupported_variant_errors : bool := negb (is_ok (extract_z_body "did:peer:1zQmXXX")).
Definition peer_canonical_subject_is_full_did : bool := passes (
  key ← random_bytes;
  let did := "did:peer:0z" +:+ z_encode_ed25519 key in
  s ← unwrap (dm_canonical_subject PeerMethod did); assert_eq s did).

Definition peer_method_tests : list bool := [
  variant0_ed25519_roundtrip; variant0_p256_roundtrip; variant2_verification_key_used;
  variant2_enc_key_does_not_verify; variant2_v_key_first_order_also_works;
  supports_did_only_v0_and_v2; unsupported_variant_errors; peer_canonical_subject_is_full_did].
Example peer_method_tests_pass : forallb id peer_method_tests = true.
Proof. vm_refl. Qed.
End PeerMethodTests.

(** ** src/lib.rs *)

Module LibTests.
Definition dispatch_eip155 : bool := passes (
  '(key, did) ← PkhTests.make_eip155_keypair;
  let msg := "test dispatch eip155" in
  assert_true (verify_caip122 did msg (PkhTests.eth_sign key msg))).
Definition dispatch_ed25519 : bool := passes (
  key ← random_bytes;
  let did := "did:pkh:ed25519:0x" +:+ hex_encode (ed_verifying key) in
  let msg := "test dispatch ed25519" in
  assert_true (verify_caip122 did msg (ed_signs key msg))).
Definition dispatch_p256 : bool := passes (
  key ← random_bytes;
  let did := "did:pkh:p256:0x" +:+ hex_encode (p256_compress key) in
  let msg := "test dispatch p256" in
  assert_true (verify_caip122 did msg (p256_signs key msg))).
Definition unsupported_namespace_returns_error : bool :=
  is_unsupported (verify_caip122 "did:pkh:solana:0xabc" "msg" (zeros 64)).
Definition invalid_did_prefix_returns_error : bool :=
  negb (is_ok (verify_caip122 "not:a:did" "msg" (zeros 64))).
Definition did_key_dispatches : bool := is_some (find_did_method "did:key:z6MkiTBz1y").

Definition lib_tests : list bool := [
  dispatch_eip155; dispatch_ed25519; dispatch_p256; unsupported_namespace_returns_error;
  invalid_did_prefix_returns_error; did_key_dispatches].
Example lib_tests_pass : forallb id lib_tests = true.
Proof. vm_refl. Qed.
End LibTests.
