(* ===== verification/TestAqua.v ===== *)
(** * The unit tests of did:aqua

    The tests modules of src/aqua/codec.rs, src/aqua/ml_dsa.rs and
    src/aqua/mod.rs. The known answer for the all-zero key runs on SHA-256
    itself, the others on a stand-in hash. Left out are the two known answers
    for generated keys (one reads a key from a file, one runs key generation)
    and the loop that measures 64 identities, each of which has its length by
    a law of base58btc. *)

From S2P Require Import Prelude Crates Fixtures Digests Errors Keys Did Suites Aqua Methods DidFormat Principal Signer LocalKey TestSigners Testing.
Import Fixtures.Instances Testing.Instances.

Definition key_of (b : byte) : bytes := replicate ML_DSA_87_PUBLIC_KEY_BYTES b.
(** [unwrap_err().to_string()] of a [CryptoError]. *)
Definition err_text {St A} (r : result A CryptoError) : Test St string :=
  e ← unwrap_err r; mret (crypto_error_display e).
(** [s.pop(); s.push(c)] *)
Definition replace_last (c : ascii) (s : string) : string :=
  String.substring 0 (String.length s - 1) s +:+ String c "".

(** ** src/aqua/codec.rs *)

Module CodecTests.
Definition known_answer_zero_key_with (H : Hashes) : bool := passes (
  let pk := key_of Byte.x00 in
  let jwk := aqua_jwk pk in
  assert_eq (String.length jwk) (N.to_nat 3496);;
  assert_eq (hex_encode (sha256 (as_bytes jwk)))
    "98979630d849dd49b51db9521352802c7376eceb9910c02a5644aea316fdb683";;
  let did := aqua_did_from_pubkey pk in
  assert_eq did "did:aqua:zQmYcJk5pSrCsbnVeghcVhcQsjcwLgJ96Pd63pcuDxS1ikJ";;
  assert_eq (String.length did) DID_AQUA_LEN;;
  assert (starts_with "did:aqua:zQm" did);;
  mh ← unwrap (multihash_from_aqua_did did);
  assert_eq (hex_encode mh)
    "122098979630d849dd49b51db9521352802c7376eceb9910c02a5644aea316fdb683").
Definition known_answer_zero_key : bool := known_answer_zero_key_with real_hashes.
Definition the_superseded_zero_key_identity_is_rejected_on_the_code : bool := passes (
  let old := "did:aqua:zW1n7u1YcZFfZuNcDv5XBZc5npJAArkE7nrv7gv3NCstHJh" in
  assert_eq (String.length old) DID_AQUA_LEN;;
  err ← err_text (multihash_from_aqua_did old);
  assert (contains "wrong multihash code" err);;
  assert (contains "0x12" err);;
  assert (contains "sha2-256" err);;
  assert_err (aqua_did_binds_pubkey old (key_of Byte.x00))).
Definition a_0x12_body_with_a_wrong_length_byte_is_rejected : bool := passes (
  let mh := [Byte.x12; Byte.x1f] ++ sha256 (replicate 8 Byte.x00) in
  let s := "did:aqua:z" +:+ bs58_encode mh in
  assert_eq (String.length s) DID_AQUA_LEN;;
  err ← err_text (multihash_from_aqua_did s);
  assert (contains "wrong digest length" err)).
Definition encode_then_validate_round_trips : bool := passes (
  let did := aqua_did_from_pubkey (key_of Byte.xab) in
  mh ← unwrap (multihash_from_aqua_did did);
  assert_eq (mh !! 0%nat) (Some MULTIHASH_SHA2_256);;
  assert_eq (mh !! 1%nat) (Some MULTIHASH_DIGEST_LEN)).
Definition binding_accepts_the_matching_key_and_rejects_every_other : bool := passes (
  let pk := key_of Byte.x01 in
  let did := aqua_did_from_pubkey pk in
  assert_true (aqua_did_binds_pubkey did pk);;
  assert_false (aqua_did_binds_pubkey did (key_of Byte.x02))).
Definition a_single_flipped_byte_changes_the_identity : bool := passes (
  let pk := key_of Byte.x00 in
  let a := aqua_did_from_pubkey pk in
  let pk := <[ML_DSA_87_PUBLIC_KEY_BYTES - 1 := Byte.x01]> pk in
  assert (negb (String.eqb a (aqua_did_from_pubkey pk)))).
Definition the_scheme_members_are_part_of_the_preimage : bool := passes (
  let pk := key_of Byte.x03 in
  let bare := sha256 pk in
  mh ← unwrap (multihash_from_aqua_did (aqua_did_from_pubkey pk));
  assert (negb (bytes_eqb (drop 2 mh) bare))).
Definition reject_wrong_length : bool := passes (
  let did := aqua_did_from_pubkey (key_of Byte.x00) in
  assert_err (multihash_from_aqua_did (String.substring 0 (String.length did - 1) did));;
  assert_err (multihash_from_aqua_did (did +:+ "1"))).
Definition reject_forbidden_components : bool := passes (
  let did := aqua_did_from_pubkey (key_of Byte.x00) in
  each ["/"; "?"; "#"; ";"]%char (λ bad,
    err ← err_text (multihash_from_aqua_did (replace_last bad did));
    assert (contains "forbidden component" err))).
Fixpoint ones (n : nat) : string := match n with O => "" | S m => "1" +:+ ones m end.
Definition reject_wrong_method_prefix : bool := passes (
  let s := "did:key:zz" +:+ ones 46 in
  assert_eq (String.length s) DID_AQUA_LEN;;
  assert_err (multihash_from_aqua_did s)).
Definition reject_missing_multibase_prefix : bool := passes (
  let did := aqua_did_from_pubkey (key_of Byte.x00) in
  let s := "did:aqua:q" +:+ String.substring 10 (String.length did) did in
  assert_eq (String.length s) DID_AQUA_LEN;;
  err ← err_text (multihash_from_aqua_did s);
  assert (contains "multibase prefix" err)).
Definition reject_non_base58_characters : bool := passes (
  let did := aqua_did_from_pubkey (key_of Byte.x00) in
  each ["0"; "O"; "I"; "l"]%char (λ bad,
    err ← err_text (multihash_from_aqua_did (replace_last bad did));
    assert (contains "base58btc" err))).
Definition reject_wrong_multihash_code : bool := passes (
  let mh := [Byte.x1e; Byte.x20] ++ sha256 (replicate 8 Byte.x00) in
  let s := "did:aqua:z" +:+ bs58_encode mh in
  assert_eq (String.length s) DID_AQUA_LEN;;
  err ← err_text (multihash_from_aqua_did s);
  assert (contains "wrong multihash code" err)).
Definition identity_comparison_is_case_sensitive : bool := passes (
  let did := aqua_did_from_pubkey (key_of Byte.x00) in
  let idx := String.length "did:aqua:z" in
  c ← unwrap_some (String.get idx did);
  let flipped := if is_lower c then upper_char c else lower_char c in
  let other := String.substring 0 idx did +:+ String flipped (String.substring (S idx) (String.length did) did) in
  assert (negb (String.eqb did other));;
  match multihash_from_aqua_did other with
  | Err _ => mret tt
  | Ok mh => mh' ← unwrap (multihash_from_aqua_did did); assert (negb (bytes_eqb mh mh'))
  end).

Definition codec_tests : list bool := [
  known_answer_zero_key; the_superseded_zero_key_identity_is_rejected_on_the_code;
  a_0x12_body_with_a_wrong_length_byte_is_rejected; encode_then_validate_round_trips;
  binding_accepts_the_matching_key_and_rejects_every_other;
  a_single_flipped_byte_changes_the_identity; the_scheme_members_are_part_of_the_preimage;
  reject_wrong_length; reject_forbidden_components; reject_wrong_method_prefix;
  reject_missing_multibase_prefix; reject_non_base58_characters; reject_wrong_multihash_code;
  identity_comparison_is_case_sensitive].
Example codec_tests_pass : forallb id codec_tests = true.
Proof. vm_refl. Qed.
End CodecTests.

(** ** src/aqua/ml_dsa.rs *)

Module MlDsaTests.
(** [SigningKey::new(&[seed; 32])] and its encoded verifying key. *)
Definition keypair (seed : byte) : bytes * bytes :=
  let sk := replicate 32 seed in (sk, toy_mldsa_public sk).
Definition sign (sk : bytes) (msg : string) : bytes := toy_mldsa_sign sk (as_bytes msg).
Definition verify (pk sig : bytes) (msg : string) : result bool CryptoError :=
  mldsa_verify pk sig (as_bytes msg).
Definition blank : bytes := replicate ML_DSA_87_SIGNATURE_BYTES Byte.x00.
Definition is_defect (r : result unit HintDefect) (d : HintDefect) : bool :=
  match r with Err e => String.eqb (hint_defect_display e) (hint_defect_display d) | Ok _ => false end.

Definition mldsa_sign_and_verify_round_trip : bool := passes (
  let '(sk, pk) := keypair Byte.x01 in
  assert_true (verify pk (sign sk "hello did:aqua") "hello did:aqua")).
Definition a_different_message_does_not_verify : bool := passes (
  let '(sk, pk) := keypair Byte.x02 in
  assert_false (verify pk (sign sk "one") "two")).
Definition a_different_key_does_not_verify : bool := passes (
  let '(sk, _) := keypair Byte.x03 in
  let '(_, other_pk) := keypair Byte.x04 in
  assert_false (verify other_pk (sign sk "m") "m")).
Definition wrong_lengths_are_malformed_not_invalid : bool := passes (
  let '(_, pk) := keypair Byte.x05 in
  assert_err (verify pk (replicate 64 Byte.x00) "m");;
  assert_err (verify (replicate 32 Byte.x00) blank "m")).
Definition corrupted_hint_region_is_malformed : bool := passes (
  let '(sk, pk) := keypair Byte.x06 in
  let sig := <[HINT_OFFSET + OMEGA := Byte.xff]> (sign sk "m") in
  err ← err_text (verify pk sig "m");
  assert (contains "hint encoding" err)).
Definition gate_rejects_count_above_omega : bool :=
  let sig := <[HINT_OFFSET + OMEGA := byte_of (N.of_nat (OMEGA + 1))]> blank in
  is_defect (hint_encoding_is_canonical sig) CumulativeCountAboveOmega.
Definition gate_rejects_non_monotone_counts : bool :=
  let sig := <[HINT_OFFSET + OMEGA := Byte.x05]> blank in
  let sig := <[HINT_OFFSET + OMEGA + 1 := Byte.x04]> sig in
  let sig := foldl (λ sig i, <[HINT_OFFSET + i := byte_of (N.of_nat i)]> sig) sig (seq 0 5) in
  is_defect (hint_encoding_is_canonical sig) CumulativeCountNotMonotone.
Definition gate_rejects_non_zero_unused_index_bytes : bool :=
  let sig := <[HINT_OFFSET := Byte.x01]> blank in
  is_defect (hint_encoding_is_canonical sig) UnusedHintByteNonZero.
Definition gate_rejects_non_increasing_indices : bool :=
  let sig := foldl (λ sig c, <[HINT_OFFSET + OMEGA + c := Byte.x02]> sig) blank (seq 0 K) in
  let sig := <[HINT_OFFSET := Byte.x07]> sig in
  let sig := <[HINT_OFFSET + 1 := Byte.x07]> sig in
  is_defect (hint_encoding_is_canonical sig) IndicesNotStrictlyIncreasing.
Definition gate_accepts_an_empty_hint_region : bool := is_ok (hint_encoding_is_canonical blank).
Definition genuine_signatures_always_pass_the_gate : bool := passes (
  let '(sk, _) := keypair Byte.x07 in
  each (seq 0 8) (λ i,
    let sig := toy_mldsa_sign sk (replicate 32 (byte_of (N.of_nat i))) in
    assert_ok (hint_encoding_is_canonical sig))).

Definition ml_dsa_tests : list bool := [
  mldsa_sign_and_verify_round_trip; a_different_message_does_not_verify;
  a_different_key_does_not_verify; wrong_lengths_are_malformed_not_invalid;
  corrupted_hint_region_is_malformed; gate_rejects_count_above_omega;
  gate_rejects_non_monotone_counts; gate_rejects_non_zero_unused_index_bytes;
  gate_rejects_non_increasing_indices; gate_accepts_an_empty_hint_region;
  genuine_signatures_always_pass_the_gate].
Example ml_dsa_tests_pass : forallb id ml_dsa_tests = true.
Proof. vm_refl. Qed.
End MlDsaTests.

(** ** src/aqua/mod.rs *)

Module AquaMethodTests.
Definition signer (seed : byte) : bytes * bytes * string :=
  let '(sk, pk) := MlDsaTests.keypair seed in (sk, pk, aqua_did_from_pubkey pk).
Definition the_registry_routes_did_aqua_here : bool := passes (
  let '(_, _, did) := signer Byte.x01 in
  m ← unwrap_some (find_did_method did);
  assert_eq (dm_method_name m) "aqua").
Definition aqua_sign_and_verify_round_trip : bool := passes (
  let '(sk, pk, did) := signer Byte.x02 in
  let msg := "aqua-node wants you to sign in" in
  let sig := MlDsaTests.sign sk msg in
  assert_true (dm_verify_with_public_key AquaMethod did msg sig (Some pk))).
Definition a_valid_signature_under_the_wrong_identity_is_rejected : bool := passes (
  let '(sk, pk, _) := signer Byte.x03 in
  let '(_, _, other_did) := signer Byte.x04 in
  let sig := MlDsaTests.sign sk "m" in
  assert_false (dm_verify_with_public_key AquaMethod other_did "m" sig (Some pk))).
Definition a_tampered_message_is_rejected : bool := passes (
  let '(sk, pk, did) := signer Byte.x05 in
  let sig := MlDsaTests.sign sk "original" in
  assert_false (dm_verify_with_public_key AquaMethod did "tampered" sig (Some pk))).
Definition the_three_argument_verify_refuses_loudly : bool := passes (
  let '(_, _, did) := signer Byte.x06 in
  err ← err_text (dm_verify AquaMethod did "m" (replicate 32 Byte.x00));
  assert (contains "verify_with_public_key" err)).
Definition a_missing_public_key_is_an_error_not_a_false : bool := passes (
  let '(_, _, did) := signer Byte.x07 in
  assert_err (dm_verify_with_public_key AquaMethod did "m" (replicate 32 Byte.x00) None)).
Definition the_default_implementation_is_transparent_for_other_methods : bool := passes (
  key ← random_bytes;
  let did := ed25519_did_key_from_pubkey (ed_verifying key) in
  let msg := "m" in
  let sig := ed_signs key msg in
  m ← unwrap_some (find_did_method did);
  assert_true (dm_verify m did msg sig);;
  assert_true (dm_verify_with_public_key m did msg sig None);;
  assert_true (dm_verify_with_public_key m did msg sig (Some (key_of Byte.x00)))).
Definition message_identifier_is_the_multibase_body : bool := passes (
  let '(_, _, did) := signer Byte.x08 in
  id ← unwrap (dm_address_for_message AquaMethod did);
  assert (starts_with "z" id);;
  assert_eq ("did:aqua:" +:+ id) did).
Definition malformed_dids_are_rejected_by_every_accessor : bool := passes (
  let bad := "did:aqua:znot-a-real-identifier" in
  assert_err (dm_method_label AquaMethod bad);;
  label ← returned (dm_display_label AquaMethod bad); assert_err label;;
  assert_err (dm_address_for_message AquaMethod bad);;
  assert_err (dm_canonical_subject AquaMethod bad)).

Definition aqua_method_tests : list bool := [
  the_registry_routes_did_aqua_here; aqua_sign_and_verify_round_trip;
  a_valid_signature_under_the_wrong_identity_is_rejected; a_tampered_message_is_rejected;
  the_three_argument_verify_refuses_loudly; a_missing_public_key_is_an_error_not_a_false;
  the_default_implementation_is_transparent_for_other_methods;
  message_identifier_is_the_multibase_body; malformed_dids_are_rejected_by_every_accessor].
Example aqua_method_tests_pass : forallb id aqua_method_tests = true.
Proof. vm_refl. Qed.
End AquaMethodTests.
