(* ===== verification/TestService.v ===== *)
(** * The unit tests of bodies, signers, the client and the directory

    The tests modules of src/wire.rs, src/signer.rs, src/local_key.rs and
    src/client.rs, of the crate aqua-auth-directory and of the target gate in
    aqua-auth-testkit/src/conformance/mod.rs. The thumbprint vectors run on
    SHA-256 itself. Left out is the signer closure that records what it is
    given: a signer of this model is a function. *)

From S2P Require Import Prelude Crates Fixtures Digests JsonText Errors Keys Did Suites Aqua Methods DidFormat Principal Message Types Wire Signer Client Directory LocalKey Conformance ConformanceGate Testing.
Import Fixtures.Instances Testing.Instances.
#[local] Existing Instances real_json real_json_write.

(** [serde_json::to_string], and [from_str] by a derived reader. *)
Definition to_text {St} (v : json) : Test St string := unwrap (json_to_string v).
Definition from_text {St A} (of_json : json → option A) (s : string) : Test St A :=
  v ← unwrap (json_document (as_bytes s)); unwrap_some (of_json v).

(** ** src/wire.rs *)

Module WireTests.
Definition challenge_envelope_round_trip : bool := passes (
  let env := {| en_nonce := "0xabc"; en_message := "Sign in with Ethereum";
    en_expires_at := 9999999999 |} in
  json ← to_text (envelope_to_json env);
  decoded ← from_text envelope_of_json json;
  assert_eq (en_nonce decoded) (en_nonce env);;
  assert_eq (en_message decoded) (en_message env);;
  assert_eq (en_expires_at decoded) (en_expires_at env)).
Definition classical : WireSessionRequest :=
  {| wr_did := "did:pkh:eip155:1:0xABCD"; wr_nonce := "0xdeadbeef"; wr_signature := "0xsig";
     wr_public_key := None |}.
Definition session_request_round_trip : bool := passes (
  json ← to_text (session_request_to_json classical);
  decoded ← from_text session_request_of_json json;
  assert_eq (wr_did decoded) (wr_did classical);;
  assert_eq (wr_nonce decoded) (wr_nonce classical);;
  assert_eq (wr_signature decoded) (wr_signature classical);;
  assert_eq (wr_public_key decoded) None).
(** A member of an object, as text. *)
Definition text_member (name value : string) : string := quoted name +:+ ":" +:+ quoted value.
Definition a_classical_request_omits_the_public_key_field_entirely : bool := passes (
  json ← to_text (session_request_to_json classical);
  assert (negb (contains "public_key" json));;
  assert_eq json ("{" +:+ text_member "did" "did:pkh:eip155:1:0xABCD" +:+ ","
    +:+ text_member "nonce" "0xdeadbeef" +:+ "," +:+ text_member "signature" "0xsig" +:+ "}")).
Definition the_public_key_field_is_optional_in_both_directions : bool := passes (
  let members := text_member "did" "d" +:+ "," +:+ text_member "nonce" "n" +:+ ","
    +:+ text_member "signature" "s" in
  parsed ← from_text session_request_of_json ("{" +:+ members +:+ "}");
  assert_eq (wr_public_key parsed) None;;
  parsed ← from_text session_request_of_json
    ("{" +:+ members +:+ "," +:+ text_member "public_key" "0xab" +:+ "}");
  assert_eq (wr_public_key parsed) (Some "0xab")).
Definition session_response_round_trip : bool := passes (
  let resp := {| rp_did := "did:pkh:eip155:1:0xABCD"; rp_token := "deadbeef";
    rp_valid_until := 9999999999; rp_created_at := 1000000000 |} in
  json ← to_text (session_response_to_json resp);
  decoded ← from_text session_response_of_json json;
  assert_eq (rp_did decoded) (rp_did resp);;
  assert_eq (rp_token decoded) (rp_token resp);;
  assert_eq (rp_valid_until decoded) (rp_valid_until resp);;
  assert_eq (rp_created_at decoded) (rp_created_at resp)).
Definition reads_envelope (raw : string) : bool := passes (
  env ← from_text envelope_of_json raw;
  assert_eq (en_nonce env) "0xabc";;
  assert_eq (en_message env) "hi";;
  assert_eq (en_expires_at env) 1%Z).
Definition short_envelope : string :=
  text_member "nonce" "0xabc" +:+ "," +:+ text_member "message" "hi" +:+ ","
  +:+ quoted "expires_at" +:+ ":1}".
Definition an_envelope_carrying_did_parses_and_the_field_is_ignored : bool :=
  reads_envelope ("{" +:+ text_member "did" "did:pkh:eip155:1:0xABCD" +:+ "," +:+ short_envelope).
Definition a_did_less_envelope_parses : bool := reads_envelope ("{" +:+ short_envelope).

Definition wire_tests : list bool := [
  challenge_envelope_round_trip; session_request_round_trip;
  a_classical_request_omits_the_public_key_field_entirely;
  the_public_key_field_is_optional_in_both_directions; session_response_round_trip;
  an_envelope_carrying_did_parses_and_the_field_is_ignored; a_did_less_envelope_parses].
Example wire_tests_pass : forallb id wire_tests = true.
Proof. vm_refl. Qed.
End WireTests.

(** ** src/signer.rs *)

Module SignerTests.
Definition no_world : world := [].
Definition sign {St} (signer : Signer) (msg : string) : Test St (result bytes SignError) :=
  mret (sg_sign signer no_world msg).2.
Definition signs {St} (signer : Signer) (msg : string) : Test St bytes :=
  r ← sign signer msg; unwrap r.
Definition ed25519_key {St} : Test St (string * bytes) :=
  key ← random_bytes;
  mret ("did:key:z" +:+ bs58_encode (ED25519_PREFIX ++ ed_verifying key), key).
(** [LocalEd25519::generate] *)
Definition LocalEd25519 {St} : Test St Signer :=
  '(did, key) ← ed25519_key;
  mret {| signer_did := did; sg_sign := λ w message, (w, Ok (ed_signs key message));
          sg_public_key := None |}.
(** The closure every test wraps. *)
Definition with_key (key : bytes) (message : string) : result bytes SignError :=
  Ok (ed_signs key message).
Definition verifies (signer : Signer) (msg : string) (sig : bytes) : result bool CryptoError :=
  verify_caip122 (signer_did signer) msg sig.

Definition local_ed25519_signer_roundtrips_through_verify_caip122 : bool := passes (
  signer ← LocalEd25519;
  sig ← signs signer "signer trait roundtrip";
  assert_true (verifies signer "signer trait roundtrip" sig)).
Definition signer_is_object_safe_behind_dyn : bool := passes (
  dyn_signer ← LocalEd25519;
  sig ← signs dyn_signer "dyn signer";
  assert_true (verifies dyn_signer "dyn signer" sig)).
Definition tampered_message_fails_verification : bool := passes (
  signer ← LocalEd25519;
  sig ← signs signer "original";
  assert_false (verifies signer "tampered" sig)).
Definition fn_signer_roundtrips_through_verify_caip122 : bool := passes (
  '(did, key) ← ed25519_key;
  let signer := FnSigner did (with_key key) in
  assert_eq (signer_did signer) did;;
  sig ← signs signer "fn signer roundtrip";
  assert_true (verifies signer "fn signer roundtrip" sig)).
Definition fn_signer_is_usable_behind_dyn : bool := passes (
  '(did, key) ← ed25519_key;
  let dyn_signer := FnSigner did (with_key key) in
  sig ← signs dyn_signer "dyn fn signer";
  assert_true (verifies dyn_signer "dyn fn signer" sig)).
Definition fn_signer_propagates_the_closures_error : bool := passes (
  let signer := FnSigner "did:key:z6MkFailing" (λ _, Err "hardware wallet said no") in
  r ← sign signer "anything"; err ← unwrap_err r;
  assert_eq (sign_error_display err) "signing failed: hardware wallet said no").
Definition fn_signer_tampered_message_fails_verification : bool := passes (
  '(did, key) ← ed25519_key;
  let signer := FnSigner did (with_key key) in
  sig ← signs signer "original";
  assert_false (verifies signer "tampered" sig)).
Definition fn_signer_wrong_did_fails_verification : bool := passes (
  '(_, key) ← ed25519_key;
  '(other_did, _) ← ed25519_key;
  let signer := FnSigner other_did (with_key key) in
  sig ← signs signer "wrong did";
  assert_false (verifies signer "wrong did" sig)).

Definition signer_tests : list bool := [
  local_ed25519_signer_roundtrips_through_verify_caip122; signer_is_object_safe_behind_dyn;
  tampered_message_fails_verification; fn_signer_roundtrips_through_verify_caip122;
  fn_signer_is_usable_behind_dyn; fn_signer_propagates_the_closures_error;
  fn_signer_tampered_message_fails_verification; fn_signer_wrong_did_fails_verification].
Example signer_tests_pass : forallb id signer_tests = true.
Proof. vm_refl. Qed.
End SignerTests.

(** ** src/local_key.rs *)

Module LocalKeyTests.
Definition some_point : toy_key := {| key_bytes := replicate 33 Byte.x02; key_len := eq_refl |}.
(** PEM texts are the curve and the key in hex; no file can be read. *)
Definition pem_keys (label pem : string) : result bytes string :=
  let? body := ok_or (strip_prefix label pem) "wrong algorithm" in hex_decode body.
Definition test_signing_keys : @SigningKeys fx_ed25519 test_p256 fx_world := {|
  ed_signing := bytes; p256_signing := bytes;
  ed_from_pkcs8_pem := pem_keys "Ed25519 "; p256_from_pkcs8_pem := pem_keys "P-256 ";
  ed_public_bytes := ed_verifying;
  p256_verifying := λ k, match toy_key_of (p256_compress k) with Ok k => k | Err _ => some_point end;
  ed_sign := λ k m, toy_sign 4 k m;
  p256_sign := λ k m, toy_sign 9 (p256_compress k) m;
  read_to_string := λ _ _, Err "No such file or directory";
|}.
#[local] Existing Instance test_signing_keys.
Definition ed25519_pem {St} : Test St string :=
  key ← random_bytes; mret ("Ed25519 " +:+ hex_encode key).
Definition p256_pem {St} : Test St string :=
  key ← random_bytes; mret ("P-256 " +:+ hex_encode key).
Definition load {St} (from_pem : string → result LocalKeySigner LocalKeyError) (pem : string)
  : Test St Signer := s ← unwrap (from_pem pem); mret (local_signer s).

Definition ed25519_did_verifies_its_own_signature : bool := passes (
  pem ← ed25519_pem; signer ← load ed25519_from_pem pem;
  assert (starts_with "did:key:z6Mk" (signer_did signer));;
  sig ← SignerTests.signs signer "hello";
  assert_true (verify_caip122 (signer_did signer) "hello" sig)).
Definition p256_did_verifies_its_own_signature : bool := passes (
  pem ← p256_pem; signer ← load p256_from_pem pem;
  assert (starts_with "did:key:zDn" (signer_did signer));;
  sig ← SignerTests.signs signer "hello";
  assert_true (verify_caip122 (signer_did signer) "hello" sig)).
Definition a_signature_does_not_verify_under_another_did : bool := passes (
  pem ← ed25519_pem; a ← load ed25519_from_pem pem;
  pem ← ed25519_pem; b ← load ed25519_from_pem pem;
  sig ← SignerTests.signs a "hello";
  assert_false (verify_caip122 (signer_did b) "hello" sig)).
Definition a_p256_pem_is_refused_by_the_ed25519_loader : bool := passes (
  pem ← p256_pem;
  assert (match ed25519_from_pem pem with Err (Pkcs8 _ _) => true | _ => false end)).
(** [chars().chunks(16)] *)
Fixpoint chunks16 (fuel : nat) (s : string) : list string :=
  match fuel with
  | O => []
  | S f => if str_is_empty s then [] else String.substring 0 16 s :: chunks16 f (String.substring 16 (String.length s) s)
  end.
Definition signer_scalar_hex (s : LocalKeySigner) : string :=
  match lk_key s with KEd25519 k => hex_encode (k : bytes) | KP256 k => hex_encode (k : bytes) end.
Definition debug_redacts_the_private_key : bool := passes (
  pem ← ed25519_pem;
  signer ← unwrap (ed25519_from_pem pem);
  let rendered := local_key_debug signer in
  assert (contains "<redacted>" rendered);;
  assert (contains (lk_did signer) rendered);;
  each (chunks16 4 (signer_scalar_hex signer)) (λ probe, assert (negb (contains probe rendered)))).
Definition a_missing_file_names_the_path : bool := passes (
  err ← unwrap_err (ed25519_from_pem_file SignerTests.no_world "/nonexistent/agent.pem");
  assert (contains "/nonexistent/agent.pem" (local_key_error_display err))).

Definition local_key_tests : list bool := [
  ed25519_did_verifies_its_own_signature; p256_did_verifies_its_own_signature;
  a_signature_does_not_verify_under_another_did; a_p256_pem_is_refused_by_the_ed25519_loader;
  debug_redacts_the_private_key; a_missing_file_names_the_path].
Example local_key_tests_pass : forallb id local_key_tests = true.
Proof. vm_refl. Qed.
End LocalKeyTests.

(** ** src/client.rs *)

Module ClientTests.
(** The test's message, with every line ended as [eol] says but the last. *)
Definition lines_with (eol : string) (lines : list string) : string := String.concat eol lines.
Definition uri_lines (uri : string) : list string := [
  "aqua-node wants you to sign in with your Ed25519 account:"; "0xaabb"; "";
  "Sign in to Aqua Node"; ""; "URI: " +:+ uri; "Version: 1"; "Nonce: 0xdeadbeef";
  "Issued At: 2026-08-30T12:00:00.000Z"; "Expiration Time: 2026-08-30T12:05:00.000Z"].
Definition message_with_uri (uri : string) : string := lines_with nl (uri_lines uri).
Definition assert_mismatch {St A} (r : result A AuthClientError) : Test St unit :=
  assert (match r with Err (UriOriginMismatch _ _) => true | _ => false end).
(** [verify_uri_binding] of the message for one URI, dialed at another. *)
Definition accepts (uri base_url : string) : Test unit unit :=
  assert_ok (verify_uri_binding (message_with_uri uri) base_url).
Definition refuses (uri base_url : string) : Test unit unit :=
  assert_mismatch (verify_uri_binding (message_with_uri uri) base_url).

Definition uri_binding_same_origin_passes : bool :=
  passes (accepts "https://timestamp.inblock.io" "https://timestamp.inblock.io").
Definition uri_binding_ignores_trailing_slash_and_path_on_base_url : bool := passes (
  accepts "http://127.0.0.1:3000" "http://127.0.0.1:3000/";;
  accepts "http://127.0.0.1:3000" "http://127.0.0.1:3000/api/v1";;
  accepts "http://127.0.0.1:3000" "http://127.0.0.1:3000/api?x=1#frag").
Definition uri_binding_ignores_path_on_message_uri : bool :=
  passes (accepts "http://127.0.0.1:3000/auth/challenge" "http://127.0.0.1:3000").
Definition uri_binding_host_comparison_is_case_insensitive : bool :=
  passes (accepts "https://Timestamp.INBLOCK.io" "https://timestamp.inblock.io").
Definition uri_binding_tolerates_crlf_line_endings : bool := passes (
  let msg := lines_with (String "013" nl) (uri_lines "https://timestamp.inblock.io") in
  assert_ok (verify_uri_binding msg "https://timestamp.inblock.io")).
Definition uri_binding_different_host_fails : bool := passes (
  err ← unwrap_err (verify_uri_binding (message_with_uri "https://victim.example")
    "https://relay.example");
  match err with
  | UriOriginMismatch message_origin client_origin =>
      assert_eq message_origin "https://victim.example:443";;
      assert_eq client_origin "https://relay.example:443"
  | _ => assert false
  end).
Definition uri_binding_different_port_fails : bool :=
  passes (refuses "http://127.0.0.1:3000" "http://127.0.0.1:3001").
Definition uri_binding_different_scheme_fails : bool :=
  passes (refuses "https://example.com:8443" "http://example.com:8443").
Definition uri_binding_explicit_https_port_equals_default : bool := passes (
  accepts "https://example.com:443" "https://example.com";;
  accepts "https://example.com" "https://example.com:443/").
Definition uri_binding_explicit_http_port_equals_default : bool :=
  passes (accepts "http://example.com:80" "http://example.com").
Definition uri_binding_missing_uri_line_fails_closed : bool := passes (
  let msg := lines_with nl [
    "aqua-node wants you to sign in with your Ed25519 account:"; "0xaabb"; "";
    "Sign in to Aqua Node"; ""; "Version: 1"; "Nonce: 0xdeadbeef"] in
  assert_mismatch (verify_uri_binding msg "https://example.com")).
Definition uri_binding_empty_uri_value_fails_closed : bool :=
  passes (refuses "" "https://example.com").
Definition uri_binding_malformed_message_uri_fails_closed : bool :=
  passes (refuses "not-a-url" "https://example.com").
Definition uri_binding_message_uri_without_host_fails_closed : bool :=
  passes (refuses "file:///etc/passwd" "https://example.com").
Definition uri_binding_indented_uri_line_does_not_count : bool := passes (
  let msg := lines_with nl [
    "aqua-node wants you to sign in with your Ed25519 account:"; "0xaabb"; "";
    "  URI: https://example.com"; ""; "Version: 1"] in
  assert_mismatch (verify_uri_binding msg "https://example.com")).
Definition uri_binding_malformed_base_url_fails_closed : bool :=
  passes (refuses "https://example.com" "example.com:3000").
Definition uri_binding_identical_unparsable_values_still_fail_closed : bool :=
  passes (refuses "not-a-url" "not-a-url").
Definition uri_binding_ignores_free_form_domain_line : bool := passes (
  assert (starts_with "aqua-node wants you to sign in"
    (message_with_uri "https://timestamp.inblock.io"));;
  accepts "https://timestamp.inblock.io" "https://timestamp.inblock.io").

(** *** [signed_session_request] *)

Definition BASE_URL : string := "https://timestamp.inblock.io".
(** A test's signer; its calls are counted by the events of the computation. *)
Definition SleepySigner {St} : Test St Signer := SignerTests.LocalEd25519.
Definition FailingSigner (did : string) : Signer := {|
  signer_did := did; sg_sign := λ w _, (w, Err "hsm unreachable");
  sg_public_key := None |}.
Definition calls (es : list Event) : nat :=
  length (List.filter (λ e, match e with Signing _ => true | Sent _ => false end) es).
Definition envelope_for {St} (did uri : string) : Test St ChallengeEnvelope :=
  now ← utc_now;
  expiration_time ← returned (dt_add_seconds now 300);
  message ← unwrap (build_message {|
    mp_did := did; mp_domain := "aqua-node"; mp_uri := uri; mp_nonce := "0xdeadbeef";
    mp_issued_at := now; mp_expiration_time := expiration_time |});
  mret {| en_nonce := "0xdeadbeef"; en_message := message; en_expires_at := 9999999999 |}.
Definition request_of {St} (envelope : ChallengeEnvelope) (signer : Signer)
  : Test St (nat * result WireSessionRequest AuthClientError) :=
  let '(es, _, r) := signed_session_request envelope BASE_URL signer SignerTests.no_world in
  mret (calls es, r).

Definition signed_session_request_awaits_the_signer_and_verifies : bool := passes (
  signer ← SleepySigner;
  envelope ← envelope_for (signer_did signer) BASE_URL;
  '(count, r) ← request_of envelope signer;
  req ← unwrap r;
  assert_eq count 1;;
  assert_eq (wr_did req) (signer_did signer);;
  assert_eq (wr_nonce req) "0xdeadbeef";;
  hex_body ← unwrap_some (strip_prefix "0x" (wr_signature req));
  sig_bytes ← unwrap (hex_decode hex_body);
  assert_eq (length sig_bytes) 64;;
  assert_true (verify_caip122 (signer_did signer) (en_message envelope) sig_bytes)).
Definition signed_session_request_refuses_a_relayed_challenge_unsigned : bool := passes (
  signer ← SleepySigner;
  envelope ← envelope_for (signer_did signer) "https://victim.example";
  '(count, r) ← request_of envelope signer;
  assert_mismatch r;;
  assert_eq count 0).
Definition signed_session_request_refuses_a_foreign_identifier_unsigned : bool := passes (
  signer ← SleepySigner; other ← SleepySigner;
  envelope ← envelope_for (signer_did other) BASE_URL;
  '(count, r) ← request_of envelope signer;
  assert (match r with Err (MessageIdentifierMismatch _ _) => true | _ => false end);;
  assert_eq count 0).
Definition signed_session_request_maps_signer_failure_to_sign_error : bool := passes (
  good ← SleepySigner;
  let broken := FailingSigner (signer_did good) in
  envelope ← envelope_for (signer_did broken) BASE_URL;
  '(_, r) ← request_of envelope broken;
  assert (match r with Err (Client.Sign msg) => contains "hsm unreachable" msg | _ => false end)).
Definition signed_session_request_rejects_an_unsupported_did_method : bool := passes (
  let envelope := {| en_nonce := "0xdeadbeef"; en_message := message_with_uri BASE_URL;
    en_expires_at := 9999999999 |} in
  '(_, r) ← request_of envelope (FailingSigner "did:pkh:solana:0xabc");
  assert (match r with Err (Auth _) => true | _ => false end)).

Definition client_tests : list bool := [
  uri_binding_same_origin_passes; uri_binding_ignores_trailing_slash_and_path_on_base_url;
  uri_binding_ignores_path_on_message_uri; uri_binding_host_comparison_is_case_insensitive;
  uri_binding_tolerates_crlf_line_endings; uri_binding_different_host_fails;
  uri_binding_different_port_fails; uri_binding_different_scheme_fails;
  uri_binding_explicit_https_port_equals_default; uri_binding_explicit_http_port_equals_default;
  uri_binding_missing_uri_line_fails_closed; uri_binding_empty_uri_value_fails_closed;
  uri_binding_malformed_message_uri_fails_closed;
  uri_binding_message_uri_without_host_fails_closed;
  uri_binding_indented_uri_line_does_not_count; uri_binding_malformed_base_url_fails_closed;
  uri_binding_identical_unparsable_values_still_fail_closed;
  uri_binding_ignores_free_form_domain_line;
  signed_session_request_awaits_the_signer_and_verifies;
  signed_session_request_refuses_a_relayed_challenge_unsigned;
  signed_session_request_refuses_a_foreign_identifier_unsigned;
  signed_session_request_maps_signer_failure_to_sign_error;
  signed_session_request_rejects_an_unsupported_did_method].
Example client_tests_pass : forallb id client_tests = true.
Proof. vm_refl. Qed.
End ClientTests.

(** ** aqua-auth-directory/src/thumbprint.rs, with SHA-256 itself *)

Module ThumbprintTests.
#[local] Existing Instance real_hashes.
Definition RFC8037_X : string := "11qYAYKxCrfVS_7TyWQHOg7hcvPapiMlrwIaaPcHURo".
Definition rfc8037_appendix_a3_vector : bool := passes (
  assert_eq (okp_thumbprint "Ed25519" RFC8037_X) "kPrK_qmxVWaYVA9wwBF6Iuo3vVzz7TxHCTwXBygrS4k").
Definition canonical_jwk_is_lexicographic_and_unspaced : bool := passes (
  assert_eq (canonical_okp_jwk "Ed25519" RFC8037_X)
    ("{" +:+ WireTests.text_member "crv" "Ed25519" +:+ ","
      +:+ WireTests.text_member "kty" "OKP" +:+ "," +:+ WireTests.text_member "x" RFC8037_X +:+ "}")).
Definition thumbprint_is_unpadded_base64url : bool := passes (
  let tp := okp_thumbprint "Ed25519" RFC8037_X in
  assert_eq (String.length tp) 43;;
  each ["="; "+"; "/"] (λ c, assert (negb (contains c tp)))).
Definition different_x_yields_different_thumbprint : bool := passes (
  let a := okp_thumbprint "Ed25519" RFC8037_X in
  let b := okp_thumbprint "Ed25519" "JrQLj5P_89iXES9-vFgrIy29clF9CC_oPPsw3c5D0bs" in
  assert (negb (String.eqb a b))).
(** Of render.rs: the draft's example names another key than its own. *)
Definition draft_appendix_a1_example_kid_does_not_match_its_own_x : bool := passes (
  let DRAFT_X := "JrQLj5P_89iXES9-vFgrIy29clF9CC_oPPsw3c5D0bs" in
  let DRAFT_PRINTED_KID := "NFcWBst6DXG-N35nHdzMrioWntdzNZghQSkjHNMMSjw" in
  let computed := okp_thumbprint "Ed25519" DRAFT_X in
  assert_eq computed "poqkLGiymh_W0uP6PZFw-dvez3QJT5SolqXBCW38r0U";;
  assert (negb (String.eqb computed DRAFT_PRINTED_KID))).

Definition thumbprint_tests : list bool := [
  rfc8037_appendix_a3_vector; canonical_jwk_is_lexicographic_and_unspaced;
  thumbprint_is_unpadded_base64url; different_x_yields_different_thumbprint;
  draft_appendix_a1_example_kid_does_not_match_its_own_x].
Example thumbprint_tests_pass : forallb id thumbprint_tests = true.
Proof. vm_refl. Qed.
End ThumbprintTests.

(** ** aqua-auth-directory/src/lib.rs *)

Module DirectoryTests.
Definition DID_A : string := "did:key:z6MkhaXgBZDvotDkL5257faiztiGiC2QtKLGpbnnEGta2doK".
Definition X_A : string := "Lm_M42cB3HkUiODQsXRcweM6TByfzEHGO9ND274JcOY".
Definition DID_B : string := "did:key:z6MkiTBz1ymuepAQ4HEHYSF1H8quG5GLVVQR3djdX3mDooWp".
Definition X_B : string := "O2onvM62pC1io6jQKm8Nc2UyFXcd4kOmOsBIoYtZ2ik".
Definition DID_P256 : string := "did:key:zDnaeQVuEURtDUXbSTyTUdJpYzELcVW3bTUyvU2rzNRQWuQEb".
Definition key (did : string) (nbf exp : Z) : AdvertisedKey :=
  {| ak_did := did; ak_nbf := nbf; ak_exp := exp |}.
(** A test on a registry of its own. *)
Definition on_registry {A} (t : Test KeyRegistry A) : bool := on_bench new_registry t.
Definition adds (k : AdvertisedKey) : Test KeyRegistry (result unit DirectoryError) :=
  call (λ r, add r k).
Definition added (k : AdvertisedKey) : Test KeyRegistry unit := r ← adds k; unwrap r.
Definition active_at (now : Z) : Test KeyRegistry (list AdvertisedKey) := look (λ r, active r now).
Definition is_invalid_window (r : result unit DirectoryError) : bool :=
  match r with Err (InvalidWindow _ _) => true | _ => false end.
Definition is_unsupported_did (r : result unit DirectoryError) : bool :=
  match r with Err (UnsupportedDid _) => true | _ => false end.
Definition assert_len (len : nat) : Test KeyRegistry unit :=
  l ← look (λ r, length (kr_keys r)); assert_eq l len.
Definition assert_active (now : Z) (count : nat) : Test KeyRegistry unit :=
  l ← active_at now; assert_eq (length l) count.

Definition add_accepts_a_valid_ed25519_did_key : bool := on_registry (
  r ← adds (key DID_A 100 200); assert_ok r;; assert_len 1).
Definition add_rejects_exp_equal_to_nbf : bool := on_registry (
  r ← adds (key DID_A 100 100); assert (is_invalid_window r);; assert_len 0).
Definition add_rejects_exp_before_nbf : bool := on_registry (
  r ← adds (key DID_A 200 100); assert (is_invalid_window r)).
Definition add_rejects_p256_did_key : bool := on_registry (
  r ← adds (key DID_P256 100 200); assert (is_unsupported_did r)).
Definition add_rejects_the_pkh_ed25519_spelling : bool := on_registry (
  let did := "did:pkh:ed25519:0x" +:+ hex_encode (replicate 32 Byte.xaa) in
  r ← adds (key did 100 200); assert (is_unsupported_did r)).
Definition add_rejects_a_malformed_did : bool := on_registry (
  r ← adds (key "not-a-did" 100 200); assert_err r;;
  r ← adds (key "did:key:zzzz!!!" 100 200); assert_err r).
Definition active_includes_a_key_exactly_at_nbf : bool := on_registry (
  added (key DID_A 100 200);; assert_active 100 1).
Definition active_excludes_a_key_exactly_at_exp : bool := on_registry (
  added (key DID_A 100 200);; assert_active 199 1;; assert_active 200 0).
Definition active_excludes_a_key_before_nbf : bool := on_registry (
  added (key DID_A 100 200);; assert_active 99 0).
Definition active_is_empty_when_every_key_has_expired : bool := on_registry (
  added (key DID_A 100 200);; added (key DID_B 150 250);; assert_active 1000 0).
Definition rotation_overlap_returns_both_keys : bool := on_registry (
  added (key DID_A 100 200);; added (key DID_B 150 300);;
  live ← active_at 175;
  let dids := map ak_did live in
  assert_eq (length dids) 2;;
  assert (bool_decide (DID_A ∈ dids));;
  assert (bool_decide (DID_B ∈ dids));;
  after ← active_at 250;
  assert_eq (map ak_did after) [DID_B]).
Definition x_b64url_is_the_dids_raw_public_key : bool := passes (
  x ← unwrap (x_b64url (key DID_A 0 1)); assert_eq x X_A;;
  x ← unwrap (x_b64url (key DID_B 0 1)); assert_eq x X_B).
Definition thumbprint_is_the_rfc7638_thumbprint_of_the_advertised_jwk : bool := passes (
  t ← unwrap (thumbprint (key DID_A 0 1)); assert_eq t (okp_thumbprint "Ed25519" X_A)).
Definition derivation_fails_for_a_did_that_never_passed_add : bool := passes (
  assert_err (x_b64url (key DID_P256 0 1));; assert_err (thumbprint (key DID_P256 0 1))).

Definition directory_tests : list bool := [
  add_accepts_a_valid_ed25519_did_key; add_rejects_exp_equal_to_nbf; add_rejects_exp_before_nbf;
  add_rejects_p256_did_key; add_rejects_the_pkh_ed25519_spelling; add_rejects_a_malformed_did;
  active_includes_a_key_exactly_at_nbf; active_excludes_a_key_exactly_at_exp;
  active_excludes_a_key_before_nbf; active_is_empty_when_every_key_has_expired;
  rotation_overlap_returns_both_keys; x_b64url_is_the_dids_raw_public_key;
  thumbprint_is_the_rfc7638_thumbprint_of_the_advertised_jwk;
  derivation_fails_for_a_did_that_never_passed_add].
Example directory_tests_pass : forallb id directory_tests = true.
Proof. vm_refl. Qed.
End DirectoryTests.

(** ** aqua-auth-directory/src/render.rs *)

Module RenderTests.
Import DirectoryTests.
Definition registry {St} (entries : list (string * Z * Z)) : Test St KeyRegistry :=
  foldl (λ t e, reg ← t; let '(did, nbf, exp) := e in
    let '(reg, r) := add reg (key did nbf exp) in unwrap r;; mret reg) (mret new_registry) entries.
Definition body {St} (doc : DirectoryDocument) : Test St json :=
  unwrap (json_document (as_bytes (doc_body doc))).
Definition max_age {St} (doc : DirectoryDocument) : Test St Z :=
  n ← unwrap_some (strip_prefix "max-age=" (doc_cache_control doc)); unwrap_some (digits_value 0 n).
Definition jwks {St} (reg : KeyRegistry) (now : Z) : Test St DirectoryDocument :=
  unwrap (render_jwks reg now).
Definition aqua {St} (reg : KeyRegistry) (now : Z) : Test St DirectoryDocument :=
  unwrap (render_aqua_identity reg now).
Definition as_array {St} (v : json) : Test St (list json) :=
  match v with JArray l => mret l | _ => unwrap_some None end.
Definition is_string (v : json) : bool := match v with JString _ => true | _ => false end.
(** [assert_eq!] of a JSON value, and the number and text it is compared to. *)
Definition assert_json {St} (v w : json) : Test St unit := assert (json_eqb v w).
Definition num (n : Z) : json := JNumber (show_Z n).
(** [value["keys"][0]] *)
Definition first_key (v : json) : json := element 0 (member "keys" v).
Definition only_a : list (string * Z * Z) := [(DID_A, 100%Z, 200%Z)].
Definition overlapping : list (string * Z * Z) := [(DID_A, 100%Z, 200%Z); (DID_B, 150%Z, 300%Z)].
Definition disjoint_windows : list (string * Z * Z) := [(DID_A, 100%Z, 200%Z); (DID_B, 500%Z, 600%Z)].

Definition well_known_paths_are_the_registered_ones : bool := passes (
  assert_eq WELL_KNOWN_HTTP_MESSAGE_SIGNATURES "/.well-known/http-message-signatures-directory";;
  assert_eq WELL_KNOWN_AQUA_IDENTITY "/.well-known/aqua-identity").
Definition jwks_carries_the_drafts_path_and_media_type : bool := passes (
  reg ← registry only_a; doc ← jwks reg 150;
  assert_eq (doc_path doc) WELL_KNOWN_HTTP_MESSAGE_SIGNATURES;;
  assert_eq (doc_content_type doc) "application/http-message-signatures-directory+json").
Definition jwks_body_has_the_drafts_member_shape : bool := passes (
  reg ← registry only_a; doc ← jwks reg 150; v ← body doc;
  let jwk := first_key v in
  assert_json (member "kty" jwk) (JString "OKP");;
  assert_json (member "crv" jwk) (JString "Ed25519");;
  assert_json (member "use" jwk) (JString "sig");;
  assert_json (member "nbf" jwk) (num 100);;
  assert_json (member "exp" jwk) (num 200);;
  assert (is_string (member "kid" jwk));;
  assert (is_string (member "x" jwk))).
Definition jwks_kid_is_the_computed_thumbprint : bool := passes (
  reg ← registry only_a; doc ← jwks reg 150; v ← body doc;
  assert_json (member "kid" (first_key v)) (JString (okp_thumbprint "Ed25519" X_A))).
Definition jwks_x_is_the_dids_raw_public_key : bool := passes (
  reg ← registry only_a; doc ← jwks reg 150; v ← body doc;
  assert_json (member "x" (first_key v)) (JString X_A)).
Definition jwks_lists_only_active_keys : bool := passes (
  reg ← registry disjoint_windows; doc ← jwks reg 150; v ← body doc;
  keys ← as_array (member "keys" v);
  assert_eq (length keys) 1;;
  assert_json (member "x" (first_key v)) (JString X_A)).
Definition jwks_lists_both_keys_during_a_rotation_overlap : bool := passes (
  reg ← registry overlapping; doc ← jwks reg 175; v ← body doc;
  keys ← as_array (member "keys" v);
  assert_json (JArray (map (member "x") keys)) (JArray [JString X_A; JString X_B])).
Definition jwks_cache_control_expires_with_the_soonest_key : bool := passes (
  reg ← registry only_a; doc ← jwks reg 150; age ← max_age doc;
  assert_eq age 60%Z;;
  reg ← registry [(DID_A, 0%Z, 10000%Z); (DID_B, 0%Z, 50000%Z)];
  doc ← jwks reg 1000; age ← max_age doc;
  assert_eq age 9000%Z).
Definition jwks_cache_control_never_drops_below_the_floor : bool := passes (
  reg ← registry only_a; doc ← jwks reg 199; age ← max_age doc;
  assert_eq age 60%Z).
Definition jwks_with_no_active_keys_renders_an_empty_list_not_an_error : bool := passes (
  reg ← registry only_a; doc ← jwks reg 10000; v ← body doc;
  keys ← as_array (member "keys" v); assert_eq (length keys) 0;;
  age ← max_age doc; assert_eq age 60%Z).
Definition jwks_of_an_empty_registry_renders_an_empty_list : bool := passes (
  doc ← jwks new_registry 100; v ← body doc;
  keys ← as_array (member "keys" v); assert_eq (length keys) 0).
Definition aqua_identity_carries_its_path_and_plain_json_media_type : bool := passes (
  reg ← registry only_a; doc ← aqua reg 150;
  assert_eq (doc_path doc) WELL_KNOWN_AQUA_IDENTITY;;
  assert_eq (doc_content_type doc) "application/json").
Definition aqua_identity_has_the_specified_shape : bool := passes (
  reg ← registry overlapping; doc ← aqua reg 175; v ← body doc;
  assert_json (member "version" v) (num 1);;
  assert_json (member "dids" v) (JArray [JString DID_A; JString DID_B]);;
  let entry := first_key v in
  assert_json (member "did" entry) (JString DID_A);;
  assert_json (member "thumbprint" entry) (JString (okp_thumbprint "Ed25519" X_A));;
  assert_json (member "nbf" entry) (num 100);;
  assert_json (member "exp" entry) (num 200)).
Definition aqua_identity_lists_only_active_keys : bool := passes (
  reg ← registry disjoint_windows; doc ← aqua reg 150; v ← body doc;
  assert_json (member "dids" v) (JArray [JString DID_A]);;
  keys ← as_array (member "keys" v); assert_eq (length keys) 1).
Definition aqua_identity_with_no_active_keys_renders_empty_lists_not_an_error : bool := passes (
  reg ← registry only_a; doc ← aqua reg 10000; v ← body doc;
  assert_json (member "version" v) (num 1);;
  dids ← as_array (member "dids" v); assert_eq (length dids) 0;;
  keys ← as_array (member "keys" v); assert_eq (length keys) 0;;
  age ← max_age doc; assert_eq age 60%Z).
Definition both_views_agree_on_the_key_identity : bool := passes (
  reg ← registry only_a;
  doc ← jwks reg 150; jwks_body ← body doc;
  doc ← aqua reg 150; aqua_body ← body doc;
  assert_json (member "kid" (first_key jwks_body)) (member "thumbprint" (first_key aqua_body))).

Definition render_tests : list bool := [
  well_known_paths_are_the_registered_ones; jwks_carries_the_drafts_path_and_media_type;
  jwks_body_has_the_drafts_member_shape; jwks_kid_is_the_computed_thumbprint;
  jwks_x_is_the_dids_raw_public_key; jwks_lists_only_active_keys;
  jwks_lists_both_keys_during_a_rotation_overlap;
  jwks_cache_control_expires_with_the_soonest_key;
  jwks_cache_control_never_drops_below_the_floor;
  jwks_with_no_active_keys_renders_an_empty_list_not_an_error;
  jwks_of_an_empty_registry_renders_an_empty_list;
  aqua_identity_carries_its_path_and_plain_json_media_type;
  aqua_identity_has_the_specified_shape; aqua_identity_lists_only_active_keys;
  aqua_identity_with_no_active_keys_renders_empty_lists_not_an_error;
  both_views_agree_on_the_key_identity].
Example render_tests_pass : forallb id render_tests = true.
Proof. vm_refl. Qed.
End RenderTests.

(** ** aqua-auth-testkit/src/conformance/mod.rs *)

Module TargetTests.
#[local] Existing Instance scripted_host.
Definition target {St} (base_url : string) : Test St Target :=
  unwrap (target_new SignerTests.no_world base_url).
Definition loopback_ipv4_is_accepted_without_the_opt_in : bool := passes (
  assert_ok (check_host "127.0.0.1" false);; assert_ok (check_host "127.5.9.2" false)).
Definition loopback_ipv6_is_accepted_without_the_opt_in : bool := passes (
  assert_ok (check_host "::1" false);; assert_ok (check_host "[::1]" false)).
Definition localhost_is_accepted_without_the_opt_in : bool := passes (
  assert_ok (check_host "localhost" false);; assert_ok (check_host "LOCALHOST" false)).
Definition a_non_loopback_host_is_refused_without_the_opt_in : bool := passes (
  err ← unwrap_err (check_host "example.com" false);
  match err with RemoteNotAllowed host => assert_eq host "example.com" | _ => assert false end).
Definition a_non_loopback_host_is_accepted_with_the_opt_in : bool := passes (
  assert_ok (check_host "example.com" true);; assert_ok (check_host "203.0.113.7" true)).
Definition target_new_rejects_an_unparseable_url : bool := passes (
  err ← unwrap_err (target_new SignerTests.no_world "not a url at all");
  assert (match err with TargetParse _ => true | _ => false end)).
Definition target_new_accepts_loopback_regardless_of_the_environment : bool := passes (
  t ← target "http://127.0.0.1:4000";
  assert_eq (tg_base_url t) "http://127.0.0.1:4000";;
  assert_eq (tg_challenge_path t) DEFAULT_CHALLENGE_PATH;;
  assert_eq (tg_session_path t) DEFAULT_SESSION_PATH).
Definition with_paths_overrides_the_defaults_only : bool := passes (
  t ← target "http://127.0.0.1:4000";
  let t := with_paths t "/api/auth/challenge" "/api/auth/session" in
  assert_eq (tg_challenge_path t) "/api/auth/challenge";;
  assert_eq (tg_session_path t) "/api/auth/session";;
  assert_eq (tg_base_url t) "http://127.0.0.1:4000").

Definition target_tests : list bool := [
  loopback_ipv4_is_accepted_without_the_opt_in; loopback_ipv6_is_accepted_without_the_opt_in;
  localhost_is_accepted_without_the_opt_in; a_non_loopback_host_is_refused_without_the_opt_in;
  a_non_loopback_host_is_accepted_with_the_opt_in; target_new_rejects_an_unparseable_url;
  target_new_accepts_loopback_regardless_of_the_environment;
  with_paths_overrides_the_defaults_only].
Example target_tests_pass : forallb id target_tests = true.
Proof. vm_refl. Qed.
End TargetTests.
