(* ===== verification/TestPasskeys.v ===== *)
(** * The unit tests of the passkey modules

    The tests modules of src/webauthn.rs, src/webauthn_policy.rs,
    src/webauthn_recover.rs, src/webauthn_select.rs, src/webauthn_hint.rs,
    src/webauthn_options.rs, src/webauthn_testkit.rs and src/webauthn_ceremony.rs.
    The curve of the tests keeps what they observe of P-256: strict DER, the two
    forms of a signature, recovery of two keys of which one is the signer's, and
    SubjectPublicKeyInfo. The two loops over hundreds of keys are run on
    [RecoverTests.SEEDS] of them. Left out is the test that asks webauthn-rs itself. *)

From S2P Require Import Prelude Crates Fixtures Digests JsonText Errors Keys Did Suites Aqua Methods DidFormat Principal LoginChallenge WebauthnPolicy Webauthn WebauthnRecover WebauthnSelect WebauthnHint WebauthnOptions LocalKey WebauthnTestkit WebauthnCeremony Testing.
#[local] Existing Instances fx_hex fx_base58 fx_base64 fx_ed25519 fx_k256 fx_mldsa fx_features
  fx_chrono test_hashes real_json real_json_write.

(** ** A curve for the tests *)

Module Curve.
Definition order : N := 0xffffffff00000000ffffffffffffffffbce6faada7179e84f3b9cac2fc632551.
Definition bytes_N (b : bytes) : N := big_endian (byte_N <$> b).
Definition bytes32 (n : N) : bytes := byte_of <$> be_bytes 32 n.
(** A signature is its two scalars. *)
Definition scalar_ok (n : N) : bool := (0 <? n)%N && (n <? order)%N.
Definition signature (r s : N) : result (N * N) string :=
  if scalar_ok r && scalar_ok s then Ok (r, s) else Err "a scalar is out of range".
(** The DER of a positive integer: no needless zero at its head. *)
Fixpoint strip_zeros (b : bytes) : bytes :=
  match b with Byte.x00 :: b' => strip_zeros b' | _ => b end.
Definition high_bit (b : bytes) : bool :=
  match b with x :: _ => (128 <=? byte_N x)%N | [] => true end.
Definition der_integer (n : N) : bytes :=
  let b := strip_zeros (bytes32 n) in
  let b := if high_bit b then Byte.x00 :: b else b in
  Byte.x02 :: byte_of (N.of_nat (length b)) :: b.
Definition read_integer (b : bytes) : option (N * bytes) :=
  match b with
  | Byte.x02 :: len :: b =>
      let n := N.to_nat (byte_N len) in
      let body := take n b in
      if (n =? 0) || negb (length body =? n) || high_bit body then None
      else match body with
        | Byte.x00 :: rest => if negb (high_bit rest) then None else Some (bytes_N rest, drop n b)
        | _ => Some (bytes_N body, drop n b)
        end
  | _ => None
  end.
Definition to_der (sig : N * N) : bytes :=
  let body := der_integer sig.1 ++ der_integer sig.2 in
  Byte.x30 :: byte_of (N.of_nat (length body)) :: body.
Definition from_der (b : bytes) : result (N * N) string :=
  match b with
  | Byte.x30 :: len :: body =>
      if negb (length body =? N.to_nat (byte_N len)) then Err "wrong length" else
      match read_integer body with
      | Some (r, rest) => match read_integer rest with
          | Some (s, []) => signature r s
          | _ => Err "not an integer"
          end
      | None => Err "not an integer"
      end
  | _ => Err "not a sequence"
  end.
Definition from_slice (b : bytes) : result (N * N) string :=
  let? b := sized 64 b in signature (bytes_N (take 32 b)) (bytes_N (drop 32 b)).
Definition to_bytes (sig : N * N) : bytes := bytes32 sig.1 ++ bytes32 sig.2.
Definition normalize (sig : N * N) : option (N * N) :=
  if (N.shiftr order 1 <? sig.2)%N then Some (sig.1, (order - sig.2)%N) else None.
Definition low_form (sig : N * N) : N * N := default sig (normalize sig).
Definition negate (sig : N * N) : N * N := (sig.1, (order - sig.2)%N).

(** 32 bytes that depend on all of the input. *)
Definition wide (seed : N) (b : bytes) : bytes :=
  mjoin (map (λ i, drop 24 (mix (seed + 16 * N.of_nat i) b)) (seq 0 4)).
(** A key is an [x] coordinate of 31 bytes and the parity of [y]. A signature
    of a digest masks [x] with it; the low bits of [s] say at which parity the
    signer's key is recovered, and the parity of its [y]. The other parity
    recovers a key that depends on the digest. *)
Definition signing : Type := N * bool.
Definition point (x : bytes) (odd : bool) : bytes :=
  (if odd then Byte.x03 else Byte.x02) :: x.
Definition some_key : toy_key := {| key_bytes := replicate 33 Byte.x02; key_len := eq_refl |}.
Definition key_at (x : bytes) (odd : bool) : toy_key :=
  match toy_key_of (point x odd) with Ok k => k | Err _ => some_key end.
Definition public (k : signing) : toy_key := key_at (bytes32 k.1) k.2.
Definition mask (digest : bytes) : N := N.shiftr (bytes_N (wide 4 digest)) 8.
Definition bit (b : bool) : N := if b then 1%N else 0%N.
Definition sign (k : signing) (m : bytes) : N * N :=
  let z := mask (mix 1 m) in
  let at_odd := N.odd z in
  (N.lxor k.1 z, 256 + 2 * bit k.2 + bit at_odd)%N.
Definition recover (digest : bytes) (sig : N * N) (odd : bool) : result toy_key string :=
  if Bool.eqb odd (N.odd sig.2) then
    toy_key_of (point (bytes32 (N.lxor sig.1 (mask digest))) (N.testbit sig.2 1))
  else toy_key_of (point (wide 5 (digest ++ bytes32 sig.1)) odd).
Definition recovers (m : bytes) (sig : N * N) (k : toy_key) (odd : bool) : bool :=
  match recover (mix 1 m) sig odd with
  | Ok k' => bytes_eqb (key_bytes k') (key_bytes k) | Err _ => false end.
(** SubjectPublicKeyInfo: the head of RFC 5480 and the uncompressed point. *)
Definition spki_head : bytes := match hex_decode
  "3059301306072a8648ce3d020106082a8648ce3d03010703420004" with Ok b => b | Err _ => [] end.
Definition y_of (x : bytes) (odd : bool) : bytes :=
  take 31 (wide 6 (point x odd)) ++ [if odd then Byte.x01 else Byte.x00].
Definition x_of (k : toy_key) : bytes := drop 1 (key_bytes k).
Definition y_odd (k : toy_key) : bool :=
  match key_bytes k with Byte.x03 :: _ => true | _ => false end.
Definition to_spki (k : toy_key) : bytes := spki_head ++ x_of k ++ y_of (x_of k) (y_odd k).
Definition from_spki (b : bytes) : result toy_key string :=
  let x := take 32 (drop 27 b) in
  let odd := bool_decide (drop 90 b = [Byte.x01]) in
  if bytes_eqb b (spki_head ++ x ++ y_of x odd) then toy_key_of (point x odd)
  else Err "not a P-256 SubjectPublicKeyInfo".
Definition passkey_p256 : P256 := {|
  p256_point := bytes; p256_key := toy_key; p256_sig := N * N;
  p256_point_from_bytes := toy_point;
  p256_key_from_point := toy_key_of;
  p256_sec1_valid := λ b, is_ok (toy_point b);
  p256_compressed := key_bytes;
  p256_sig_from_der := from_der; p256_sig_from_slice := from_slice;
  p256_verify := λ k m sig, recovers m (low_form sig) k false || recovers m (low_form sig) k true;
  p256_normalize_s := normalize; p256_recover := recover; p256_key_from_spki := from_spki;
|}.
#[local] Existing Instance passkey_p256.

(** A generator: the seed and the number of draws. *)
Definition draw (g : N * N) : bytes :=
  wide 7 (byte_of <$> be_bytes 8 g.1 ++ be_bytes 8 g.2).
Definition random_signing (g : N * N) : (N * N) * signing :=
  let n := bytes_N (draw g) in
  ((g.1, N.succ g.2), (N.shiftr n 8, N.odd n)).
Definition passkey_keys : @SoftKeys passkey_p256 := {|
  std_rng := N * N;
  seed_from_u64 := λ z, (Z.to_N z, 0%N);
  fill_bytes := λ g n, ((g.1, N.succ g.2), take n (draw g));
  signing_key := signing;
  signing_random := random_signing;
  signing_public := public; signing_sign := sign; signing_wraps := λ _ _, false;
  p256_negate_s := negate; p256_sig_to_der := to_der;
  p256_x := x_of; p256_y := λ k, y_of (x_of k) (y_odd k);
  p256_to_spki := to_spki;
|}.
End Curve.
#[local] Existing Instances Curve.passkey_p256 Curve.passkey_keys.

(** URLs as the tests write them: the scheme in any case. *)
Definition lower_scheme (s : string) : string :=
  match split_once ":" s with Some (a, b) => to_lower a +:+ ":" +:+ b | None => s end.
Definition test_urls : Urls := {|
  url := toy_url; url_parse := λ s, toy_parse (lower_scheme s);
  url_scheme := λ u, toy_scheme_text (tu_scheme u);
  url_username := tu_user; url_password := tu_password; url_host_str := tu_host;
  url_port_or_known_default := toy_port; url_path := tu_path; url_query := tu_query;
  url_fragment := tu_fragment; url_origin := toy_origin;
|}.
#[local] Existing Instance test_urls.

(** ** src/webauthn_policy.rs *)

Module PolicyTests.
Definition hash (s : string) : bytes := sha256 (as_bytes s).
Definition refused_rp (id : string) (origins : list string) : Test unit PolicyError :=
  unwrap_err (rp builder id origins).
Definition with_rp {St} (b : AssertionPolicyBuilder) (id : string) (origins : list string)
  : Test St AssertionPolicyBuilder := unwrap (rp b id origins).
Definition entry_of {St} (p : AssertionPolicy) (id : string) : Test St RpEntry :=
  unwrap_some (entry_for_rp_id_hash p (hash id)).
Definition allows (e : RpEntry) (origin : string) : Test unit unit := assert (allows_origin e origin).
Definition forbids (e : RpEntry) (origin : string) : Test unit unit :=
  assert (negb (allows_origin e origin)).

Definition policy_refuses_origin_outside_its_rp : bool := passes (
  each ["https://evilinblock.io"; "https://inblock.io.evil.com"; "https://evil.example.com"] (λ bad,
    err ← refused_rp "inblock.io" [bad];
    assert (match err with OriginOutsideRpId _ _ => true | _ => false end));;
  with_rp builder "inblock.io" ["https://inblock.io"; "https://a.b.inblock.io"]).
Definition policy_refuses_wildcards_paths_and_http_except_localhost : bool := passes (
  each ["https://*.inblock.io"; "https://a.inblock.io/x"; "https://a.inblock.io/?q=1";
    "https://a.inblock.io/#f"; "https://user@a.inblock.io"; "http://a.inblock.io";
    "ftp://a.inblock.io"; "not an origin"] (λ bad,
    err ← refused_rp "inblock.io" [bad];
    assert (match err with InvalidOrigin _ _ => true | _ => false end));;
  b ← with_rp builder "localhost" ["http://localhost:8765"];
  b ← with_rp b "inblock.localhost" ["http://siwx.inblock.localhost:18200"];
  p ← unwrap (build b);
  e ← entry_of p "localhost";
  assert_eq (rp_origins e) ["http://localhost:8765"];;
  allows e "http://localhost:8765").
Definition policy_refuses_ip_and_single_label_rp_ids_except_localhost : bool := passes (
  each ["127.0.0.1"; "::1"; "[::1]"; "io"; ""; "*.inblock.io"; "https://inblock.io";
    "inblock.io:443"; "inblock.io/x"; ".inblock.io"; "a..inblock.io"; "user@inblock.io";
    "in block.io"; "inblöck.io"] (λ bad,
    err ← refused_rp bad ["https://inblock.io"];
    assert (match err with InvalidRpId _ _ => true | _ => false end));;
  with_rp builder "localhost" ["http://localhost:3000"]).
Definition policy_normalises_case_and_trailing_slash_to_browser_origin_form : bool := passes (
  b ← with_rp builder "InBlock.IO."
    ["HTTPS://Siwx.InBlock.IO/"; "https://a.inblock.io:443"; "https://siwx.inblock.io"];
  p ← unwrap (build b);
  e ← entry_of p "inblock.io";
  assert_eq (rp_id e) "inblock.io";;
  assert_eq (rp_id_hash e) (hash "inblock.io");;
  assert_eq (rp_origins e) ["https://siwx.inblock.io"; "https://a.inblock.io"];;
  allows e "https://siwx.inblock.io";;
  forbids e "https://siwx.inblock.io/";;
  forbids e "HTTPS://SIWX.INBLOCK.IO";;
  forbids e "https://a.inblock.io:443").
Definition policy_accepts_port_origins : bool := passes (
  b ← with_rp builder "inblock.io" ["https://aquafire.local.inblock.io:8443"];
  p ← unwrap (build b);
  e ← entry_of p "inblock.io";
  assert_eq (rp_origins e) ["https://aquafire.local.inblock.io:8443"];;
  allows e "https://aquafire.local.inblock.io:8443";;
  forbids e "https://aquafire.local.inblock.io";;
  forbids e "https://aquafire.local.inblock.io:9443").
Definition policy_matches_rp_id_hash_only_for_configured_rps : bool := passes (
  b ← with_rp builder "inblock.io" ["https://siwx-oidc.inblock.io"; "https://aquafire.inblock.io"];
  b ← with_rp b "siwx-oidc.inblock.io" ["https://siwx-oidc.inblock.io"];
  p ← unwrap (build b);
  shared ← entry_of p "inblock.io";
  assert_eq (rp_id shared) "inblock.io";;
  allows shared "https://aquafire.inblock.io";;
  legacy ← entry_of p "siwx-oidc.inblock.io";
  assert_eq (rp_id legacy) "siwx-oidc.inblock.io";;
  allows legacy "https://siwx-oidc.inblock.io";;
  forbids legacy "https://aquafire.inblock.io";;
  assert_eq (length (ap_entries p)) 2;;
  each ["evil.io"; "INBLOCK.IO"; "io"; "aquafire.inblock.io"] (λ other,
    assert (is_none (entry_for_rp_id_hash p (hash other))));;
  assert (is_none (entry_for_rp_id_hash p (replicate 32 Byte.x00)));;
  assert (match build builder with Err NoRp => true | _ => false end);;
  err ← refused_rp "inblock.io" [];
  assert (match err with NoOrigins _ => true | _ => false end);;
  b ← with_rp builder "inblock.io" ["https://a.inblock.io"];
  assert (match rp b "INBLOCK.io" ["https://b.inblock.io"] with
    | Err (DuplicateRpId _) => true | _ => false end)).
Definition related_origins_merge_after_origins_deduplicated_and_normalised : bool := passes (
  b ← unwrap (rp_with_related_origins builder "dev.siwx.inblock.io"
    ["https://dev.siwx.inblock.io"; "https://a.dev.siwx.inblock.io/"]
    ["HTTPS://Dev.Aqua-Node.Inblock.io/"; "https://dev.siwx.inblock.io";
     "https://dev.aqua-node.inblock.io:443"; "http://localhost:3000"]);
  p ← unwrap (build b);
  e ← entry_of p "dev.siwx.inblock.io";
  assert_eq (rp_origins e) ["https://dev.siwx.inblock.io"; "https://a.dev.siwx.inblock.io";
    "https://dev.aqua-node.inblock.io"; "http://localhost:3000"];;
  allows e "https://dev.aqua-node.inblock.io";;
  assert_eq (length (ap_entries p)) 1).
Definition fields_of_entry (e : RpEntry) : string * bytes * list string :=
  (rp_id e, rp_id_hash e, rp_origins e).
Definition rp_is_rp_with_no_related_origins : bool := passes (
  let origins := ["https://a.inblock.io"; "https://b.inblock.io"] in
  a ← with_rp builder "inblock.io" origins; a ← unwrap (build a);
  b ← unwrap (rp_with_related_origins builder "inblock.io" origins []); b ← unwrap (build b);
  assert_eq (map fields_of_entry (ap_entries a), ap_require_uv a)
    (map fields_of_entry (ap_entries b), ap_require_uv b);;
  assert (match rp builder "inblock.io" [], rp_with_related_origins builder "inblock.io" [] [] with
    | Err (NoOrigins i), Err (NoOrigins j) => String.eqb i j | _, _ => false end)).
Definition policy_require_uv_defaults_true : bool := passes (
  b ← with_rp builder "inblock.io" ["https://a.inblock.io"]; p ← unwrap (build b);
  assert (ap_require_uv p);;
  b ← with_rp (set_require_uv builder false) "inblock.io" ["https://a.inblock.io"];
  p ← unwrap (build b);
  assert (negb (ap_require_uv p))).

Definition policy_tests : list bool := [
  policy_refuses_origin_outside_its_rp;
  policy_refuses_wildcards_paths_and_http_except_localhost;
  policy_refuses_ip_and_single_label_rp_ids_except_localhost;
  policy_normalises_case_and_trailing_slash_to_browser_origin_form; policy_accepts_port_origins;
  policy_matches_rp_id_hash_only_for_configured_rps;
  related_origins_merge_after_origins_deduplicated_and_normalised;
  rp_is_rp_with_no_related_origins; policy_require_uv_defaults_true].
Example policy_tests_pass : forallb id policy_tests = true.
Proof. vm_refl. Qed.
End PolicyTests.

(** ** src/webauthn_hint.rs *)

Module HintTests.
Definition did (seed : Z) : string := soft_did (new_seeded seed "inblock.io").
Definition principal {St} (seed : Z) : Test St Principal := unwrap (from_trusted_did (did seed)).
Definition strs (hints : list DidHint) : list string := map dh_did hints.
(** What [hints_from_cookie_header] finds in a header. *)
Definition assert_hints {St} (header : string) (dids : list string) : Test St unit :=
  assert_eq (strs (hints_from_cookie_header header)) dids.

Definition hint_cookie_roundtrip : bool := passes (
  p ← principal 41;
  let set := hint_set_cookie p (for_rp_id "inblock.io") in
  pair ← unwrap_some (head (split ";" set));
  assert_hints ("session=opaque; " +:+ pair +:+ "; theme=dark") [principal_did p]).
Definition set_cookie_attributes : bool := passes (
  p ← principal 42;
  let cfg := for_rp_id "inblock.io" in
  assert_eq (hc_domain cfg) (Some "inblock.io");;
  assert (hc_secure cfg);;
  assert_eq (hc_max_age_secs cfg) 34560000%Z;;
  assert_eq (hint_set_cookie p cfg) ("aqua_did_hint=" +:+ principal_did p
    +:+ "; Domain=inblock.io; Path=/; Max-Age=34560000; Secure; SameSite=Lax");;
  assert_eq HINT_COOKIE_NAME "aqua_did_hint";;
  assert (negb (contains "HttpOnly" (hint_set_cookie p cfg)))).
Definition localhost_rp_is_host_only : bool := passes (
  p ← principal 43;
  let cfg := for_rp_id "localhost" in
  assert_eq (hc_domain cfg) None;;
  assert_eq (hint_set_cookie p cfg) ("aqua_did_hint=" +:+ principal_did p
    +:+ "; Path=/; Max-Age=34560000; Secure; SameSite=Lax");;
  let plain := {| hc_domain := hc_domain cfg; hc_secure := false;
    hc_max_age_secs := hc_max_age_secs cfg |} in
  assert_eq (hint_set_cookie p plain) ("aqua_did_hint=" +:+ principal_did p
    +:+ "; Path=/; Max-Age=34560000; SameSite=Lax")).
Definition parse_returns_all_values_for_duplicate_names : bool := passes (
  let a := did 44 in let b := did 45 in
  assert_hints ("aqua_did_hint=" +:+ a +:+ "; other=1; aqua_did_hint=" +:+ b) [a; b];;
  assert_hints ("aqua_did_hint=" +:+ quoted b +:+ ";aqua_did_hint=" +:+ a +:+ "  ") [b; a]).
Definition parse_drops_malformed_and_non_p256_values : bool := passes (
  let good := did 46 in
  assert_hints ("aqua_did_hint=garbage; "
    +:+ "aqua_did_hint=did:key:z6MkhaXgBZDvotDkL5257faiztiGiC2QtKLGpbnnEGta2doK; "
    +:+ "aqua_did_hint=did:pkh:eip155:1:0x0000000000000000000000000000000000000000; "
    +:+ "aqua_did_hint=; aqua_did_hint; =x; ; "
    +:+ "aqua_did_hint_x=" +:+ good +:+ "; Aqua_Did_Hint=" +:+ good +:+ "; x_aqua_did_hint="
    +:+ good +:+ "; aqua_did_hint=" +:+ good) [good];;
  assert_hints "" []).
Definition clear_cookie_sets_max_age_0 : bool := passes (
  assert_eq (hint_clear_cookie (for_rp_id "inblock.io"))
    "aqua_did_hint=; Domain=inblock.io; Path=/; Max-Age=0; Secure; SameSite=Lax";;
  assert_eq (hint_clear_cookie (for_rp_id "localhost"))
    "aqua_did_hint=; Path=/; Max-Age=0; Secure; SameSite=Lax").

Definition hint_tests : list bool := [
  hint_cookie_roundtrip; set_cookie_attributes; localhost_rp_is_host_only;
  parse_returns_all_values_for_duplicate_names; parse_drops_malformed_and_non_p256_values;
  clear_cookie_sets_max_age_0].
Example hint_tests_pass : forallb id hint_tests = true.
Proof. vm_refl. Qed.
End HintTests.

(** ** src/webauthn_recover.rs *)

Module RecoverTests.
Definition RP : string := "inblock.io".
Definition LEGACY_RP : string := "siwx.inblock.io".
Definition ORIGIN : string := "https://aquafire.local.inblock.io:8443".
Definition SIWX_ORIGIN : string := "https://siwx.inblock.io".
Definition CRED_ID : bytes := replicate 16 Byte.x07.
Definition USER_HANDLE : bytes := replicate 32 Byte.x09.
Definition CHALLENGE : bytes := as_bytes "0123456789abcdef0123456789abcdef".
Definition UP_UV : byte := Byte.x05.
(** How many of a loop's keys are tried. *)
Definition SEEDS : nat := 4.

Definition b64 (b : bytes) : string := b64url_encode b.
Definition unb64 {St} (s : string) : Test St bytes := unwrap (b64url_decode_any_pad s).
Definition policy_uv {St} (require_uv : bool) : Test St AssertionPolicy :=
  b ← unwrap (rp (set_require_uv builder require_uv) RP [ORIGIN; SIWX_ORIGIN]);
  b ← unwrap (rp b LEGACY_RP [SIWX_ORIGIN]);
  unwrap (build b).
Definition policy {St} : Test St AssertionPolicy := policy_uv true.
Definition passkey_with (key : Curve.signing) : SoftPasskey := {|
  sp_key := key : signing_key; sp_credential_id := CRED_ID; sp_rp_id := RP;
  sp_user_handle := Some USER_HANDLE |}.
Definition passkey (seed : Z) : SoftPasskey := passkey_with (sp_key (new_seeded seed RP)).
Definition opts (origin : string) : AssertOpts := assert_opts CHALLENGE origin.
Definition auth_data (rp_id : string) (flags : byte) : bytes :=
  sha256 (as_bytes rp_id) ++ [flags] ++ replicate 4 Byte.x00.
(** A member of a JSON object, as text. *)
Definition m (name value : string) : string := quoted name +:+ ":" +:+ quoted value.
Definition client_data (type_ : string) (challenge : bytes) (origin extra : string) : bytes :=
  as_bytes ("{" +:+ m "type" type_ +:+ "," +:+ m "challenge" (b64 challenge) +:+ ","
    +:+ m "origin" origin +:+ extra +:+ "}").
Definition response_with (a : AssertionJson) (r : AssertionResponseJson) : AssertionJson := {|
  aj_id := aj_id a; aj_raw_id := aj_raw_id a; aj_type := aj_type a; aj_response := r;
  aj_client_extension_results := aj_client_extension_results a |}.
Definition with_sig (a : AssertionJson) (sig_der : bytes) : AssertionJson :=
  let r := aj_response a in response_with a {|
    ar_authenticator_data := ar_authenticator_data r; ar_client_data_json := ar_client_data_json r;
    ar_signature := b64 sig_der; ar_user_handle := ar_user_handle r |}.
Definition with_auth_data (a : AssertionJson) (ad : bytes) : AssertionJson :=
  let r := aj_response a in response_with a {|
    ar_authenticator_data := b64 ad; ar_client_data_json := ar_client_data_json r;
    ar_signature := ar_signature r; ar_user_handle := ar_user_handle r |}.
Definition with_client_data (a : AssertionJson) (cdj : string) : AssertionJson :=
  let r := aj_response a in response_with a {|
    ar_authenticator_data := ar_authenticator_data r; ar_client_data_json := cdj;
    ar_signature := ar_signature r; ar_user_handle := ar_user_handle r |}.
Definition good (pk : SoftPasskey) : AssertionJson := soft_assert pk (opts ORIGIN).
Definition Verdict : Type := result RecoveredAssertion AssertionError.
Definition verify_as {St} (a : AssertionJson) (challenge : bytes) (require_uv : bool)
  : Test St Verdict := p ← policy_uv require_uv; mret (verify_and_recover a (Exact challenge) p).
Definition verify {St} (a : AssertionJson) : Test St Verdict := verify_as a CHALLENGE true.
Definition accepted {St} (a : AssertionJson) : Test St RecoveredAssertion :=
  r ← verify a; unwrap r.
(** [assert_eq!(verify(..), Err(..))] for an error without text. *)
Definition error_tag (e : AssertionError) : nat :=
  match e with
  | Malformed _ => 0 | RpIdNotAllowed => 1 | OriginNotAllowed => 2 | CrossOrigin => 3
  | TopOriginPresent => 4 | WrongType => 5 | ChallengeMismatch => 6 | UserPresenceMissing => 7
  | UserVerificationMissing => 8 | BadSignature => 9 | InvalidNodeUrl _ => 10
  end.
Definition assert_refused {St} (r : Verdict) (want : AssertionError) : Test St unit :=
  assert (match r with Err e => error_tag e =? error_tag want | Ok _ => false end).
Definition refused {St} (a : AssertionJson) (want : AssertionError) : Test St unit :=
  r ← verify a; assert_refused r want.
Definition malformed : AssertionError := Malformed "".
Definition same_key (k k' : toy_key) : bool := bytes_eqb (key_bytes k) (key_bytes k').
Definition holds (rec : RecoveredAssertion) (vk : toy_key) : bool :=
  same_key (ra_candidates rec).1 vk || same_key (ra_candidates rec).2 vk.
Definition verifying_key (pk : SoftPasskey) : toy_key := Curve.public (sp_key pk).
Definition assert_holds {St} (rec : RecoveredAssertion) (pk : SoftPasskey) : Test St unit :=
  assert (holds rec (verifying_key pk)).
Definition with_flags (o : AssertOpts) (flags : byte) : AssertOpts := {|
  ao_challenge := ao_challenge o; ao_origin := ao_origin o; ao_flags := flags;
  ao_cross_origin := ao_cross_origin o; ao_rp_id_override := ao_rp_id_override o;
  ao_type := ao_type o; ao_high_s := ao_high_s o |}.
Definition with_rp_id (o : AssertOpts) (rp_id : string) : AssertOpts := {|
  ao_challenge := ao_challenge o; ao_origin := ao_origin o; ao_flags := ao_flags o;
  ao_cross_origin := ao_cross_origin o; ao_rp_id_override := Some rp_id;
  ao_type := ao_type o; ao_high_s := ao_high_s o |}.
Definition with_type (o : AssertOpts) (type_ : string) : AssertOpts := {|
  ao_challenge := ao_challenge o; ao_origin := ao_origin o; ao_flags := ao_flags o;
  ao_cross_origin := ao_cross_origin o; ao_rp_id_override := ao_rp_id_override o;
  ao_type := type_; ao_high_s := ao_high_s o |}.
Definition with_cross_origin (o : AssertOpts) (c : option bool) : AssertOpts := {|
  ao_challenge := ao_challenge o; ao_origin := ao_origin o; ao_flags := ao_flags o;
  ao_cross_origin := c; ao_rp_id_override := ao_rp_id_override o;
  ao_type := ao_type o; ao_high_s := ao_high_s o |}.
Definition with_high_s (o : AssertOpts) (high_s : bool) : AssertOpts := {|
  ao_challenge := ao_challenge o; ao_origin := ao_origin o; ao_flags := ao_flags o;
  ao_cross_origin := ao_cross_origin o; ao_rp_id_override := ao_rp_id_override o;
  ao_type := ao_type o; ao_high_s := high_s |}.

(** One round of the loop: a fresh key and a fresh challenge. *)
Definition recovery_round {St} (i : Z) : Test St unit :=
  let '(rng, key) := Curve.random_signing (Z.to_N i, 0%N) in
  let pk := passkey_with key in
  let challenge := Curve.draw rng in
  p ← policy;
  rec ← unwrap (verify_and_recover (soft_assert pk (assert_opts challenge ORIGIN))
    (Exact challenge) p);
  assert (negb (same_key (ra_candidates rec).1 (ra_candidates rec).2));;
  assert_holds rec pk;;
  let dids := candidate_dids rec in
  assert (negb (String.eqb dids.1 dids.2));;
  assert (starts_with "did:key:zDn" dids.1 && starts_with "did:key:zDn" dids.2);;
  let signer := did_key_of (verifying_key pk) in
  assert (xorb (String.eqb dids.1 signer) (String.eqb dids.2 signer));;
  assert_eq (ra_rp_id rec) RP;;
  assert_eq (ra_origin rec) ORIGIN;;
  assert (ra_user_verified rec);;
  assert (negb (ra_backup_eligible rec) && negb (ra_backup_state rec));;
  assert_eq (ra_credential_id rec) CRED_ID;;
  assert_eq (ra_user_handle rec) (Some USER_HANDLE).
Definition recover_property_signer_among_exactly_two_candidates : bool := passes (
  each (Z.of_nat <$> seq 1 SEEDS) recovery_round).
Definition recover_candidate_set_invariant_under_s_negation : bool := passes (
  let pk := passkey 11 in
  let low := soft_assert pk (opts ORIGIN) in
  let high := soft_assert pk (with_high_s (opts ORIGIN) true) in
  assert (negb (String.eqb (ar_signature (aj_response low)) (ar_signature (aj_response high))));;
  one ← accepted low; two ← accepted high;
  assert (holds two (ra_candidates one).1 && holds two (ra_candidates one).2
    && holds one (ra_candidates two).1 && holds one (ra_candidates two).2);;
  assert_holds one pk).
Definition rejects_challenge_mismatch : bool := passes (
  let a := good (passkey 1) in
  accepted a;;
  other ← verify_as a (as_bytes "another") true; assert_refused other ChallengeMismatch;;
  empty ← verify_as a [] true; assert_refused empty ChallengeMismatch).
Definition rejects_origin_not_listed : bool := passes (
  each ["https://evil.local.inblock.io:8443"; "https://aquafire.local.inblock.io";
    "https://aquafire.local.inblock.io:8443/"; "https://evil.example"] (λ origin,
    refused (soft_assert (passkey 2) (opts origin)) OriginNotAllowed)).
Definition rejects_origin_listed_only_under_other_rp : bool := passes (
  let at_ rp origin := soft_assert (passkey 3) (with_rp_id (opts origin) rp) in
  rec ← accepted (at_ LEGACY_RP SIWX_ORIGIN); assert_eq (ra_rp_id rec) LEGACY_RP;;
  rec ← accepted (at_ RP SIWX_ORIGIN); assert_eq (ra_rp_id rec) RP;;
  refused (at_ LEGACY_RP ORIGIN) OriginNotAllowed).
Definition rejects_rp_id_hash_not_allowed : bool := passes (
  each ["evil.io"; "local.inblock.io"; "io"; "INBLOCK.IO"] (λ rp,
    refused (soft_assert (passkey 4) (with_rp_id (opts ORIGIN) rp)) RpIdNotAllowed)).
Definition rejects_uv_clear_when_required : bool := passes (
  let pk := passkey 5 in
  let a := soft_assert pk (with_flags (opts ORIGIN) Byte.x01) in
  refused a UserVerificationMissing;;
  r ← verify_as a CHALLENGE false; rec ← unwrap r;
  assert (negb (ra_user_verified rec));;
  assert_holds rec pk).
(** A passkey's assertion over a clientDataJSON with more members. *)
Definition with_extra (pk : SoftPasskey) (extra : string) : AssertionJson :=
  assert_raw pk (auth_data RP UP_UV) (client_data "webauthn.get" CHALLENGE ORIGIN extra) false.
Definition cross_origin (value : string) : string := "," +:+ quoted "crossOrigin" +:+ ":" +:+ value.
Definition top_origin (value : string) : string := "," +:+ quoted "topOrigin" +:+ ":" +:+ value.
Definition rejects_cross_origin_true : bool := passes (
  let with_ := with_extra (passkey 6) in
  refused (with_ (cross_origin "true")) CrossOrigin;;
  accepted (with_ (cross_origin "false"));;
  accepted (with_ "");;
  refused (with_ (cross_origin (quoted "false"))) malformed).
Definition rejects_top_origin_present : bool := passes (
  let with_ := with_extra (passkey 7) in
  refused (with_ (cross_origin "false" +:+ top_origin (quoted "https://evil.example")))
    TopOriginPresent;;
  refused (with_ (top_origin "null")) TopOriginPresent;;
  accepted (with_ ("," +:+ m "other_keys_can_be_added_here" "x"))).
Definition rejects_type_webauthn_create : bool := passes (
  each ["webauthn.create"; "payment.get"] (λ type_,
    refused (soft_assert (passkey 8) (with_type (opts ORIGIN) type_)) WrongType)).
Definition rejects_up_clear : bool := passes (
  let pk := passkey 9 in
  refused (soft_assert pk (with_flags (opts ORIGIN) Byte.x04)) UserPresenceMissing;;
  lax ← verify_as (soft_assert pk (with_flags (opts ORIGIN) Byte.x00)) CHALLENGE false;
  assert_refused lax UserPresenceMissing).
Definition members (ms : list string) : bytes :=
  as_bytes ("{" +:+ String.concat "," ms +:+ "}").
Definition rejects_duplicate_client_data_keys : bool := passes (
  let raw cdj := assert_raw (passkey 10) (auth_data RP UP_UV) cdj false in
  let type_ := m "type" "webauthn.get" in
  let good_c := m "challenge" (b64 CHALLENGE) in
  let bad_c := m "challenge" (b64 (as_bytes "another challenge")) in
  let origin := m "origin" ORIGIN in
  let evil := m "origin" "https://evil.example" in
  accepted (raw (members [type_; good_c; origin]));;
  each [[type_; good_c; origin; evil]; [type_; good_c; evil; origin];
    [type_; bad_c; good_c; origin]; [type_; good_c; bad_c; origin];
    [m "type" "webauthn.create"; type_; good_c; origin];
    [type_; good_c; origin; quoted "crossOrigin" +:+ ":true"; quoted "crossOrigin" +:+ ":false"]]
    (λ ms, refused (raw (members ms)) malformed)).
Definition rejects_non_p256_der_signature : bool := passes (
  let a := good (passkey 12) in
  accepted a;;
  der ← unb64 (ar_signature (aj_response a));
  sig ← unwrap (Curve.from_der der);
  each [Curve.to_bytes sig; []; take (length der - 1) der; der ++ [Byte.x00];
    [Byte.x30; Byte.x06; Byte.x02; Byte.x01; Byte.x00; Byte.x02; Byte.x01; Byte.x01];
    [Byte.x30; Byte.x26; Byte.x02; Byte.x21; Byte.x00] ++ Curve.bytes32 Curve.order
      ++ [Byte.x02; Byte.x01; Byte.x01]] (λ sig_der,
    refused (with_sig a sig_der) BadSignature)).
Definition tampered_auth_data_does_not_recover_signer : bool := passes (
  let pk := passkey 13 in
  let a := good pk in
  ad ← unb64 (ar_authenticator_data (aj_response a));
  let tampered := take 32 ad ++ map (λ b, byte_of (N.lor (byte_N b) 8)) (take 1 (drop 32 ad))
    ++ drop 33 ad in
  rec ← accepted (with_auth_data a tampered);
  assert (ra_backup_eligible rec);;
  assert (negb (same_key (ra_candidates rec).1 (ra_candidates rec).2));;
  assert (negb (holds rec (verifying_key pk)))).
Definition padded (b : bytes) : string :=
  let s := b64 b in s +:+ String.concat "" (replicate ((4 - String.length s mod 4) mod 4) "=").
(** The two shapes of one assertion. *)
Definition rs_shape (ad cdj sig : bytes) : json := json_object [
  ("id", JString (b64 CRED_ID)); ("rawId", JString (b64 CRED_ID));
  ("response", json_object [("authenticatorData", JString (b64 ad));
    ("clientDataJSON", JString (b64 cdj)); ("signature", JString (b64 sig)); ("userHandle", JNull)]);
  ("extensions", empty_object); ("type", JString "public-key")].
Definition browser_shape (ad cdj sig : bytes) : json := json_object [
  ("id", JString (padded CRED_ID)); ("rawId", JString (padded CRED_ID));
  ("type", JString "public-key"); ("authenticatorAttachment", JString "platform");
  ("response", json_object [("authenticatorData", JString (padded ad));
    ("clientDataJSON", JString (padded cdj)); ("signature", JString (padded sig));
    ("userHandle", JString (padded USER_HANDLE))]);
  ("clientExtensionResults", empty_object)].
Definition with_id (a : AssertionJson) (id type_ : string) : AssertionJson := {|
  aj_id := id; aj_raw_id := aj_raw_id a; aj_type := type_; aj_response := aj_response a;
  aj_client_extension_results := aj_client_extension_results a |}.
Definition accepts_webauthn_rs_assertion_json_shape : bool := passes (
  let pk := passkey 14 in
  let base := good pk in
  ad ← unb64 (ar_authenticator_data (aj_response base));
  cdj ← unb64 (ar_client_data_json (aj_response base));
  sig ← unb64 (ar_signature (aj_response base));
  a ← unwrap_some (assertion_of_json (rs_shape ad cdj sig));
  rec ← accepted a;
  assert_eq (ra_user_handle rec) None;;
  assert_holds rec pk;;
  a ← unwrap_some (assertion_of_json (browser_shape ad cdj sig));
  rec ← accepted a;
  assert_eq (ra_user_handle rec) (Some USER_HANDLE);;
  assert_eq (ra_credential_id rec) CRED_ID;;
  assert_holds rec pk;;
  each [with_id base (b64 (as_bytes "some other credential")) (aj_type base);
    with_id base (aj_id base) "password"; with_auth_data base (take 36 ad);
    with_client_data base "not+base64url/"; with_client_data base (b64 (as_bytes "not json"))]
    (λ a, refused a malformed)).
Definition legacy_verify_accepts_uv0_and_cross_origin_true : bool := passes (
  let pk := passkey 15 in
  let a := soft_assert pk (with_cross_origin (with_flags (opts ORIGIN) Byte.x01) (Some true)) in
  ad ← unb64 (ar_authenticator_data (aj_response a));
  cdj ← unb64 (ar_client_data_json (aj_response a));
  der ← unb64 (ar_signature (aj_response a));
  sig ← unwrap (Curve.from_der der);
  assert_true (verify_webauthn_assertion {|
    wp_credential_public_key := key_bytes (verifying_key pk); wp_authenticator_data := ad;
    wp_client_data_json := cdj; wp_signature := Curve.to_bytes sig;
    wp_expected_challenge := CHALLENGE; wp_expected_origin := ORIGIN; wp_expected_rp_id := RP |})).

Definition recover_tests : list bool := [
  recover_property_signer_among_exactly_two_candidates;
  recover_candidate_set_invariant_under_s_negation; rejects_challenge_mismatch;
  rejects_origin_not_listed; rejects_origin_listed_only_under_other_rp;
  rejects_rp_id_hash_not_allowed; rejects_uv_clear_when_required; rejects_cross_origin_true;
  rejects_top_origin_present; rejects_type_webauthn_create; rejects_up_clear;
  rejects_duplicate_client_data_keys; rejects_non_p256_der_signature;
  tampered_auth_data_does_not_recover_signer; accepts_webauthn_rs_assertion_json_shape;
  legacy_verify_accepts_uv0_and_cross_origin_true].
Example recover_tests_pass : forallb id recover_tests = true.
Proof. vm_refl. Qed.
End RecoverTests.

(** ** src/webauthn_select.rs *)

Module SelectTests.
Import RecoverTests.
Definition CRED : bytes := as_bytes "credential-one".
Definition ED25519_DID : string := "did:key:z6MkhaXgBZDvotDkL5257faiztiGiC2QtKLGpbnnEGta2doK".
Definition select_policy {St} : Test St AssertionPolicy :=
  b ← unwrap (rp builder RP [ORIGIN]); unwrap (build b).
Definition key (seed : Z) : Curve.signing := sp_key (new_seeded seed RP).
Definition compressed (sk : Curve.signing) : bytes := key_bytes (Curve.public sk).
Definition did_of (sk : Curve.signing) : string := p256_did_key_from_pubkey (compressed sk).
Definition recovered {St} (sk : Curve.signing) (cred : bytes) (challenge : string)
  : Test St RecoveredAssertion :=
  let passkey := {| sp_key := sk : signing_key; sp_credential_id := cred; sp_rp_id := RP;
    sp_user_handle := None |} in
  let challenge := as_bytes challenge in
  p ← select_policy;
  unwrap (verify_and_recover (soft_assert passkey (assert_opts challenge ORIGIN))
    (Exact challenge) p).
Definition signer_known (rec : RecoveredAssertion) (sk : Curve.signing) : bool * bool :=
  both (String.eqb (did_of sk)) (candidate_dids rec).
Definition hint {St} (did : string) : Test St DidHint := unwrap_some (parse_hint did).
Definition selected {St} (s : Selection) : Test St (Principal * SelectedBy) :=
  match s with Selected p by_ => mret (p, by_) | _ => unwrap_some None end.
Definition pending {St} (s : Selection) : Test St PendingRecovery :=
  match s with NeedSecondAssertion p => mret p | _ => unwrap_some None end.
Definition by_tag (b : SelectedBy) : nat :=
  match b with ByHint => 0 | ByKnownPrincipal => 1 | ByIntersection => 2 end.
(** Selected as one DID, for one reason. *)
Definition assert_selected {St} (s : Selection) (did : string) (by_ : SelectedBy) : Test St unit :=
  '(p, b) ← selected s;
  assert_eq (principal_did p) did;;
  assert_eq (by_tag b) (by_tag by_).
Definition error_is (r : result Principal SelectionError) (want : SelectionError) : bool :=
  match r, want with
  | Err CredentialMismatch, CredentialMismatch | Err NoCommonCandidate, NoCommonCandidate
  | Err Ambiguous, Ambiguous => true
  | _, _ => false
  end.

Definition select_by_hint : bool := passes (
  let sk := key 21 in
  let me := did_of sk in
  rec ← recovered sk CRED "challenge-1";
  mine ← hint me;
  assert_selected (select rec [mine] (false, false)) me ByHint;;
  let other_known := both negb (signer_known rec sk) in
  assert_selected (select rec [mine] other_known) me ByHint).
Definition select_ignores_bogus_hint_and_uses_genuine : bool := passes (
  let sk := key 22 in
  let me := did_of sk in
  rec ← recovered sk CRED "challenge-2";
  bogus ← hint (did_of (key 99));
  mine ← hint me;
  pending (select rec [bogus] (false, false));;
  each [[bogus; mine]; [mine; bogus]] (λ hints,
    assert_selected (select rec hints (false, false)) me ByHint);;
  a ← hint (candidate_dids rec).1; b ← hint (candidate_dids rec).2;
  pending (select rec [a; b] (false, false));;
  assert_selected (select rec [a; b] (signer_known rec sk)) me ByKnownPrincipal).
Definition select_by_unique_known : bool := passes (
  let sk := key 23 in
  rec ← recovered sk CRED "challenge-3";
  assert_selected (select rec [] (signer_known rec sk)) (did_of sk) ByKnownPrincipal).
Definition both_known_needs_second : bool := passes (
  rec ← recovered (key 24) CRED "challenge-4";
  p ← pending (select rec [] (true, true));
  assert_eq (pr_credential_id p) CRED).
Definition none_known_no_hint_needs_second : bool := passes (
  rec ← recovered (key 25) CRED "challenge-5";
  p ← pending (select rec [] (false, false));
  assert_eq (pr_credential_id p) CRED).
Definition intersection_yields_signer : bool := passes (
  let sk := key 26 in
  first ← recovered sk CRED "challenge-6a";
  p ← pending (select first [] (false, false));
  second ← recovered sk CRED "challenge-6b";
  one ← unwrap (resolve p second);
  assert_eq (principal_did one) (did_of sk);;
  assert (error_is (resolve p first) Ambiguous)).
Definition intersection_with_assertion_by_other_key_fails : bool := passes (
  first ← recovered (key 27) CRED "challenge-7a";
  p ← pending (select first [] (false, false));
  second ← recovered (key 28) CRED "challenge-7b";
  assert (error_is (resolve p second) NoCommonCandidate)).
Definition intersection_requires_same_credential_id : bool := passes (
  let sk := key 29 in
  first ← recovered sk CRED "challenge-8a";
  p ← pending (select first [] (false, false));
  second ← recovered sk (as_bytes "credential-two") "challenge-8b";
  assert (error_is (resolve p second) CredentialMismatch)).
(** [assert_eq!] of two values. *)
Definition assert_value {St} (v w : json) : Test St unit :=
  assert_eq (write_json (as_value v)) (write_json (as_value w)).
Definition pending_recovery_serde_roundtrip : bool := passes (
  let sk := key 30 in
  first ← recovered sk CRED "challenge-9a";
  p ← pending (select first [] (false, false));
  let '(a, b) := candidate_dids first in
  let candidates := JArray [JString a; JString b] in
  let credential_id := JString (b64 CRED) in
  let json := pending_to_json p in
  assert_value json (json_object [("candidates", candidates); ("credential_id", credential_id)]);;
  back ← unwrap_some (pending_of_json json);
  assert_value (pending_to_json back) json;;
  second ← recovered sk CRED "challenge-9b";
  one ← unwrap (resolve back second);
  assert_eq (principal_did one) (did_of sk);;
  each [[("candidates", JArray [JString a; JString ED25519_DID]); ("credential_id", credential_id)];
    [("candidates", JArray [JString a]); ("credential_id", credential_id)];
    [("candidates", candidates); ("credential_id", JString "not+base64url/")]] (λ bad,
    assert (is_none (pending_of_json (json_object bad))))).
Definition selected_principal_is_did_key_zdn : bool := passes (
  let sk := key 31 in
  rec ← recovered sk CRED "challenge-10";
  mine ← hint (did_of sk);
  '(p, _) ← selected (select rec [mine] (false, false));
  assert (starts_with "did:key:zDn" (principal_did p));;
  again ← unwrap (from_trusted_did (principal_did p));
  assert_eq (principal_did again) (principal_did p);;
  label ← unwrap (principal_method_label p);
  assert_eq label "P-256").
(** [to_uppercase] of ASCII text. *)
Fixpoint to_upper (s : string) : string :=
  match s with
  | EmptyString => EmptyString
  | String c s' => String (if is_lower c then Ascii.ascii_of_N (code c - 32) else c) (to_upper s')
  end.
Definition did_hint_parse_rejects_non_p256 : bool := passes (
  let sk := key 32 in
  let good := did_of sk in
  h ← hint good;
  assert_eq (dh_did h) good;;
  each [""; "did:key:"; "did:key:zDn"; ED25519_DID; "did:pkh:p256:0x" +:+ hex_encode (compressed sk);
    " " +:+ good; String.substring 0 (String.length good - 1) good; to_upper good;
    "did:pkh:eip155:1:0x0000000000000000000000000000000000000000"] (λ bad,
    assert (is_none (parse_hint bad)))).
Definition RSA_SPKI_HEX : string := "30819f300d06092a864886f70d010101050003818d0030818902818100e0b11e70af955e8d86153d92d001a0015695ad1476ba93fe72c0e47f642a16b90a8e24fa4e5f7e29ac270e6f2537ede2a5e63b7b67731cd95237ddc7a77fb5172ae095fe4839167468b2456c674598222cbf288b825043ee3ef18e9a453cd870e4b9f6b7ee56e69cc62a69d61d037dd2da3ba93e0303c5a6c2511c9c712ba5ad0203010001".
(** The same structure for another curve. *)
Definition SECP256K1_HEAD : string := "3056301006072a8648ce3d020106052b8104000a03420004".
Definition did_hint_from_spki_der : bool := passes (
  let sk := key 33 in
  let spki := Curve.to_spki (Curve.public sk) in
  assert_eq (length spki) 91;;
  h ← unwrap (hint_from_spki_der spki);
  assert_eq (dh_did h) (did_of sk);;
  assert (starts_with "did:key:zDn" (dh_did h));;
  rsa ← unwrap (hex_decode RSA_SPKI_HEX);
  secp256k1 ← unwrap (hex_decode SECP256K1_HEAD);
  ed25519 ← unwrap (hex_decode "302a300506032b6570032100");
  each [rsa; secp256k1 ++ drop 27 spki; ed25519 ++ replicate 32 Byte.x07; spki ++ [Byte.x00];
    take 90 spki; take 90 spki ++ map (λ b, byte_of (N.lxor (byte_N b) 1)) (drop 90 spki); []]
    (λ b, assert_err (hint_from_spki_der b))).

Definition select_tests : list bool := [
  select_by_hint; select_ignores_bogus_hint_and_uses_genuine; select_by_unique_known;
  both_known_needs_second; none_known_no_hint_needs_second; intersection_yields_signer;
  intersection_with_assertion_by_other_key_fails; intersection_requires_same_credential_id;
  pending_recovery_serde_roundtrip; selected_principal_is_did_key_zdn;
  did_hint_parse_rejects_non_p256; did_hint_from_spki_der].
Example select_tests_pass : forallb id select_tests = true.
Proof. vm_refl. Qed.
End SelectTests.

(** ** src/webauthn_options.rs *)

Module OptionsTests.
Import RecoverTests SelectTests.
Definition OPTIONS_CHALLENGE : bytes := replicate 32 Byte.xa5.
(** [creation_options] draws the user id. *)
Definition creation {St} : Test St CreationOptionsJson :=
  user_id ← random_bytes;
  mret (creation_options RP "inblock.io" PASSKEY_USER_NAME OPTIONS_CHALLENGE user_id).
Definition keys (v : json) : list string := match v with JObject ms => map fst ms | _ => [] end.
(** The names of an object, those of [expected] in any order. *)
Definition assert_keys {St} (v : json) (expected : list string) : Test St unit :=
  assert (bool_decide (length (keys v) = length expected)
    && forallb (λ k, existsb (String.eqb k) (keys v)) expected).
Definition is_b64url_text (v : json) : bool :=
  match v with JString s => negb (str_is_empty s) && str_forallb (λ c,
    is_alnum c || Ascii.eqb c "-" || Ascii.eqb c "_") s | _ => false end.
Definition text (v : json) : string := match v with JString s => s | _ => "" end.
Definition public_key (v : json) : json := member "publicKey" v.

Definition creation_options_es256_only : bool := passes (
  o ← creation;
  assert_value (member "pubKeyCredParams" (public_key (creation_options_to_json o)))
    (JArray [json_object [("type", JString "public-key"); ("alg", JNumber "-7")]]);;
  assert_eq (map cp_alg (pc_pub_key_cred_params (co_public_key o))) [(-7)%Z]).
Definition creation_options_resident_key_and_uv_required : bool := passes (
  o ← creation;
  let pk := public_key (creation_options_to_json o) in
  assert_value (member "authenticatorSelection" pk) (json_object [
    ("residentKey", JString "required"); ("requireResidentKey", JBool true);
    ("userVerification", JString "required")]);;
  assert_eq (text (member "attestation" pk)) "none";;
  assert_value (member "extensions" pk) (json_object [("credProps", JBool true)])).
Definition creation_user_id_is_32_random_bytes_and_fresh_per_call : bool := passes (
  ids ← foldl (λ t _, ids ← t; o ← creation;
    user_id ← unb64 (ue_id (pc_user (co_public_key o))); mret (ids ++ [user_id]))
    (mret []) (seq 0 16);
  each ids (λ user_id,
    assert_eq (length user_id) 32;;
    assert (bool_decide (user_id ≠ replicate 32 Byte.x00));;
    assert (bool_decide (user_id ≠ OPTIONS_CHALLENGE)));;
  assert (bool_decide (NoDup ids))).
Definition json_shape_is_public_key_envelope_with_base64url : bool := passes (
  o ← creation;
  let v := creation_options_to_json o in
  assert_keys v ["publicKey"];;
  let pk := public_key v in
  assert_keys pk ["attestation"; "authenticatorSelection"; "challenge"; "extensions";
    "pubKeyCredParams"; "rp"; "user"];;
  assert_value (member "rp" pk) (json_object [("id", JString RP); ("name", JString "inblock.io")]);;
  assert_keys (member "user" pk) ["displayName"; "id"; "name"];;
  assert_eq (text (member "name" (member "user" pk))) PASSKEY_USER_NAME;;
  assert_eq (text (member "displayName" (member "user" pk))) PASSKEY_USER_NAME;;
  assert (is_b64url_text (member "challenge" pk));;
  challenge ← unb64 (text (member "challenge" pk));
  assert_eq challenge OPTIONS_CHALLENGE;;
  assert (is_b64url_text (member "id" (member "user" pk)));;
  let r := request_options RP OPTIONS_CHALLENGE [as_bytes "cred"] in
  let rv := request_options_to_json r in
  assert_keys rv ["publicKey"];;
  assert_keys (public_key rv) ["allowCredentials"; "challenge"; "rpId"; "userVerification"];;
  back ← unwrap_some (creation_options_of_json v);
  assert_value (creation_options_to_json back) v;;
  back ← unwrap_some (request_options_of_json rv);
  assert_value (request_options_to_json back) rv).
Definition request_options_with_and_without_allow_credentials : bool := passes (
  let none := request_options RP (as_bytes "any length challenge") [] in
  assert (bool_decide (length (pq_allow_credentials (ro_public_key none)) = 0));;
  assert_value (request_options_to_json none) (json_object [("publicKey", json_object [
    ("challenge", JString (b64 (as_bytes "any length challenge"))); ("rpId", JString RP);
    ("userVerification", JString "required")])]);;
  let short := [Byte.x01; Byte.x02; Byte.x03] in
  let long := replicate 16 Byte.xff in
  let descriptor id := json_object [("type", JString "public-key"); ("id", JString (b64 id))] in
  assert_value (request_options_to_json (request_options RP OPTIONS_CHALLENGE [short; long]))
    (json_object [("publicKey", json_object [
      ("challenge", JString (b64 OPTIONS_CHALLENGE)); ("rpId", JString RP);
      ("allowCredentials", JArray [descriptor short; descriptor long]);
      ("userVerification", JString "required")])])).

Definition options_tests : list bool := [
  creation_options_es256_only; creation_options_resident_key_and_uv_required;
  creation_user_id_is_32_random_bytes_and_fresh_per_call;
  json_shape_is_public_key_envelope_with_base64url;
  request_options_with_and_without_allow_credentials].
Example options_tests_pass : forallb id options_tests = true.
Proof. vm_refl. Qed.
End OptionsTests.

(** ** src/webauthn.rs *)

Module WebauthnTests.
Import RecoverTests.
Definition TEST_RP_ID : string := "auth.example.com".
Definition TEST_ORIGIN : string := "https://auth.example.com".
Definition random_key {St} : Test St Curve.signing :=
  b ← random_bytes; mret (Curve.bytes_N b, false).
Definition build_assertion (key : Curve.signing) (challenge : bytes) (origin rp_id : string)
  : bytes * bytes * bytes :=
  let authenticator_data := sha256 (as_bytes rp_id)
    ++ [Byte.x05; Byte.x00; Byte.x00; Byte.x00; Byte.x01] in
  let client_data_bytes := as_bytes (write_json (json_object [
    ("type", JString "webauthn.get"); ("challenge", JString (b64 challenge));
    ("origin", JString origin); ("crossOrigin", JBool false)])) in
  (authenticator_data, client_data_bytes,
   Curve.to_bytes (Curve.sign key (authenticator_data ++ sha256 client_data_bytes))).
(** What a test changes of the parameters of an assertion for [challenge]. *)
Definition outcome {St} (change : WebAuthnAssertionParams → WebAuthnAssertionParams)
    (challenge : string) : Test St (result bool CryptoError) :=
  key ← random_key;
  let challenge := as_bytes challenge in
  let '(ad, cdj, sig) := build_assertion key challenge TEST_ORIGIN TEST_RP_ID in
  mret (verify_webauthn_assertion (change {|
    wp_credential_public_key := key_bytes (Curve.public key); wp_authenticator_data := ad;
    wp_client_data_json := cdj; wp_signature := sig; wp_expected_challenge := challenge;
    wp_expected_origin := TEST_ORIGIN; wp_expected_rp_id := TEST_RP_ID |})).
Definition expecting (challenge : option bytes) (origin rp_id : option string)
    (p : WebAuthnAssertionParams) : WebAuthnAssertionParams := {|
  wp_credential_public_key := wp_credential_public_key p;
  wp_authenticator_data := wp_authenticator_data p; wp_client_data_json := wp_client_data_json p;
  wp_signature := wp_signature p;
  wp_expected_challenge := default (wp_expected_challenge p) challenge;
  wp_expected_origin := default (wp_expected_origin p) origin;
  wp_expected_rp_id := default (wp_expected_rp_id p) rp_id |}.
Definition signed_as (sig : bytes → bytes) (cdj : option bytes) (p : WebAuthnAssertionParams)
  : WebAuthnAssertionParams := {|
  wp_credential_public_key := wp_credential_public_key p;
  wp_authenticator_data := wp_authenticator_data p;
  wp_client_data_json := default (wp_client_data_json p) cdj;
  wp_signature := sig (wp_signature p); wp_expected_challenge := wp_expected_challenge p;
  wp_expected_origin := wp_expected_origin p; wp_expected_rp_id := wp_expected_rp_id p |}.
Definition rejected_as {St} (r : result bool CryptoError) (why : string) : Test St unit :=
  err ← unwrap_err r; assert (contains why (crypto_error_display err)).

Definition valid_assertion_passes : bool := passes (
  r ← outcome id "random-challenge-bytes-1234"; assert_true r).
Definition wrong_origin_rejected : bool := passes (
  r ← outcome (expecting None (Some "https://evil.example.com") None) "test-challenge";
  rejected_as r "origin mismatch").
Definition wrong_rp_id_rejected : bool := passes (
  r ← outcome (expecting None None (Some "evil.example.com")) "test-challenge";
  rejected_as r "rpIdHash mismatch").
Definition wrong_challenge_rejected : bool := passes (
  r ← outcome (expecting (Some (as_bytes "wrong-challenge")) None None) "correct-challenge";
  rejected_as r "challenge mismatch").
Definition invalid_signature_length_rejected : bool := passes (
  r ← outcome (signed_as (λ _, replicate 63 Byte.x00) None) "test-challenge";
  rejected_as r "signature must be 64 bytes").
Definition malformed_client_data_json_rejected : bool := passes (
  r ← outcome (signed_as id (Some (as_bytes "this is not valid json{{{"))) "test-challenge";
  rejected_as r "invalid clientDataJSON").
Definition tampered_signature_returns_false : bool := passes (
  let flip sig := map (λ b, byte_of (N.lxor (byte_N b) 255)) (take 1 sig) ++ drop 1 sig in
  r ← outcome (signed_as flip None) "test-challenge";
  assert (match r with Ok valid => negb valid | Err _ => true end)).

Definition webauthn_tests : list bool := [
  valid_assertion_passes; wrong_origin_rejected; wrong_rp_id_rejected; wrong_challenge_rejected;
  invalid_signature_length_rejected; malformed_client_data_json_rejected;
  tampered_signature_returns_false].
Example webauthn_tests_pass : forallb id webauthn_tests = true.
Proof. vm_refl. Qed.
End WebauthnTests.

(** ** src/webauthn_testkit.rs *)

Module TestkitTests.
Import RecoverTests SelectTests OptionsTests.
Definition testkit_policy {St} (require_uv : bool) : Test St AssertionPolicy :=
  b ← unwrap (rp (set_require_uv builder require_uv) RP [ORIGIN]); unwrap (build b).
Definition verify_with {St} (a : AssertionJson) (challenge : bytes) (require_uv : bool)
  : Test St Verdict := p ← testkit_policy require_uv; mret (verify_and_recover a (Exact challenge) p).
Definition testkit_verify {St} (a : AssertionJson) : Test St Verdict := verify_with a CHALLENGE true.
Definition names_a_candidate (rec : RecoveredAssertion) (did : string) : bool :=
  String.eqb (candidate_dids rec).1 did || String.eqb (candidate_dids rec).2 did.

Definition seeded_passkey_is_deterministic : bool := passes (
  let a := new_seeded 1 RP in let b := new_seeded 1 RP in let c := new_seeded 2 RP in
  assert (same_key (verifying_key a) (verifying_key b));;
  assert_eq (soft_did a, sp_credential_id a, sp_user_handle a)
    (soft_did b, sp_credential_id b, sp_user_handle b);;
  assert (negb (String.eqb (soft_did a) (soft_did c)));;
  assert (negb (bytes_eqb (sp_credential_id a) (sp_credential_id c)));;
  assert (bool_decide (sp_user_handle a ≠ sp_user_handle c));;
  assert_eq (length (sp_credential_id a)) 16;;
  assert_eq (length <$> sp_user_handle a) (Some 32);;
  assert_eq (sp_rp_id a) RP;;
  assert (starts_with "did:key:zDn" (soft_did a));;
  assert (same_key (verifying_key a) (Curve.public (Curve.random_signing (1, 0)%N).2))).
Definition default_assertion_is_browser_shaped_and_recovers_signer : bool := passes (
  let pk := new_seeded 3 RP in
  let a := soft_assert pk (assert_opts CHALLENGE ORIGIN) in
  assert_eq (aj_type a) "public-key";;
  assert_eq (aj_id a) (aj_raw_id a);;
  raw_id ← unb64 (aj_raw_id a); assert_eq raw_id (sp_credential_id pk);;
  cdj ← unb64 (ar_client_data_json (aj_response a));
  assert_eq cdj (as_bytes ("{" +:+ m "type" "webauthn.get" +:+ "," +:+ m "challenge" (b64 CHALLENGE)
    +:+ "," +:+ m "origin" ORIGIN +:+ cross_origin "false" +:+ "}"));;
  ad ← unb64 (ar_authenticator_data (aj_response a));
  assert_eq ad (sha256 (as_bytes RP) ++ [Byte.x05; Byte.x00; Byte.x00; Byte.x00; Byte.x00]);;
  handle ← unwrap_some (ar_user_handle (aj_response a)); handle ← unb64 handle;
  assert_eq (Some handle) (sp_user_handle pk);;
  der ← unb64 (ar_signature (aj_response a)); sig ← unwrap (Curve.from_der der);
  assert (is_none (Curve.normalize sig));;
  r ← testkit_verify a; rec ← unwrap r;
  assert (names_a_candidate rec (soft_did pk));;
  assert (ra_user_verified rec);;
  assert_eq (ra_credential_id rec) (sp_credential_id pk)).
Definition at_origin (o : AssertOpts) (challenge : bytes) (origin : string) : AssertOpts := {|
  ao_challenge := challenge; ao_origin := origin; ao_flags := ao_flags o;
  ao_cross_origin := ao_cross_origin o; ao_rp_id_override := ao_rp_id_override o;
  ao_type := ao_type o; ao_high_s := ao_high_s o |}.
Definition assert_knobs_each_trip_one_check : bool := passes (
  let pk := new_seeded 4 RP in
  let base := assert_opts CHALLENGE ORIGIN in
  r ← testkit_verify (soft_assert pk base); assert_ok r;;
  each [(with_flags base Byte.x01, UserVerificationMissing);
    (with_flags base Byte.x04, UserPresenceMissing);
    (with_cross_origin base (Some true), CrossOrigin);
    (with_rp_id base "evil.io", RpIdNotAllowed);
    (with_type base "webauthn.create", WrongType);
    (at_origin base CHALLENGE "https://evil.local.inblock.io:8443", OriginNotAllowed);
    (at_origin base (as_bytes "another") ORIGIN, ChallengeMismatch)] (λ knob,
    r ← testkit_verify (soft_assert pk knob.1); assert_refused r knob.2);;
  let a := soft_assert pk (with_cross_origin base None) in
  cdj ← unb64 (ar_client_data_json (aj_response a));
  assert (negb (contains "crossOrigin" (String.string_of_list_byte cdj)));;
  r ← testkit_verify a; assert_ok r;;
  r ← verify_with (soft_assert pk (with_flags base Byte.x01)) CHALLENGE false;
  rec ← unwrap r; assert (negb (ra_user_verified rec))).
Definition high_s_round {St} (seed : Z) : Test St unit :=
  let pk := new_seeded seed RP in
  let challenge := sha256 (byte_of <$> be_bytes 8 (Z.to_N seed)) in
  let low := soft_assert pk (assert_opts challenge ORIGIN) in
  let high := soft_assert pk (with_high_s (assert_opts challenge ORIGIN) true) in
  low_der ← unb64 (ar_signature (aj_response low)); low_sig ← unwrap (Curve.from_der low_der);
  high_der ← unb64 (ar_signature (aj_response high)); high_sig ← unwrap (Curve.from_der high_der);
  assert (is_none (Curve.normalize low_sig));;
  assert_eq (Curve.normalize high_sig) (Some low_sig);;
  each [low; high] (λ a,
    r ← verify_with a challenge true; rec ← unwrap r; assert (names_a_candidate rec (soft_did pk))).
Definition high_s_knob_flips_s_and_keeps_signer : bool :=
  passes (each (Z.of_nat <$> seq 0 SEEDS) high_s_round).
Definition spki_der_names_the_same_did : bool := passes (
  let pk := new_seeded 5 RP in
  let spki := spki_der pk in
  assert_eq (length spki) 91;;
  assert_eq (hex_encode (take 27 spki)) "3059301306072a8648ce3d020106082a8648ce3d03010703420004";;
  let k := verifying_key pk in
  assert_eq (drop 26 spki) (Byte.x04 :: p256_x k ++ p256_y k);;
  h ← unwrap (hint_from_spki_der spki); assert_eq (dh_did h) (soft_did pk)).
Definition attestation_none_has_registration_response_json_shape : bool := passes (
  let pk := new_seeded 6 RP in
  v ← returned (attestation_none pk CHALLENGE ORIGIN);
  let response := member "response" v in
  raw_id ← unb64 (text (member "id" v)); assert_eq raw_id (sp_credential_id pk);;
  assert_eq (text (member "rawId" v)) (text (member "id" v));;
  assert_eq (text (member "type" v)) "public-key";;
  assert_value (member "publicKeyAlgorithm" response) (JNumber "-7");;
  public ← unb64 (text (member "publicKey" response)); assert_eq public (spki_der pk);;
  cdj ← unb64 (text (member "clientDataJSON" response)); cdj ← unwrap (json_document cdj);
  assert_value cdj (json_object [("type", JString "webauthn.create");
    ("challenge", JString (b64 CHALLENGE)); ("origin", JString ORIGIN);
    ("crossOrigin", JBool false)]);;
  let k := verifying_key pk in
  let ad := sha256 (as_bytes RP) ++ [Byte.x45] ++ replicate 4 Byte.x00 ++ replicate 16 Byte.x00
    ++ [Byte.x00; Byte.x10] ++ sp_credential_id pk
    ++ [Byte.xa5; Byte.x01; Byte.x02; Byte.x03; Byte.x26; Byte.x20; Byte.x01; Byte.x21; Byte.x58;
        Byte.x20] ++ p256_x k ++ [Byte.x22; Byte.x58; Byte.x20] ++ p256_y k in
  data ← unb64 (text (member "authenticatorData" response)); assert_eq data ad;;
  object ← unb64 (text (member "attestationObject" response));
  assert_eq object ([Byte.xa3; Byte.x63] ++ as_bytes "fmt" ++ [Byte.x64] ++ as_bytes "none"
    ++ [Byte.x67] ++ as_bytes "attStmt" ++ [Byte.xa0; Byte.x68] ++ as_bytes "authData"
    ++ [Byte.x58; byte_of (N.of_nat (length ad))] ++ ad);;
  assert_value (member "rk" (member "credProps" (member "clientExtensionResults" v))) (JBool true);;
  assert (is_none (assertion_of_json v))).

Definition testkit_tests : list bool := [
  seeded_passkey_is_deterministic; default_assertion_is_browser_shaped_and_recovers_signer;
  assert_knobs_each_trip_one_check; high_s_knob_flips_s_and_keeps_signer;
  spki_der_names_the_same_did; attestation_none_has_registration_response_json_shape].
Example testkit_tests_pass : forallb id testkit_tests = true.
Proof. vm_refl. Qed.
End TestkitTests.

(** ** src/webauthn_ceremony.rs, and the agreement test of src/did.rs *)

Module CeremonyTests.
Definition did_key_derivation_has_p256_prefix : bool := passes (
  assert (starts_with "did:key:zDn" (did_key_from_p256_compressed (replicate 33 Byte.x02)))).
Definition user_handle_is_stable_and_32_bytes : bool := passes (
  let a := user_handle_for "did:key:zDnFoo" in
  let b := user_handle_for "did:key:zDnFoo" in
  let c := user_handle_for "did:key:zDnBar" in
  assert_eq a b;;
  assert (negb (bytes_eqb a c));;
  assert_eq (length a) 32).
Definition ceremony_helper_agrees_with_the_shared_encoder : bool := passes (
  let p := replicate 33 Byte.x03 in
  assert_eq (did_key_from_p256_compressed p) (p256_did_key_from_pubkey p)).

Definition ceremony_tests : list bool := [
  did_key_derivation_has_p256_prefix; user_handle_is_stable_and_32_bytes;
  ceremony_helper_agrees_with_the_shared_encoder].
Example ceremony_tests_pass : forallb id ceremony_tests = true.
Proof. vm_refl. Qed.
End CeremonyTests.
